(* ===== verification/_CoqProject ===== *)
-Q . S2P
Prelude.v
Bitmap.v
BitmapBuf.v
Block.v
Store.v
Cache.v
FsState.v
Inode.v
FileData.v
FreeMap.v
FileProps.v
Dealloc.v
Grow.v
CString.v
Debug.v
Files.v
FilesProps.v
Directory.v
DemoDisk.v
Extend.v
Partition.v
DirectoryProps.v
DirectoryRemove.v
FileSys.v
PathProps.v
FileSysProps.v
Format.v
NewFile.v
VarSpec.v
Words.v
Console.v
A1Memory.v
A1Shell.v
A1ShellProps.v
ReadyQueue.v
FrameStore.v
Kernel2.v
Kernel2Props.v
A2Shell.v
A2ShellProps.v
LinkedList.v
A3Memory.v
Kernel3.v
Kernel3Props.v
Links.v
IntrusiveList.v
IntrusiveListProps.v
IntrusiveSort.v
FsUtil2.v
FsUtil2Props.v
RecoverProps.v
A3Shell.v
A3ShellProps.v
