(* ===== verification/Prelude.v ===== *)
(** * Verification of the COMP310 shells and file system

    The repository holds three programs, one per assignment: a shell with
    variables and scripts (src/a1), a shell that schedules scripts as
    processes over a paged frame store (src/a2), and the same on another
    code base together with a small file system on a disk image
    (src/a3, src/a3/fs).  This library models their own logic in the order
    below and proves what the code does, its faults included.

    ** Method

    C code is a shallow embedding in the monad [M S A] of this file: a
    state of type [S] is passed through, and running a piece of code gives
    an [outcome]: a value with the state left and the events printed;
    [Exit] for exit(code); [Stuck] for undefined behaviour (access out of
    bounds, use of NULL, of freed memory or of a value never set); or
    [NoFuel] when the fuel of a loop ran out.  Integers are [Z]; a
    conversion to a machine type is written out ([u8], [u32], [u64],
    [i32]).  Counting loops are [for_] and its variants, and take their
    bound from the code; other loops are [while_] with fuel.  ASSERT and
    PANIC print a message and go on, as debug_panic of src/a3/fs/debug.c
    does.  Every definition is executable.

    [wp m Q s] says that from [s] the code [m] returns (no undefined
    behaviour, no exit, fuel enough), prints nothing, and that its value
    and final state satisfy [Q]: total correctness; [wpt m Q s] does the
    same for code that prints, and gives [Q] the events.  The lemmas named
    [_wp] and [_wpt] state what each operation does; [wp_steps] runs
    straight-line code.  malloc is taken to succeed, and addresses are never given out
    twice, so that a use after free is an access to an absent object.
    Integer variables of the code that only count (times, pids, sizes of
    scripts) are not wrapped.

    ** The file system (src/a3/fs)

    - Bitmap.v (bitmap.c): bits packed in 64-bit words.  Refinement of
      lists of booleans by any sequence of calls; a successful
      scan_and_flip removes exactly [cnt] bits from the count.
      BitmapBuf.v: a bitmap in or from a buffer, bit by bit.
    - Block.v (block.c, ide.c): sectors of the disk file, with the 32-bit
      byte offset of the driver: beyond 4 GiB sectors alias.
    - Store.v: the class [BlockStore], what the buffer cache promises.
    - Cache.v (cache.c): 64 entries and the clock algorithm.  A session on
      the cache behaves as a plain array of sectors and leaves it on the
      device; eviction ends within 65 turns (fuel [evict_fuel]: a full
      turn clears every access bit).  Provides [BlockStore].
    - FsState.v (inode.h, file.h, directory.h): on-disk inode with its byte
      layout and round trips, in-memory objects, the global state.
    - Inode.v (inode.c, free-map.c): all operations, over any
      [BlockStore].  inode_write_at and free_map_allocate call each other;
      the knot is tied with fuel 3: a write, the write of the free map's
      file that its allocations cause, and one level to spare, since that
      file never grows.  The transfer loops have one turn per sector.
    - FileData.v: the contents of a file, and inode_read_at and
      inode_write_at on it.  FreeMap.v (free-map.c): the bitmap in memory
      and its file stay equal.  FileProps.v: the properties of the three,
      with witnesses on a file system behind the cache, and two faults:
      closing an inode that was opened twice, and extending a file on a
      full disk.  Dealloc.v: inode_deallocate releases each sector of a
      file once.
    - Grow.v: the tree of sectors below an entry of an inode, and what
      inode_reserve_indirect adds to it.  Extend.v: writing at any offset
      of a file that can grow, with the exact cost in sectors
      ([sectors_for], indirect blocks included).
    - Files.v (file.c, the file of free-map.c): open files and their table.
      FilesProps.v: reading in pieces, the overlap of two writes, the table
      as a map, and the free map over a restart.
    - Directory.v (directory.c): entries of 36 bytes in a file, paths,
      removal.  DirectoryProps.v: a directory refines a finite map from
      names to sectors ([dir_map]) under any sequence of searches and
      additions.  DirectoryRemove.v: removing a file gives its sectors
      back; removing a directory uses a freed inode.  A walk of a
      directory has one turn for each entry its length allows, and one
      for the end.
    - FileSys.v (filesys.c, fsutil.c): format, create, open, remove and the
      file commands, over the class [CacheControl] (start and end of the
      cache), which the cache provides.  PathProps.v: how a path is split,
      and the buffers one byte short.  FileSysProps.v: the invariant
      [mounted] of a running file system; creating a file and opening it.
      Format.v: formatting any disk of at most 246 MB, the part of it
      before the free map has a file included, establishes [mounted].
      NewFile.v: creating a file, writing it and reading it back, from
      [mounted] to [mounted].
    - FsUtil2.v (fsutil2.c): copying to and from the host, searching in
      files, measuring and undoing fragmentation, and the three kinds of
      recovery.  The files of the host are a parameter.  FsUtil2Props.v:
      the fragmentation test of a file against its specification, and why
      a second search fails.  RecoverProps.v: what recovery writes to the
      host, kind by kind, and what it does when the host refuses a file.
    - Debug.v (debug.c): the hex dump, which ends on any bytes.
    - DemoDisk.v: a small disk image, on which the witnesses run.
    - Partition.v (partition.c, block_register of block.c, ide_init of
      ide.c): the start-up scan for partitions, which finds none on a
      formatted disk; what it does on other disks, and why it does not end
      on one with an extended partition (the fuel bounds the depth of the
      recursion).
    - Links.v, IntrusiveList.v (list.c): the doubly linked list with its
      two headers in a heap of links; [dll h l xs] relates it to the
      sequence [xs].  IntrusiveListProps.v: refinement of sequences by any
      calls.  IntrusiveSort.v: list_sort ends, sorts and is stable, and
      list_insert_ordered, list_unique, list_max and list_min.  A walk has
      as fuel the number of links in the heap, list_sort one pass more.

    ** The shells

    - CString.v, Words.v: strings, fgets and files of the C library; the
      word-copying loop of the parsers.
    - Console.v: the main loop of the three shells; a script on stdin is
      executed line by line, whatever follows, and at its end the shell is
      at the terminal.  The loop
      has no end, so the model takes the number of its turns.
    - VarSpec.v: the specification of a variable memory, which A1Memory.v,
      FrameStore.v and A3Memory.v implement.
    - A1Memory.v, A1Shell.v (src/a1): variables, parser and commands.  The
      operating system's calls are parameters of the model.  parseInput
      has fuel for the nesting of run and if.  A1ShellProps.v: the whole
      shell on a script of set and print commands refines a finite map.
    - ReadyQueue.v (pcb.c, ready_queue.c of src/a2): the queue of nodes in
      a heap; [queue s l] relates it to the sequence [l].
    - FrameStore.v (shellmemory.c of src/a2): paging and replacement.
    - Kernel2.v (kernel.c, and two functions of shell.c, of src/a2): the
      processes and the five policies; SJF loses a process that page
      faults.  Executing a line is a parameter.
    - Kernel2Props.v: what round robin and first come first served do with
      processes whose lines are in memory: the order of the lines run, and
      that every process ends.  [fuel] must exceed the number of turns and
      the length of each process.
    - A2Shell.v (interpreter.c, main and parseInput of shell.c, of src/a2):
      the commands and the parser, which call the scheduler, which calls
      the parser for every line: the knot is tied with fuel for this
      nesting.  A2ShellProps.v: a line of commands is executed command by
      command; a semicolon of its own hangs the parser; variables through
      the whole shell; and scripts of echo lines run by the scheduler with
      the real parser in place of the parameter of Kernel2.v.
    - LinkedList.v (linked_list.c of src/a3): refinement of sequences by
      any sequence of operations.
    - A3Memory.v (shellmemory.c of src/a3), Kernel3.v (pcb.c, cpu.c,
      kernel.c of src/a3): frame allocation, variables, demand paging.
      Kernel3Props.v: loading and evicting a page and freeing a process in
      any state.  Executing a line is a parameter, and the state has room
      for that of the code that does it.  The walks of a list have as fuel
      the number of nodes in the heap; the schedulers take theirs as an
      argument.
    - A3Shell.v (interpreter.c and shell.c of src/a3): the commands, the
      parser and main, over Kernel3.v, A3Memory.v, FileSys.v and FsUtil2.v:
      the state of the kernel is extended by the file system and by the
      place where strtok goes on.  parseInput has fuel for the nesting of
      run and exec.  A3ShellProps.v: the words of a token and the commands
      of a line against a reference, for all commands but run and exec;
      variables through the whole shell; what nested calls of strtok do to
      a line; and when the array of run overflows.

    ** Not modelled

    Every source file of the three programs is modelled.  Left out of
    what the models say are: what the operating system does behind its
    calls (parameters), allocation failures, the addresses that malloc
    gives, NUL bytes in the input of the shells, sizes so near to 2^31 that
    bytes_to_sectors overflows, and scripts that change the file they are
    read from. *)
From stdpp Require Export base tactics list list_numbers gmap strings pretty.
From Stdlib Require Export ZArith Lia.

#[global] Open Scope Z_scope.
#[global] Set Default Proof Using "Type".

(* ------------------------------------------------------------------ *)
(** ** Machine integers                                                *)
(* ------------------------------------------------------------------ *)

(** Values of the C integer types are [Z]; a conversion to a [w]-bit type
    is written out as a reduction modulo [2^w]. *)
Definition u8 (z : Z) : Z := z mod 2 ^ 8.
Definition u32 (z : Z) : Z := z mod 2 ^ 32.
Definition u64 (z : Z) : Z := z mod 2 ^ 64.
Definition i32 (z : Z) : Z := (z + 2 ^ 31) mod 2 ^ 32 - 2 ^ 31.

(** round.h, for non-negative [x] and positive [step]; the sum is an
    unsigned 64-bit one in every use of the code. *)
Definition DIV_ROUND_UP (x step : Z) : Z := u64 (x + step - 1) / step.

Definition is_u8 (z : Z) : Prop := 0 <= z < 256.

(* ------------------------------------------------------------------ *)
(** ** Arrays: lists indexed by [Z]                                    *)
(* ------------------------------------------------------------------ *)

Abbreviation zlen l := (Z.of_nat (length l)).

Section arrays.
Context {A : Type}.
Implicit Types l k d : list A.

(** Reading [l[i]]: [None] out of range. *)
Definition zget l (i : Z) : option A :=
  if bool_decide (0 <= i) then l !! Z.to_nat i else None.
(** Writing [l[i] = x]: [None] out of range. *)
Definition zset l (i : Z) (x : A) : option (list A) :=
  if bool_decide (0 <= i < zlen l) then Some (<[Z.to_nat i := x]> l) else None.
(** The [n] elements from [off]. *)
Definition slice l (off n : Z) : list A :=
  take (Z.to_nat n) (drop (Z.to_nat off) l).
(** [memcpy(l + off, d, length d)]. *)
Definition splice l (off : Z) d : list A :=
  take (Z.to_nat off) l ++ d ++ drop (Z.to_nat (off + zlen d)) l.

Lemma zlen_app l k : zlen (l ++ k) = zlen l + zlen k.
Proof. rewrite length_app. lia. Qed.
Lemma zlen_cons x l : zlen (x :: l) = 1 + zlen l.
Proof. simpl. lia. Qed.
Lemma zlen_nil : zlen (@nil A) = 0.
Proof. done. Qed.

Lemma zget_lookup l i : 0 <= i -> zget l i = l !! Z.to_nat i.
Proof. intros. unfold zget. by rewrite bool_decide_eq_true_2. Qed.
Lemma zget_neg l i : i < 0 -> zget l i = None.
Proof. intros. unfold zget. rewrite bool_decide_eq_false_2; [done|lia]. Qed.
Lemma zget_is_Some l i : is_Some (zget l i) <-> 0 <= i < zlen l.
Proof.
  unfold zget. case_bool_decide.
  - rewrite lookup_lt_is_Some. lia.
  - rewrite is_Some_alt. lia.
Qed.
Lemma zget_None l i : zget l i = None <-> ~ (0 <= i < zlen l).
Proof. rewrite <- zget_is_Some, is_Some_alt. destruct (zget l i); naive_solver. Qed.
Lemma zget_range l i x : zget l i = Some x -> 0 <= i < zlen l.
Proof. intros H. apply zget_is_Some. eauto. Qed.
Lemma zget_ex l i : 0 <= i < zlen l -> exists x, zget l i = Some x.
Proof. intros H. by apply zget_is_Some. Qed.
Lemma zget_elem l i x : zget l i = Some x -> x ∈ l.
Proof.
  intros H. pose proof (zget_range _ _ _ H). rewrite zget_lookup in H by lia.
  by eapply list_elem_of_lookup_2.
Qed.
Lemma elem_zget l x : x ∈ l -> exists i, zget l i = Some x.
Proof.
  intros [i Hi]%list_elem_of_lookup. exists (Z.of_nat i).
  rewrite zget_lookup by lia. by rewrite Nat2Z.id.
Qed.
Lemma zget_app l k i :
  zget (l ++ k) i = if bool_decide (i < zlen l) then zget l i else zget k (i - zlen l).
Proof.
  destruct (decide (i < 0)).
  { rewrite !zget_neg by lia. by case_bool_decide. }
  case_bool_decide.
  - rewrite !zget_lookup by lia. apply lookup_app_l. lia.
  - rewrite !zget_lookup by lia. rewrite lookup_app_r by lia. f_equal. lia.
Qed.
Lemma zlist_eq l k : (forall i, zget l i = zget k i) -> l = k.
Proof.
  intros H. apply list_eq. intros i. specialize (H (Z.of_nat i)).
  rewrite !zget_lookup, !Nat2Z.id in H by lia. done.
Qed.
Lemma zlist_eq_range l k :
  zlen l = zlen k -> (forall i, 0 <= i < zlen l -> zget l i = zget k i) -> l = k.
Proof.
  intros Hl H. apply zlist_eq. intros i. destruct (decide (0 <= i < zlen l)); [auto|].
  transitivity (@None A); [by apply zget_None|]. symmetry. apply zget_None. by rewrite <- Hl.
Qed.

Lemma zset_Some l i x : 0 <= i < zlen l -> zset l i x = Some (<[Z.to_nat i := x]> l).
Proof. intros. unfold zset. by rewrite bool_decide_eq_true_2. Qed.
Lemma zset_ex l i x : 0 <= i < zlen l -> exists l', zset l i x = Some l'.
Proof. intros. rewrite zset_Some; eauto. Qed.
Lemma zset_inv l i x l' :
  zset l i x = Some l' -> 0 <= i < zlen l /\ zlen l' = zlen l /\
  forall j, zget l' j = if bool_decide (j = i) then Some x else zget l j.
Proof.
  unfold zset. case_bool_decide as Hi; [|done]. intros [= <-]. split; [done|].
  split; [by rewrite length_insert|]. intros j.
  destruct (decide (j < 0)).
  { rewrite !zget_neg by lia. by rewrite bool_decide_eq_false_2 by lia. }
  rewrite !zget_lookup by lia. case_bool_decide as Hj.
  - subst. apply list_lookup_insert_eq. lia.
  - apply list_lookup_insert_ne. lia.
Qed.

Lemma zget_slice l off n i :
  0 <= off -> 0 <= i < n -> zget (slice l off n) i = zget l (off + i).
Proof.
  intros. rewrite !zget_lookup by lia. unfold slice.
  rewrite lookup_take_lt, lookup_drop by lia. f_equal. lia.
Qed.
Lemma zlen_slice l off n :
  0 <= off -> 0 <= n -> off + n <= zlen l -> zlen (slice l off n) = n.
Proof. unfold slice. intros. rewrite length_take, length_drop. lia. Qed.
Lemma zlen_slice_le l off n : 0 <= n -> zlen (slice l off n) <= n.
Proof. unfold slice. intros. rewrite length_take, length_drop. lia. Qed.
Lemma zlen_slice_min l off n :
  0 <= off -> zlen (slice l off n) = Z.max 0 (Z.min n (zlen l - off)).
Proof. unfold slice. intros. rewrite length_take, length_drop. lia. Qed.
Lemma slice_all l : slice l 0 (zlen l) = l.
Proof. unfold slice. rewrite drop_0. apply take_ge. lia. Qed.

Lemma zlen_splice l off d :
  0 <= off -> off + zlen d <= zlen l -> zlen (splice l off d) = zlen l.
Proof.
  unfold splice. intros. rewrite !length_app, length_take, length_drop. lia.
Qed.
Lemma zget_splice l off d i :
  0 <= off -> off + zlen d <= zlen l ->
  zget (splice l off d) i =
  if bool_decide (off <= i < off + zlen d) then zget d (i - off) else zget l i.
Proof.
  intros. destruct (decide (i < 0)).
  { rewrite !zget_neg by lia. by rewrite bool_decide_eq_false_2 by lia. }
  unfold splice. rewrite !zget_app.
  assert (zlen (take (Z.to_nat off) l) = off) as ->.
  { rewrite length_take. lia. }
  case_bool_decide as H1.
  - rewrite bool_decide_eq_false_2 by lia. rewrite !zget_lookup by lia.
    apply lookup_take_lt. lia.
  - case_bool_decide as H2; [rewrite bool_decide_eq_true_2 by lia; done|].
    rewrite bool_decide_eq_false_2 by lia. rewrite !zget_lookup by lia.
    rewrite lookup_drop. f_equal. lia.
Qed.
Lemma splice_nil l off : 0 <= off <= zlen l -> splice l off [] = l.
Proof.
  intros. apply zlist_eq. intros i. rewrite zget_splice; rewrite ?zlen_nil; [|lia..].
  by rewrite bool_decide_eq_false_2 by lia.
Qed.
Lemma splice_all l d : zlen d = zlen l -> splice l 0 d = d.
Proof.
  intros E. apply zlist_eq_range; [rewrite zlen_splice; lia|].
  rewrite zlen_splice by lia. intros i Hi. rewrite zget_splice by lia.
  rewrite bool_decide_eq_true_2 by lia. f_equal. lia.
Qed.
Lemma take_splice l off d n : 0 <= off -> off + zlen d <= n -> n <= zlen l ->
  take (Z.to_nat n) (splice l off d) = splice (take (Z.to_nat n) l) off d.
Proof.
  intros. apply zlist_eq_range; [rewrite zlen_splice, !length_take by (rewrite ?length_take; lia);
    pose proof (zlen_splice l off d); lia|]. intros i Hi.
  rewrite zget_splice by (rewrite ?length_take; lia). rewrite length_take in Hi.
  assert (forall k, zget (take (Z.to_nat n) k) i = zget k i) as E.
  { intros k. rewrite !zget_lookup by lia. apply lookup_take_lt. lia. }
  rewrite !E, zget_splice by lia. done.
Qed.
Lemma splice_splice l off d1 d2 :
  0 <= off -> off + zlen d1 + zlen d2 <= zlen l ->
  splice (splice l off d1) (off + zlen d1) d2 = splice l off (d1 ++ d2).
Proof.
  intros. apply zlist_eq. intros i. pose proof (length_app d1 d2).
  rewrite !zget_splice by (rewrite ?zlen_splice; lia). rewrite zget_app.
  repeat case_bool_decide; try lia; try done. f_equal. lia.
Qed.
Lemma NoDup_zget l i j x : NoDup l -> zget l i = Some x -> zget l j = Some x -> i = j.
Proof.
  intros Hn Hi Hj. pose proof (zget_range _ _ _ Hi). pose proof (zget_range _ _ _ Hj).
  rewrite zget_lookup in Hi, Hj by lia. pose proof (NoDup_lookup _ _ _ _ Hn Hi Hj). lia.
Qed.
(** The place of an element of a list without duplicates is unique. *)
Lemma app_cons_unique l1 l2 k1 k2 x :
  NoDup (l1 ++ x :: l2) -> l1 ++ x :: l2 = k1 ++ x :: k2 -> l1 = k1 /\ l2 = k2.
Proof.
  revert k1. induction l1 as [|y l1 IH]; intros [|z k1]; simpl; intros Hn E.
  - injection E as ->. done.
  - injection E as -> ->. apply NoDup_cons in Hn as [Hn _]. set_solver.
  - injection E as -> <-. apply NoDup_cons in Hn as [Hn _]. set_solver.
  - injection E as -> E. apply NoDup_cons in Hn as [_ Hn]. destruct (IH k1 Hn E) as [-> ->]. done.
Qed.
Lemma Forall_zget (P : A -> Prop) l i x : Forall P l -> zget l i = Some x -> P x.
Proof. rewrite Forall_forall. intros H Hx. by eapply H, zget_elem. Qed.

Lemma Forall_splice (P : A -> Prop) l off d :
  Forall P l -> Forall P d -> Forall P (splice l off d).
Proof.
  intros. unfold splice. rewrite !Forall_app.
  split; [by apply Forall_take|]. split; [done|by apply Forall_drop].
Qed.
Lemma Forall_slice (P : A -> Prop) l off n : Forall P l -> Forall P (slice l off n).
Proof. intros. by apply Forall_take, Forall_drop. Qed.

(** Consecutive slices, and slices that reach past the end. *)
Lemma slice_snoc l off n m :
  0 <= off -> 0 <= n -> 0 <= m -> slice l off n ++ slice l (off + n) m = slice l off (n + m).
Proof.
  intros. unfold slice. rewrite !Z2Nat.inj_add by lia.
  rewrite <- take_take_drop, drop_drop. done.
Qed.
Lemma slice_past l off n m :
  0 <= off -> 0 <= n -> zlen l <= off + n -> n <= m -> slice l off m = slice l off n.
Proof.
  intros. unfold slice. rewrite !take_ge; [done|rewrite length_drop; lia..].
Qed.
Lemma slice_0 l off : slice l off 0 = [].
Proof. done. Qed.
Lemma slice_slice l off n off' n' :
  0 <= off -> 0 <= off' -> 0 <= n' -> off' + n' <= n ->
  slice (slice l off n) off' n' = slice l (off + off') n'.
Proof.
  intros. unfold slice. rewrite Z2Nat.inj_add by lia. rewrite <- drop_drop.
  set (k := drop (Z.to_nat off) l). by rewrite !take_drop_commute, take_take, Nat.min_l by lia.
Qed.
End arrays.

(** Blocks of equal length put end to end. *)
Section blocks.
Context {A : Type}.
Lemma zget_concat (ls : list (list A)) w i :
  0 < w -> Forall (fun l => zlen l = w) ls -> 0 <= i ->
  zget (concat ls) i = l ← zget ls (i / w); zget l (i mod w).
Proof.
  intros Hw H. revert i. induction H as [|l ls Hl H IH]; intros i Hi; simpl.
  { rewrite !zget_lookup by (try apply Z.div_pos; lia). by rewrite !lookup_nil. }
  rewrite zget_app. case_bool_decide.
  - rewrite Z.div_small, Z.mod_small by lia. done.
  - assert (i / w = 1 + (i - zlen l) / w) as ->.
    { rewrite Hl. rewrite <- (Z.div_add_l 1 w) by lia. f_equal. lia. }
    assert (i mod w = (i - zlen l) mod w) as ->.
    { rewrite Hl. rewrite <- (Z.mod_add (i - w) 1 w) by lia. f_equal. lia. }
    assert (0 <= (i - zlen l) / w) by (apply Z.div_pos; lia).
    rewrite IH by lia. rewrite !zget_lookup by lia.
    by replace (Z.to_nat (1 + (i - zlen l) / w)) with (S (Z.to_nat ((i - zlen l) / w))) by lia.
Qed.
Lemma zlen_concat (ls : list (list A)) w :
  Forall (fun l => zlen l = w) ls -> zlen (concat ls) = w * zlen ls.
Proof. induction 1; simpl; [lia|]. rewrite length_app. lia. Qed.
End blocks.

(* ------------------------------------------------------------------ *)
(** ** Little-endian integers in memory                                *)
(* ------------------------------------------------------------------ *)

(** The [n] bytes of an unsigned integer, and the integer they hold. *)
Fixpoint le_bytes (n : nat) (z : Z) : list Z :=
  match n with
  | O => []
  | S n' => z mod 256 :: le_bytes n' (z / 256)
  end.
Fixpoint le_value (bs : list Z) : Z :=
  match bs with
  | [] => 0
  | b :: bs' => b + 256 * le_value bs'
  end.

Lemma length_le_bytes n z : length (le_bytes n z) = n.
Proof. revert z. induction n; intros z; simpl; auto. Qed.
Lemma le_bytes_u8 n z : Forall is_u8 (le_bytes n z).
Proof.
  revert z. induction n; intros z; simpl; constructor; [|done].
  apply Z.mod_pos_bound. lia.
Qed.
Lemma le_value_bytes n z : 0 <= z < 256 ^ Z.of_nat n -> le_value (le_bytes n z) = z.
Proof.
  revert z. induction n as [|n IH]; intros z Hz; simpl.
  - rewrite Z.pow_0_r in Hz. lia.
  - rewrite Nat2Z.inj_succ, Z.pow_succ_r in Hz by lia.
    rewrite IH by (split; [apply Z.div_pos; lia|apply Z.div_lt_upper_bound; lia]).
    pose proof (Z.div_mod z 256). lia.
Qed.
Lemma le_bytes_value bs : Forall is_u8 bs -> le_bytes (length bs) (le_value bs) = bs.
Proof.
  induction 1 as [|b bs Hb Hbs IH]; simpl; [done|]. unfold is_u8 in Hb.
  rewrite Z.mul_comm, Z.mod_add, Z.mod_small by lia. f_equal.
  rewrite Z.div_add, Z.div_small by lia. done.
Qed.
Lemma le_value_bound bs : Forall is_u8 bs -> 0 <= le_value bs < 256 ^ zlen bs.
Proof.
  induction 1 as [|b bs Hb Hbs IH]; simpl length; [simpl; lia|].
  rewrite Nat2Z.inj_succ, Z.pow_succ_r by lia. simpl. unfold is_u8 in Hb. lia.
Qed.

(** An array of 32-bit words in memory: its bytes, and the [n] words a
    memory area of at least [4 * n] bytes starts with. *)
Definition words_bytes (k : nat) (ws : list Z) : list Z := flat_map (le_bytes k) ws.
Fixpoint bytes_words (k n : nat) (bs : list Z) : list Z :=
  match n with
  | O => []
  | S n' => le_value (take k bs) :: bytes_words k n' (drop k bs)
  end.

Lemma length_words_bytes k ws : length (words_bytes k ws) = (k * length ws)%nat.
Proof.
  induction ws; simpl; [lia|]. rewrite length_app, length_le_bytes, IHws. lia.
Qed.
Lemma words_bytes_u8 k ws : Forall is_u8 (words_bytes k ws).
Proof. induction ws; simpl; [done|]. apply Forall_app. split; [apply le_bytes_u8|done]. Qed.
Lemma length_bytes_words k n bs : length (bytes_words k n bs) = n.
Proof. revert bs. induction n; intros bs; simpl; auto. Qed.
Lemma bytes_words_bytes k ws rest :
  Forall (fun w => 0 <= w < 256 ^ Z.of_nat k) ws ->
  bytes_words k (length ws) (words_bytes k ws ++ rest) = ws.
Proof.
  induction 1 as [|w ws Hw Hws IH]; simpl; [done|].
  rewrite <- app_assoc, take_app_length', drop_app_length' by (by rewrite length_le_bytes).
  by rewrite le_value_bytes, IH.
Qed.
Lemma words_bytes_words k n bs :
  Forall is_u8 bs -> length bs = (k * n)%nat -> words_bytes k (bytes_words k n bs) = bs.
Proof.
  revert bs. induction n as [|n IH]; intros bs Hu Hl; simpl.
  - destruct bs; [done|]. rewrite Nat.mul_0_r in Hl. done.
  - rewrite IH; [|by apply Forall_drop|rewrite length_drop; lia].
    assert (length (take k bs) = k) as Hk by (rewrite length_take; lia).
    rewrite <- Hk at 1. rewrite le_bytes_value by by apply Forall_take. apply take_drop.
Qed.
Lemma bytes_words_take k n m bs : (k * n <= m)%nat -> bytes_words k n bs = bytes_words k n (take m bs).
Proof.
  revert m bs. induction n as [|n IH]; intros m bs Hm; simpl; [done|].
  rewrite take_take, Nat.min_l by lia. f_equal.
  rewrite (IH (m - k)%nat) by lia. by rewrite skipn_firstn_comm.
Qed.
Lemma bytes_words_bound k n bs :
  Forall is_u8 bs -> (k * n <= length bs)%nat ->
  Forall (fun w => 0 <= w < 256 ^ Z.of_nat k) (bytes_words k n bs).
Proof.
  revert bs. induction n as [|n IH]; intros bs Hu Hl; simpl; [constructor|].
  constructor; [|apply IH; [by apply Forall_drop|rewrite length_drop; lia]].
  pose proof (le_value_bound (take k bs)) as Hb. rewrite length_take, Nat.min_l in Hb by lia.
  apply Hb. by apply Forall_take.
Qed.

#[global] Arguments bytes_words : simpl never.
#[global] Arguments words_bytes : simpl never.

(* ------------------------------------------------------------------ *)
(** ** Outcomes of a piece of C code                                   *)
(* ------------------------------------------------------------------ *)

(** Observable events: what is written to the terminal.  [Panic] is the
    message of the PANIC macro (debug.h/debug.c), whose [debug_panic]
    prints and RETURNS, so that execution continues after a failed
    ASSERT. *)
Inductive event := Print (s : string) | Panic (s : string).

#[global] Instance event_eq_dec : EqDecision event.
Proof. solve_decision. Defined.

(** What running code from a state gives: a value, the state left and the
    events in order; [exit(code)]; undefined behaviour of C (out of bounds
    access, dereference of NULL or of freed memory, free of memory that
    was not allocated); or the fuel of a loop ran out. *)
Inductive outcome (S A : Type) : Type :=
| Ok (a : A) (s : S) (tr : list event)
| Exit (code : Z) (s : S) (tr : list event)
| Stuck
| NoFuel.
Arguments Ok {S A}.
Arguments Exit {S A}.
Arguments Stuck {S A}.
Arguments NoFuel {S A}.

(** The state monad over outcomes. *)
Definition M (S A : Type) : Type := S -> outcome S A.

Definition prefix {S A} (tr : list event) (r : outcome S A) : outcome S A :=
  match r with
  | Ok a s tr' => Ok a s (tr ++ tr')
  | Exit c s tr' => Exit c s (tr ++ tr')
  | Stuck => Stuck
  | NoFuel => NoFuel
  end.

Definition ret {S A} (a : A) : M S A := fun s => Ok a s [].
Definition bind {S A B} (m : M S A) (f : A -> M S B) : M S B :=
  fun s => match m s with
           | Ok a s' tr => prefix tr (f a s')
           | Exit c s' tr => Exit c s' tr
           | Stuck => Stuck
           | NoFuel => NoFuel
           end.

Declare Scope c_scope.
Delimit Scope c_scope with c.
Notation "'let!' x := m 'in' k" := (bind m (fun x => k))
  (at level 10, x pattern, m at level 100, k at level 200,
   format "'[v' 'let!'  x  :=  m  'in' '/' k ']'") : c_scope.
Notation "m ;; k" := (bind m (fun _ => k))
  (at level 100, k at level 200, right associativity) : c_scope.
#[global] Open Scope c_scope.

Definition undef {S A} : M S A := fun _ => Stuck.
Definition out_of_fuel {S A} : M S A := fun _ => NoFuel.
Definition exit_with {S A} (code : Z) : M S A := fun s => Exit code s [].
Definition get {S} : M S S := fun s => Ok s s [].
Definition put {S} (s : S) : M S unit := fun _ => Ok tt s [].
Definition gets {S A} (f : S -> A) : M S A := fun s => Ok (f s) s [].
Definition modify {S} (f : S -> S) : M S unit := fun s => Ok tt (f s) [].
Definition print {S} (msg : string) : M S unit := fun s => Ok tt s [Print msg].
Definition panic {S} (msg : string) : M S unit := fun s => Ok tt s [Panic msg].
(** ASSERT(c): prints the PANIC message when [c] is false and goes on. *)
Definition assert_ {S} (c : bool) (msg : string) : M S unit :=
  if c then ret tt else panic msg.
(** A memory access that is undefined behaviour when [o] is [None]. *)
Definition need {S A} (o : option A) : M S A :=
  match o with Some a => ret a | None => undef end.
Definition when {S} (c : bool) (m : M S unit) : M S unit := if c then m else ret tt.

(** Running the code of a component on the part of a larger state that
    holds it. *)
Definition zoom {S T A} (g : S -> T) (p : T -> S -> S) (m : M T A) : M S A :=
  fun s => match m (g s) with
           | Ok a t tr => Ok a (p t s) tr
           | Exit c t tr => Exit c (p t s) tr
           | Stuck => Stuck
           | NoFuel => NoFuel
           end.

(** A call that works on a local object [t], returned with the result. *)
Definition locally {S T A} (t : T) (m : M T A) : M S (A * T) :=
  fun s => match m t with
           | Ok a t' tr => Ok (a, t') s tr
           | Exit c _ tr => Exit c s tr
           | Stuck => Stuck
           | NoFuel => NoFuel
           end.

(** Characters of the format strings. *)
Definition nl : string := String (Ascii.ascii_of_nat 10) EmptyString.
Definition tab : string := String (Ascii.ascii_of_nat 9) EmptyString.

(* ------------------------------------------------------------------ *)
(** ** Loops                                                           *)
(* ------------------------------------------------------------------ *)

(** [for (j = i; j < i + n; j++) body(j)]. *)
Fixpoint for_ {S} (n : nat) (i : Z) (body : Z -> M S unit) : M S unit :=
  match n with
  | O => ret tt
  | Datatypes.S n' => body i ;; for_ n' (i + 1) body
  end.

(** [for (j = i; j < i + n; j++)] whose body may leave the loop with a
    value ([Some r]: return or break). *)
Fixpoint for_find {S R} (n : nat) (i : Z) (body : Z -> M S (option R))
  : M S (option R) :=
  match n with
  | O => ret None
  | Datatypes.S n' =>
      let! r := body i in
      match r with Some x => ret (Some x) | None => for_find n' (i + 1) body end
  end.

(** The same with accumulators [x], the local variables the body updates. *)
Fixpoint for_acc {S X} (n : nat) (i : Z) (body : Z -> X -> M S X) (x : X) : M S X :=
  match n with
  | O => ret x
  | Datatypes.S n' => let! x' := body i x in for_acc n' (i + 1) body x'
  end.

(** The same when the body may also return from the function ([inr]). *)
Fixpoint for_ret {S X R} (n : nat) (i : Z) (body : Z -> X -> M S (X + R)) (x : X)
  : M S (X + R) :=
  match n with
  | O => ret (inl x)
  | Datatypes.S n' =>
      let! r := body i x in
      match r with inl x' => for_ret n' (i + 1) body x' | inr y => ret (inr y) end
  end.

(** A loop with loop variables [x]: the body either gives their next
    values ([inl]) or leaves the loop ([inr]). *)
Fixpoint while_ {S X R} (fuel : nat) (body : X -> M S (X + R)) (x : X) : M S R :=
  match fuel with
  | O => out_of_fuel
  | Datatypes.S f =>
      let! r := body x in
      match r with inl x' => while_ f body x' | inr y => ret y end
  end.

(* ------------------------------------------------------------------ *)
(** ** Total correctness without events                                *)
(* ------------------------------------------------------------------ *)

(** [wp m Q s]: from [s], [m] returns (no undefined behaviour, no exit,
    no fuel exhaustion), prints nothing (in particular no PANIC), and its
    value and final state satisfy [Q]. *)
Definition wp {S A} (m : M S A) (Q : A -> S -> Prop) (s : S) : Prop :=
  match m s with
  | Ok a s' tr => tr = [] /\ Q a s'
  | _ => False
  end.

Section wp_rules.
Context {S : Type}.
Implicit Types s : S.

Lemma prefix_nil {A} (r : outcome S A) : prefix [] r = r.
Proof. by destruct r. Qed.

Lemma bind_Ok {A B} (m : M S A) (f : A -> M S B) s a s' tr :
  m s = Ok a s' tr -> bind m f s = prefix tr (f a s').
Proof. intros H. unfold bind. by rewrite H. Qed.

Lemma bind_Ok_nil {A B} (m : M S A) (f : A -> M S B) s a s' :
  m s = Ok a s' [] -> bind m f s = f a s'.
Proof. intros E. rewrite (bind_Ok _ _ _ _ _ _ E). apply prefix_nil. Qed.

Lemma bind_Stuck {A B} (m : M S A) (f : A -> M S B) s : m s = Stuck -> bind m f s = Stuck.
Proof. intros E. unfold bind. by rewrite E. Qed.

Lemma bind_ret {A B} (a : A) (f : A -> M S B) s : bind (ret a) f s = f a s.
Proof. apply prefix_nil. Qed.

Lemma bind_assoc {A B C} (m : M S A) (f : A -> M S B) (g : B -> M S C) s :
  bind (bind m f) g s = bind m (fun a => bind (f a) g) s.
Proof.
  unfold bind. destruct (m s) as [a s' tr| | |]; simpl; [|done..].
  destruct (f a s') as [b s'' tr'| | |]; simpl; [|done..].
  destruct (g b s''); simpl; by rewrite ?app_assoc.
Qed.

Lemma wp_Ok {A} (m : M S A) Q s :
  wp m Q s <-> exists a s', m s = Ok a s' [] /\ Q a s'.
Proof.
  unfold wp. split.
  - destruct (m s) as [a s' tr| | |]; [|done..]. intros [-> HQ]. eauto.
  - intros (a & s' & -> & HQ). done.
Qed.

Lemma wp_mono {A} (m : M S A) (Q Q' : A -> S -> Prop) s :
  wp m Q s -> (forall a s', Q a s' -> Q' a s') -> wp m Q' s.
Proof. unfold wp. destruct (m s); [|done..]. intros [-> HQ] HQ'. auto. Qed.

Lemma wp_ret {A} (a : A) Q s : Q a s -> wp (ret a) Q s.
Proof. done. Qed.

Lemma wp_bind {A B} (m : M S A) (f : A -> M S B) Q s :
  wp m (fun a => wp (f a) Q) s -> wp (bind m f) Q s.
Proof.
  unfold wp, bind. destruct (m s) as [a s' tr| | |]; [|done..].
  intros [-> H]. rewrite prefix_nil. done.
Qed.

Lemma bind_assoc_wp {A B C} (m : M S A) (f : A -> M S B) (g : B -> M S C) Q s :
  wp (bind (bind m f) g) Q s <-> wp (bind m (fun a => bind (f a) g)) Q s.
Proof. unfold wp. by rewrite bind_assoc. Qed.

Lemma wp_get (Q : S -> S -> Prop) s : Q s s -> wp get Q s.
Proof. done. Qed.
Lemma wp_put (Q : unit -> S -> Prop) s s' : Q tt s' -> wp (put s') Q s.
Proof. done. Qed.
Lemma wp_gets {A} (f : S -> A) Q s : Q (f s) s -> wp (gets f) Q s.
Proof. done. Qed.
Lemma wp_modify (f : S -> S) Q s : Q tt (f s) -> wp (modify f) Q s.
Proof. done. Qed.
Lemma wp_assert (c : bool) msg Q s : c = true -> Q tt s -> wp (assert_ c msg) Q s.
Proof. by intros ->. Qed.
Lemma wp_need {A} (o : option A) a Q s : o = Some a -> Q a s -> wp (need o) Q s.
Proof. by intros ->. Qed.
Lemma wp_when (c : bool) (m : M S unit) Q s :
  (c = true -> wp m Q s) -> (c = false -> Q tt s) -> wp (when c m) Q s.
Proof. intros H1 H2. destruct c; [by apply H1|by apply wp_ret, H2]. Qed.
Lemma wp_if {A} (c : bool) (m1 m2 : M S A) Q s :
  (c = true -> wp m1 Q s) -> (c = false -> wp m2 Q s) ->
  wp (if c then m1 else m2) Q s.
Proof. destruct c; auto. Qed.

(** Invariant rule for counting loops. *)
Lemma wp_for (I : Z -> S -> Prop) (body : Z -> M S unit) n i s Q :
  I i s ->
  (forall j s', i <= j < i + Z.of_nat n -> I j s' ->
                wp (body j) (fun _ => I (j + 1)) s') ->
  (forall s', I (i + Z.of_nat n) s' -> Q tt s') ->
  wp (for_ n i body) Q s.
Proof.
  revert i s. induction n as [|n IH]; intros i s HI Hb HQ; simpl.
  - apply wp_ret, HQ. by rewrite Z.add_0_r.
  - apply wp_bind. eapply wp_mono; [apply Hb; [lia|done]|].
    intros u s' HI1. apply IH; [done| |].
    + intros j s'' Hj. apply Hb. lia.
    + intros s'' H. apply HQ. by replace (i + Z.of_nat (Datatypes.S n))
        with (i + 1 + Z.of_nat n) by lia.
Qed.

Lemma wp_for_acc {X} (I : Z -> X -> S -> Prop) (body : Z -> X -> M S X) n i x s Q :
  I i x s ->
  (forall j y s', i <= j < i + Z.of_nat n -> I j y s' ->
                  wp (body j y) (I (j + 1)) s') ->
  (forall y s', I (i + Z.of_nat n) y s' -> Q y s') ->
  wp (for_acc n i body x) Q s.
Proof.
  revert i x s. induction n as [|n IH]; intros i x s HI Hb HQ; simpl.
  - apply wp_ret, HQ. by rewrite Z.add_0_r.
  - apply wp_bind. eapply wp_mono; [apply Hb; [lia|done]|].
    intros y s' HI1. apply IH; [done| |].
    + intros j y' s'' Hj. apply Hb. lia.
    + intros y' s'' HI'. apply HQ. by replace (i + Z.of_nat (Datatypes.S n))
        with (i + 1 + Z.of_nat n) by lia.
Qed.

(** A loop whose body never takes the early return. *)
Lemma wp_for_ret {X R} (I : Z -> X -> S -> Prop) (body : Z -> X -> M S (X + R)) n i x s Q :
  I i x s ->
  (forall j y s', i <= j < i + Z.of_nat n -> I j y s' ->
     wp (body j y) (fun r s'' => match r with
                                 | inl y' => I (j + 1) y' s''
                                 | inr _ => False end) s') ->
  (forall y s', I (i + Z.of_nat n) y s' -> Q (inl y) s') ->
  wp (for_ret n i body x) Q s.
Proof.
  revert i x s. induction n as [|n IH]; intros i x s HI Hb HQ; simpl.
  - apply wp_ret, HQ. by rewrite Z.add_0_r.
  - apply wp_bind. eapply wp_mono; [apply Hb; [lia|done]|].
    intros [y|y] s' HI1; [|done]. apply IH; [done| |].
    + intros j y' s'' Hj. apply Hb. lia.
    + intros y' s'' HI'. apply HQ. by replace (i + Z.of_nat (Datatypes.S n))
        with (i + 1 + Z.of_nat n) by lia.
Qed.

(** Rule for searching loops: the invariant holds while nothing is
    found, and [F] describes a successful exit. *)
Lemma wp_for_find {R} (I : Z -> S -> Prop) (F : Z -> R -> S -> Prop)
    (body : Z -> M S (option R)) n i s Q :
  I i s ->
  (forall j s', i <= j < i + Z.of_nat n -> I j s' ->
     wp (body j) (fun r s'' => match r with
                               | Some x => F j x s''
                               | None => I (j + 1) s'' end) s') ->
  (forall j x s', i <= j < i + Z.of_nat n -> F j x s' -> Q (Some x) s') ->
  (forall s', I (i + Z.of_nat n) s' -> Q None s') ->
  wp (for_find n i body) Q s.
Proof.
  revert i s. induction n as [|n IH]; intros i s HI Hb HF HQ; simpl.
  - apply wp_ret, HQ. by rewrite Z.add_0_r.
  - apply wp_bind. eapply wp_mono; [apply Hb; [lia|done]|].
    intros [x|] s' H; [apply wp_ret, (HF i); [lia|done]|].
    apply IH; [done| | |].
    + intros j s'' Hj. apply Hb. lia.
    + intros j x s'' Hj. apply HF. lia.
    + intros s'' HI'. apply HQ. by replace (i + Z.of_nat (Datatypes.S n))
        with (i + 1 + Z.of_nat n) by lia.
Qed.

(** Rule for loops with a decreasing measure: fuel above the measure is
    enough. *)
Lemma wp_while {X R} (I : X -> S -> Prop) (meas : X -> S -> nat)
    (body : X -> M S (X + R)) fuel x s (Q : R -> S -> Prop) :
  I x s -> (meas x s < fuel)%nat ->
  (forall x s, I x s ->
     wp (body x) (fun r s' => match r with
                              | inl x' => I x' s' /\ (meas x' s' < meas x s)%nat
                              | inr y => Q y s' end) s) ->
  wp (while_ fuel body x) Q s.
Proof.
  intros HI Hm Hb. revert x s HI Hm.
  induction fuel as [|f IH]; intros x s HI Hm; [lia|]; simpl.
  apply wp_bind. eapply wp_mono; [by apply Hb|].
  intros [x'|y] s'; [|done]. intros [HI2 Hm']. apply IH; [done|lia].
Qed.

(** The same, with a measure that the invariant knows. *)
Lemma wp_while_ghost {X R} (I : nat -> X -> S -> Prop) (body : X -> M S (X + R)) (Q : R -> S -> Prop) :
  (forall n x s, I n x s ->
     wp (body x) (fun r s' => match r with
                              | inl x' => exists n', (n' < n)%nat /\ I n' x' s'
                              | inr y => Q y s' end) s) ->
  forall fuel n x s, I n x s -> (n < fuel)%nat -> wp (while_ fuel body x) Q s.
Proof.
  intros Hb fuel. induction fuel as [|f IH]; intros n x s HI Hn; [lia|]; simpl.
  apply wp_bind. eapply wp_mono; [by eapply Hb|].
  intros [x'|y] s'; [|done]. intros (n' & Hn' & HI'). by apply (IH n'); [|lia].
Qed.

Lemma wp_zoom {T A} (g : S -> T) (p : T -> S -> S) (m : M T A) Q s :
  wp m (fun a t => Q a (p t s)) (g s) -> wp (zoom g p m) Q s.
Proof. unfold wp, zoom. by destruct (m (g s)). Qed.
Lemma wp_locally {T A} (t : T) (m : M T A) (Q : A * T -> S -> Prop) s :
  wp m (fun a t' => Q (a, t') s) t -> wp (locally t m) Q s.
Proof. unfold wp, locally. by destruct (m t). Qed.
End wp_rules.

(** Code that returns [a] and does nothing else. *)
Lemma silent_Ok {S A} (m : M S A) a s : wp m (fun r s' => r = a /\ s' = s) s -> m s = Ok a s [].
Proof. intros (r & s' & E & -> & ->)%wp_Ok. done. Qed.

Lemma bind_cong {S A B} (m m' : M S A) (f g : A -> M S B) s :
  m s = m' s -> (forall a s', f a s' = g a s') -> bind m f s = bind m' g s.
Proof. unfold bind. intros -> Hf. destruct (m' s); [|done..]. by rewrite Hf. Qed.

Lemma while_turn {S X R} f (body : X -> M S (X + R)) x s x' s' :
  body x s = Ok (inl x') s' [] -> while_ (Datatypes.S f) body x s = while_ f body x' s'.
Proof. intros E. cbn [while_]. by rewrite (bind_Ok_nil _ _ _ _ _ E). Qed.
Lemma while_exit {S X R} f (body : X -> M S (X + R)) x s y s' :
  body x s = Ok (inr y) s' [] -> while_ (Datatypes.S f) body x s = Ok y s' [].
Proof. intros E. cbn [while_]. by rewrite (bind_Ok_nil _ _ _ _ _ E). Qed.
(** A loop that does not get anywhere. *)
Lemma while_hangs {S X R} f (body : X -> M S (X + R)) x s :
  body x s = Ok (inl x) s [] -> while_ f body x s = NoFuel.
Proof. intros E. induction f as [|f IH]; [done|]. by rewrite (while_turn _ _ _ _ _ _ E). Qed.

(* ------------------------------------------------------------------ *)
(** ** Total correctness with events                                   *)
(* ------------------------------------------------------------------ *)

(** The same, with the events printed. *)
Definition wpt {S A} (m : M S A) (Q : A -> S -> list event -> Prop) (s : S) : Prop :=
  match m s with Ok a s' tr => Q a s' tr | _ => False end.

Section wpt_rules.
Context {S : Type}.
Implicit Types s : S.

Lemma wpt_Ok {A} (m : M S A) Q s :
  wpt m Q s <-> exists a s' tr, m s = Ok a s' tr /\ Q a s' tr.
Proof.
  unfold wpt. split.
  - destruct (m s) as [a s' tr| | |]; [|done..]. eauto.
  - intros (a & s' & tr & -> & HQ). done.
Qed.
Lemma wpt_mono {A} (m : M S A) (Q Q' : A -> S -> list event -> Prop) s :
  wpt m Q s -> (forall a s' tr, Q a s' tr -> Q' a s' tr) -> wpt m Q' s.
Proof. unfold wpt. destruct (m s); [|done..]. auto. Qed.
(** Code that prints nothing. *)
Lemma wpt_silent {A} (m : M S A) Q s : wp m (fun a s' => Q a s' []) s -> wpt m Q s.
Proof. unfold wp, wpt. destruct (m s); [|done..]. by intros [-> HQ]. Qed.
Lemma wpt_bind {A B} (m : M S A) (f : A -> M S B) Q s :
  wpt m (fun a s' tr => wpt (f a) (fun b s'' tr' => Q b s'' (tr ++ tr')) s') s -> wpt (bind m f) Q s.
Proof.
  unfold wpt, bind. destruct (m s) as [a s' tr| | |]; [|done..].
  by destruct (f a s').
Qed.
(** A silent first part. *)
Lemma wpt_seq {A B} (m : M S A) (f : A -> M S B) Q s :
  wp m (fun a s' => wpt (f a) Q s') s -> wpt (bind m f) Q s.
Proof. intros H. by apply wpt_bind, wpt_silent. Qed.
Lemma wpt_ret {A} (a : A) Q s : Q a s [] -> wpt (ret a) Q s.
Proof. done. Qed.
Lemma wpt_when b (m : M S unit) Q s :
  (b = true -> wpt m Q s) -> (b = false -> Q tt s []) -> wpt (when b m) Q s.
Proof. destruct b; intros H1 H2; [by apply H1|]. by apply wpt_ret, H2. Qed.
(** The invariant of a loop is on the events so far, too. *)
Lemma wpt_for (I : Z -> S -> list event -> Prop) (body : Z -> M S unit) n i s tr0 Q :
  I i s tr0 ->
  (forall j s' tr, i <= j < i + Z.of_nat n -> I j s' tr ->
     wpt (body j) (fun _ s'' tr' => I (j + 1) s'' (tr ++ tr')%list) s') ->
  (forall s' tr, I (i + Z.of_nat n) s' (tr0 ++ tr)%list -> Q tt s' tr) ->
  wpt (for_ n i body) Q s.
Proof.
  revert i s tr0 Q. induction n as [|n IH]; intros i s tr0 Q HI Hb HQ; simpl.
  - apply wpt_ret, HQ. by rewrite Z.add_0_r, app_nil_r.
  - apply wpt_bind. eapply wpt_mono; [by apply Hb; [lia|]|]. intros u s' tr HI1. eapply IH; [exact HI1| |].
    + intros j s'' tr' Hj. apply Hb. lia.
    + intros s'' tr' H. apply HQ. rewrite app_assoc.
      by replace (i + Z.of_nat (Datatypes.S n)) with (i + 1 + Z.of_nat n) by lia.
Qed.
End wpt_rules.

(** Code that runs into undefined behaviour after a part that is well
    defined, and a loop that does so in its turn [k]. *)
Lemma bind_stuck {T A C} (m : M T A) (f : A -> M T C) (Q : A -> T -> Prop) (st : T) :
  wp m Q st -> (forall a st', Q a st' -> f a st' = Stuck) -> bind m f st = Stuck.
Proof.
  intros H Hf. apply wp_Ok in H as (a & s' & E & HQ). rewrite (bind_Ok_nil _ _ _ _ _ E). by apply Hf.
Qed.
Lemma for_stuck {T} (I : Z -> T -> Prop) (body : Z -> M T unit) k n i (st : T) :
  I i st -> i <= k < i + Z.of_nat n ->
  (forall j st', i <= j < k -> I j st' -> wp (body j) (fun _ => I (j + 1)) st') ->
  (forall st', I k st' -> body k st' = Stuck) ->
  for_ n i body st = Stuck.
Proof.
  revert i st. induction n as [|n IH]; intros i st HI Hk Hb Hs; [lia|]. simpl.
  destruct (decide (i = k)) as [->|Hne]; [by apply bind_Stuck, Hs|].
  eapply bind_stuck; [apply Hb; [lia|done]|]. intros ? st' HI'. apply IH; [done|lia| |done].
  intros j st2 Hj. apply Hb. lia.
Qed.

(** What running [m] leaves related, on every path that returns. *)
Definition keeps {S A} (R : S -> S -> Prop) (m : M S A) : Prop :=
  forall s a s' tr, m s = Ok a s' tr -> R s s'.

Section keeps_rules.
Context {S : Type} (R : S -> S -> Prop) {HR : PreOrder R}.

Lemma keeps_ret {A} (a : A) : keeps R (ret a).
Proof using HR. by intros s b s' tr [= <- <- <-]. Qed.
Lemma keeps_get : keeps R (get (S := S)).
Proof using HR. by intros s b s' tr [= <- <- <-]. Qed.
Lemma keeps_need {A} (o : option A) : keeps R (need (S := S) o).
Proof using HR. destruct o as [x|]; [apply keeps_ret|by intros s b s' tr [=]]. Qed.
Lemma keeps_modify f : (forall s, R s (f s)) -> keeps R (modify f).
Proof. by intros H s b s' tr [= <- <- <-]. Qed.
Lemma keeps_bind {A B} (m : M S A) (f : A -> M S B) :
  keeps R m -> (forall a, keeps R (f a)) -> keeps R (bind m f).
Proof using HR.
  intros Hm Hf s b s2 tr. unfold bind. destruct (m s) as [a s1 tr1| | |] eqn:E; [|done..].
  destruct (f a s1) as [b' s2' tr2| | |] eqn:E2; [|done..]. intros [= <- <- <-].
  etrans; [by eapply Hm|by eapply Hf].
Qed.
Lemma keeps_while {X B} (body : X -> M S (X + B)) :
  (forall x, keeps R (body x)) -> forall fuel x, keeps R (while_ fuel body x).
Proof using HR.
  intros Hb fuel. induction fuel as [|fuel IH]; intros x; [by intros s b s' tr [=]|].
  apply keeps_bind; [done|]. intros [x'|y]; [done|apply keeps_ret].
Qed.
Lemma wp_keeps {A} (m : M S A) (Q : A -> S -> Prop) s :
  keeps R m -> wp m (fun a s' => R s s' -> Q a s') s -> wp m Q s.
Proof.
  intros Hk. unfold wp. destruct (m s) as [a s' tr| | |] eqn:E; [|done..].
  intros [Htr HQ]. split; [done|]. by eapply HQ, Hk.
Qed.
End keeps_rules.

(** The rules that apply without a choice. *)
Create HintDb wp discriminated.
#[export] Hint Resolve wp_ret wp_get wp_put wp_gets wp_modify : wp.

Ltac wp_step :=
  lazymatch goal with
  | |- wp (bind _ _) _ _ => apply wp_bind
  | |- wp (ret _) _ _ => apply wp_ret
  | |- wp get _ _ => apply wp_get
  | |- wp (put _) _ _ => apply wp_put
  | |- wp (gets _) _ _ => apply wp_gets
  | |- wp (modify _) _ _ => apply wp_modify
  | |- wp (assert_ _ _) _ _ => apply wp_assert
  | |- wp (need _) _ _ => eapply wp_need
  | |- wp (when _ _) _ _ => apply wp_when; intros ?
  | |- wp (zoom _ _ _) _ _ => apply wp_zoom
  | |- wp (locally _ _) _ _ => apply wp_locally
  end.
Ltac wp_steps := repeat (wp_step; simpl).
