(* ===== verification/Bitmap.v ===== *)
(** * Bitmap: the bitmap of a3/fs/bitmap.c

    An array of bits packed in 64-bit words.  [wf] is the invariant of the
    packing, the [_wp] lemmas say what each function does to the bits, and
    [bitmap_refines_bits] that the bitmap behaves as a list of booleans. *)
From S2P Require Import Prelude.

Module Bitmap.

(* ------------------------------------------------------------------ *)
(** ** Data                                                            *)
(* ------------------------------------------------------------------ *)

(** struct bitmap: [bits] is the array of 64-bit elements ([elem_type] is
    unsigned long). *)
Record bitmap := mkBitmap { bit_cnt : Z; bits : list Z }.

Definition ELEM_BITS : Z := 64.
Definition BITMAP_ERROR : Z := 2 ^ 32 - 1.

Definition elem_idx (bit_idx : Z) : Z := bit_idx / ELEM_BITS.
Definition bit_mask (bit_idx : Z) : Z := u64 (Z.shiftl 1 (bit_idx mod ELEM_BITS)).
Definition elem_cnt (cnt : Z) : Z := DIV_ROUND_UP cnt ELEM_BITS.
Definition byte_cnt (cnt : Z) : Z := u64 (8 * elem_cnt cnt).
Definition last_mask (b : bitmap) : Z :=
  let last_bits := bit_cnt b mod ELEM_BITS in
  if last_bits =? 0 then u64 (-1) else u64 (u64 (Z.shiftl 1 last_bits) - 1).

(* ------------------------------------------------------------------ *)
(** ** Operations                                                      *)
(* ------------------------------------------------------------------ *)

Definition bitmap_size : M bitmap Z := gets bit_cnt.

(** [b->bits[idx]] and [b->bits[idx] = w]. *)
Definition get_elem (idx : Z) : M bitmap Z :=
  let! b := get in need (zget (bits b) idx).
Definition set_elem (idx w : Z) : M bitmap unit :=
  let! b := get in
  let! ws := need (zset (bits b) idx w) in
  put (mkBitmap (bit_cnt b) ws).

Definition bitmap_mark (bit_idx : Z) : M bitmap unit :=
  let idx := elem_idx bit_idx in
  let mask := bit_mask bit_idx in
  let! w := get_elem idx in
  set_elem idx (Z.lor w mask).

Definition bitmap_reset (bit_idx : Z) : M bitmap unit :=
  let idx := elem_idx bit_idx in
  let mask := bit_mask bit_idx in
  let! w := get_elem idx in
  set_elem idx (Z.land w (u64 (Z.lnot mask))).

Definition bitmap_flip (bit_idx : Z) : M bitmap unit :=
  let idx := elem_idx bit_idx in
  let mask := bit_mask bit_idx in
  let! w := get_elem idx in
  set_elem idx (Z.lxor w mask).

Definition bitmap_set (idx : Z) (value : bool) : M bitmap unit :=
  let! b := get in
  assert_ (idx <? bit_cnt b) "idx < b->bit_cnt" ;;
  if value then bitmap_mark idx else bitmap_reset idx.

Definition bitmap_test (idx : Z) : M bitmap bool :=
  let! b := get in
  assert_ (idx <? bit_cnt b) "idx < b->bit_cnt" ;;
  let! w := get_elem (elem_idx idx) in
  ret (negb (Z.land w (bit_mask idx) =? 0)).

Definition assert_range (start cnt : Z) : M bitmap unit :=
  let! b := get in
  assert_ (start <=? bit_cnt b) "start <= b->bit_cnt" ;;
  assert_ (u64 (start + cnt) <=? bit_cnt b) "start + cnt <= b->bit_cnt".

Definition bitmap_set_multiple (start cnt : Z) (value : bool) : M bitmap unit :=
  assert_range start cnt ;;
  for_ (Z.to_nat cnt) 0 (fun i => bitmap_set (u64 (start + i)) value).

Definition bitmap_set_all (value : bool) : M bitmap unit :=
  let! n := bitmap_size in
  bitmap_set_multiple 0 n value.

(** malloc is taken to succeed: the result is never NULL. *)
Definition bitmap_create {S} (cnt : Z) : M S bitmap :=
  let! r := locally (mkBitmap cnt (replicate (Z.to_nat (elem_cnt cnt)) 0))
                    (bitmap_set_all false) in
  ret (snd r).

Definition bitmap_count (start cnt : Z) (value : bool) : M bitmap Z :=
  assert_range start cnt ;;
  for_acc (Z.to_nat cnt) 0
    (fun i value_cnt =>
       let! t := bitmap_test (u64 (start + i)) in
       ret (if Bool.eqb t value then value_cnt + 1 else value_cnt)) 0.

Definition bitmap_contains (start cnt : Z) (value : bool) : M bitmap bool :=
  assert_range start cnt ;;
  let! r := for_find (Z.to_nat cnt) 0
    (fun i =>
       let! t := bitmap_test (u64 (start + i)) in
       ret (if Bool.eqb t value then Some true else None)) in
  ret (default false r).

Definition bitmap_any (start cnt : Z) : M bitmap bool := bitmap_contains start cnt true.
Definition bitmap_none (start cnt : Z) : M bitmap bool :=
  let! r := bitmap_contains start cnt true in ret (negb r).
Definition bitmap_all (start cnt : Z) : M bitmap bool :=
  let! r := bitmap_contains start cnt false in ret (negb r).

Definition bitmap_scan (start cnt : Z) (value : bool) : M bitmap Z :=
  let! b := get in
  assert_ (start <=? bit_cnt b) "start <= b->bit_cnt" ;;
  if cnt <=? bit_cnt b then
    let last := bit_cnt b - cnt in
    let! r := for_find (Z.to_nat (last - start + 1)) start
      (fun i =>
         let! c := bitmap_contains i cnt (negb value) in
         ret (if c then None else Some i)) in
    ret (default BITMAP_ERROR r)
  else ret BITMAP_ERROR.

Definition bitmap_scan_and_flip (start cnt : Z) (value : bool) : M bitmap Z :=
  let! idx := bitmap_scan start cnt value in
  when (negb (idx =? BITMAP_ERROR)) (bitmap_set_multiple idx cnt (negb value)) ;;
  ret idx.

Definition bitmap_file_size : M bitmap Z :=
  let! b := get in ret (byte_cnt (bit_cnt b)).

(* ------------------------------------------------------------------ *)
(** ** The bits a bitmap holds                                         *)
(* ------------------------------------------------------------------ *)

Definition bit (b : bitmap) (i : Z) : bool :=
  Z.testbit (default 0 (zget (bits b) (elem_idx i))) (i mod ELEM_BITS).

Record wf (b : bitmap) : Prop := {
  wf_cnt : 0 <= bit_cnt b < BITMAP_ERROR;
  wf_len : zlen (bits b) = elem_cnt (bit_cnt b);
  wf_word : Forall (fun w => 0 <= w < 2 ^ 64) (bits b)
}.

(** [b'] is [b] with the bits from [start], [cnt] of them, set to [v]. *)
Definition range_set (b : bitmap) (start cnt : Z) (v : bool) (b' : bitmap) : Prop :=
  wf b' /\ bit_cnt b' = bit_cnt b /\
  forall j, bit b' j = if bool_decide (start <= j < start + cnt) then v else bit b j.

(** Number of bits equal to [v] among the [n] bits from [i]. *)
Fixpoint count_bits (b : bitmap) (n : nat) (i : Z) (v : bool) : Z :=
  match n with
  | O => 0
  | S n' => (if Bool.eqb (bit b i) v then 1 else 0) + count_bits b n' (i + 1) v
  end.

(** All the [cnt] bits from [start] have the value [v]. *)
Definition run (b : bitmap) (start cnt : Z) (v : bool) : Prop :=
  forall j, start <= j < start + cnt -> bit b j = v.

(* ------------------------------------------------------------------ *)
(** ** Words                                                           *)
(* ------------------------------------------------------------------ *)

Lemma elem_cnt_val n : 0 <= n < 2 ^ 63 -> elem_cnt n = (n + 63) / 64.
Proof.
  intros. unfold elem_cnt, DIV_ROUND_UP, ELEM_BITS, u64. rewrite Z.mod_small by lia.
  f_equal. lia.
Qed.

Lemma bit_mask_val i : bit_mask i = 2 ^ (i mod ELEM_BITS).
Proof.
  unfold bit_mask, u64, ELEM_BITS. pose proof (Z.mod_pos_bound i 64).
  rewrite Z.shiftl_1_l, Z.mod_small; [done|]. split; [lia|].
  apply Z.pow_lt_mono_r; lia.
Qed.

Lemma bit_mask_testbit i k : Z.testbit (bit_mask i) k = bool_decide (k = i mod ELEM_BITS).
Proof.
  rewrite bit_mask_val. unfold ELEM_BITS. pose proof (Z.mod_pos_bound i 64).
  rewrite Z.pow2_bits_eqb by lia. case_bool_decide; lia.
Qed.

Lemma word_bound_iff w :
  0 <= w -> (forall k, 64 <= k -> Z.testbit w k = false) -> 0 <= w < 2 ^ 64.
Proof.
  intros Hw H. split; [done|]. destruct (decide (w = 0)) as [->|]; [lia|].
  apply Z.log2_lt_pow2; [lia|]. destruct (decide (Z.log2 w < 64)); [done|].
  specialize (H (Z.log2 w)). rewrite Z.bit_log2 in H by lia. lia.
Qed.

Lemma word_high w k : 0 <= w < 2 ^ 64 -> 64 <= k -> Z.testbit w k = false.
Proof.
  intros Hw Hk. destruct (decide (w = 0)) as [->|]; [apply Z.bits_0|].
  apply Z.bits_above_log2; [lia|]. enough (Z.log2 w < 64) by lia.
  apply Z.log2_lt_pow2; lia.
Qed.

Lemma u64_lnot_testbit m k :
  0 <= k -> Z.testbit (u64 (Z.lnot m)) k = bool_decide (k < 64) && negb (Z.testbit m k).
Proof.
  intros. unfold u64. rewrite Z.testbit_mod_pow2, Z.lnot_spec by lia.
  case_bool_decide; destruct (Z.testbit m k); simpl; lia.
Qed.

(** The three updates keep words in range and change one bit. *)
Lemma lor_mask w i : 0 <= w < 2 ^ 64 -> 0 <= Z.lor w (bit_mask i) < 2 ^ 64.
Proof.
  intros Hw. apply word_bound_iff.
  - apply Z.lor_nonneg. rewrite bit_mask_val. lia.
  - intros k Hk. rewrite Z.lor_spec, word_high, bit_mask_testbit by done. simpl.
    unfold ELEM_BITS. pose proof (Z.mod_pos_bound i 64). rewrite bool_decide_eq_false_2; lia.
Qed.

Lemma lxor_mask w i : 0 <= w < 2 ^ 64 -> 0 <= Z.lxor w (bit_mask i) < 2 ^ 64.
Proof.
  intros Hw. apply word_bound_iff.
  - apply Z.lxor_nonneg. rewrite bit_mask_val. split; intros; lia.
  - intros k Hk. rewrite Z.lxor_spec, word_high, bit_mask_testbit by done. simpl.
    unfold ELEM_BITS. pose proof (Z.mod_pos_bound i 64). rewrite bool_decide_eq_false_2; lia.
Qed.

Lemma land_mask w m : 0 <= w < 2 ^ 64 -> 0 <= Z.land w m < 2 ^ 64.
Proof.
  intros Hw. apply word_bound_iff.
  - apply Z.land_nonneg. lia.
  - intros k Hk. by rewrite Z.land_spec, word_high.
Qed.

(* ------------------------------------------------------------------ *)
(** ** Single bits                                                     *)
(* ------------------------------------------------------------------ *)

Lemma wf_elem b i :
  wf b -> 0 <= i < bit_cnt b ->
  exists w, zget (bits b) (elem_idx i) = Some w /\ 0 <= w < 2 ^ 64.
Proof.
  intros [Hc Hl Hw] Hi. unfold BITMAP_ERROR in Hc.
  rewrite elem_cnt_val in Hl by lia.
  destruct (zget_ex (bits b) (elem_idx i)) as [w E].
  { unfold elem_idx, ELEM_BITS. Z.to_euclidean_division_equations. lia. }
  exists w. split; [done|]. rewrite Forall_forall in Hw. apply Hw.
  by eapply zget_elem.
Qed.

(** Replacing the word of bit [i] by [w'], whose bit [i] is [v] and whose
    other bits are those of the old word, changes bit [i] to [v]. *)
Lemma set_elem_spec b i w w' v (Q : unit -> bitmap -> Prop) :
  wf b -> 0 <= i < bit_cnt b -> zget (bits b) (elem_idx i) = Some w ->
  0 <= w' < 2 ^ 64 ->
  (forall k, 0 <= k < 64 ->
     Z.testbit w' k = if bool_decide (k = i mod ELEM_BITS) then v else Z.testbit w k) ->
  (forall b', range_set b i 1 v b' -> Q tt b') ->
  wp (set_elem (elem_idx i) w') Q b.
Proof.
  intros [Hc Hl Hw] Hi Ew Hw' Hbits HQ. unfold set_elem.
  destruct (zset_ex (bits b) (elem_idx i) w') as [ws Ews]; [by eapply zget_range|].
  wp_steps; [exact Ews|]. wp_steps. apply HQ.
  destruct (zset_inv _ _ _ _ Ews) as (_ & Hlen & Hget). split; [|split; [done|]].
  - split; simpl; [done|congruence|]. apply Forall_forall. intros x Hx.
    destruct (elem_zget _ _ Hx) as [j Hj]. rewrite Hget in Hj. case_bool_decide.
    + by simplify_eq.
    + rewrite Forall_forall in Hw. eapply Hw, zget_elem. done.
  - intros j. unfold bit. simpl. rewrite Hget. pose proof (Z.mod_pos_bound j 64).
    unfold elem_idx, ELEM_BITS in *. case_bool_decide as Hej; simpl.
    + rewrite Hbits by lia. rewrite Hej, Ew. simpl.
      do 2 case_bool_decide; try done; Z.to_euclidean_division_equations; lia.
    + rewrite bool_decide_eq_false_2; [done|]. intros ?. assert (j = i) by lia.
      by subst.
Qed.

Ltac bit_update lem :=
  intros Hb Hi HQ; destruct (wf_elem _ _ Hb Hi) as (w & Ew & Hw);
  unfold bitmap_mark, bitmap_reset, bitmap_flip, get_elem; wp_steps; [exact Ew|];
  eapply set_elem_spec; [exact Hb|exact Hi|exact Ew|by apply lem| |exact HQ].

Lemma bitmap_mark_wp b i (Q : unit -> bitmap -> Prop) :
  wf b -> 0 <= i < bit_cnt b ->
  (forall b', range_set b i 1 true b' -> Q tt b') -> wp (bitmap_mark i) Q b.
Proof.
  bit_update lor_mask. intros k Hk. rewrite Z.lor_spec, bit_mask_testbit.
  case_bool_decide; by rewrite ?orb_true_r, ?orb_false_r.
Qed.

Lemma bitmap_reset_wp b i (Q : unit -> bitmap -> Prop) :
  wf b -> 0 <= i < bit_cnt b ->
  (forall b', range_set b i 1 false b' -> Q tt b') -> wp (bitmap_reset i) Q b.
Proof.
  bit_update land_mask. intros k Hk.
  rewrite Z.land_spec, u64_lnot_testbit, bit_mask_testbit by lia.
  rewrite (bool_decide_eq_true_2 (k < 64)) by lia.
  case_bool_decide; simpl; by rewrite ?andb_true_r, ?andb_false_r.
Qed.

Lemma bitmap_flip_wp b i (Q : unit -> bitmap -> Prop) :
  wf b -> 0 <= i < bit_cnt b ->
  (forall b', range_set b i 1 (negb (bit b i)) b' -> Q tt b') -> wp (bitmap_flip i) Q b.
Proof.
  bit_update lxor_mask. intros k Hk. rewrite Z.lxor_spec, bit_mask_testbit.
  case_bool_decide as Hk'; rewrite ?xorb_true_r, ?xorb_false_r; [|done].
  unfold bit. rewrite Ew. simpl. by subst.
Qed.

Lemma bitmap_set_wp b i v (Q : unit -> bitmap -> Prop) :
  wf b -> 0 <= i < bit_cnt b ->
  (forall b', range_set b i 1 v b' -> Q tt b') -> wp (bitmap_set i v) Q b.
Proof.
  intros Hb Hi HQ. unfold bitmap_set. wp_steps; [lia|].
  destruct v; [by apply bitmap_mark_wp|by apply bitmap_reset_wp].
Qed.

Lemma bitmap_test_wp b i (Q : bool -> bitmap -> Prop) :
  wf b -> 0 <= i < bit_cnt b -> Q (bit b i) b -> wp (bitmap_test i) Q b.
Proof.
  intros Hb Hi HQ. destruct (wf_elem _ _ Hb Hi) as (w & Ew & Hw).
  unfold bitmap_test, get_elem. wp_steps; [lia|exact Ew|].
  assert (negb (Z.land w (bit_mask i) =? 0) = bit b i) as ->; [|done].
  unfold bit. rewrite Ew. simpl. pose proof (Z.mod_pos_bound i 64). unfold ELEM_BITS in *.
  destruct (Z.testbit w (i mod 64)) eqn:E.
  - apply negb_true_iff, Z.eqb_neq. intros H0.
    assert (Z.testbit (Z.land w (bit_mask i)) (i mod 64) = true); [|rewrite H0, Z.bits_0 in *; done].
    rewrite Z.land_spec, E, bit_mask_testbit. by rewrite bool_decide_eq_true_2.
  - apply negb_false_iff, Z.eqb_eq. apply Z.bits_inj_0. intros k.
    rewrite Z.land_spec, bit_mask_testbit. case_bool_decide as Hk; [|apply andb_false_r].
    unfold ELEM_BITS in Hk. by rewrite Hk, E.
Qed.

(* ------------------------------------------------------------------ *)
(** ** Ranges of bits                                                  *)
(* ------------------------------------------------------------------ *)

Lemma range_set_refl b start v : wf b -> range_set b start 0 v b.
Proof.
  intros. split; [done|]. split; [done|]. intros j. by rewrite bool_decide_eq_false_2 by lia.
Qed.

Lemma range_set_snoc b start n v b1 b2 :
  0 <= n -> range_set b start n v b1 -> range_set b1 (start + n) 1 v b2 ->
  range_set b start (n + 1) v b2.
Proof.
  intros Hn (Hw1 & Hc1 & H1) (Hw2 & Hc2 & H2). split; [done|]. split; [congruence|].
  intros j. rewrite H2, H1. repeat case_bool_decide; (done || lia).
Qed.

Lemma assert_range_wp b start cnt (Q : unit -> bitmap -> Prop) :
  wf b -> 0 <= start -> 0 <= cnt -> start + cnt <= bit_cnt b -> Q tt b ->
  wp (assert_range start cnt) Q b.
Proof.
  intros [Hc _ _] Hs Hn Hle HQ. unfold assert_range, u64, BITMAP_ERROR in *.
  wp_steps; [lia| |done]. rewrite Z.mod_small by lia. lia.
Qed.

Lemma bitmap_set_multiple_wp b start cnt v (Q : unit -> bitmap -> Prop) :
  wf b -> 0 <= start -> 0 <= cnt -> start + cnt <= bit_cnt b ->
  (forall b', range_set b start cnt v b' -> Q tt b') ->
  wp (bitmap_set_multiple start cnt v) Q b.
Proof.
  intros Hb Hs Hn Hle HQ. unfold bitmap_set_multiple. wp_steps.
  apply assert_range_wp; try done.
  apply (wp_for (fun i b' => range_set b start i v b')).
  - by apply range_set_refl.
  - intros j b' Hj Hb'. destruct Hb' as (Hw' & Hc' & Hbits).
    destruct Hb as [Hc _ _]. unfold u64, BITMAP_ERROR in *. rewrite Z.mod_small by lia.
    apply bitmap_set_wp; [done|lia|]. intros b'' H''.
    by apply range_set_snoc with b'; [lia| |].
  - intros b' Hb'. apply HQ. by rewrite Z.add_0_l, Z2Nat.id in Hb' by lia.
Qed.

Lemma bitmap_count_wp b start cnt v (Q : Z -> bitmap -> Prop) :
  wf b -> 0 <= start -> 0 <= cnt -> start + cnt <= bit_cnt b ->
  Q (count_bits b (Z.to_nat cnt) start v) b -> wp (bitmap_count start cnt v) Q b.
Proof.
  intros Hb Hs Hn Hle HQ. unfold bitmap_count. wp_steps.
  apply assert_range_wp; try done.
  apply (wp_for_acc (fun i acc b' => b' = b /\
    acc + count_bits b (Z.to_nat (cnt - i)) (start + i) v
    = count_bits b (Z.to_nat cnt) start v)).
  - by rewrite Z.sub_0_r, Z.add_0_r.
  - intros i acc b' Hi [-> Hacc]. wp_steps.
    pose proof (wf_cnt _ Hb). unfold u64, BITMAP_ERROR in *. rewrite Z.mod_small by lia.
    apply bitmap_test_wp; [done|lia|]. apply wp_ret. split; [done|].
    replace (Z.to_nat (cnt - i)) with (Datatypes.S (Z.to_nat (cnt - (i + 1)))) in Hacc by lia.
    simpl in Hacc. rewrite Z.add_assoc. destruct (Bool.eqb (bit b (start + i)) v); lia.
  - intros y b' [-> H]. rewrite Z.add_0_l, Z2Nat.id, Z.sub_diag in H by lia. simpl in H.
    by rewrite Z.add_0_r in H; subst.
Qed.

(** bitmap_contains finds whether some bit of the range has the value. *)
Definition contains (b : bitmap) (start cnt : Z) (v : bool) : bool :=
  existsb (fun j => Bool.eqb (bit b j) v) (seqZ start cnt).

Lemma contains_false b start cnt v :
  contains b start cnt v = false <-> run b start cnt (negb v).
Proof.
  unfold contains, run. rewrite <- not_true_iff_false, existsb_exists. split.
  - intros H j Hj. destruct (Bool.eqb (bit b j) v) eqn:E.
    + exfalso. apply H. exists j. split; [|done]. apply list_elem_of_In, elem_of_seqZ. lia.
    + apply eqb_false_iff in E. by destruct (bit b j), v.
  - intros H (j & Hj%list_elem_of_In%elem_of_seqZ & E%eqb_prop).
    rewrite H in E by lia. by destruct v.
Qed.

Lemma contains_step b start i v :
  0 <= i -> contains b start (i + 1) v = contains b start i v || Bool.eqb (bit b (start + i)) v.
Proof.
  intros. unfold contains. rewrite seqZ_app by lia. rewrite existsb_app. f_equal.
  change 1 with (Z.succ 0). rewrite seqZ_cons by lia. simpl. by rewrite orb_false_r.
Qed.

Lemma bitmap_contains_wp b start cnt v (Q : bool -> bitmap -> Prop) :
  wf b -> 0 <= start -> 0 <= cnt -> start + cnt <= bit_cnt b ->
  Q (contains b start cnt v) b -> wp (bitmap_contains start cnt v) Q b.
Proof.
  intros Hb Hs Hn Hle HQ. unfold bitmap_contains. wp_steps.
  apply assert_range_wp; try done. apply wp_bind.
  apply (wp_for_find (fun i b' => b' = b /\ contains b start i v = false)
                     (fun i r b' => b' = b /\ r = true /\ bit b (start + i) = v)).
  - done.
  - intros i b' Hi [-> Hno]. wp_steps.
    pose proof (wf_cnt _ Hb). unfold u64, BITMAP_ERROR in *. rewrite Z.mod_small by lia.
    apply bitmap_test_wp; [done|lia|]. apply wp_ret.
    destruct (Bool.eqb (bit b (start + i)) v) eqn:E.
    + apply eqb_prop in E. done.
    + split; [done|]. by rewrite contains_step, Hno, E by lia.
  - intros j x b' Hj (-> & -> & E). apply wp_ret. simpl.
    destruct (contains b start cnt v) eqn:Ec; [done|].
    apply contains_false in Ec. rewrite (Ec (start + j)) in E by lia. by destruct v.
  - intros b' [-> H]. apply wp_ret. simpl.
    rewrite Z.add_0_l, Z2Nat.id in H by lia. by rewrite H in HQ.
Qed.

(** bitmap_scan finds the first run of [cnt] bits of the value. *)
Definition first_run (b : bitmap) (start cnt : Z) (v : bool) (r : Z) : Prop :=
  (start <= r /\ r + cnt <= bit_cnt b /\ run b r cnt v /\
   forall i, start <= i < r -> ~ run b i cnt v) \/
  (r = BITMAP_ERROR /\ forall i, start <= i -> i + cnt <= bit_cnt b -> ~ run b i cnt v).

Lemma bitmap_scan_wp b start cnt v (Q : Z -> bitmap -> Prop) :
  wf b -> 0 <= start <= bit_cnt b -> 0 <= cnt ->
  (forall r, first_run b start cnt v r -> Q r b) -> wp (bitmap_scan start cnt v) Q b.
Proof.
  intros Hb Hs Hn HQ. unfold bitmap_scan. wp_steps; [lia|].
  apply wp_if; intros Hc; [|apply wp_ret, HQ; right; split; [done|lia]].
  apply wp_bind.
  apply (wp_for_find
    (fun i b' => b' = b /\ forall k, start <= k < i -> ~ run b k cnt v)
    (fun i r b' => b' = b /\ r = i /\ run b i cnt v /\
                   forall k, start <= k < i -> ~ run b k cnt v)).
  - split; [done|lia].
  - intros i b' Hi [-> Hno]. wp_steps. apply bitmap_contains_wp; [done|lia..|].
    apply wp_ret. destruct (contains b i cnt (negb v)) eqn:E.
    + split; [done|]. intros k Hk. destruct (decide (k = i)) as [->|]; [|apply Hno; lia].
      intros Hr. rewrite <- (negb_involutive v), <- contains_false in Hr. congruence.
    + apply contains_false in E. rewrite negb_involutive in E. done.
  - intros j x b' Hj (-> & -> & Hr & Hno). apply wp_ret, HQ. left. simpl.
    split; [lia|]. split; [lia|done].
  - intros b' [-> H]. apply wp_ret, HQ. right. split; [done|]. intros i ? ?. apply H. lia.
Qed.

#[export] Hint Resolve bitmap_set_wp bitmap_mark_wp bitmap_reset_wp bitmap_flip_wp
  bitmap_test_wp bitmap_set_multiple_wp bitmap_count_wp bitmap_contains_wp
  bitmap_scan_wp : wp.

Lemma bitmap_scan_and_flip_wp b start cnt v (Q : Z -> bitmap -> Prop) :
  wf b -> 0 <= start <= bit_cnt b -> 0 <= cnt ->
  (forall r, first_run b start cnt v r -> r = BITMAP_ERROR -> Q r b) ->
  (forall r b', first_run b start cnt v r -> r <> BITMAP_ERROR ->
     range_set b r cnt (negb v) b' -> Q r b') ->
  wp (bitmap_scan_and_flip start cnt v) Q b.
Proof.
  intros Hb Hs Hn HE HQ. unfold bitmap_scan_and_flip. apply wp_bind.
  apply bitmap_scan_wp; try done. intros r Hr. wp_steps.
  - destruct Hr as [(Hr & Hle & Hrest)|[-> ?]]; [|done].
    apply bitmap_set_multiple_wp; try done; [lia|]. intros b' Hb'. apply wp_ret.
    apply HQ; [by left|lia|done].
  - apply HE; [done|]. lia.
Qed.

Lemma bitmap_all_wp b start cnt (Q : bool -> bitmap -> Prop) :
  wf b -> 0 <= start -> 0 <= cnt -> start + cnt <= bit_cnt b ->
  run b start cnt true -> Q true b -> wp (bitmap_all start cnt) Q b.
Proof.
  intros Hb Hs Hn Hle Hr HQ. unfold bitmap_all. wp_steps.
  apply bitmap_contains_wp; try done. apply wp_ret.
  by rewrite (proj2 (contains_false b start cnt false) Hr).
Qed.

Lemma mkBitmap_zero_wf cnt :
  0 <= cnt < BITMAP_ERROR -> wf (mkBitmap cnt (replicate (Z.to_nat (elem_cnt cnt)) 0)).
Proof.
  intros. split; simpl; [done| |].
  - rewrite length_replicate. unfold BITMAP_ERROR in *.
    rewrite elem_cnt_val by lia. rewrite Z2Nat.id; [done|].
    Z.to_euclidean_division_equations. lia.
  - by apply Forall_replicate.
Qed.

Lemma bitmap_create_wp {S} cnt (Q : bitmap -> S -> Prop) s :
  0 <= cnt < BITMAP_ERROR ->
  (forall b, wf b -> bit_cnt b = cnt -> run b 0 cnt false -> Q b s) ->
  wp (bitmap_create cnt) Q s.
Proof.
  intros Hc HQ. unfold bitmap_create. wp_steps. unfold bitmap_set_all, bitmap_size.
  wp_steps. apply bitmap_set_multiple_wp; [by apply mkBitmap_zero_wf|simpl; lia..|].
  intros b' (Hw & Hcnt & Hb). apply wp_ret, HQ; try done.
  intros j Hj. rewrite Hb. simpl. by rewrite bool_decide_eq_true_2 by lia.
Qed.

(* ------------------------------------------------------------------ *)
(** ** Counting                                                        *)
(* ------------------------------------------------------------------ *)

Lemma count_bits_ext b b' n i v :
  (forall j, i <= j < i + Z.of_nat n -> bit b j = bit b' j) ->
  count_bits b n i v = count_bits b' n i v.
Proof.
  revert i. induction n as [|n IH]; intros i H; simpl; [done|].
  rewrite H by lia. f_equal. apply IH. intros. apply H. lia.
Qed.

Lemma count_bits_app b n m i v :
  count_bits b (n + m) i v = count_bits b n i v + count_bits b m (i + Z.of_nat n) v.
Proof.
  revert i. induction n as [|n IH]; intros i; simpl; [by rewrite Z.add_0_r|].
  rewrite IH. replace (i + 1 + Z.of_nat n) with (i + Z.of_nat (Datatypes.S n)) by lia. lia.
Qed.

Lemma count_bits_run b n i v :
  run b i (Z.of_nat n) v -> count_bits b n i v = Z.of_nat n.
Proof.
  revert i. induction n as [|n IH]; intros i H; simpl; [done|].
  rewrite H, eqb_reflx by lia. rewrite IH; [lia|]. intros j Hj. apply H. lia.
Qed.

Lemma count_bits_norun b n i v :
  run b i (Z.of_nat n) (negb v) -> count_bits b n i v = 0.
Proof.
  revert i. induction n as [|n IH]; intros i H; simpl; [done|].
  rewrite H by lia. rewrite IH by (intros j Hj; apply H; lia). by destruct v.
Qed.

(** Flipping a run of [cnt] bits of value [v] removes [cnt] from the count
    of [v]. *)
Lemma count_bits_range_set b b' start cnt v :
  0 <= start -> 0 <= cnt -> start + cnt <= bit_cnt b -> run b start cnt v ->
  range_set b start cnt (negb v) b' ->
  count_bits b' (Z.to_nat (bit_cnt b')) 0 v
  = count_bits b (Z.to_nat (bit_cnt b)) 0 v - cnt.
Proof.
  intros Hs Hc Hle Hr (_ & Hcnt & Hb). rewrite Hcnt.
  replace (Z.to_nat (bit_cnt b)) with
    (Z.to_nat start + (Z.to_nat cnt + Z.to_nat (bit_cnt b - start - cnt)))%nat by lia.
  rewrite !count_bits_app, !Z.add_0_l, !Z2Nat.id by lia.
  rewrite (count_bits_run b (Z.to_nat cnt)) by (intros j Hj; apply Hr; lia).
  rewrite (count_bits_norun b' (Z.to_nat cnt)).
  2:{ intros j Hj. rewrite Hb, bool_decide_eq_true_2; [done|lia]. }
  rewrite (count_bits_ext b' b (Z.to_nat start)).
  2:{ intros j Hj. rewrite Hb, bool_decide_eq_false_2; [done|lia]. }
  rewrite (count_bits_ext b' b (Z.to_nat (bit_cnt b - start - cnt))).
  2:{ intros j Hj. rewrite Hb, bool_decide_eq_false_2; [done|lia]. }
  lia.
Qed.

#[export] Hint Resolve bitmap_scan_and_flip_wp bitmap_all_wp bitmap_create_wp : wp.

(* ------------------------------------------------------------------ *)
(** ** The specification: a list of booleans                           *)
(* ------------------------------------------------------------------ *)

Inductive bop :=
| Mark (i : Z) | Reset_ (i : Z) | Flip (i : Z) | SetBit (i : Z) (v : bool) | Test_ (i : Z)
| Fill (start cnt : Z) (v : bool) | CountBits (start cnt : Z) (v : bool)
| Contains (start cnt : Z) (v : bool) | ScanFlip (start cnt : Z) (v : bool).

Definition in_range (l : list bool) (start cnt : Z) : bool :=
  (0 <=? start) && (0 <=? cnt) && (start + cnt <=? zlen l).
Definition b2z (b : bool) : Z := if b then 1 else 0.

(** The first place, of the [n] from [i], where [cnt] bits are [v]. *)
Fixpoint first_from (l : list bool) (n : nat) (i cnt : Z) (v : bool) : option Z :=
  match n with
  | O => None
  | Datatypes.S n' =>
      if forallb (Bool.eqb v) (slice l i cnt) then Some i else first_from l n' (i + 1) cnt v
  end.
Definition first_fit (l : list bool) (start cnt : Z) (v : bool) : option Z :=
  first_from l (Z.to_nat (zlen l - cnt - start + 1)) start cnt v.

(** What a call returns and leaves; [None] out of range. *)
Definition bits_step (o : bop) (l : list bool) : option (Z * list bool) :=
  match o with
  | Mark i => l' ← zset l i true; Some (0, l')
  | Reset_ i => l' ← zset l i false; Some (0, l')
  | Flip i => x ← zget l i; l' ← zset l i (negb x); Some (0, l')
  | SetBit i v => l' ← zset l i v; Some (0, l')
  | Test_ i => x ← zget l i; Some (b2z x, l)
  | Fill start cnt v =>
      if in_range l start cnt then Some (0, splice l start (replicate (Z.to_nat cnt) v)) else None
  | CountBits start cnt v =>
      if in_range l start cnt
      then Some (zlen (List.filter (Bool.eqb v) (slice l start cnt)), l) else None
  | Contains start cnt v =>
      if in_range l start cnt then Some (b2z (existsb (Bool.eqb v) (slice l start cnt)), l) else None
  | ScanFlip start cnt v =>
      if in_range l start 0 && (0 <=? cnt)
      then match first_fit l start cnt v with
           | Some i => Some (i, splice l i (replicate (Z.to_nat cnt) (negb v)))
           | None => Some (BITMAP_ERROR, l)
           end
      else None
  end.
Fixpoint bits_run (os : list bop) (l : list bool) : option (list Z * list bool) :=
  match os with
  | [] => Some ([], l)
  | o :: os' => '(r, l1) ← bits_step o l; '(rs, l2) ← bits_run os' l1; Some (r :: rs, l2)
  end.

Definition bitmap_step (o : bop) : M bitmap Z :=
  match o with
  | Mark i => bitmap_mark i ;; ret 0
  | Reset_ i => bitmap_reset i ;; ret 0
  | Flip i => bitmap_flip i ;; ret 0
  | SetBit i v => bitmap_set i v ;; ret 0
  | Test_ i => let! x := bitmap_test i in ret (b2z x)
  | Fill start cnt v => bitmap_set_multiple start cnt v ;; ret 0
  | CountBits start cnt v => bitmap_count start cnt v
  | Contains start cnt v => let! x := bitmap_contains start cnt v in ret (b2z x)
  | ScanFlip start cnt v => bitmap_scan_and_flip start cnt v
  end.
Fixpoint bitmap_run (os : list bop) : M bitmap (list Z) :=
  match os with
  | [] => ret []
  | o :: os' => let! r := bitmap_step o in let! rs := bitmap_run os' in ret (r :: rs)
  end.

(** [b] packs the bits [l]. *)
Record packs (b : bitmap) (l : list bool) : Prop := {
  packs_wf : wf b;
  packs_len : zlen l = bit_cnt b;
  packs_bit : forall j, 0 <= j < bit_cnt b -> zget l j = Some (bit b j)
}.

Lemma packs_splice b l start cnt v b' :
  packs b l -> 0 <= start -> 0 <= cnt -> start + cnt <= bit_cnt b ->
  range_set b start cnt v b' -> packs b' (splice l start (replicate (Z.to_nat cnt) v)).
Proof.
  intros [Hw Hl Hb] Hs Hc Hle (Hw' & Hc' & Hb').
  assert (zlen (replicate (Z.to_nat cnt) v) = cnt) as Hr by (rewrite length_replicate; lia).
  split; [done|rewrite zlen_splice; lia|].
  intros j Hj. rewrite zget_splice, Hr, Hb' by lia. case_bool_decide; [|apply Hb; lia].
  rewrite zget_lookup by lia. rewrite lookup_replicate_2; [done|lia].
Qed.

Lemma packs_set b l i v l' b' :
  packs b l -> zset l i v = Some l' -> range_set b i 1 v b' -> packs b' l'.
Proof.
  intros [Hw Hl Hb] Hz (Hw' & Hc' & Hb'). destruct (zset_inv _ _ _ _ Hz) as (Hi & Hl' & Hg).
  split; [done|lia|]. intros j Hj. rewrite Hg, Hb'.
  repeat case_bool_decide; try done; try lia. apply Hb. lia.
Qed.

Lemma packs_slice b l start cnt :
  packs b l -> 0 <= start -> 0 <= cnt -> start + cnt <= bit_cnt b ->
  slice l start cnt = map (bit b) (seqZ start cnt).
Proof.
  intros [Hw Hl Hb] Hs Hc Hle.
  apply zlist_eq_range; [rewrite length_map, length_seqZ, zlen_slice; lia|].
  rewrite zlen_slice by lia. intros i Hi. rewrite zget_slice, Hb by lia.
  rewrite zget_lookup by lia. rewrite list_lookup_fmap, lookup_seqZ_lt by lia. simpl.
  do 2 f_equal. lia.
Qed.

Lemma count_bits_filter b n i v :
  count_bits b n i v = zlen (List.filter (Bool.eqb v) (map (bit b) (seqZ i (Z.of_nat n)))).
Proof.
  revert i. induction n as [|n IH]; intros i; [done|].
  rewrite Nat2Z.inj_succ, seqZ_cons by lia. rewrite Z.pred_succ. simpl. rewrite IH.
  replace (Z.succ i) with (i + 1) by lia.
  replace (Bool.eqb (bit b i) v) with (Bool.eqb v (bit b i)) by (by destruct v, (bit b i)).
  destruct (Bool.eqb v (bit b i)); simpl; lia.
Qed.

Lemma contains_slice b l start cnt v :
  packs b l -> 0 <= start -> 0 <= cnt -> start + cnt <= bit_cnt b ->
  existsb (Bool.eqb v) (slice l start cnt) = contains b start cnt v.
Proof.
  intros. erewrite packs_slice by done. unfold contains.
  induction (seqZ start cnt) as [|x xs IH]; simpl; [done|]. rewrite IH. f_equal.
  by destruct v, (bit b x).
Qed.

Lemma run_slice b l start cnt v :
  packs b l -> 0 <= start -> 0 <= cnt -> start + cnt <= bit_cnt b ->
  forallb (Bool.eqb v) (slice l start cnt) = true <-> run b start cnt v.
Proof.
  intros Hp Hs Hc Hle. erewrite packs_slice by done. rewrite forallb_forall. unfold run. split.
  - intros H j Hj. symmetry. apply eqb_prop, H, in_map, list_elem_of_In, elem_of_seqZ. lia.
  - intros H x (j & <- & Hj%list_elem_of_In%elem_of_seqZ)%in_map_iff.
    rewrite H by lia. apply eqb_reflx.
Qed.

Lemma first_from_spec b l n i cnt v :
  packs b l -> 0 <= i -> 0 <= cnt -> i + Z.of_nat n <= bit_cnt b - cnt + 1 ->
  match first_from l n i cnt v with
  | Some r => i <= r < i + Z.of_nat n /\ run b r cnt v /\ forall j, i <= j < r -> ~ run b j cnt v
  | None => forall j, i <= j < i + Z.of_nat n -> ~ run b j cnt v
  end.
Proof.
  intros Hp. revert i. induction n as [|n IH]; intros i Hi Hc Hn; simpl; [lia|].
  destruct (forallb _ _) eqn:E; [split; [lia|]; split; [|lia]; by eapply run_slice in E; [|done|lia..]|].
  assert (~ run b i cnt v) as Hno.
  { intros Hr. apply (run_slice b l) in Hr; [congruence|done|lia..]. }
  specialize (IH (i + 1)). destruct (first_from l n (i + 1) cnt v) as [r|].
  - destruct IH as (H1 & H2 & H3); [lia..|]. split; [lia|]. split; [done|].
    intros j Hj. destruct (decide (j = i)) as [->|]; [done|]. apply H3. lia.
  - intros j Hj. destruct (decide (j = i)) as [->|]; [done|]. apply IH; lia.
Qed.

(** bitmap_scan's result is the first fit. *)
Lemma first_run_fit b l start cnt v r :
  packs b l -> 0 <= start <= bit_cnt b -> 0 <= cnt -> first_run b start cnt v r ->
  match first_fit l start cnt v with
  | Some i => r = i /\ r <> BITMAP_ERROR /\ start <= i /\ i + cnt <= bit_cnt b
  | None => r = BITMAP_ERROR
  end.
Proof.
  intros Hp Hs Hc Hr. pose proof (packs_len _ _ Hp) as Hl. pose proof (wf_cnt _ (packs_wf _ _ Hp)) as Hcnt.
  pose proof (first_from_spec b l (Z.to_nat (zlen l - cnt - start + 1)) start cnt v Hp) as Hf.
  unfold first_fit.
  destruct (decide (bit_cnt b - cnt - start + 1 < 0)) as [Hneg|Hpos].
  { replace (Z.to_nat _) with O by lia. simpl. destruct Hr as [|[-> _]]; [lia|done]. }
  destruct (first_from _ _ _ _ _) as [i|].
  - destruct Hf as (H1 & H2 & H3); [lia..|]. assert (i + cnt <= bit_cnt b) as Hi by lia.
    destruct Hr as [(H4 & H5 & H6 & H7)|[-> H4]]; [|exfalso; eapply H4; [| |exact H2]; lia].
    assert (r = i) as ->; [|split_and!; lia || done].
    destruct (Z.lt_trichotomy r i) as [Hlt|[->|Hlt]]; [|done|].
    + exfalso. eapply H3; [|exact H6]. lia.
    + exfalso. eapply H7; [|exact H2]. lia.
  - destruct Hr as [(H4 & H5 & H6 & H7)|[-> _]]; [|done].
    exfalso. eapply Hf; [lia..| |exact H6]. lia.
Qed.

Lemma in_range_true l start cnt :
  in_range l start cnt = true <-> 0 <= start /\ 0 <= cnt /\ start + cnt <= zlen l.
Proof. unfold in_range. lia. Qed.

Lemma bitmap_step_wp b l o r l' (Q : Z -> bitmap -> Prop) :
  packs b l -> bits_step o l = Some (r, l') ->
  (forall b', packs b' l' -> Q r b') -> wp (bitmap_step o) Q b.
Proof.
  intros Hp Hs HQ. destruct (packs_wf _ _ Hp) as [Hc Hw Hb]. pose proof (packs_wf _ _ Hp) as Hwf.
  pose proof (packs_len _ _ Hp) as Hl.
  destruct o as [i|i|i|i v|i|start cnt v|start cnt v|start cnt v|start cnt v]; simpl in *;
    repeat match goal with
    | H : (_ ← ?m; _) = Some _ |- _ => apply bind_Some in H as (? & ? & H)
    | H : zset _ _ _ = Some _ |- _ => let Hz := fresh "Hz" in
        pose proof H as Hz; apply zset_inv in Hz as (? & _ & _); revert H
    | H : zget _ _ = Some _ |- _ => let Hg := fresh "Hg" in
        pose proof (zget_range _ _ _ H) as Hg; rewrite (packs_bit _ _ Hp) in H by lia; revert H
    | H : (if in_range _ _ _ then _ else _) = Some _ |- _ =>
        let E := fresh "E" in destruct (in_range _ _ _) eqn:E; [apply in_range_true in E|done]
    end; intros; simplify_eq; wp_steps.
  - apply bitmap_mark_wp; [done|lia|]. intros. apply wp_ret, HQ. by eapply packs_set.
  - apply bitmap_reset_wp; [done|lia|]. intros. apply wp_ret, HQ. by eapply packs_set.
  - apply bitmap_flip_wp; [done|lia|]. intros. apply wp_ret, HQ. by eapply packs_set.
  - apply bitmap_set_wp; [done|lia|]. intros. apply wp_ret, HQ. by eapply packs_set.
  - apply bitmap_test_wp; [done|lia|]. by apply wp_ret, HQ.
  - apply bitmap_set_multiple_wp; [done|lia..|]. intros. apply wp_ret, HQ. eapply packs_splice; [done|lia..|done].
  - apply bitmap_count_wp; [done|lia..|].
    rewrite count_bits_filter, Z2Nat.id by lia. erewrite <- packs_slice by (done || lia). by apply HQ.
  - apply bitmap_contains_wp; [done|lia..|]. apply wp_ret.
    erewrite <- contains_slice by (done || lia). by apply HQ.
  - destruct (in_range l start 0 && (0 <=? cnt)) eqn:E; [|done].
    apply andb_true_iff in E as [(? & _ & ?)%in_range_true ?%Z.leb_le].
    apply bitmap_scan_and_flip_wp; [done|lia..| |].
    + intros z Hz ->. pose proof (first_run_fit b l start cnt v _ Hp ltac:(lia) ltac:(lia) Hz) as Hf.
      destruct (first_fit _ _ _ _) as [i|]; [by destruct Hf as (? & ? & _)|]. simplify_eq. by apply HQ.
    + intros z b' Hz Hne Hset. pose proof (first_run_fit b l start cnt v _ Hp ltac:(lia) ltac:(lia) Hz) as Hf.
      destruct (first_fit _ _ _ _) as [i|]; [|done]. destruct Hf as (-> & _ & ? & ?). simplify_eq.
      apply HQ. eapply packs_splice; [done|lia..|done].
Qed.

Lemma bitmap_run_wp b l os rs l' (Q : list Z -> bitmap -> Prop) :
  packs b l -> bits_run os l = Some (rs, l') ->
  (forall b', packs b' l' -> Q rs b') -> wp (bitmap_run os) Q b.
Proof.
  revert b l rs l' Q. induction os as [|o os IH]; intros b l rs l' Q Hp Hs HQ; simpl in *.
  { simplify_eq. by apply wp_ret, HQ. }
  apply bind_Some in Hs as ([r l1] & Hs & H). apply bind_Some in H as ([rs' l2] & H & [= <- <-]).
  apply wp_bind. eapply bitmap_step_wp; [done..|]. intros b1 Hb1.
  apply wp_bind. eapply IH; [done..|]. intros b2 Hb2. by apply wp_ret, HQ.
Qed.

(* ------------------------------------------------------------------ *)
(** ** Properties                                                      *)
(* ------------------------------------------------------------------ *)

(** C10: Refinement: a bitmap of [cnt] bits, fresh from bitmap_create, on
    which any sequence of mark, reset, flip, set, test, set_multiple,
    count, contains and scan_and_flip calls is made, all of them in range,
    returns what the same operations return on a list of [cnt] booleans
    that starts all false, without output or undefined behaviour, and
    packs the resulting list. A scan_and_flip for no bits returns the
    position it starts from, as in the code; the comment says 0. *)
Theorem bitmap_refines_bits cnt os rs l :
  0 <= cnt < BITMAP_ERROR -> bits_run os (replicate (Z.to_nat cnt) false) = Some (rs, l) ->
  exists b b', bitmap_create cnt tt = Ok b tt [] /\ bitmap_run os b = Ok rs b' [] /\ packs b' l.
Proof.
  intros Hc Hs. assert (wp (bitmap_create cnt) (fun b _ => packs b (replicate (Z.to_nat cnt) false)) tt) as H.
  { apply bitmap_create_wp; [done|]. intros b Hw Hb Hr. split; [done|rewrite length_replicate; lia|].
    intros j Hj. rewrite Hr by lia. rewrite zget_lookup by lia. apply lookup_replicate_2. lia. }
  apply wp_Ok in H as (b & [] & E & Hp). exists b.
  assert (wp (bitmap_run os) (fun r b' => r = rs /\ packs b' l) b) as H by by eapply bitmap_run_wp.
  apply wp_Ok in H as (r & b' & E' & -> & Hp'). by exists b'.
Qed.

Lemma bitmap_refines_bits_witness :
  exists b b', bitmap_create 70 tt = Ok b tt [] /\
    bitmap_run [Mark 0; Flip 66; ScanFlip 0 65 false; ScanFlip 0 66 false; CountBits 1 69 true;
                Reset_ 3; Test_ 3; Fill 60 10 false; Contains 60 10 true; SetBit 69 true] b
    = Ok [0; 0; 1; BITMAP_ERROR; 66; 0; 0; 0; 0; 0] b' [] /\
    packs b' ([true; true; true; false] ++ replicate 56 true ++ replicate 9 false ++ [true]).
Proof.
  apply (bitmap_refines_bits 70); [unfold BITMAP_ERROR; lia|]. vm_compute. reflexivity.
Defined.

(** A group of no bits is found where the search starts. *)
Theorem scan_and_flip_none b start v :
  wf b -> 0 <= start <= bit_cnt b ->
  exists b', bitmap_scan_and_flip start 0 v b = Ok start b' [] /\ forall j, bit b' j = bit b j.
Proof.
  intros Hw Hs. assert (forall i, run b i 0 v) as Hrun by (intros i j Hj; lia).
  assert (forall r, first_run b start 0 v r -> r = start) as Hr.
  { intros r [(Hr & _ & _ & Hno)|[_ Hno]].
    - destruct (decide (r = start)); [done|]. by destruct (Hno start ltac:(lia)).
    - by destruct (Hno start ltac:(lia) ltac:(lia)). }
  assert (wp (bitmap_scan_and_flip start 0 v) (fun r b' => r = start /\ forall j, bit b' j = bit b j) b) as H.
  { apply bitmap_scan_and_flip_wp; [done|lia..| |].
    - intros r Hf _. split; [by apply Hr|done].
    - intros r b' Hf _ (_ & _ & Hb). split; [by apply Hr|]. intros j. rewrite Hb.
      by rewrite bool_decide_eq_false_2 by lia. }
  apply wp_Ok in H as (r & b' & E & -> & Hb). by exists b'.
Qed.

(** Conservation: a successful bitmap_scan_and_flip, from any start in
    range and for either value, turns exactly [cnt] bits of that value, so
    the bitmap holds [cnt] fewer of them, and when it returns BITMAP_ERROR
    the bitmap is the same. *)
Theorem scan_and_flip_count b start cnt v r b' tr :
  wf b -> 0 <= start <= bit_cnt b -> 0 <= cnt ->
  bitmap_scan_and_flip start cnt v b = Ok r b' tr ->
  tr = [] /\ bit_cnt b' = bit_cnt b /\
  (r = BITMAP_ERROR -> b' = b) /\
  (r <> BITMAP_ERROR ->
   count_bits b' (Z.to_nat (bit_cnt b')) 0 v = count_bits b (Z.to_nat (bit_cnt b)) 0 v - cnt).
Proof.
  intros Hw Hs Hc E.
  assert (wp (bitmap_scan_and_flip start cnt v) (fun r b' => bit_cnt b' = bit_cnt b /\
    (r = BITMAP_ERROR -> b' = b) /\ (r <> BITMAP_ERROR ->
     count_bits b' (Z.to_nat (bit_cnt b')) 0 v = count_bits b (Z.to_nat (bit_cnt b)) 0 v - cnt)) b) as H.
  { apply bitmap_scan_and_flip_wp; [done..| |]; [naive_solver|].
    intros z b1 [(H1 & H2 & H3 & H4)|[? _]] Hne Hset; [|done]. split; [apply Hset|]. split; [done|].
    intros _. eapply count_bits_range_set; [| | | |exact Hset]; done || lia. }
  unfold wp in H. by rewrite E in H.
Qed.

Lemma scan_and_flip_count_witness :
  let b := mkBitmap 70 [2 ^ 64 - 1; 5] in
  exists b', bitmap_scan_and_flip 2 3 false b = Ok 67 b' [] /\
    count_bits b' (Z.to_nat (bit_cnt b')) 0 false = 1.
Proof.
  intros b. exists (mkBitmap 70 [2 ^ 64 - 1; 61]). split; [by vm_compute|].
  assert (wf b) as Hb.
  { split; [done|by vm_compute|]. repeat constructor; by vm_compute. }
  destruct (scan_and_flip_count b 2 3 false 67 (mkBitmap 70 [2 ^ 64 - 1; 61]) [] Hb)
    as (_ & _ & _ & H); [done|done|by vm_compute|].
  rewrite H by done. by vm_compute.
Defined.
End Bitmap.
