(* ===== verification/BitmapBuf.v ===== *)
(** * BitmapBuf: bitmaps over a buffer (a3/fs/bitmap.c)

    The functions that build a bitmap in a given storage or from given
    bits, and the end of a bitmap.  The bits are those of the buffer, in
    little-endian order: bit [i] is bit [i mod 8] of byte [i / 8]. *)
From S2P Require Import Prelude Bitmap.

Module BitmapBuf.
Import Bitmap.

(* ------------------------------------------------------------------ *)
(** ** Operations                                                      *)
(* ------------------------------------------------------------------ *)

(** sizeof(struct bitmap): a count and a pointer. *)
Definition SIZEOF_BITMAP : Z := 16.
Definition bitmap_buf_size (cnt : Z) : Z := u64 (SIZEOF_BITMAP + byte_cnt cnt).

(** [block] is the storage: the structure is its first bytes, the elements
    follow it, with what the storage held. *)
Definition bitmap_create_in_buf {S} (cnt : Z) (block : list Z) (block_size : Z) : M S bitmap :=
  assert_ (bitmap_buf_size cnt <=? block_size) "block_size >= bitmap_buf_size(bit_cnt)" ;;
  let! area := need (if SIZEOF_BITMAP <=? zlen block then Some (drop (Z.to_nat SIZEOF_BITMAP) block) else None) in
  let elems := (Z.to_nat (elem_cnt cnt) `min` (length area / 8))%nat in
  let! r := locally (mkBitmap cnt (bytes_words 8 elems area)) (bitmap_set_all false) in
  ret (snd r).

(** [None] is a NULL [buf]; malloc is taken to succeed, so the other two
    assertions hold. *)
Definition bitmap_create_from_buf {S} (cnt : Z) (buf : option (list Z)) : M S bitmap :=
  let! b := bitmap_create cnt in
  assert_ (bool_decide (is_Some buf)) "buf != NULL" ;;
  let! src := need buf in
  let! bytes := need (if byte_cnt cnt <=? zlen src then Some (slice src 0 (byte_cnt cnt)) else None) in
  ret (mkBitmap (bit_cnt b) (bytes_words 8 (length (bits b)) bytes)).

Definition bitmap_get_bits : M bitmap (list Z) := gets bits.

(** On the bitmaps that were allocated and not freed. *)
Definition bitmap_destroy (b : option positive) : M (gmap positive bitmap) unit :=
  match b with
  | None => ret tt
  | Some p =>
      let! live := get in
      let! _ := need (live !! p) in
      put (delete p live)
  end.

(* ------------------------------------------------------------------ *)
(** ** The bits of a buffer                                            *)
(* ------------------------------------------------------------------ *)

Lemma le_value_testbit bs i :
  Forall is_u8 bs -> 0 <= i ->
  Z.testbit (le_value bs) i = Z.testbit (default 0 (zget bs (i / 8))) (i mod 8).
Proof.
  intros H. revert i. induction H as [|b bs Hb Hbs IH]; intros i Hi; simpl.
  { unfold zget. case_bool_decide; by rewrite !Z.testbit_0_l. }
  unfold is_u8 in Hb. destruct (decide (i < 8)).
  - rewrite Z.div_small, Z.mod_small by lia. simpl.
    rewrite <- (Z.mod_pow2_bits_low _ 8) by lia. f_equal.
    change (2 ^ 8) with 256. rewrite (Z.mul_comm 256), Z.mod_add by lia. apply Z.mod_small. lia.
  - replace (Z.testbit (b + 256 * le_value bs) i) with (Z.testbit (le_value bs) (i - 8)).
    + rewrite IH by lia. assert (i / 8 = (i - 8) / 8 + 1) as -> by (Z.to_euclidean_division_equations; lia).
      assert (i mod 8 = (i - 8) mod 8) as -> by (Z.to_euclidean_division_equations; lia). do 2 f_equal.
      assert (0 <= (i - 8) / 8) by (apply Z.div_pos; lia). unfold zget.
      rewrite !bool_decide_eq_true_2 by lia. by replace (Z.to_nat ((i - 8) / 8 + 1)) with (S (Z.to_nat ((i - 8) / 8))) by lia.
    + replace i with (i - 8 + 8) at 2 by lia. rewrite <- Z.div_pow2_bits by lia. f_equal.
      change (2 ^ 8) with 256. rewrite (Z.mul_comm 256), Z.div_add, Z.div_small by lia. done.
Qed.

Lemma bytes_words_lookup k n bs j :
  (j < n)%nat -> bytes_words k n bs !! j = Some (le_value (take k (drop (k * j) bs))).
Proof.
  revert bs j. induction n as [|n IH]; intros bs j Hj; [lia|]. unfold bytes_words; fold bytes_words.
  destruct j as [|j]; simpl; [by rewrite Nat.mul_0_r, drop_0|]. rewrite IH by lia.
  rewrite drop_drop. do 4 f_equal. lia.
Qed.

(** Bit [i] of a bitmap whose elements were copied from [bs]. *)
Lemma bit_of_bytes cnt n bs i :
  Forall is_u8 bs -> 0 <= i < 64 * Z.of_nat n -> (8 * n <= length bs)%nat ->
  bit (mkBitmap cnt (bytes_words 8 n bs)) i = Z.testbit (default 0 (zget bs (i / 8))) (i mod 8).
Proof.
  intros Hu Hi Hl. unfold bit, elem_idx, ELEM_BITS. simpl. unfold zget at 1.
  assert (0 <= i / 64 < Z.of_nat n) as Hj by (Z.to_euclidean_division_equations; lia).
  rewrite bool_decide_eq_true_2, bytes_words_lookup by lia. simpl.
  rewrite le_value_testbit; [|by apply Forall_take, Forall_drop|apply Z.mod_pos_bound; lia].
  assert (i mod 64 / 8 = i / 8 - 8 * (i / 64)) as -> by (Z.to_euclidean_division_equations; lia).
  assert ((i mod 64) mod 8 = i mod 8) as -> by (Z.to_euclidean_division_equations; lia).
  assert (0 <= i / 8 - 8 * (i / 64) < 8) by (Z.to_euclidean_division_equations; lia).
  do 2 f_equal. unfold zget. rewrite !bool_decide_eq_true_2 by lia.
  rewrite lookup_take_lt by lia. rewrite lookup_drop. f_equal. lia.
Qed.

Lemma elem_cnt_bytes cnt :
  0 <= cnt < BITMAP_ERROR -> byte_cnt cnt = 8 * elem_cnt cnt /\ 0 <= cnt <= 64 * elem_cnt cnt /\ byte_cnt cnt <= 2 ^ 30.
Proof.
  unfold byte_cnt, BITMAP_ERROR. intros. rewrite elem_cnt_val by lia. unfold u64.
  rewrite Z.mod_small by (Z.to_euclidean_division_equations; lia). Z.to_euclidean_division_equations; lia.
Qed.

Lemma bytes_words_wf cnt bs :
  0 <= cnt < BITMAP_ERROR -> Forall is_u8 bs -> byte_cnt cnt <= zlen bs ->
  wf (mkBitmap cnt (bytes_words 8 (Z.to_nat (elem_cnt cnt)) bs)).
Proof.
  intros Hc Hu Hl. destruct (elem_cnt_bytes cnt Hc) as (E & H1 & _).
  split; simpl; [done|rewrite length_bytes_words; lia|]. apply (bytes_words_bound 8); [done|lia].
Qed.

(* ------------------------------------------------------------------ *)
(** ** What the operations do                                          *)
(* ------------------------------------------------------------------ *)

Lemma bitmap_create_from_buf_wp {S} cnt src (Q : bitmap -> S -> Prop) s :
  0 <= cnt < BITMAP_ERROR -> Forall is_u8 src -> byte_cnt cnt <= zlen src ->
  (forall b, wf b -> bit_cnt b = cnt -> words_bytes 8 (bits b) = slice src 0 (byte_cnt cnt) ->
     (forall i, 0 <= i < cnt -> bit b i = Z.testbit (default 0 (zget src (i / 8))) (i mod 8)) -> Q b s) ->
  wp (bitmap_create_from_buf cnt (Some src)) Q s.
Proof.
  intros Hc Hu Hl HQ. destruct (elem_cnt_bytes cnt Hc) as (E & H1 & _). unfold bitmap_create_from_buf. wp_step.
  apply bitmap_create_wp; [done|]. intros b [_ Hlen _] Hcnt _. rewrite Hcnt in Hlen.
  wp_step. apply wp_assert; [done|]. wp_step. eapply wp_need; [done|]. wp_step.
  rewrite (proj2 (Z.leb_le _ _)) by done. eapply wp_need; [done|]. wp_step.
  assert (zlen (slice src 0 (byte_cnt cnt)) = byte_cnt cnt) as Hz by (apply zlen_slice; lia).
  assert (Forall is_u8 (slice src 0 (byte_cnt cnt))) as Hus by by apply Forall_take, Forall_drop.
  replace (length (bits b)) with (Z.to_nat (elem_cnt cnt)) by lia. rewrite Hcnt.
  apply HQ; [apply bytes_words_wf; [done|done|lia]|done| |].
  - apply words_bytes_words; [done|lia].
  - intros i Hi. rewrite bit_of_bytes by (done || lia). do 2 f_equal.
    assert (0 <= i / 8 < byte_cnt cnt) by (Z.to_euclidean_division_equations; lia).
    rewrite zget_slice by lia. by rewrite Z.add_0_l.
Qed.

(** A bitmap made from the elements of another is equal to it. *)
Lemma bitmap_from_its_bits {S} b (s : S) :
  wf b -> wp (let! bs := locally b bitmap_get_bits in bitmap_create_from_buf (bit_cnt b) (Some (words_bytes 8 (fst bs))))
             (fun b' s' => b' = b /\ s' = s) s.
Proof.
  intros [Hc Hl Hw]. destruct (elem_cnt_bytes _ Hc) as (E & _ & _). wp_step. apply wp_locally.
  unfold bitmap_get_bits, wp, gets. simpl. split; [done|].
  apply bitmap_create_from_buf_wp; [done|apply words_bytes_u8|rewrite length_words_bytes; lia|].
  intros b' [_ Hl' Hw'] Hcnt Hb _. split; [|done]. destruct b as [n ws], b' as [n' ws']; simpl in *. subst n'. f_equal.
  assert (slice (words_bytes 8 ws) 0 (byte_cnt n) = words_bytes 8 ws) as Hs.
  { unfold slice. rewrite drop_0. apply take_ge. rewrite length_words_bytes. lia. }
  rewrite Hs in Hb. rewrite <- (bytes_words_bytes 8 ws []) by exact Hw. rewrite <- (bytes_words_bytes 8 ws' []) by exact Hw'.
  rewrite Hb. f_equal. lia.
Qed.

(** In a storage of the size bitmap_buf_size says, the bits are cleared;
    those behind the last in the last element keep what the storage held. *)
Lemma bitmap_create_in_buf_wp {S} cnt block block_size (Q : bitmap -> S -> Prop) s :
  0 <= cnt < BITMAP_ERROR -> Forall is_u8 block -> bitmap_buf_size cnt <= block_size <= zlen block ->
  (forall b, range_set (mkBitmap cnt (bytes_words 8 (Z.to_nat (elem_cnt cnt)) (drop 16 block))) 0 cnt false b -> Q b s) ->
  wp (bitmap_create_in_buf cnt block block_size) Q s.
Proof.
  intros Hc Hu Hl HQ. destruct (elem_cnt_bytes cnt Hc) as (E & H1 & H2).
  assert (bitmap_buf_size cnt = 16 + byte_cnt cnt) as Hs.
  { unfold bitmap_buf_size, SIZEOF_BITMAP, u64. apply Z.mod_small. lia. }
  assert (length (drop 16 block) = length block - 16)%nat as Hd by apply length_drop.
  unfold bitmap_create_in_buf, SIZEOF_BITMAP. wp_step. apply wp_assert; [apply Z.leb_le; lia|]. wp_step.
  rewrite (proj2 (Z.leb_le 16 _)) by lia. eapply wp_need; [done|]. wp_step. change (Z.to_nat 16) with 16%nat.
  rewrite Nat.min_l by (rewrite Hd; apply Nat.div_le_lower_bound; lia).
  apply wp_locally. unfold bitmap_set_all, bitmap_size. wp_steps. apply bitmap_set_multiple_wp; [|simpl; lia..|].
  - apply bytes_words_wf; [done|by apply Forall_drop|lia].
  - intros b' Hb'. apply wp_ret. by apply HQ.
Qed.

Lemma bitmap_destroy_wp p b live (Q : unit -> gmap positive bitmap -> Prop) :
  live !! p = Some b -> Q tt (delete p live) -> wp (bitmap_destroy (Some p)) Q live.
Proof. intros Hp HQ. unfold bitmap_destroy. wp_steps; [exact Hp|]. wp_steps. exact HQ. Qed.

(** A bitmap destroyed twice is a double free. *)
Lemma bitmap_destroy_twice p live : (bitmap_destroy (Some p) ;; bitmap_destroy (Some p)) live = Stuck.
Proof.
  unfold bitmap_destroy, bind, get, need, put. destruct (live !! p); simpl; [|done]. by rewrite lookup_delete_eq.
Qed.
End BitmapBuf.
