(* ===== verification/Block.v ===== *)
(** * Block: the block device of a3/fs/block.c over the disk file of
    a3/fs/ide.c *)
From S2P Require Import Prelude.

Module Block.

Definition BLOCK_SECTOR_SIZE : Z := 512.

(** The registered hard drive: struct block (block.c) with its driver data
    (struct ata_disk, ide.c).  [image] is the contents of the file that
    [fd] is open on. *)
Record block := mkBlock {
  name : string;
  size : Z;               (* in sectors *)
  read_cnt : Z;
  write_cnt : Z;
  image : list Z
}.

(* ------------------------------------------------------------------ *)
(** ** The IDE driver (ide.c)                                          *)
(* ------------------------------------------------------------------ *)

(** [lseek(fd, sec_no * BLOCK_SECTOR_SIZE, SEEK_SET)]: the product is one
    of uint32_t. *)
Definition ide_offset (sec_no : Z) : Z := u32 (sec_no * BLOCK_SECTOR_SIZE).

(** read(fd, buffer, 512): the bytes the file has from the offset, at most
    512 of them; the rest of the buffer keeps its contents. *)
Definition ide_read (sec_no : Z) (buffer : list Z) : M block (list Z) :=
  let! d := get in
  ret (splice buffer 0 (slice (image d) (ide_offset sec_no) BLOCK_SECTOR_SIZE)).

(** write(fd, buffer, 512): past the end of the file the gap is filled
    with zeros. *)
Definition ide_write (sec_no : Z) (buffer : list Z) : M block unit :=
  let off := ide_offset sec_no in
  modify (fun d =>
    let img := image d ++ replicate (Z.to_nat (off - zlen (image d))) 0 in
    mkBlock (name d) (size d) (read_cnt d) (write_cnt d)
            (splice img off (take 512 buffer))).

(** identify_ata_device: the capacity of the disk file. *)
Definition identify_ata_device (img : list Z) : block :=
  mkBlock "hda" (u32 (zlen img / BLOCK_SECTOR_SIZE)) 0 0 img.

(* ------------------------------------------------------------------ *)
(** ** The block layer (block.c)                                       *)
(* ------------------------------------------------------------------ *)

Definition check_sector (sector : Z) : M block unit :=
  let! b := get in
  when (size b <=? sector) (panic "Access past end of device").

Definition block_read (sector : Z) (buffer : list Z) : M block (list Z) :=
  check_sector sector ;;
  let! r := ide_read sector buffer in
  modify (fun b => mkBlock (name b) (size b) (u64 (read_cnt b + 1)) (write_cnt b) (image b)) ;;
  ret r.

Definition block_write (sector : Z) (buffer : list Z) : M block unit :=
  check_sector sector ;;
  ide_write sector buffer ;;
  modify (fun b => mkBlock (name b) (size b) (read_cnt b) (u64 (write_cnt b + 1)) (image b)).

Definition block_size : M block Z := gets size.

(* ------------------------------------------------------------------ *)
(** ** Sectors                                                         *)
(* ------------------------------------------------------------------ *)

Definition sector_at (b : block) (s : Z) : list Z :=
  slice (image b) (s * BLOCK_SECTOR_SIZE) BLOCK_SECTOR_SIZE.

(** A disk whose byte offsets all fit in 32 bits: up to 4 GiB. *)
Record wf (b : block) : Prop := {
  wf_size : 0 <= size b <= 2 ^ 23;
  wf_image : size b * BLOCK_SECTOR_SIZE <= zlen (image b);
  wf_bytes : Forall is_u8 (image b)
}.

Lemma zlen_sector_at b s : wf b -> 0 <= s < size b -> zlen (sector_at b s) = 512.
Proof.
  intros [H1 H2 _] Hs. unfold sector_at, BLOCK_SECTOR_SIZE in *. apply zlen_slice; lia.
Qed.

Lemma ide_offset_val s : 0 <= s < 2 ^ 23 -> ide_offset s = s * 512.
Proof. intros. unfold ide_offset, u32, BLOCK_SECTOR_SIZE. apply Z.mod_small. lia. Qed.

Lemma block_read_wp b s buf (Q : list Z -> block -> Prop) :
  wf b -> 0 <= s < size b -> zlen buf = 512 ->
  (forall b', wf b' -> size b' = size b -> image b' = image b -> Q (sector_at b s) b') ->
  wp (block_read s buf) Q b.
Proof.
  intros Hb Hs Hbuf HQ. unfold block_read, check_sector, ide_read. wp_steps; [lia|].
  rewrite ide_offset_val by (destruct Hb; lia).
  rewrite splice_all by (rewrite zlen_slice; destruct Hb; unfold BLOCK_SECTOR_SIZE in *; lia).
  apply HQ; [destruct Hb; by split|done..].
Qed.

Lemma block_write_wp b s buf (Q : unit -> block -> Prop) :
  wf b -> 0 <= s < size b -> zlen buf = 512 -> Forall is_u8 buf ->
  (forall b', wf b' -> size b' = size b ->
     (forall t, 0 <= t -> sector_at b' t = if bool_decide (t = s) then buf else sector_at b t) ->
     Q tt b') ->
  wp (block_write s buf) Q b.
Proof.
  intros Hb Hs Hbuf Hu HQ. unfold block_write, check_sector, ide_write. wp_steps; [lia|].
  destruct Hb as [H1 H2 H3]. unfold BLOCK_SECTOR_SIZE in *.
  rewrite ide_offset_val by lia. replace (Z.to_nat (s * 512 - zlen (image b))) with O by lia.
  simpl. rewrite app_nil_r, take_ge by lia.
  apply HQ; [split; simpl; unfold BLOCK_SECTOR_SIZE|done|].
  - done.
  - rewrite zlen_splice; lia.
  - by apply Forall_splice.
  - intros t Ht. unfold sector_at, BLOCK_SECTOR_SIZE. simpl. case_bool_decide as Ets.
    + subst. apply zlist_eq_range; [rewrite zlen_slice, Hbuf; [done|lia|lia|]|].
      { rewrite zlen_splice; lia. }
      intros i Hi. rewrite zlen_slice in Hi; rewrite ?zlen_splice; try lia.
      rewrite zget_slice, zget_splice by lia. rewrite bool_decide_eq_true_2 by lia.
      f_equal. lia.
    + apply zlist_eq_range; [rewrite !zlen_slice_min, zlen_splice; lia|].
      intros i Hi. rewrite zlen_slice_min in Hi by lia.
      rewrite !zget_slice, zget_splice by lia.
      rewrite bool_decide_eq_false_2; [done|]. nia.
Qed.

(* ------------------------------------------------------------------ *)
(** ** Properties                                                      *)
(* ------------------------------------------------------------------ *)

(** C40: Bounds: the byte offset of a sector is computed in 32 bits, so on a
    disk of more than [2^23] sectors (4 GiB) the sectors [2^23] apart are
    the same bytes: a read or a write of sector [s], which check_sector
    accepts, is one of sector [s mod 2^23]. *)
Theorem sectors_beyond_4GiB_alias b s buf :
  0 <= s < size b ->
  block_read s buf b = block_read (s mod 2 ^ 23) buf b /\
  block_write s buf b = block_write (s mod 2 ^ 23) buf b.
Proof.
  intros Hs. pose proof (Z.mod_le s (2 ^ 23)). pose proof (Z.mod_pos_bound s (2 ^ 23)).
  assert (ide_offset (s mod 2 ^ 23) = ide_offset s) as E.
  { unfold ide_offset, u32, BLOCK_SECTOR_SIZE. Z.to_euclidean_division_equations. lia. }
  assert (forall t, 0 <= t < size b -> check_sector t b = Ok tt b []) as Hc.
  { intros t Ht. unfold check_sector, bind, get, when. simpl.
    by rewrite (proj2 (Z.leb_gt _ _)) by lia. }
  split; [unfold block_read|unfold block_write];
    rewrite (bind_Ok_nil _ _ _ _ _ (Hc s Hs)), (bind_Ok_nil _ _ _ _ _ (Hc (s mod 2 ^ 23) ltac:(lia)));
    [unfold ide_read|unfold ide_write]; by rewrite E.
Qed.

Lemma sectors_beyond_4GiB_alias_witness :
  let b := mkBlock "hda" (2 ^ 23 + 8) 0 0 (replicate 512 7) in
  block_read (2 ^ 23) (replicate 512 0) b = block_read 0 (replicate 512 0) b /\
  block_write (2 ^ 23) (replicate 512 9) b = block_write 0 (replicate 512 9) b.
Proof.
  intros b. split.
  - apply (sectors_beyond_4GiB_alias b (2 ^ 23) (replicate 512 0)). done.
  - apply (sectors_beyond_4GiB_alias b (2 ^ 23) (replicate 512 9)). done.
Defined.
End Block.
