(* ===== verification/Store.v ===== *)
(** * Store: what the buffer cache promises to the file system

    The inode layer (Inode.v) reads and writes whole sectors through
    [buffer_cache_read] and [buffer_cache_write] only.  This interface says
    what it relies on; Cache.v provides it. *)
From S2P Require Import Prelude.

Definition SECTOR : Z := 512.

Class BlockStore (B : Type) := {
  bs_read : Z -> M B (list Z);
  bs_write : Z -> list Z -> M B unit;
  (** Representation invariant, number of sectors, contents. *)
  bs_inv : B -> Prop;
  bs_size : B -> Z;
  bs_sector : B -> Z -> list Z;
  bs_size_bound : forall b, bs_inv b -> 0 <= bs_size b <= 2 ^ 23;
  bs_sector_ok : forall b s, bs_inv b -> 0 <= s < bs_size b ->
    zlen (bs_sector b s) = SECTOR /\ Forall is_u8 (bs_sector b s);
  (** Reading a sector returns its contents and changes none. *)
  bs_read_wp : forall b s (Q : list Z -> B -> Prop),
    bs_inv b -> 0 <= s < bs_size b ->
    (forall b', bs_inv b' -> bs_size b' = bs_size b ->
       (forall t, 0 <= t < bs_size b -> bs_sector b' t = bs_sector b t) ->
       Q (bs_sector b s) b') ->
    wp (bs_read s) Q b;
  (** Writing a sector replaces its contents and changes no other. *)
  bs_write_wp : forall b s data (Q : unit -> B -> Prop),
    bs_inv b -> 0 <= s < bs_size b -> zlen data = SECTOR -> Forall is_u8 data ->
    (forall b', bs_inv b' -> bs_size b' = bs_size b ->
       (forall t, 0 <= t < bs_size b ->
          bs_sector b' t = if bool_decide (t = s) then data else bs_sector b t) ->
       Q tt b') ->
    wp (bs_write s data) Q b
}.
