(* ===== verification/Cache.v ===== *)
(** * Cache: the buffer cache of a3/fs/cache.c *)
From S2P Require Import Prelude Block Store.

Module Cache.
Import Block.

Definition BUFFER_CACHE_SIZE : nat := 64.

(* ------------------------------------------------------------------ *)
(** ** Data                                                            *)
(* ------------------------------------------------------------------ *)

(** struct buffer_cache_entry_t. *)
Record entry := mkEntry {
  occupied : bool;
  disk_sector : Z;
  buffer : list Z;
  dirty : bool;
  access : bool
}.

(** The static array [cache], the static variable [clock] of
    buffer_cache_evict, and the device [fs_device]. *)
Record cache := mkCache { entries : list entry; clock : Z; device : block }.

(** The static storage is zeroed before main. *)
Definition zero_entry : entry := mkEntry false 0 (replicate 512 0) false false.
Definition static_cache (dev : block) : cache :=
  mkCache (replicate BUFFER_CACHE_SIZE zero_entry) 0 dev.

Definition get_entry (i : Z) : M cache entry :=
  let! c := get in need (zget (entries c) i).
Definition set_entry (i : Z) (e : entry) : M cache unit :=
  let! c := get in
  let! es := need (zset (entries c) i e) in
  put (mkCache es (clock c) (device c)).
Definition on_device {A} (m : M block A) : M cache A :=
  zoom device (fun d c => mkCache (entries c) (clock c) d) m.
Definition set_clock (k : Z) : M cache unit :=
  modify (fun c => mkCache (entries c) k (device c)).

(* ------------------------------------------------------------------ *)
(** ** Operations                                                      *)
(* ------------------------------------------------------------------ *)

Definition buffer_cache_init : M cache unit :=
  for_ BUFFER_CACHE_SIZE 0 (fun i =>
    let! e := get_entry i in
    set_entry i (mkEntry false (disk_sector e) (buffer e) false (access e))).

Definition buffer_cache_flush (i : Z) : M cache unit :=
  let! e := get_entry i in
  assert_ (occupied e) "entry != NULL && entry->occupied == true" ;;
  when (dirty e)
    (on_device (block_write (disk_sector e) (buffer e)) ;;
     set_entry i (mkEntry (occupied e) (disk_sector e) (buffer e) false (access e))).

Definition buffer_cache_close : M cache unit :=
  for_ BUFFER_CACHE_SIZE 0 (fun i =>
    let! e := get_entry i in
    when (occupied e) (buffer_cache_flush i)).

(** The index of the entry that holds the sector; [None] for NULL. *)
Definition buffer_cache_lookup (sector : Z) : M cache (option Z) :=
  for_find BUFFER_CACHE_SIZE 0 (fun i =>
    let! e := get_entry i in
    ret (if negb (occupied e) then None
         else if disk_sector e =? sector then Some i else None)).

(** One turn of the clock: [inr true] an empty slot was found, [inr false]
    the loop breaks on a slot to evict. *)
Definition evict_step (_ : unit) : M cache (unit + bool) :=
  let! c := get in
  let! e := get_entry (clock c) in
  if negb (occupied e) then ret (inr true)
  else if access e then
    set_entry (clock c) (mkEntry (occupied e) (disk_sector e) (buffer e) (dirty e) false) ;;
    set_clock (u64 (clock c + 1) mod Z.of_nat BUFFER_CACHE_SIZE) ;;
    ret (inl tt)
  else ret (inr false).

Definition evict_fuel : nat := Datatypes.S BUFFER_CACHE_SIZE.

Definition buffer_cache_evict : M cache Z :=
  let! empty := while_ evict_fuel evict_step tt in
  let! c := get in
  let slot := clock c in
  if empty : bool then ret slot
  else
    let! e := get_entry slot in
    when (dirty e) (buffer_cache_flush slot) ;;
    let! e' := get_entry slot in
    set_entry slot (mkEntry false (disk_sector e') (buffer e') (dirty e') (access e')) ;;
    ret slot.

(** The cache miss path shared by read and write: evict, then fill. *)
Definition fill (sector : Z) : M cache Z :=
  let! slot := buffer_cache_evict in
  let! e := get_entry slot in
  assert_ (negb (occupied e)) "slot != NULL && slot->occupied == false" ;;
  let! b := on_device (block_read sector (buffer e)) in
  set_entry slot (mkEntry true sector b false (access e)) ;;
  ret slot.

Definition find_slot (sector : Z) : M cache Z :=
  let! slot := buffer_cache_lookup sector in
  match slot with Some i => ret i | None => fill sector end.

Definition buffer_cache_read (sector : Z) : M cache (list Z) :=
  let! slot := find_slot sector in
  let! e := get_entry slot in
  set_entry slot (mkEntry (occupied e) (disk_sector e) (buffer e) (dirty e) true) ;;
  ret (take 512 (buffer e)).

Definition buffer_cache_write (sector : Z) (source : list Z) : M cache unit :=
  let! slot := find_slot sector in
  let! e := get_entry slot in
  let! src := need (if 512 <=? zlen source then Some (take 512 source) else None) in
  set_entry slot (mkEntry (occupied e) (disk_sector e) (splice (buffer e) 0 src) true true).

(* ------------------------------------------------------------------ *)
(** ** The sectors a cache stands for                                  *)
(* ------------------------------------------------------------------ *)

Fixpoint find_entry (es : list entry) (s : Z) : option entry :=
  match es with
  | [] => None
  | e :: es' => if occupied e && (disk_sector e =? s) then Some e else find_entry es' s
  end.

(** The contents of sector [s]: the cached copy if there is one. *)
Definition sector (c : cache) (s : Z) : list Z :=
  match find_entry (entries c) s with
  | Some e => buffer e
  | None => sector_at (device c) s
  end.

Definition holds (c : cache) (i : Z) (s : Z) (e : entry) : Prop :=
  zget (entries c) i = Some e /\ occupied e = true /\ disk_sector e = s.
Definition uncached (c : cache) (s : Z) : Prop := forall i e, ~ holds c i s e.

Record entry_ok (dev : block) (e : entry) : Prop := {
  ok_len : zlen (buffer e) = 512;
  ok_u8 : Forall is_u8 (buffer e);
  ok_sector : occupied e = true -> 0 <= disk_sector e < size dev;
  ok_clean : occupied e = true -> dirty e = false -> buffer e = sector_at dev (disk_sector e)
}.

Record inv (c : cache) : Prop := {
  inv_len : zlen (entries c) = Z.of_nat BUFFER_CACHE_SIZE;
  inv_clock : 0 <= clock c < Z.of_nat BUFFER_CACHE_SIZE;
  inv_dev : Block.wf (device c);
  inv_entry : forall i e, zget (entries c) i = Some e -> entry_ok (device c) e;
  inv_unique : forall i j s e e', holds c i s e -> holds c j s e' -> i = j
}.

(** Same contents of every sector, same device size. *)
Definition same_sectors (c c' : cache) : Prop :=
  size (device c') = size (device c) /\
  forall s, 0 <= s < size (device c) -> sector c' s = sector c s.

Lemma find_entry_Some es s e :
  find_entry es s = Some e ->
  exists i, zget es i = Some e /\ occupied e = true /\ disk_sector e = s.
Proof.
  induction es as [|e0 es IH]; simpl; [done|].
  destruct (occupied e0 && (disk_sector e0 =? s)) eqn:E.
  - intros [= ->]. apply andb_true_iff in E as [? ?%Z.eqb_eq]. by exists 0.
  - intros (i & Hi & ?)%IH. exists (i + 1). pose proof (zget_range _ _ _ Hi).
    rewrite zget_lookup in * by lia. split; [|done].
    by replace (Z.to_nat (i + 1)) with (S (Z.to_nat i)) by lia.
Qed.

Lemma find_entry_None es s :
  find_entry es s = None ->
  forall i e, zget es i = Some e -> occupied e = true -> disk_sector e <> s.
Proof.
  intros H i e Hi Ho Hs. pose proof (zget_range _ _ _ Hi).
  rewrite zget_lookup in Hi by lia. revert H Hi. generalize (Z.to_nat i). clear - Ho Hs.
  induction es as [|e0 es IH]; intros n; simpl; [done|].
  destruct (occupied e0 && (disk_sector e0 =? s)) eqn:E; [done|]. intros H.
  destruct n as [|n]; simpl; [|by apply IH].
  intros [= ->]. rewrite Ho in E. simpl in E. lia.
Qed.

Lemma sector_hit c i s e : inv c -> holds c i s e -> sector c s = buffer e.
Proof.
  intros Hc H. unfold sector. destruct (find_entry (entries c) s) as [e'|] eqn:E.
  - apply find_entry_Some in E as (j & Hj).
    assert (i = j) as <- by (by eapply inv_unique).
    destruct H as [H _], Hj as [Hj _]. congruence.
  - destruct H as (H & Ho & Hs). by destruct (find_entry_None _ _ E i e).
Qed.

Lemma sector_miss c s : uncached c s -> sector c s = sector_at (device c) s.
Proof.
  intros H. unfold sector. destruct (find_entry (entries c) s) as [e|] eqn:E; [|done].
  apply find_entry_Some in E as (i & Hi). by destruct (H i e).
Qed.

Lemma cached_or_not c s : (exists i e, holds c i s e) \/ uncached c s.
Proof.
  destruct (find_entry (entries c) s) as [e|] eqn:E.
  - left. apply find_entry_Some in E as (i & Hi). by exists i, e.
  - right. intros i e (Hi & Ho & Hs). by eapply find_entry_None.
Qed.

Lemma get_entry_wp c i e (Q : entry -> cache -> Prop) :
  zget (entries c) i = Some e -> Q e c -> wp (get_entry i) Q c.
Proof. intros H HQ. unfold get_entry. wp_steps; [exact H|done]. Qed.

(** [c'] is [c] with entry [i] replaced by [e] (and another device). *)
Record updated (c : cache) (i : Z) (e : entry) (c' : cache) : Prop := {
  upd_len : zlen (entries c') = zlen (entries c);
  upd_get : forall j, zget (entries c') j = if bool_decide (j = i) then Some e
                                            else zget (entries c) j;
  upd_clock : clock c' = clock c
}.

Lemma set_entry_wp c i e (Q : unit -> cache -> Prop) :
  0 <= i < zlen (entries c) ->
  (forall c', updated c i e c' -> device c' = device c -> Q tt c') ->
  wp (set_entry i e) Q c.
Proof.
  intros Hi HQ. unfold set_entry. destruct (zset_ex (entries c) i e) as [es Hes]; [done|].
  wp_steps; [exact Hes|]. destruct (zset_inv _ _ _ _ Hes) as (_ & Hl & Hg).
  by apply HQ.
Qed.

#[export] Instance same_sectors_refl : Reflexive same_sectors.
Proof. by intros c. Qed.
#[export] Instance same_sectors_trans : Transitive same_sectors.
Proof.
  intros c1 c2 c3 [H1 H2] [H3 H4]. split; [congruence|]. intros s Hs.
  rewrite H4 by lia. by apply H2.
Qed.

Lemma updated_holds c i e c' j s e' :
  updated c i e c' ->
  holds c' j s e' <->
  (j = i /\ e' = e /\ occupied e = true /\ disk_sector e = s) \/ (j <> i /\ holds c j s e').
Proof.
  intros [_ H _]. unfold holds. rewrite H. case_bool_decide as Hji; split.
  - intros ([= ->] & ? & ?). by left.
  - intros [(_ & -> & ? & ?)|[? _]]; done.
  - intros ?. by right.
  - by intros [(? & _)|[_ ?]].
Qed.

(** Replacing an entry keeps the invariant when the new entry is in order
    and its sector is cached nowhere else. *)
Lemma updated_inv c i e c' :
  inv c -> updated c i e c' -> Block.wf (device c') ->
  entry_ok (device c') e ->
  (forall j e', j <> i -> zget (entries c) j = Some e' -> entry_ok (device c') e') ->
  (occupied e = true -> forall j e', j <> i -> ~ holds c j (disk_sector e) e') ->
  inv c'.
Proof.
  intros [Hl Hk Hd He Hu] Hupd Hd' Hok Hoth Hnew.
  pose proof (fun j s e' => proj1 (updated_holds _ _ _ _ j s e' Hupd)) as Hh.
  destruct Hupd as [Hl' Hg' Hk']. split.
  - congruence.
  - by rewrite Hk'.
  - done.
  - intros j e' Hj. rewrite Hg' in Hj. case_bool_decide; [by simplify_eq|by eapply Hoth].
  - intros j k s e1 e2 H1 H2.
    destruct (Hh _ _ _ H1) as [(-> & -> & Ho & <-)|[Hj H1']];
    destruct (Hh _ _ _ H2) as [(-> & -> & Ho' & Hs)|[Hj' H2']].
    + done.
    + by destruct (Hnew Ho _ _ Hj' H2').
    + subst s. by destruct (Hnew Ho' _ _ Hj H1').
    + by eapply Hu.
Qed.

(** It keeps the contents of the sectors when the new entry holds what its
    sector held, and what is no longer cached is on the device. *)
Lemma updated_same c i e c' :
  inv c -> inv c' -> updated c i e c' -> size (device c') = size (device c) ->
  (occupied e = true -> buffer e = sector c (disk_sector e)) ->
  (forall s, 0 <= s < size (device c) -> uncached c' s -> sector_at (device c') s = sector c s) ->
  same_sectors c c'.
Proof.
  intros Hc Hc' Hupd Hsz Ha Hb. split; [done|]. intros s Hs.
  destruct (cached_or_not c' s) as [(j & e' & Hj)|Hun].
  - rewrite (sector_hit _ _ _ _ Hc' Hj).
    apply (updated_holds _ _ _ _ _ _ _ Hupd) in Hj as [(-> & -> & Ho & <-)|[_ Hj]]; [by apply Ha|].
    by rewrite (sector_hit _ _ _ _ Hc Hj).
  - rewrite (sector_miss _ _ Hun). by apply Hb.
Qed.

(** An update that leaves what the entry caches in place. *)
Lemma updated_uncached c i e0 e c' s :
  updated c i e c' -> zget (entries c) i = Some e0 ->
  (occupied e0 = true -> disk_sector e0 = s -> occupied e = true /\ disk_sector e = s) ->
  uncached c' s -> uncached c s.
Proof.
  intros Hupd He0 Hkeep Hun j e' Hj. destruct (decide (j = i)) as [->|Hji].
  - destruct Hj as (Hj & Ho & Hs). assert (e' = e0) as -> by congruence.
    destruct (Hkeep Ho Hs) as [Ho' Hs']. apply (Hun i e).
    apply (updated_holds _ _ _ _ _ _ _ Hupd). by left.
  - apply (Hun j e'). apply (updated_holds _ _ _ _ _ _ _ Hupd). by right.
Qed.

Lemma uncached_updated c i e c' s :
  updated c i e c' -> (occupied e = true -> disk_sector e <> s) ->
  uncached c s -> uncached c' s.
Proof.
  intros Hupd Hne Hun j e' Hj.
  apply (updated_holds _ _ _ _ _ _ _ Hupd) in Hj as [(-> & -> & Ho & Hs)|[_ Hj]].
  - by apply (Hne Ho).
  - by apply (Hun j e').
Qed.

(* ------------------------------------------------------------------ *)
(** ** The steps of the operations                                     *)
(* ------------------------------------------------------------------ *)

(** Setting the reference bit. *)
Lemma set_access_wp c i e b (Q : unit -> cache -> Prop) :
  inv c -> zget (entries c) i = Some e ->
  (forall c', inv c' -> same_sectors c c' -> device c' = device c ->
     updated c i (mkEntry (occupied e) (disk_sector e) (buffer e) (dirty e) b) c' -> Q tt c') ->
  wp (set_entry i (mkEntry (occupied e) (disk_sector e) (buffer e) (dirty e) b)) Q c.
Proof.
  intros Hc He HQ. apply set_entry_wp; [by eapply zget_range|]. intros c' Hupd Hd.
  pose proof (inv_entry _ Hc _ _ He) as [H1 H2 H3 H4].
  assert (inv c') as Hc'.
  { eapply updated_inv; [done|done| | | |]; rewrite ?Hd.
    - by destruct Hc.
    - by split.
    - intros j e' _ ?. by eapply inv_entry.
    - simpl. intros Ho j e' Hji Hj. apply Hji.
      eapply inv_unique; [exact Hc|exact Hj|by split; [exact He|]]. }
  apply HQ; try done. eapply updated_same; try done; [by rewrite Hd| |].
  - simpl. intros Ho. symmetry. eapply sector_hit; [done|]. by split; [exact He|].
  - intros s Hs Hun. rewrite Hd. symmetry. apply sector_miss.
    by eapply updated_uncached.
Qed.

(** Writing a cached dirty buffer back to the device. *)
Lemma write_back_wp c i e (Q : unit -> cache -> Prop) :
  inv c -> zget (entries c) i = Some e -> occupied e = true -> dirty e = true ->
  (forall c', inv c' -> same_sectors c c' -> entries c' = entries c -> clock c' = clock c ->
     sector_at (device c') (disk_sector e) = buffer e -> Q tt c') ->
  wp (on_device (block_write (disk_sector e) (buffer e))) Q c.
Proof.
  intros Hc He Ho Hdirty HQ. unfold on_device. apply wp_zoom.
  pose proof (inv_entry _ Hc _ _ He) as [H1 H2 H3 H4]. specialize (H3 Ho).
  apply block_write_wp; try done; [by destruct Hc|]. intros d' Hd' Hsz Hsec.
  assert (holds c i (disk_sector e) e) as Hi by by split.
  assert (inv (mkCache (entries c) (clock c) d')) as Hc'.
  { destruct Hc as [Hl Hk Hd He' Hu]. split; simpl; try done.
    intros j e' Hj. pose proof (He' _ _ Hj) as [? ? Hr Hcl]. split; try done; [by rewrite Hsz|].
    intros Ho' Hdirty'. rewrite Hsec by (apply Hr in Ho'; lia). case_bool_decide as Es; [|auto].
    assert (j = i) as -> by (by eapply Hu; [split; [exact Hj|]|exact Hi]). congruence. }
  apply HQ; try done.
  - split; [done|]. intros s Hs. destruct (cached_or_not c s) as [(j & e' & Hj)|Hun].
    + rewrite (sector_hit _ _ _ _ Hc Hj). by apply (sector_hit _ j s).
    + rewrite (sector_miss _ _ Hun), (sector_miss (mkCache _ _ _) s Hun). simpl.
      rewrite Hsec by lia. rewrite bool_decide_eq_false_2; [done|]. intros ->.
      by apply (Hun i e).
  - simpl. rewrite Hsec by lia. by rewrite bool_decide_eq_true_2.
Qed.

Lemma buffer_cache_flush_wp c i e (Q : unit -> cache -> Prop) :
  inv c -> zget (entries c) i = Some e -> occupied e = true ->
  (forall c', inv c' -> same_sectors c c' ->
     updated c i (mkEntry (occupied e) (disk_sector e) (buffer e) false (access e)) c' ->
     Q tt c') ->
  wp (buffer_cache_flush i) Q c.
Proof.
  intros Hc He Ho HQ. unfold buffer_cache_flush, get_entry. wp_steps; [exact He|done| |].
  - apply (write_back_wp c i e); try done. intros c1 Hc1 Hs1 He1 Hk1 Hb1.
    rewrite <- He1 in He. apply set_entry_wp; [by eapply zget_range|]. intros c2 Hupd Hd2.
    pose proof (inv_entry _ Hc1 _ _ He) as [H1 H2 H3 H4].
    assert (inv c2) as Hc2.
    { eapply updated_inv; [exact Hc1|done| | | |]; rewrite ?Hd2.
      - by destruct Hc1.
      - by split.
      - intros j e' _ ?. by eapply inv_entry.
      - simpl. intros _ j e' Hji Hj. apply Hji.
        eapply inv_unique; [exact Hc1|exact Hj|by split; [exact He|]]. }
    apply HQ; [done| |].
    + transitivity c1; [done|]. eapply updated_same; try done; [by rewrite Hd2| |].
      * simpl. intros _. symmetry. eapply sector_hit; [done|]. by split; [exact He|].
      * intros s Hs Hun. rewrite Hd2. symmetry. apply sector_miss. by eapply updated_uncached.
    + destruct Hupd as [Hl Hg Hk]. rewrite He1 in Hl, Hg. split; [done|done|congruence].
  - apply HQ; [done|done|]. split; [done| |done]. intros j. case_bool_decide; [|done].
    subst. rewrite He. f_equal. destruct e; simpl in *. congruence.
Qed.

(** Dropping a clean entry. *)
Lemma drop_entry_wp c i e (Q : unit -> cache -> Prop) :
  inv c -> zget (entries c) i = Some e -> occupied e = true -> dirty e = false ->
  (forall c', inv c' -> same_sectors c c' ->
     updated c i (mkEntry false (disk_sector e) (buffer e) (dirty e) (access e)) c' ->
     Q tt c') ->
  wp (set_entry i (mkEntry false (disk_sector e) (buffer e) (dirty e) (access e))) Q c.
Proof.
  intros Hc He Ho Hdirty HQ. apply set_entry_wp; [by eapply zget_range|]. intros c' Hupd Hd.
  pose proof (inv_entry _ Hc _ _ He) as [H1 H2 H3 H4].
  assert (inv c') as Hc'.
  { eapply updated_inv; [done|done| | | |done]; rewrite ?Hd.
    - by destruct Hc.
    - by split.
    - intros j e' _ ?. by eapply inv_entry. }
  apply HQ; try done. eapply updated_same; try done; [by rewrite Hd|].
  intros s Hs Hun. rewrite Hd. destruct (decide (disk_sector e = s)) as [<-|Hne].
  - rewrite <- H4 by done. symmetry. eapply sector_hit; [done|]. by split; [exact He|].
  - symmetry. apply sector_miss. eapply updated_uncached; try done.
Qed.

(* ------------------------------------------------------------------ *)
(** ** Eviction                                                        *)
(* ------------------------------------------------------------------ *)

(** The number of reference bits set: what the clock decreases. *)
Fixpoint accessed (es : list entry) : nat :=
  match es with
  | [] => 0
  | e :: es' => (if access e then 1 else 0) + accessed es'
  end.

Lemma accessed_le es : (accessed es <= length es)%nat.
Proof. induction es as [|e es]; simpl; [lia|]. destruct (access e); lia. Qed.

Lemma accessed_insert es n e0 e :
  es !! n = Some e0 -> access e0 = true -> access e = false ->
  (accessed (<[n := e]> es) < accessed es)%nat.
Proof.
  revert n. induction es as [|e' es IH]; intros n; [done|]. destruct n as [|n]; simpl.
  - intros [= ->] -> ->. lia.
  - intros H1 H2 H3. specialize (IH n H1 H2 H3). lia.
Qed.

Lemma accessed_updated c i e0 e c' :
  zget (entries c) i = Some e0 -> updated c i e c' -> access e0 = true -> access e = false ->
  (accessed (entries c') < accessed (entries c))%nat.
Proof.
  intros He [Hl Hg _] H0 H1. pose proof (zget_range _ _ _ He).
  replace (entries c') with (<[Z.to_nat i := e]> (entries c)).
  - apply accessed_insert with e0; [|done..]. by rewrite zget_lookup in He by lia.
  - destruct (zset_ex (entries c) i e) as [es Hes]; [done|].
    destruct (zset_inv _ _ _ _ Hes) as (_ & _ & Hget).
    rewrite zset_Some in Hes by done. injection Hes as ->.
    apply zlist_eq. intros j. by rewrite Hget, Hg.
Qed.

(** What the eviction loop preserves from the state it starts in. *)
Definition evicting (c c' : cache) : Prop :=
  inv c' /\ same_sectors c c' /\ forall s, uncached c s -> uncached c' s.

Lemma evict_step_wp c (Q : unit + bool -> cache -> Prop) :
  inv c ->
  (forall c', evicting c c' -> (accessed (entries c') < accessed (entries c))%nat ->
     Q (inl tt) c') ->
  (forall e, zget (entries c) (clock c) = Some e -> occupied e = false -> Q (inr true) c) ->
  (forall e, zget (entries c) (clock c) = Some e -> occupied e = true -> Q (inr false) c) ->
  wp (evict_step tt) Q c.
Proof.
  intros Hc H1 H2 H3. pose proof Hc as [Hl Hk _ _ _].
  destruct (zget_ex (entries c) (clock c)) as [e He]; [lia|].
  unfold evict_step. apply wp_bind, wp_get, wp_bind. eapply get_entry_wp; [exact He|].
  apply wp_if; intros Ho; [apply wp_ret, (H2 e); [done|by apply negb_true_iff]|].
  apply negb_false_iff in Ho.
  apply wp_if; intros Ha; [|by apply wp_ret, (H3 e)].
  apply wp_bind, set_access_wp; [done|done|]. intros c' Hc' Hs Hd Hupd.
  unfold set_clock. wp_steps. apply H1; [split; [|split]|].
  - unfold u64, BUFFER_CACHE_SIZE in *. destruct Hc' as [Hl' Hk' ? ? ?]. split; try done.
    apply Z.mod_pos_bound. lia.
  - done.
  - intros s Hun. apply (uncached_updated _ _ _ _ _ Hupd); [|done].
    simpl. intros _ Hse. by apply (Hun (clock c) e).
  - simpl. by eapply accessed_updated.
Qed.

(** Flushing the slot the clock stopped at and dropping it. *)
Lemma drop_slot_wp c1 c2 i e e0 (Q : Z -> cache -> Prop) :
  zget (entries c1) i = Some e0 -> occupied e0 = true ->
  inv c2 -> same_sectors c1 c2 -> updated c1 i e c2 -> occupied e = true ->
  disk_sector e = disk_sector e0 -> dirty e = false ->
  (forall c3 e3, inv c3 -> same_sectors c1 c3 -> (forall s, uncached c1 s -> uncached c3 s) ->
     zget (entries c3) i = Some e3 -> occupied e3 = false -> Q i c3) ->
  wp (let! e' := get_entry i in
      set_entry i (mkEntry false (disk_sector e') (buffer e') (dirty e') (access e')) ;;
      ret i) Q c2.
Proof.
  intros He0 Ho0 Hc2 Hs2 Hupd2 Ho Hse Hd HQ.
  assert (zget (entries c2) i = Some e) as He.
  { rewrite (upd_get _ _ _ _ Hupd2). by rewrite bool_decide_eq_true_2. }
  apply wp_bind. eapply get_entry_wp; [exact He|].
  apply wp_bind. apply drop_entry_wp; [done..|].
  intros c3 Hc3 Hs3 Hupd3. apply wp_ret. eapply HQ; [done|by transitivity c2| | |].
  - intros s Hun. apply (uncached_updated _ _ _ _ _ Hupd3); [done|].
    apply (uncached_updated _ _ _ _ _ Hupd2); [|done].
    intros _ Hs. apply (Hun i e0). split; [done|]. split; [done|congruence].
  - rewrite (upd_get _ _ _ _ Hupd3). by rewrite bool_decide_eq_true_2.
  - done.
Qed.

Lemma evicted_slot_wp c i e (Q : Z -> cache -> Prop) :
  inv c -> zget (entries c) i = Some e -> occupied e = true ->
  (forall c3 e3, inv c3 -> same_sectors c c3 -> (forall s, uncached c s -> uncached c3 s) ->
     zget (entries c3) i = Some e3 -> occupied e3 = false -> Q i c3) ->
  wp (let! e := get_entry i in
      when (dirty e) (buffer_cache_flush i) ;;
      let! e' := get_entry i in
      set_entry i (mkEntry false (disk_sector e') (buffer e') (dirty e') (access e')) ;;
      ret i) Q c.
Proof.
  intros Hc He Ho HQ. apply wp_bind. eapply get_entry_wp; [exact He|].
  apply wp_bind, wp_when; intros Hd.
  - apply (buffer_cache_flush_wp c i e); [done..|]. intros c' Hc' Hs' Hupd.
    eapply drop_slot_wp; try done.
  - apply (drop_slot_wp c c i e e); try done. split; [done| |done].
    intros j. case_bool_decide; [by subst|done].
Qed.

(** The clock loop ends within the fuel: each turn that does not leave it
    clears a reference bit. *)
Lemma buffer_cache_evict_wp c (Q : Z -> cache -> Prop) :
  inv c ->
  (forall c' slot e, evicting c c' -> zget (entries c') slot = Some e ->
     occupied e = false -> Q slot c') ->
  wp buffer_cache_evict Q c.
Proof.
  intros Hc HQ. unfold buffer_cache_evict. apply wp_bind.
  apply (wp_while (fun _ c' => evicting c c') (fun _ c' => accessed (entries c'))).
  - by split.
  - pose proof (accessed_le (entries c)). destruct Hc as [Hl _ _ _ _].
    unfold evict_fuel, BUFFER_CACHE_SIZE in *. lia.
  - intros [] c1 (Hc1 & Hs1 & Hu1). apply evict_step_wp; [done| | |].
    + intros c' (Hc' & Hs' & Hu') Hlt. split; [|done]. split; [done|].
      split; [by transitivity c1|auto].
    + intros e He Ho. apply wp_bind, wp_get, wp_ret. by apply HQ with e.
    + intros e He Ho. apply wp_bind, wp_get. apply evicted_slot_wp with e; [done..|].
      intros c3 e3 Hc3 Hs3 Hu3 He3 Ho3. apply HQ with e3; [|done..].
      split; [done|]. split; [by transitivity c1|auto].
Qed.

(* ------------------------------------------------------------------ *)
(** ** Looking up and filling                                          *)
(* ------------------------------------------------------------------ *)

Lemma buffer_cache_lookup_wp c s (Q : option Z -> cache -> Prop) :
  inv c ->
  (forall i e, holds c i s e -> Q (Some i) c) -> (uncached c s -> Q None c) ->
  wp (buffer_cache_lookup s) Q c.
Proof.
  intros Hc Hhit Hmiss. unfold buffer_cache_lookup. pose proof (inv_len _ Hc) as Hl.
  apply (wp_for_find
    (fun i c' => c' = c /\ forall j e, 0 <= j < i -> ~ holds c j s e)
    (fun i r c' => c' = c /\ r = i /\ exists e, holds c i s e)).
  - split; [done|lia].
  - intros i c' Hi [-> Hno]. destruct (zget_ex (entries c) i) as [e He]; [lia|].
    apply wp_bind. eapply get_entry_wp; [exact He|]. apply wp_ret.
    assert ((forall e', ~ holds c i s e') ->
            c = c /\ forall j e', 0 <= j < i + 1 -> ~ holds c j s e') as Hskip.
    { intros Hi'. split; [done|]. intros j e' Hj.
      destruct (decide (j = i)) as [->|]; [apply Hi'|apply Hno; lia]. }
    destruct (occupied e) eqn:Ho; simpl.
    + destruct (disk_sector e =? s) eqn:Hs.
      * split; [done|]. split; [done|]. exists e. split; [done|]. split; [done|lia].
      * apply Hskip. intros e' (He' & _ & Hs'). assert (e' = e) by congruence. subst e'. lia.
    + apply Hskip. intros e' (He' & Ho' & _). congruence.
  - intros j r c' Hj (-> & -> & e & Hh). by apply (Hhit j e).
  - intros c' [-> Hno]. apply Hmiss. intros i e Hh. apply (Hno i e); [|done].
    destruct Hh as [Hi _]. apply zget_range in Hi. lia.
Qed.

Lemma fill_wp c s (Q : Z -> cache -> Prop) :
  inv c -> uncached c s -> 0 <= s < size (device c) ->
  (forall c' i e, inv c' -> same_sectors c c' -> holds c' i s e -> Q i c') ->
  wp (fill s) Q c.
Proof.
  intros Hc Hun Hs HQ. unfold fill. apply wp_bind, buffer_cache_evict_wp; [done|].
  intros c1 i e (Hc1 & Hs1 & Hu1) He Ho. pose proof (inv_entry _ Hc1 _ _ He) as [H1 H2 H3 H4].
  apply wp_bind. eapply get_entry_wp; [exact He|].
  apply wp_bind, wp_assert; [by rewrite Ho|]. apply wp_bind. unfold on_device.
  apply wp_zoom, block_read_wp; [by destruct Hc1|destruct Hs1; lia|done|].
  intros d' Hd' Hsz Himg. apply wp_bind, set_entry_wp; [simpl; by eapply zget_range|].
  intros c2 Hupd2 Hdev2. simpl in Hdev2. apply wp_ret.
  set (cd := mkCache (entries c1) (clock c1) d') in *.
  assert (forall t, sector_at d' t = sector_at (device c1) t) as Hsec.
  { intros t. unfold sector_at. by rewrite Himg. }
  assert (inv cd) as Hcd.
  { destruct Hc1 as [Hl Hk Hd He' Hu]. split; try done. simpl. intros j e' Hj.
    destruct (He' _ _ Hj). split; try done; rewrite ?Hsz, ?Hsec; auto. }
  assert (same_sectors c1 cd) as Hscd.
  { split; [done|]. intros t Ht. unfold sector. simpl. by rewrite Hsec. }
  assert (uncached cd s) as Huncd by apply Hu1, Hun.
  assert (inv c2) as Hc2.
  { eapply updated_inv; [exact Hcd|done|by rewrite Hdev2| | |]; rewrite ?Hdev2.
    - assert (0 <= s < size (device c1)) by (destruct Hs1; lia).
      destruct (Hc1). split; simpl; rewrite ?Hsec, ?Hsz; try done.
      + by apply zlen_sector_at.
      + by apply Forall_slice, wf_bytes.
    - intros j e' _ Hj. by eapply (inv_entry _ Hcd).
    - intros _ j e' _. apply Huncd. }
  eapply HQ; [exact Hc2| |].
  - transitivity c1; [done|]. transitivity cd; [done|].
    eapply updated_same; [done|done|exact Hupd2|by rewrite Hdev2| |].
    + simpl. intros _. rewrite (sector_miss _ _ Huncd). simpl. by rewrite Hsec.
    + intros t Ht Hut. rewrite Hdev2. symmetry. apply sector_miss.
      by eapply updated_uncached; [exact Hupd2|exact He|congruence|].
  - split; [rewrite (upd_get _ _ _ _ Hupd2); by rewrite bool_decide_eq_true_2|by split].
Qed.

Lemma find_slot_wp c s (Q : Z -> cache -> Prop) :
  inv c -> 0 <= s < size (device c) ->
  (forall c' i e, inv c' -> same_sectors c c' -> holds c' i s e -> Q i c') ->
  wp (find_slot s) Q c.
Proof.
  intros Hc Hs HQ. unfold find_slot. apply wp_bind, buffer_cache_lookup_wp; [done| |].
  - intros i e Hi. apply wp_ret. by apply HQ with e.
  - intros Hun. by apply fill_wp.
Qed.

(* ------------------------------------------------------------------ *)
(** ** Reading and writing sectors                                     *)
(* ------------------------------------------------------------------ *)

Lemma buffer_cache_read_wp c s (Q : list Z -> cache -> Prop) :
  inv c -> 0 <= s < size (device c) ->
  (forall c', inv c' -> same_sectors c c' -> Q (sector c s) c') ->
  wp (buffer_cache_read s) Q c.
Proof.
  intros Hc Hs HQ. unfold buffer_cache_read. apply wp_bind, find_slot_wp; [done..|].
  intros c1 i e Hc1 Hs1 Hi. pose proof (sector_hit _ _ _ _ Hc1 Hi) as Hsec.
  destruct Hi as (He & Ho & Hse). apply wp_bind. eapply get_entry_wp; [exact He|].
  apply wp_bind, set_access_wp; [done|done|]. intros c2 Hc2 Hs2 _ _. apply wp_ret.
  pose proof (ok_len _ _ (inv_entry _ Hc1 _ _ He)).
  rewrite take_ge, <- Hsec by lia. rewrite (proj2 Hs1) by done.
  apply HQ; [done|by transitivity c1].
Qed.

Lemma buffer_cache_write_wp c s data (Q : unit -> cache -> Prop) :
  inv c -> 0 <= s < size (device c) -> 512 <= zlen data -> Forall is_u8 (take 512 data) ->
  (forall c', inv c' -> size (device c') = size (device c) ->
     (forall t, 0 <= t < size (device c) ->
        sector c' t = if bool_decide (t = s) then take 512 data else sector c t) ->
     Q tt c') ->
  wp (buffer_cache_write s data) Q c.
Proof.
  intros Hc Hs Hlen Hu HQ. unfold buffer_cache_write. apply wp_bind, find_slot_wp; [done..|].
  intros c1 i e Hc1 Hs1 Hi. pose proof Hi as (He & Ho & Hse).
  apply wp_bind. eapply get_entry_wp; [exact He|].
  pose proof (inv_entry _ Hc1 _ _ He) as [Hbl _ Hr _]. destruct Hs1 as [Hsz1 Hs1].
  apply wp_bind. eapply wp_need.
  { destruct (Z.leb_spec 512 (zlen data)); [done|lia]. }
  assert (zlen (take 512 data) = 512) as Htl by (rewrite length_take; lia).
  rewrite splice_all by lia.
  apply set_entry_wp; [by eapply zget_range|]. intros c2 Hupd Hdev.
  assert (inv c2) as Hc2.
  { eapply updated_inv; [exact Hc1|exact Hupd|..]; rewrite ?Hdev.
    - by destruct Hc1.
    - by split.
    - intros j e' _ ?. by eapply inv_entry.
    - simpl. intros _ j e' Hji Hj. apply Hji.
      eapply (inv_unique _ Hc1); [exact Hj|by split]. }
  apply HQ; [done|by rewrite Hdev|]. intros t Ht. case_bool_decide as Ets.
  - subst t. erewrite (sector_hit c2 i s) at 1; [|done|].
    2:{ apply (updated_holds _ _ _ _ _ _ _ Hupd). by left. }
    done.
  - rewrite <- Hs1 by done. destruct (cached_or_not c1 t) as [(j & e' & Hj)|Hun].
    + rewrite (sector_hit _ _ _ _ Hc1 Hj). apply (sector_hit _ j t); [done|].
      apply (updated_holds _ _ _ _ _ _ _ Hupd). right. split; [|done].
      intros ->. destruct Hj as (? & _ & ?). assert (e' = e) by congruence. congruence.
    + rewrite (sector_miss _ _ Hun), sector_miss, Hdev; [done|].
      apply (uncached_updated _ _ _ _ _ Hupd); [|done]. simpl. congruence.
Qed.

(** After buffer_cache_close the device holds every sector. *)
Definition clean_upto (c : cache) (n : Z) : Prop :=
  forall i e, i < n -> zget (entries c) i = Some e -> occupied e = true -> dirty e = false.

Lemma buffer_cache_close_wp c (Q : unit -> cache -> Prop) :
  inv c ->
  (forall c', inv c' -> same_sectors c c' ->
     (forall s, 0 <= s < size (device c) -> sector_at (device c') s = sector c s) -> Q tt c') ->
  wp buffer_cache_close Q c.
Proof.
  intros Hc HQ. unfold buffer_cache_close.
  apply (wp_for (fun i c' => inv c' /\ same_sectors c c' /\ clean_upto c' i)).
  - split; [done|]. split; [done|]. intros i e Hi He. apply zget_range in He. lia.
  - intros i c1 Hi (Hc1 & Hs1 & Hcl). destruct (zget_ex (entries c1) i) as [e He].
    { by rewrite (inv_len _ Hc1). }
    apply wp_bind. eapply get_entry_wp; [exact He|]. apply wp_when; intros Ho.
    + apply (buffer_cache_flush_wp c1 i e); [done..|]. intros c2 Hc2 Hs2 Hupd.
      split; [done|]. split; [by transitivity c1|]. intros j e' Hj Hje Ho'.
      rewrite (upd_get _ _ _ _ Hupd) in Hje. case_bool_decide; [by simplify_eq|].
      apply (Hcl j); [lia|done|done].
    + split; [done|]. split; [done|]. intros j e' Hj Hje Ho'.
      destruct (decide (j = i)) as [->|]; [congruence|]. apply (Hcl j); [lia|done|done].
  - intros c' (Hc' & Hs' & Hcl). apply HQ; [done|done|]. intros s Hs.
    rewrite <- (proj2 Hs') by done. destruct (cached_or_not c' s) as [(i & e & Hi)|Hun].
    + rewrite (sector_hit _ _ _ _ Hc' Hi). destruct Hi as (He & Ho & <-). symmetry.
      apply (inv_entry _ Hc' _ _ He); [done|]. apply (Hcl i); [|done..].
      apply zget_range in He. rewrite (inv_len _ Hc') in He. lia.
    + by rewrite sector_miss.
Qed.

(** Before filesys_init runs: any 64 entries with 512-byte buffers. *)
Record startable (c : cache) : Prop := {
  st_len : zlen (entries c) = Z.of_nat BUFFER_CACHE_SIZE;
  st_clock : 0 <= clock c < Z.of_nat BUFFER_CACHE_SIZE;
  st_dev : Block.wf (device c);
  st_buf : forall i e, zget (entries c) i = Some e -> zlen (buffer e) = 512 /\ Forall is_u8 (buffer e)
}.

Lemma static_cache_startable dev : Block.wf dev -> startable (static_cache dev).
Proof.
  intros. split; [done|done|done|].
  intros i e He%zget_elem%elem_of_replicate. destruct He as [-> _]. split; [done|].
  by apply Forall_replicate.
Qed.

Lemma buffer_cache_init_wp c (Q : unit -> cache -> Prop) :
  startable c ->
  (forall c', inv c' -> device c' = device c -> (forall s, uncached c' s) -> Q tt c') ->
  wp buffer_cache_init Q c.
Proof.
  intros Hc HQ. unfold buffer_cache_init.
  apply (wp_for (fun i c' => startable c' /\ device c' = device c /\
    forall j e, j < i -> zget (entries c') j = Some e -> occupied e = false)).
  - split; [done|]. split; [done|]. intros j e Hj He%zget_range. lia.
  - intros i c1 Hi (Hc1 & Hd & Hun). pose proof Hc1 as [Hl Hk Hw Hb].
    destruct (zget_ex (entries c1) i) as [e He]; [lia|].
    apply wp_bind. eapply get_entry_wp; [exact He|].
    apply set_entry_wp; [by eapply zget_range|]. intros c2 [Hl2 Hg2 Hk2] Hd2.
    split; [split|split]; try congruence.
    + intros j e'. rewrite Hg2. case_bool_decide; [|by apply Hb].
      intros [= <-]. by apply (Hb i e).
    + intros j e' Hj. rewrite Hg2. case_bool_decide; [by intros [= <-]|].
      apply Hun. lia.
  - intros c' (Hc' & Hd & Hun). pose proof Hc' as [Hl Hk Hw Hb].
    assert (forall i e, zget (entries c') i = Some e -> occupied e = false) as Hno.
    { intros i e He. apply (Hun i e); [|done]. apply zget_range in He. lia. }
    apply HQ; [|done|].
    + split; try done.
      * intros i e He. destruct (Hb _ _ He). pose proof (Hno _ _ He).
        split; try done; congruence.
      * intros i j s e e' (He & Ho & _). rewrite (Hno _ _ He) in Ho. done.
    + intros s i e (He & Ho & _). rewrite (Hno _ _ He) in Ho. done.
Qed.

#[export] Hint Resolve buffer_cache_read_wp buffer_cache_write_wp buffer_cache_close_wp
  buffer_cache_init_wp : wp.

(* ------------------------------------------------------------------ *)
(** ** The interface of the file system                                *)
(* ------------------------------------------------------------------ *)

Lemma sector_ok c s :
  inv c -> 0 <= s < size (device c) ->
  zlen (sector c s) = 512 /\ Forall is_u8 (sector c s).
Proof.
  intros Hc Hs. destruct (cached_or_not c s) as [(i & e & Hi)|Hun].
  - rewrite (sector_hit _ _ _ _ Hc Hi). destruct Hi as (He & _).
    by destruct (inv_entry _ Hc _ _ He).
  - rewrite (sector_miss _ _ Hun). split; [by apply zlen_sector_at; [apply inv_dev|]|].
    apply Forall_slice, wf_bytes. by apply inv_dev.
Qed.

#[export] Program Instance cache_store : BlockStore cache := {|
  bs_read := buffer_cache_read;
  bs_write := buffer_cache_write;
  bs_inv := inv;
  bs_size := fun c => size (device c);
  bs_sector := sector
|}.
Next Obligation. intros b Hb. apply wf_size. by apply inv_dev. Qed.
Next Obligation. exact sector_ok. Qed.
Next Obligation.
  intros b s Q Hb Hs HQ. simpl in *. apply buffer_cache_read_wp; [done|done|].
  intros c' Hc' [Hsz Hsec]. by apply HQ.
Qed.
Next Obligation.
  intros b s data Q Hb Hs Hlen Hu HQ. simpl in *. unfold SECTOR in *.
  rewrite <- (take_ge data 512) in Hu, HQ by lia.
  apply buffer_cache_write_wp; [done|done|lia|done|done].
Qed.

(* ------------------------------------------------------------------ *)
(** ** The abstract disk                                               *)
(* ------------------------------------------------------------------ *)

(** What the cache promises: an array of sectors, with no cache. *)
Inductive op := OpRead (s : Z) | OpWrite (s : Z) (data : list Z).

Definition disk_step (o : op) (disk : Z -> list Z) : list Z * (Z -> list Z) :=
  match o with
  | OpRead s => (disk s, disk)
  | OpWrite s data => ([], fun t => if bool_decide (t = s) then data else disk t)
  end.

Fixpoint disk_run (os : list op) (disk : Z -> list Z) : list (list Z) * (Z -> list Z) :=
  match os with
  | [] => ([], disk)
  | o :: os' => let (r, d1) := disk_step o disk in
                let (rs, d2) := disk_run os' d1 in (r :: rs, d2)
  end.

Definition cache_step (o : op) : M cache (list Z) :=
  match o with
  | OpRead s => buffer_cache_read s
  | OpWrite s data => buffer_cache_write s data ;; ret []
  end.

Fixpoint cache_run (os : list op) : M cache (list (list Z)) :=
  match os with
  | [] => ret []
  | o :: os' => let! r := cache_step o in let! rs := cache_run os' in ret (r :: rs)
  end.

(** A session: initialise, use, close (filesys_init ... filesys_done). *)
Definition session (os : list op) : M cache (list (list Z)) :=
  buffer_cache_init ;; let! rs := cache_run os in buffer_cache_close ;; ret rs.

Definition op_ok (n : Z) (o : op) : Prop :=
  match o with
  | OpRead s => 0 <= s < n
  | OpWrite s data => 0 <= s < n /\ zlen data = 512 /\ Forall is_u8 data
  end.

(** The simulation: the cache stands for the array. *)
Definition simulates (c : cache) (disk : Z -> list Z) : Prop :=
  inv c /\ forall s, 0 <= s < size (device c) -> sector c s = disk s.

Lemma cache_step_simulates c disk o (Q : list Z -> cache -> Prop) :
  simulates c disk -> op_ok (size (device c)) o ->
  (forall c', simulates c' (snd (disk_step o disk)) -> size (device c') = size (device c) ->
     Q (fst (disk_step o disk)) c') ->
  wp (cache_step o) Q c.
Proof.
  intros [Hc Hs] Hok HQ. destruct o as [s|s data]; simpl in *.
  - apply buffer_cache_read_wp; [done|done|]. intros c' Hc' [Hsz Hsec].
    rewrite Hs by done. apply HQ; [split|]; [done| |done].
    intros t Ht. rewrite Hsec, Hs; [done|lia|lia].
  - destruct Hok as (Hr & Hl & Hu). apply wp_bind.
    assert (take 512 data = data) as Htk by (apply take_ge; lia).
    apply buffer_cache_write_wp; [done|done|lia|by rewrite Htk|].
    rewrite Htk. intros c' Hc' Hsz Hsec. apply wp_ret, HQ; [split|]; [done| |done].
    intros t Ht. rewrite Hsec by lia. case_bool_decide; [done|]. apply Hs. lia.
Qed.

Lemma cache_run_simulates os c disk (Q : list (list Z) -> cache -> Prop) :
  simulates c disk -> Forall (op_ok (size (device c))) os ->
  (forall c', simulates c' (snd (disk_run os disk)) -> size (device c') = size (device c) ->
     Q (fst (disk_run os disk)) c') ->
  wp (cache_run os) Q c.
Proof.
  revert c disk Q. induction os as [|o os IH]; intros c disk Q Hsim Hos HQ; simpl.
  - by apply wp_ret, HQ.
  - apply Forall_cons in Hos as [Ho Hos]. apply wp_bind.
    eapply cache_step_simulates; [done|done|]. intros c1 Hsim1 Hsz1. apply wp_bind.
    eapply IH; [done|by rewrite Hsz1|]. intros c2 Hsim2 Hsz2. apply wp_ret.
    simpl in HQ. destruct (disk_step o disk) as [r d1]. simpl in *.
    destruct (disk_run os d1) as [rs d2]. simpl in *. apply HQ; [done|congruence].
Qed.

(* ------------------------------------------------------------------ *)
(** ** Properties                                                      *)
(* ------------------------------------------------------------------ *)

(** A small device for the witnesses: four sectors of zeros. *)
Definition demo_disk : block := identify_ata_device (replicate 2048 0).
Definition demo : cache := static_cache demo_disk.

Lemma demo_disk_wf : Block.wf demo_disk.
Proof. split; [vm_compute; split; congruence|by vm_compute|by apply Forall_replicate]. Qed.

Lemma static_cache_inv dev : Block.wf dev -> inv (static_cache dev).
Proof.
  split; try done.
  - intros i e He%zget_elem%elem_of_replicate. destruct He as [-> _].
    split; [done|by apply Forall_replicate|done|done].
  - intros i j s e e' (He%zget_elem%elem_of_replicate & Ho & _).
    destruct He as [-> _]. done.
Qed.

Lemma demo_inv : inv demo.
Proof. apply static_cache_inv, demo_disk_wf. Qed.

(** C1: The buffer cache is invisible: a session on the cache (initialise,
    any sequence of in-range sector reads and writes, close) prints no
    PANIC, returns what the same sequence returns on a plain array of
    sectors holding the device's contents, and leaves exactly that array's
    final contents on the device. The device has at most 2^23 sectors
    (sectors_beyond_4GiB_alias is about others), and the buffers of the
    cache have 512 bytes each. *)
Theorem cache_refines_disk os c :
  startable c -> Forall (op_ok (size (device c))) os ->
  wp (session os)
     (fun rs c' =>
        rs = fst (disk_run os (sector_at (device c))) /\
        forall s, 0 <= s < size (device c) ->
          sector_at (device c') s = snd (disk_run os (sector_at (device c))) s) c.
Proof.
  intros Hc Hos. unfold session. apply wp_bind, buffer_cache_init_wp; [done|].
  intros c1 Hc1 Hd1 Hun. apply wp_bind.
  apply cache_run_simulates with (disk := sector_at (device c)).
  - split; [done|]. intros s Hs. by rewrite sector_miss, Hd1.
  - by rewrite Hd1.
  - intros c2 [Hc2 Hs2] Hsz2. apply wp_bind, buffer_cache_close_wp; [done|].
    intros c3 Hc3 [Hsz3 _] Hdev. apply wp_ret. split; [done|]. intros s Hs.
    rewrite Hdev, Hs2; [done|rewrite Hsz2, Hd1; lia..].
Qed.

Lemma cache_refines_disk_witness :
  let os := [OpWrite 1 (replicate 512 7); OpRead 1; OpRead 2] in
  wp (session os)
     (fun rs c' =>
        rs = fst (disk_run os (sector_at (device demo))) /\
        forall s, 0 <= s < size (device demo) ->
          sector_at (device c') s = snd (disk_run os (sector_at (device demo))) s) demo.
Proof.
  apply cache_refines_disk.
  - apply static_cache_startable, demo_disk_wf.
  - repeat constructor; try (vm_compute; done); by apply Forall_replicate.
Defined.

(** C32: The clock algorithm ends and loses nothing: from any consistent
    cache, [buffer_cache_evict] returns within 65 turns of its loop a slot
    that is free, prints no PANIC, and every sector still has its contents
    (a dirty victim has been written back). *)
Theorem evict_terminates c :
  inv c ->
  wp buffer_cache_evict
     (fun slot c' => (exists e, zget (entries c') slot = Some e /\ occupied e = false) /\
                     inv c' /\ same_sectors c c') c.
Proof.
  intros Hc. apply buffer_cache_evict_wp; [done|].
  intros c' slot e (Hc' & Hs & _) He Ho. split; [by exists e|done].
Qed.

Lemma evict_terminates_witness :
  inv demo /\
  wp buffer_cache_evict
     (fun slot c' => (exists e, zget (entries c') slot = Some e /\ occupied e = false) /\
                     inv c' /\ same_sectors demo c') demo.
Proof. split; [exact demo_inv|apply evict_terminates, demo_inv]. Defined.
End Cache.
