(* ===== verification/FsState.v ===== *)
(** * FsState: the data of the file system of a3/fs

    On-disk structures with their byte layout, the in-memory objects, and
    the global state that the functions of inode.c, free-map.c, file.c,
    directory.c and filesys.c share. *)
From S2P Require Import Prelude Bitmap Store.

Module FsState.
Import Bitmap.

(** Addresses of heap objects.  An address is never given out twice, so
    that any use after free is visible as an access to a missing object. *)
Abbreviation loc := positive.

Definition FREE_MAP_SECTOR : Z := 0.
Definition ROOT_DIR_SECTOR : Z := 1.
Definition INODE_MAGIC : Z := 1229868868. (* 0x494e4f44 *)
Definition DIRECT_BLOCKS_COUNT : Z := 123.
Definition INDIRECT_BLOCKS_PER_SECTOR : Z := 128.

(* ------------------------------------------------------------------ *)
(** ** On-disk inode                                                   *)
(* ------------------------------------------------------------------ *)

(** struct inode_disk.  [is_dir] is the byte of the bool (true when not 0),
    [pad] the three bytes of padding after it, which memcpy carries. *)
Record inode_disk := mkInodeDisk {
  direct_blocks : list Z;
  indirect_block : Z;
  doubly_indirect_block : Z;
  is_dir : Z;
  pad : list Z;
  length_ : Z;
  magic : Z
}.

Definition encode_inode (d : inode_disk) : list Z :=
  words_bytes 4 (direct_blocks d) ++ le_bytes 4 (indirect_block d) ++
  le_bytes 4 (doubly_indirect_block d) ++ [is_dir d] ++ pad d ++
  le_bytes 4 (u32 (length_ d)) ++ le_bytes 4 (magic d).

Definition decode_inode (bs : list Z) : inode_disk :=
  mkInodeDisk (bytes_words 4 123 bs)
    (le_value (slice bs 492 4)) (le_value (slice bs 496 4))
    (le_value (slice bs 500 1)) (slice bs 501 3)
    (i32 (le_value (slice bs 504 4))) (le_value (slice bs 508 4)).

(** struct inode_indirect_block_sector. *)
Definition encode_blocks (ws : list Z) : list Z := words_bytes 4 ws.
Definition decode_blocks (bs : list Z) : list Z := bytes_words 4 128 bs.

Record inode_disk_ok (d : inode_disk) : Prop := {
  ok_direct : length (direct_blocks d) = 123%nat;
  ok_words : Forall (fun w => 0 <= w < 2 ^ 32) (direct_blocks d);
  ok_indirect : 0 <= indirect_block d < 2 ^ 32;
  ok_doubly : 0 <= doubly_indirect_block d < 2 ^ 32;
  ok_is_dir : is_u8 (is_dir d);
  ok_pad : length (pad d) = 3%nat /\ Forall is_u8 (pad d);
  ok_length : - 2 ^ 31 <= length_ d < 2 ^ 31;
  ok_magic : 0 <= magic d < 2 ^ 32
}.

(* ------------------------------------------------------------------ *)
(** ** In-memory objects                                               *)
(* ------------------------------------------------------------------ *)

(** struct inode; its list element is its place in [open_inodes]. *)
Record inode := mkInode {
  sector : Z;
  open_cnt : Z;
  removed : bool;
  deny_write_cnt : Z;
  data : inode_disk
}.

(** struct file (file.h). *)
Record file := mkFile { f_inode : loc; f_pos : Z; f_deny_write : bool }.

(** struct dir (directory.h). *)
Record dir := mkDir { d_inode : loc; d_pos : Z; d_open_cnt : Z }.

(** struct file_table_entry (file.c). *)
Record file_table_entry := mkFte { fte_name : string; fte_file : loc }.

(** The globals: the device behind the buffer cache; [free_map] and
    [free_map_file] of free-map.c; [open_inodes] of inode.c (front of the
    list first); the heap objects; [cwd] of directory.c; [file_table] of
    file.c; and the next fresh address. *)
Record fs {B : Type} := mkFs {
  store : B;
  free_map : bitmap;
  free_map_file : option loc;
  open_inodes : list loc;
  inodes : gmap loc inode;
  files : gmap loc file;
  dirs : gmap loc dir;
  cwd : option loc;
  file_table : list file_table_entry;
  brk : loc
}.
Arguments fs : clear implicits.

Section access.
Context {B : Type}.
Implicit Types s : fs B.

Definition set_store (b : B) s : fs B :=
  mkFs B b (free_map s) (free_map_file s) (open_inodes s) (inodes s) (files s)
       (dirs s) (cwd s) (file_table s) (brk s).
Definition set_free_map (m : bitmap) s : fs B :=
  mkFs B (store s) m (free_map_file s) (open_inodes s) (inodes s) (files s)
       (dirs s) (cwd s) (file_table s) (brk s).
Definition set_free_map_file (f : option loc) s : fs B :=
  mkFs B (store s) (free_map s) f (open_inodes s) (inodes s) (files s)
       (dirs s) (cwd s) (file_table s) (brk s).
Definition set_open_inodes (l : list loc) s : fs B :=
  mkFs B (store s) (free_map s) (free_map_file s) l (inodes s) (files s)
       (dirs s) (cwd s) (file_table s) (brk s).
Definition set_inodes (m : gmap loc inode) s : fs B :=
  mkFs B (store s) (free_map s) (free_map_file s) (open_inodes s) m (files s)
       (dirs s) (cwd s) (file_table s) (brk s).
Definition set_files (m : gmap loc file) s : fs B :=
  mkFs B (store s) (free_map s) (free_map_file s) (open_inodes s) (inodes s) m
       (dirs s) (cwd s) (file_table s) (brk s).
Definition set_dirs (m : gmap loc dir) s : fs B :=
  mkFs B (store s) (free_map s) (free_map_file s) (open_inodes s) (inodes s) (files s)
       m (cwd s) (file_table s) (brk s).
Definition set_cwd (d : option loc) s : fs B :=
  mkFs B (store s) (free_map s) (free_map_file s) (open_inodes s) (inodes s) (files s)
       (dirs s) d (file_table s) (brk s).
Definition set_file_table (l : list file_table_entry) s : fs B :=
  mkFs B (store s) (free_map s) (free_map_file s) (open_inodes s) (inodes s) (files s)
       (dirs s) (cwd s) l (brk s).
Definition set_brk (p : loc) s : fs B :=
  mkFs B (store s) (free_map s) (free_map_file s) (open_inodes s) (inodes s) (files s)
       (dirs s) (cwd s) (file_table s) p.

(** malloc: a fresh address. *)
Definition malloc : M (fs B) loc :=
  let! s := get in put (set_brk (Pos.succ (brk s)) s) ;; ret (brk s).

(** Dereferencing a pointer to an inode, assigning through it, free. *)
Definition get_inode (p : loc) : M (fs B) inode :=
  let! s := get in need (inodes s !! p).
Definition set_inode (p : loc) (i : inode) : M (fs B) unit :=
  modify (fun s => set_inodes (<[p := i]> (inodes s)) s).
Definition free_inode (p : loc) : M (fs B) unit :=
  modify (fun s => set_inodes (delete p (inodes s)) s).
Definition get_file (p : loc) : M (fs B) file :=
  let! s := get in need (files s !! p).
Definition set_file (p : loc) (f : file) : M (fs B) unit :=
  modify (fun s => set_files (<[p := f]> (files s)) s).
Definition free_file (p : loc) : M (fs B) unit :=
  modify (fun s => set_files (delete p (files s)) s).

Definition on_free_map {A} (m : M bitmap A) : M (fs B) A := zoom free_map set_free_map m.
End access.

(* ------------------------------------------------------------------ *)
(** ** Round trips                                                     *)
(* ------------------------------------------------------------------ *)

Lemma slice_app_at {A} (l1 l2 l3 : list A) off n :
  zlen l1 = off -> zlen l2 = n -> slice (l1 ++ l2 ++ l3) off n = l2.
Proof.
  intros H1 H2. unfold slice. rewrite drop_app_length' by lia.
  rewrite take_app_length' by lia. done.
Qed.

Lemma length_encode_inode d : inode_disk_ok d -> length (encode_inode d) = 512%nat.
Proof.
  intros []. unfold encode_inode. destruct ok_pad0 as [Hp _].
  rewrite !length_app, length_words_bytes, !length_le_bytes. simpl. lia.
Qed.

Lemma encode_inode_u8 d : inode_disk_ok d -> Forall is_u8 (encode_inode d).
Proof.
  intros []. unfold encode_inode. destruct ok_pad0 as [_ Hp].
  rewrite !Forall_app. repeat split; try apply le_bytes_u8; [apply words_bytes_u8| |done].
  by constructor.
Qed.

Lemma i32_u32 z : - 2 ^ 31 <= z < 2 ^ 31 -> i32 (u32 z) = z.
Proof.
  intros. unfold i32, u32. Z.to_euclidean_division_equations. lia.
Qed.

(** The field [l2] of the layout, given what precedes it. *)
Lemma encoded_field d l1 l2 l3 off n :
  encode_inode d = l1 ++ l2 ++ l3 -> zlen l1 = off -> zlen l2 = n ->
  slice (encode_inode d) off n = l2.
Proof. intros -> ? ?. by apply slice_app_at. Qed.

Ltac subst_lists := repeat match goal with v := _ : list Z |- _ => subst v end.
Ltac encoded_field d l1 l2 l3 :=
  erewrite (encoded_field d l1 l2 l3);
  [|subst_lists; unfold encode_inode; by rewrite <- ?app_assoc, ?app_nil_r
   |subst_lists; rewrite ?zlen_app, ?length_le_bytes; simpl; lia
   |rewrite ?length_le_bytes; simpl; lia].

Lemma decode_encode_inode d : inode_disk_ok d -> decode_inode (encode_inode d) = d.
Proof.
  intros [H1 H2 H3 H4 H5 [H6 _] H7 H8]. unfold decode_inode.
  pose proof (length_words_bytes 4 (direct_blocks d)) as Hw. rewrite H1 in Hw. simpl in Hw.
  assert (bytes_words 4 123 (encode_inode d) = direct_blocks d) as ->.
  { unfold encode_inode. rewrite <- H1. by apply bytes_words_bytes. }
  set (p0 := words_bytes 4 (direct_blocks d)) in *.
  set (p1 := p0 ++ le_bytes 4 (indirect_block d)).
  set (p2 := p1 ++ le_bytes 4 (doubly_indirect_block d)).
  set (p3 := p2 ++ [is_dir d]). set (p4 := p3 ++ pad d).
  set (p5 := p4 ++ le_bytes 4 (u32 (length_ d))).
  assert (slice (encode_inode d) 492 4 = le_bytes 4 (indirect_block d)) as ->.
  { eapply (encoded_field d p0); [done|lia|by rewrite length_le_bytes]. }
  encoded_field d p1 (le_bytes 4 (doubly_indirect_block d))
    ([is_dir d] ++ pad d ++ le_bytes 4 (u32 (length_ d)) ++ le_bytes 4 (magic d)).
  encoded_field d p2 [is_dir d] (pad d ++ le_bytes 4 (u32 (length_ d)) ++ le_bytes 4 (magic d)).
  encoded_field d p3 (pad d) (le_bytes 4 (u32 (length_ d)) ++ le_bytes 4 (magic d)).
  encoded_field d p4 (le_bytes 4 (u32 (length_ d))) (le_bytes 4 (magic d)).
  encoded_field d p5 (le_bytes 4 (magic d)) (@nil Z).
  assert (0 <= u32 (length_ d) < 256 ^ Z.of_nat 4)
    by (apply Z.mod_pos_bound; lia).
  rewrite !le_value_bytes by done. rewrite i32_u32 by done. simpl le_value.
  rewrite Z.add_0_r. by destruct d.
Qed.

Lemma decode_inode_ok bs :
  length bs = 512%nat -> Forall is_u8 bs -> inode_disk_ok (decode_inode bs).
Proof.
  intros Hl Hu.
  assert (forall off n, 0 <= off -> 0 <= n -> off + n <= 512 ->
          0 <= le_value (slice bs off n) < 256 ^ n) as Hv.
  { intros off n ? ? ?. pose proof (le_value_bound (slice bs off n)) as Hb.
    rewrite zlen_slice in Hb by (rewrite ?Hl; lia). apply Hb. by apply Forall_take, Forall_drop. }
  unfold decode_inode. split; simpl; try (apply Hv; lia).
  - done.
  - apply (bytes_words_bound 4); [done|lia].
  - split; [|by apply Forall_take, Forall_drop].
    pose proof (zlen_slice bs 501 3) as Hz. rewrite Hl in Hz. lia.
  - unfold i32. pose proof (Z.mod_pos_bound (le_value (slice bs 504 4) + 2 ^ 31) (2 ^ 32)). lia.
Qed.

(** The fields cover the sector: nothing of it is lost by decoding. *)
Lemma encode_decode_inode bs :
  length bs = 512%nat -> Forall is_u8 bs -> encode_inode (decode_inode bs) = bs.
Proof.
  intros Hl Hu.
  assert (forall off n, 0 <= off -> off + Z.of_nat n <= 512 ->
          le_bytes n (le_value (slice bs off (Z.of_nat n))) = slice bs off (Z.of_nat n)) as Hle.
  { intros off n ? ?. rewrite <- (le_bytes_value (slice _ _ _)) at 2 by by apply Forall_slice.
    f_equal. pose proof (zlen_slice bs off (Z.of_nat n)). lia. }
  assert (forall off, 0 <= off -> off + 1 <= 512 -> [le_value (slice bs off 1)] = slice bs off 1) as H1.
  { intros off ? ?. pose proof (zlen_slice bs off 1).
    destruct (slice bs off 1) as [|x [|y l]]; simpl in *; try lia. by rewrite Z.add_0_r. }
  assert (bytes_words 4 123 bs = bytes_words 4 123 (slice bs 0 492)) as E.
  { unfold slice. rewrite drop_0. apply bytes_words_take. simpl. lia. }
  unfold encode_inode, decode_inode. cbn [direct_blocks indirect_block doubly_indirect_block is_dir pad length_ magic].
  rewrite E, words_bytes_words; [|by apply Forall_slice|pose proof (zlen_slice bs 0 492); lia].
  assert (u32 (i32 (le_value (slice bs 504 4))) = le_value (slice bs 504 4)) as ->.
  { pose proof (le_value_bound (slice bs 504 4)) as Hb. rewrite zlen_slice in Hb by lia.
    specialize (Hb ltac:(by apply Forall_slice)). unfold u32, i32.
    Z.to_euclidean_division_equations. lia. }
  change 4 with (Z.of_nat 4). rewrite !Hle by lia. rewrite H1 by lia. simpl Z.of_nat.
  rewrite !app_assoc.
  rewrite <- (slice_all bs) at 8. rewrite Hl.
  rewrite !slice_snoc by lia. done.
Qed.

(* ------------------------------------------------------------------ *)
(** ** Properties                                                      *)
(* ------------------------------------------------------------------ *)

(** C33: Round trip: the on-disk inode fills exactly one sector, and
    inodes and sector images correspond one to one: decoding an encoded
    inode gives it back (its length is a signed field), and encoding what
    any 512 bytes decode to gives those bytes back. *)
Theorem inode_disk_roundtrip d bs :
  inode_disk_ok d -> length bs = 512%nat -> Forall is_u8 bs ->
  length (encode_inode d) = 512%nat /\ Forall is_u8 (encode_inode d) /\
  decode_inode (encode_inode d) = d /\
  inode_disk_ok (decode_inode bs) /\ encode_inode (decode_inode bs) = bs.
Proof.
  intros Hd Hl Hu. split_and!; [by apply length_encode_inode|by apply encode_inode_u8
    |by apply decode_encode_inode|by apply decode_inode_ok|by apply encode_decode_inode].
Qed.

Lemma inode_disk_roundtrip_witness :
  let d := mkInodeDisk (replicate 123 (2 ^ 32 - 1)) 7 0 1 [0; 0; 0] (- 5) INODE_MAGIC in
  decode_inode (encode_inode d) = d /\ encode_inode (decode_inode (replicate 512 200)) = replicate 512 200.
Proof.
  intros d.
  assert (inode_disk_ok d) as Hd.
  { split; try done; [by apply Forall_replicate|split; [done|by repeat constructor]]. }
  destruct (inode_disk_roundtrip d (replicate 512 200) Hd) as (_ & _ & H1 & _ & H2);
    [apply length_replicate|by apply Forall_replicate|].
  split; [exact H1|exact H2].
Defined.
End FsState.
