(* ===== verification/Inode.v ===== *)
(** * Inode: the inodes of a3/fs/inode.c and the free map of
    a3/fs/free-map.c

    The two files call each other: extending a file allocates sectors, an
    allocation writes the free map to its file, and that write goes
    through inode_write_at again.  The operations are therefore written
    over [write_at], the inode_write_at that the inner calls use, and
    [inode_write_at] ties the knot with fuel for the nesting depth. *)
From S2P Require Import Prelude Bitmap Store FsState.

Module Inode.
Import Bitmap FsState.

Definition UNSET : Z := 2 ^ 32 - 1.   (* (block_sector_t) -1 *)
Definition zeros : list Z := replicate 512 0.

(** For sizes below 2^31 - 511; the sum of a larger one overflows an int. *)
Definition bytes_to_sectors (size : Z) : Z := u64 (Z.quot (size + SECTOR - 1) SECTOR).
Definition min (a b : Z) : Z := if a <? b then a else b.

(** A field of struct inode_disk replaced. *)
Definition set_direct (d : inode_disk) (l : list Z) : inode_disk :=
  mkInodeDisk l (indirect_block d) (doubly_indirect_block d) (is_dir d) (pad d) (length_ d) (magic d).
Definition set_indirect (d : inode_disk) (e : Z) : inode_disk :=
  mkInodeDisk (direct_blocks d) e (doubly_indirect_block d) (is_dir d) (pad d) (length_ d) (magic d).
Definition set_doubly (d : inode_disk) (e : Z) : inode_disk :=
  mkInodeDisk (direct_blocks d) (indirect_block d) e (is_dir d) (pad d) (length_ d) (magic d).
Definition set_length (d : inode_disk) (n : Z) : inode_disk :=
  mkInodeDisk (direct_blocks d) (indirect_block d) (doubly_indirect_block d) (is_dir d) (pad d) n (magic d).
Definition set_data (i : inode) (d : inode_disk) : inode :=
  mkInode (sector i) (open_cnt i) (removed i) (deny_write_cnt i) d.

(** memcpy from and into a buffer, within its bounds. *)
Definition mem_read {S} (buf : list Z) (off n : Z) : M S (list Z) :=
  need (if (0 <=? off) && (off + n <=? zlen buf) then Some (slice buf off n) else None).
Definition mem_write {S} (buf : list Z) (off : Z) (src : list Z) : M S (list Z) :=
  need (if (0 <=? off) && (off + zlen src <=? zlen buf) then Some (splice buf off src) else None).

Section ops.
Context {B : Type} `{!BlockStore B}.

Definition cache_read (s : Z) : M (fs B) (list Z) := zoom store set_store (bs_read s).
Definition cache_write (s : Z) (buf : list Z) : M (fs B) unit :=
  zoom store set_store (bs_write s buf).

(* ------------------------------------------------------------------ *)
(** ** Where the bytes of a file are                                   *)
(* ------------------------------------------------------------------ *)

(** [index] is not negative in any call, so [/] and [mod] are C's. *)
Definition index_to_sector (idisk : inode_disk) (index : Z) : M (fs B) Z :=
  let limit1 := DIRECT_BLOCKS_COUNT in
  let limit2 := limit1 + INDIRECT_BLOCKS_PER_SECTOR in
  let limit3 := limit2 + INDIRECT_BLOCKS_PER_SECTOR * INDIRECT_BLOCKS_PER_SECTOR in
  if index <? limit1 then need (zget (direct_blocks idisk) index)
  else if index <? limit2 then
    let! bs := cache_read (indirect_block idisk) in
    need (zget (decode_blocks bs) (index - limit1))
  else if index <? limit3 then
    let index_first := (index - limit2) / INDIRECT_BLOCKS_PER_SECTOR in
    let index_second := (index - limit2) mod INDIRECT_BLOCKS_PER_SECTOR in
    let! bs := cache_read (doubly_indirect_block idisk) in
    let! first := need (zget (decode_blocks bs) index_first) in
    let! bs2 := cache_read first in
    need (zget (decode_blocks bs2) index_second)
  else ret UNSET.

Definition byte_to_sector (d : inode_disk) (pos : Z) : M (fs B) Z :=
  if (0 <=? pos) && (pos <? length_ d) then index_to_sector d (pos / SECTOR)
  else ret UNSET.

(** The array of the sectors that hold a file's data; [None] stands for
    the [return false] (NULL) of a negative length. *)
Definition get_inode_data_sectors (p : loc) : M (fs B) (option (list Z)) :=
  let! ip := get_inode p in
  let d := data ip in
  if length_ d <? 0 then ret None else
  let num_sectors := bytes_to_sectors (length_ d) in
  (* (1) direct blocks *)
  let l := min num_sectors DIRECT_BLOCKS_COUNT in
  let! sectors := for_acc (Z.to_nat l) 0
    (fun i acc => let! s := need (zget (direct_blocks d) i) in ret (acc ++ [s])) [] in
  let num_sectors := num_sectors - l in
  (* (2) a single indirect block *)
  let l := min num_sectors INDIRECT_BLOCKS_PER_SECTOR in
  let! sectors :=
    (if 0 <? l then
       let! bs := cache_read (indirect_block d) in
       for_acc (Z.to_nat l) 0
         (fun i acc => let! s := need (zget (decode_blocks bs) i) in ret (acc ++ [s])) sectors
     else ret sectors) in
  let num_sectors := num_sectors - l in
  (* (3) a single doubly indirect block *)
  let l := min num_sectors (INDIRECT_BLOCKS_PER_SECTOR * INDIRECT_BLOCKS_PER_SECTOR) in
  let! sectors :=
    (if 0 <? l then
       let! bs := cache_read (doubly_indirect_block d) in
       let l2 := DIV_ROUND_UP l INDIRECT_BLOCKS_PER_SECTOR in
       let! r := for_acc (Z.to_nat l2) 0
         (fun i '(acc, num_sectors2) =>
            let subsize := min num_sectors2 INDIRECT_BLOCKS_PER_SECTOR in
            let! b := need (zget (decode_blocks bs) i) in
            let! bs2 := cache_read b in
            let! acc' := for_acc (Z.to_nat subsize) 0
              (fun i2 acc => let! s := need (zget (decode_blocks bs2) i2) in ret (acc ++ [s])) acc in
            ret (acc', num_sectors2 - subsize)) (sectors, l) in
       ret (fst r)
     else ret sectors) in
  let num_sectors := num_sectors - l in
  assert_ (num_sectors =? 0) "num_sectors == 0" ;;
  ret (Some sectors).

(* ------------------------------------------------------------------ *)
(** ** Reading                                                         *)
(* ------------------------------------------------------------------ *)

(** Turns that are always enough: one per sector that [size] bytes may
    touch, and the last test. *)
Definition rw_fuel (size : Z) : nat := Z.to_nat (Z.max 0 size / SECTOR + 3).

(** One turn of the loop of inode_read_at: [size] bytes are still wanted
    at [offset], [acc] holds those already read. *)
Definition read_step (p : loc) (x : Z * Z * list Z) : M (fs B) (Z * Z * list Z + list Z) :=
  let '(size, offset, acc) := x in
  if negb (0 <? size) then ret (inr acc) else
  let! ip := get_inode p in
  let! sector_idx := byte_to_sector (data ip) offset in
  let sector_ofs := Z.rem offset SECTOR in
  if sector_idx <? 0 then ret (inr acc) else
  let inode_left := length_ (data ip) - offset in
  let sector_left := SECTOR - sector_ofs in
  let min_left := if inode_left <? sector_left then inode_left else sector_left in
  let chunk_size := if size <? min_left then size else min_left in
  if chunk_size <=? 0 then ret (inr acc) else
  let! bounce := cache_read sector_idx in
  let! piece :=
    (if (sector_ofs =? 0) && (chunk_size =? SECTOR) then ret bounce
     else mem_read bounce sector_ofs chunk_size) in
  ret (inl (size - chunk_size, offset + chunk_size, acc ++ piece)).

(** The bytes read; their number is the value the C function returns. *)
Definition inode_read_at (p : loc) (size offset : Z) : M (fs B) (list Z) :=
  while_ (rw_fuel size) (read_step p) (size, offset, []).

(* ------------------------------------------------------------------ *)
(** ** Writing and allocating, over the inner inode_write_at           *)
(* ------------------------------------------------------------------ *)

Section nested.
(** [write_at p buffer size offset]. *)
Variable write_at : loc -> list Z -> Z -> Z -> M (fs B) Z.

(** bitmap_write (bitmap.c) to the free map's file. *)
Definition bitmap_write (file : option loc) : M (fs B) bool :=
  let! s := get in
  let size := i32 (byte_cnt (bit_cnt (free_map s))) in
  let! fp := need file in
  let! f := get_file fp in
  let! n := write_at (f_inode f) (words_bytes 8 (bits (free_map s))) size 0 in
  ret (n =? size).

(** The sector stored through [sectorp] on success. *)
Definition free_map_allocate (cnt : Z) : M (fs B) (option Z) :=
  let! idx := on_free_map (bitmap_scan_and_flip 0 cnt false) in
  let sector := u32 idx in
  let! s := get in
  let! sector :=
    (if negb (sector =? BITMAP_ERROR) && bool_decide (is_Some (free_map_file s)) then
       let! ok := bitmap_write (free_map_file s) in
       if ok : bool then ret sector
       else on_free_map (bitmap_set_multiple sector cnt false) ;; ret BITMAP_ERROR
     else ret sector) in
  ret (if sector =? BITMAP_ERROR then None else Some sector).

Definition free_map_release (sector cnt : Z) : M (fs B) unit :=
  let! all := on_free_map (bitmap_all sector cnt) in
  assert_ all "bitmap_all(free_map, sector, cnt)" ;;
  on_free_map (bitmap_set_multiple sector cnt false) ;;
  let! s := get in
  bitmap_write (free_map_file s) ;;
  ret tt.

(** The boolean result and the value left in [*p_entry]. *)
Fixpoint inode_reserve_indirect (level : nat) (entry num_sectors : Z) : M (fs B) (bool * Z) :=
  assert_ (Z.of_nat level <=? 2) "level <= 2" ;;
  match level with
  | O =>
      if entry =? 0 then
        let! r := free_map_allocate 1 in
        match r with
        | None => ret (false, entry)
        | Some s => cache_write s zeros ;; ret (true, s)
        end
      else ret (true, entry)
  | S level' =>
      let! entry :=
        (if entry =? 0 then
           let! r := free_map_allocate 1 in
           let e := default entry r in
           cache_write e zeros ;; ret e
         else ret entry) in
      let! bs := cache_read entry in
      let unit_ := if Nat.eqb level 1 then 1 else INDIRECT_BLOCKS_PER_SECTOR in
      let l := DIV_ROUND_UP num_sectors unit_ in
      let! r := for_ret (Z.to_nat l) 0
        (fun i '(blocks, num) =>
           let subsize := min num unit_ in
           let! b := need (zget blocks i) in
           let! ob := inode_reserve_indirect level' b subsize in
           let! blocks' := need (zset blocks i (snd ob)) in
           ret (if fst ob : bool then inl (blocks', num - subsize) else inr tt))
        (decode_blocks bs, num_sectors) in
      match r with
      | inr _ => ret (false, entry)
      | inl (blocks, num) =>
          assert_ (num =? 0) "num_sectors == 0" ;;
          cache_write entry (encode_blocks blocks) ;;
          ret (true, entry)
      end
  end.

(** The result and the struct left in [*disk_inode]. *)
Definition inode_reserve (d : inode_disk) (length : Z) : M (fs B) (bool * inode_disk) :=
  if length <? 0 then ret (false, d) else
  let num_sectors := bytes_to_sectors length in
  (* (1) direct blocks *)
  let l := min num_sectors DIRECT_BLOCKS_COUNT in
  let! r := for_ret (Z.to_nat l) 0
    (fun i d =>
       let! b := need (zget (direct_blocks d) i) in
       if b =? 0 then
         let! a := free_map_allocate 1 in
         match a with
         | None => ret (inr d)
         | Some s =>
             let! bl := need (zset (direct_blocks d) i s) in
             cache_write s zeros ;;
             ret (inl (set_direct d bl))
         end
       else ret (inl d)) d in
  match r with
  | inr d => ret (false, d)
  | inl d =>
  let num_sectors := num_sectors - l in
  if num_sectors =? 0 then ret (true, d) else
  (* (2) a single indirect block *)
  let l := min num_sectors INDIRECT_BLOCKS_PER_SECTOR in
  let! r := inode_reserve_indirect 1 (indirect_block d) l in
  let d := set_indirect d (snd r) in
  if negb (fst r) then ret (false, d) else
  let num_sectors := num_sectors - l in
  if num_sectors =? 0 then ret (true, d) else
  (* (3) a single doubly indirect block *)
  let l := min num_sectors (INDIRECT_BLOCKS_PER_SECTOR * INDIRECT_BLOCKS_PER_SECTOR) in
  let! r := inode_reserve_indirect 2 (doubly_indirect_block d) l in
  let d := set_doubly d (snd r) in
  if negb (fst r) then ret (false, d) else
  let num_sectors := num_sectors - l in
  if num_sectors =? 0 then ret (true, d) else
  assert_ (num_sectors =? 0) "num_sectors == 0" ;;
  ret (false, d)
  end.

(** One turn of the loop of inode_write_at. *)
Definition write_step (p : loc) (buffer : list Z) (x : Z * Z * Z)
  : M (fs B) (Z * Z * Z + Z) :=
  let '(size, offset, bytes_written) := x in
  if negb (0 <? size) then ret (inr bytes_written) else
  let! ip := get_inode p in
  let! sector_idx := byte_to_sector (data ip) offset in
  let sector_ofs := Z.rem offset SECTOR in
  let inode_left := length_ (data ip) - offset in
  let sector_left := SECTOR - sector_ofs in
  let min_left := if inode_left <? sector_left then inode_left else sector_left in
  let chunk_size := if size <? min_left then size else min_left in
  if chunk_size <=? 0 then ret (inr bytes_written) else
  let! src := mem_read buffer bytes_written chunk_size in
  (if (sector_ofs =? 0) && (chunk_size =? SECTOR) then cache_write sector_idx src
   else
     let! bounce :=
       (if (0 <? sector_ofs) || (chunk_size <? sector_left) then cache_read sector_idx
        else ret zeros) in
     let! bounce' := mem_write bounce sector_ofs src in
     cache_write sector_idx bounce') ;;
  ret (inl (size - chunk_size, offset + chunk_size, bytes_written + chunk_size)).

(** The extension of the file when the last byte is past its end: [true]
    to go on with the write. *)
Definition write_extend (p : loc) (size offset : Z) : M (fs B) bool :=
  let! ip := get_inode p in
  let! sec := byte_to_sector (data ip) (offset + size - 1) in
  if sec =? UNSET then
    let! r := inode_reserve (data ip) (offset + size) in
    let! ip := get_inode p in
    set_inode p (set_data ip (snd r)) ;;
    if negb (fst r) then ret false else
    let d := set_length (snd r) (offset + size) in
    set_inode p (set_data ip d) ;;
    cache_write (sector ip) (encode_inode d) ;;
    ret true
  else ret true.

Definition inode_write_at_body (p : loc) (buffer : list Z) (size offset : Z) : M (fs B) Z :=
  let! ip := get_inode p in
  if negb (deny_write_cnt ip =? 0) then ret 0 else
  let! go := write_extend p size offset in
  if negb go then ret 0 else
  while_ (rw_fuel size) (write_step p buffer) (size, offset, 0).
End nested.

(* ------------------------------------------------------------------ *)
(** ** The knot                                                        *)
(* ------------------------------------------------------------------ *)

Fixpoint inode_write_at_fuel (fuel : nat) (p : loc) (buffer : list Z) (size offset : Z)
  : M (fs B) Z :=
  match fuel with
  | O => out_of_fuel
  | S f => inode_write_at_body (inode_write_at_fuel f) p buffer size offset
  end.

(** An outer write, the write of the free map it may cause, and one level
    to spare: the free map's own file never grows. *)
Definition write_fuel : nat := 3.
Definition inode_write_at := inode_write_at_fuel write_fuel.

Definition allocate := free_map_allocate inode_write_at.
Definition release := free_map_release inode_write_at.

(* ------------------------------------------------------------------ *)
(** ** Inodes                                                          *)
(* ------------------------------------------------------------------ *)

Definition inode_init : M (fs B) unit := modify (set_open_inodes []).

Definition inode_allocate (d : inode_disk) : M (fs B) (bool * inode_disk) :=
  inode_reserve inode_write_at d (length_ d).

Definition inode_create (sector length : Z) (is_dir : bool) : M (fs B) bool :=
  assert_ (0 <=? length) "length >= 0" ;;
  let d := mkInodeDisk (replicate 123 0) 0 0 (if is_dir then 1 else 0) [0; 0; 0]
                       length INODE_MAGIC in
  let! r := inode_allocate d in
  (if fst r : bool then cache_write sector (encode_inode (snd r)) else ret tt) ;;
  ret (fst r).

Definition inode_reopen (p : loc) : M (fs B) loc := ret p.

(** The search of the list of open inodes. *)
Fixpoint find_open (l : list loc) (sec : Z) : M (fs B) (option loc) :=
  match l with
  | [] => ret None
  | p :: l' =>
      let! ip := get_inode p in
      if sector ip =? sec then ret (Some p) else find_open l' sec
  end.

Definition inode_open (sec : Z) : M (fs B) loc :=
  let! s := get in
  let! r := find_open (open_inodes s) sec in
  match r with
  | Some p => inode_reopen p
  | None =>
      let! p := malloc in
      modify (fun s => set_open_inodes (p :: open_inodes s) s) ;;
      let! bs := cache_read sec in
      set_inode p (mkInode sec 1 false 0 (decode_inode bs)) ;;
      ret p
  end.

Definition inode_get_inumber (p : loc) : M (fs B) Z :=
  let! ip := get_inode p in ret (sector ip).

Fixpoint inode_deallocate_indirect (level : nat) (entry num_sectors : Z) : M (fs B) unit :=
  assert_ (Z.of_nat level <=? 2) "level <= 2" ;;
  match level with
  | O => release entry 1
  | S level' =>
      let! bs := cache_read entry in
      let unit_ := if Nat.eqb level 1 then 1 else INDIRECT_BLOCKS_PER_SECTOR in
      let l := DIV_ROUND_UP num_sectors unit_ in
      let! num := for_acc (Z.to_nat l) 0
        (fun i num =>
           let subsize := min num unit_ in
           let! b := need (zget (decode_blocks bs) i) in
           inode_deallocate_indirect level' b subsize ;;
           ret (num - subsize)) num_sectors in
      assert_ (num =? 0) "num_sectors == 0" ;;
      release entry 1
  end.

Definition inode_deallocate (p : loc) : M (fs B) bool :=
  let! ip := get_inode p in
  let d := data ip in
  if length_ d <? 0 then ret false else
  let num_sectors := bytes_to_sectors (length_ d) in
  let l := min num_sectors DIRECT_BLOCKS_COUNT in
  for_ (Z.to_nat l) 0
    (fun i => let! b := need (zget (direct_blocks d) i) in release b 1) ;;
  let num_sectors := num_sectors - l in
  let l := min num_sectors INDIRECT_BLOCKS_PER_SECTOR in
  when (0 <? l) (inode_deallocate_indirect 1 (indirect_block d) l) ;;
  let num_sectors := num_sectors - l in
  let l := min num_sectors (INDIRECT_BLOCKS_PER_SECTOR * INDIRECT_BLOCKS_PER_SECTOR) in
  when (0 <? l) (inode_deallocate_indirect 2 (doubly_indirect_block d) l) ;;
  let num_sectors := num_sectors - l in
  assert_ (num_sectors =? 0) "num_sectors == 0" ;;
  ret true.

(** The argument is a pointer, [None] for NULL. *)
Definition inode_close (o : option loc) : M (fs B) unit :=
  match o with
  | None => ret tt
  | Some p =>
      let! ip := get_inode p in
      let ip := mkInode (sector ip) (open_cnt ip - 1) (removed ip) (deny_write_cnt ip) (data ip) in
      set_inode p ip ;;
      when (open_cnt ip =? 0)
        (modify (fun s => set_open_inodes (filter (fun q => q <> p) (open_inodes s)) s) ;;
         when (removed ip)
           (release (sector ip) 1 ;; inode_deallocate p ;; ret tt) ;;
         free_inode p)
  end.

Definition inode_remove (p : loc) : M (fs B) unit :=
  let! ip := get_inode p in
  set_inode p (mkInode (sector ip) (open_cnt ip) true (deny_write_cnt ip) (data ip)).

Definition inode_deny_write (p : loc) : M (fs B) unit :=
  let! ip := get_inode p in
  let n := deny_write_cnt ip + 1 in
  set_inode p (mkInode (sector ip) (open_cnt ip) (removed ip) n (data ip)) ;;
  assert_ (n <=? open_cnt ip) "inode->deny_write_cnt <= inode->open_cnt".

Definition inode_allow_write (p : loc) : M (fs B) unit :=
  let! ip := get_inode p in
  assert_ (0 <? deny_write_cnt ip) "inode->deny_write_cnt > 0" ;;
  assert_ (deny_write_cnt ip <=? open_cnt ip) "inode->deny_write_cnt <= inode->open_cnt" ;;
  set_inode p (mkInode (sector ip) (open_cnt ip) (removed ip) (deny_write_cnt ip - 1) (data ip)).

Definition inode_length (p : loc) : M (fs B) Z :=
  let! ip := get_inode p in ret (length_ (data ip)).
Definition inode_is_directory (p : loc) : M (fs B) bool :=
  let! ip := get_inode p in ret (negb (is_dir (data ip) =? 0)).
Definition inode_is_removed (p : loc) : M (fs B) bool :=
  let! ip := get_inode p in ret (removed ip).
End ops.
#[global] Arguments inode_write_at_fuel : simpl never.
End Inode.
