(* ===== verification/FileData.v ===== *)
(** * FileData: the bytes of a file, and what inode_read_at and
    inode_write_at do to them *)
From S2P Require Import Prelude Bitmap Store FsState Inode.

Module FileData.
Import Bitmap FsState Inode.

(** The number of data sectors an inode can address. *)
Definition MAX_SECTORS : Z := 123 + 128 + 128 * 128.

Section facts.
Context {B : Type} `{!BlockStore B}.
Implicit Types (b : B) (s : fs B) (d : inode_disk).

(* ------------------------------------------------------------------ *)
(** ** Sectors of a file                                               *)
(* ------------------------------------------------------------------ *)

Definition in_range b (t : Z) : Prop := 0 <= t < bs_size b.
Definition blocks_at b (t : Z) : list Z := decode_blocks (bs_sector b t).

(** The sector of the [index]-th data block, read off the contents of the
    device. *)
Definition sector_of b d (index : Z) : option Z :=
  if index <? 123 then zget (direct_blocks d) index
  else if index <? 123 + 128 then zget (blocks_at b (indirect_block d)) (index - 123)
  else match zget (blocks_at b (doubly_indirect_block d)) ((index - 251) / 128) with
       | Some first => zget (blocks_at b first) ((index - 251) mod 128)
       | None => None
       end.

(** The indirect sectors that the first [n] data blocks go through. *)
Definition uses_meta b d (n t : Z) : Prop :=
  (123 < n /\ t = indirect_block d) \/
  (251 < n /\ t = doubly_indirect_block d) \/
  (exists k, 0 <= k /\ 251 + 128 * k < n /\
             zget (blocks_at b (doubly_indirect_block d)) k = Some t).

(** The data of inode [d] is in the sectors [secs], in order. *)
Record file_ok b d (secs : list Z) : Prop := {
  fo_length : 0 <= length_ d;
  fo_count : zlen secs = bytes_to_sectors (length_ d);
  fo_max : zlen secs <= MAX_SECTORS;
  fo_secs : forall i t, zget secs i = Some t -> sector_of b d i = Some t;
  fo_range : Forall (in_range b) secs;
  fo_nodup : NoDup secs;
  fo_meta : forall t, uses_meta b d (zlen secs) t -> in_range b t /\ t ∉ secs
}.

(** The bytes of the file. *)
Definition sectors_bytes b (secs : list Z) : list Z := concat (map (bs_sector b) secs).
Definition content b d (secs : list Z) : list Z :=
  take (Z.to_nat (length_ d)) (sectors_bytes b secs).

(** Two devices with the same sectors. *)
Record same_store b b' : Prop := {
  ss_inv : bs_inv b';
  ss_size : bs_size b' = bs_size b;
  ss_sector : forall t, in_range b t -> bs_sector b' t = bs_sector b t
}.

(** Two devices that differ in the sectors [secs] at most. *)
Record changes_only b (secs : list Z) b' : Prop := {
  co_inv : bs_inv b';
  co_size : bs_size b' = bs_size b;
  co_sector : forall t, in_range b t -> t ∉ secs -> bs_sector b' t = bs_sector b t
}.

Lemma same_store_refl b : bs_inv b -> same_store b b.
Proof. by split. Qed.
Lemma changes_only_refl b secs : bs_inv b -> changes_only b secs b.
Proof. by split. Qed.
Lemma in_range_size b b' t : bs_size b' = bs_size b -> in_range b t -> in_range b' t.
Proof. unfold in_range. by intros ->. Qed.
Lemma same_store_trans b1 b2 b3 : same_store b1 b2 -> same_store b2 b3 -> same_store b1 b3.
Proof.
  intros [H1 H2 H3] [H4 H5 H6]. split; [done|congruence|]. intros t Ht.
  rewrite H6 by (by eapply in_range_size). auto.
Qed.
Lemma changes_only_trans b1 secs b2 b3 :
  changes_only b1 secs b2 -> changes_only b2 secs b3 -> changes_only b1 secs b3.
Proof.
  intros [H1 H2 H3] [H4 H5 H6]. split; [done|congruence|]. intros t Ht Hn.
  rewrite H6; [auto|by eapply in_range_size|done].
Qed.
Lemma changes_only_mono b l1 l2 b' : changes_only b l1 b' -> (forall t, t ∈ l1 -> t ∈ l2) -> changes_only b l2 b'.
Proof. intros [H1 H2 H3] Hs. split; [done|done|]. intros t Ht Hn. apply H3; [done|]. eauto. Qed.
Lemma same_changes_only b secs b' : same_store b b' -> changes_only b secs b'.
Proof. intros [H1 H2 H3]. split; auto. Qed.

(* ------------------------------------------------------------------ *)
(** ** Calls of the cache                                              *)
(* ------------------------------------------------------------------ *)

Lemma cache_read_wp s t (Q : list Z -> fs B -> Prop) :
  bs_inv (store s) -> in_range (store s) t ->
  (forall b', same_store (store s) b' -> Q (bs_sector (store s) t) (set_store b' s)) ->
  wp (cache_read t) Q s.
Proof.
  intros Hinv Ht HQ. unfold cache_read. apply wp_zoom, bs_read_wp; [done|done|].
  intros b' H1 H2 H3. by apply HQ.
Qed.

Lemma cache_write_wp s t buf (Q : unit -> fs B -> Prop) :
  bs_inv (store s) -> in_range (store s) t -> zlen buf = 512 -> Forall is_u8 buf ->
  (forall b', changes_only (store s) [t] b' -> bs_sector b' t = buf -> Q tt (set_store b' s)) ->
  wp (cache_write t buf) Q s.
Proof.
  intros Hinv Ht Hl Hu HQ. unfold cache_write. apply wp_zoom, bs_write_wp; [done..|].
  intros b' H1 H2 H3. apply HQ.
  - split; [done|done|]. intros t' Ht' Hn. rewrite H3 by done.
    rewrite bool_decide_eq_false_2; [done|]. set_solver.
  - rewrite H3 by done. by rewrite bool_decide_eq_true_2.
Qed.
(* ------------------------------------------------------------------ *)
(** ** Finding a sector                                                *)
(* ------------------------------------------------------------------ *)

Lemma set_store_twice b1 b2 s : set_store b2 (set_store b1 s) = set_store b2 s.
Proof. done. Qed.

Lemma index_to_sector_wp s d secs i t (Q : Z -> fs B -> Prop) :
  bs_inv (store s) -> file_ok (store s) d secs -> zget secs i = Some t ->
  (forall b', same_store (store s) b' -> Q t (set_store b' s)) ->
  wp (index_to_sector d i) Q s.
Proof.
  intros Hinv [] Hi HQ. pose proof (zget_range _ _ _ Hi) as Hr.
  pose proof (fo_secs0 _ _ Hi) as Hs. unfold sector_of in Hs. unfold index_to_sector.
  change DIRECT_BLOCKS_COUNT with 123. change INDIRECT_BLOCKS_PER_SECTOR with 128. cbv zeta.
  unfold MAX_SECTORS in *.
  destruct (i <? 123) eqn:E1.
  { eapply wp_need; [done|]. pose proof (HQ (store s)) as H. destruct s. by apply H, same_store_refl. }
  change (123 + 128) with 251 in *.
  destruct (i <? 251) eqn:E2.
  - wp_step. destruct (fo_meta0 (indirect_block d)) as [Hm _]; [left; lia|].
    apply cache_read_wp; [done..|]. intros b' Hb. eapply wp_need; [done|]. by apply HQ.
  - rewrite (proj2 (Z.ltb_lt _ _)) by lia.
    destruct (zget (blocks_at (store s) (doubly_indirect_block d)) ((i - 251) / 128))
      as [first|] eqn:E3; [|done].
    wp_step. destruct (fo_meta0 (doubly_indirect_block d)) as [Hm _]; [right; left; lia|].
    apply cache_read_wp; [done..|]. intros b' Hb. wp_step. eapply wp_need; [done|].
    destruct (fo_meta0 first) as [Hf _].
    { right; right. exists ((i - 251) / 128). split; [apply Z.div_pos; lia|]. split; [|done].
      pose proof (Z.mul_div_le (i - 251) 128). lia. }
    wp_step. apply cache_read_wp; [apply Hb|by eapply in_range_size, Hf; apply Hb|].
    intros b2 Hb2. simpl in *. rewrite (ss_sector _ _ Hb) by done. eapply wp_need; [done|].
    rewrite set_store_twice. apply HQ. by eapply same_store_trans.
Qed.

Lemma file_sector s d secs off :
  file_ok (store s) d secs -> 0 <= off < length_ d -> length_ d < 2 ^ 31 ->
  exists t, zget secs (off / 512) = Some t /\ in_range (store s) t.
Proof.
  intros [] Hoff Hlen. unfold bytes_to_sectors in *.
  rewrite Z.quot_div_nonneg in fo_count0 by (unfold SECTOR; lia).
  unfold u64, SECTOR in *.
  rewrite Z.mod_small in fo_count0 by (Z.to_euclidean_division_equations; lia).
  destruct (zget_ex secs (off / 512)) as [t Ht].
  { Z.to_euclidean_division_equations; lia. }
  exists t. split; [done|]. rewrite Forall_forall in fo_range0. apply fo_range0.
  by eapply zget_elem.
Qed.

(** Writes that miss the indirect sectors of a file leave its sector map
    alone. *)
Lemma file_ok_off_meta b b' d secs other :
  changes_only b other b' -> (forall t, uses_meta b d (zlen secs) t -> t ∉ other) ->
  file_ok b d secs -> file_ok b' d secs.
Proof.
  intros Hb Hoff [].
  assert (forall t, uses_meta b d (zlen secs) t -> blocks_at b' t = blocks_at b t) as Hmr.
  { intros t Ht. destruct (fo_meta0 t Ht). unfold blocks_at. rewrite (co_sector _ _ _ Hb); auto. }
  assert (123 < zlen secs -> blocks_at b' (indirect_block d) = blocks_at b (indirect_block d)) as Hi.
  { intros Ht. apply Hmr. by left. }
  assert (251 < zlen secs -> blocks_at b' (doubly_indirect_block d) = blocks_at b (doubly_indirect_block d)) as Hd.
  { intros Ht. apply Hmr. by right; left. }
  split; try done.
  - intros i t Ht. rewrite <- (fo_secs0 i t Ht). pose proof (zget_range _ _ _ Ht) as Hr.
    unfold sector_of. destruct (i <? 123) eqn:E1; [done|].
    destruct (i <? 123 + 128) eqn:E2; [by rewrite Hi by lia|].
    rewrite Hd by lia. destruct (zget _ ((i - 251) / 128)) as [f|] eqn:E3; [|done].
    rewrite Hmr; [done|].
    right; right. exists ((i - 251) / 128). split; [apply Z.div_pos; lia|]. split; [|done].
    pose proof (Z.mul_div_le (i - 251) 128). lia.
  - eapply Forall_impl; [done|]. intros t. apply in_range_size, Hb.
  - intros t Hu.
    assert (uses_meta b d (zlen secs) t) as Hu'.
    { destruct Hu as [?|[?|(k & Hk & Hkn & Hz)]]; [by left|by right; left|].
      right; right. exists k. split_and!; [done..|]. by rewrite <- Hd by lia. }
    destruct (fo_meta0 _ Hu'). split; [|done]. eapply in_range_size; [apply Hb|done].
Qed.

(** Rewriting data sectors of the file itself. *)
Lemma file_ok_changes b b' d secs :
  changes_only b secs b' -> file_ok b d secs -> file_ok b' d secs.
Proof. intros Hb Hf. eapply file_ok_off_meta; [done| |done]. intros t Ht. by apply Hf. Qed.

(* ------------------------------------------------------------------ *)
(** ** The contents, byte by byte                                      *)
(* ------------------------------------------------------------------ *)

Lemma sectors_512 b secs :
  bs_inv b -> Forall (in_range b) secs ->
  Forall (fun l => zlen l = 512) (map (bs_sector b) secs).
Proof.
  intros Hinv H. apply Forall_map. eapply Forall_impl; [done|]. intros t Ht.
  by destruct (bs_sector_ok b t Hinv Ht).
Qed.

Lemma zlen_sectors_bytes b d secs :
  bs_inv b -> file_ok b d secs -> zlen (sectors_bytes b secs) = 512 * zlen secs.
Proof.
  intros Hinv []. unfold sectors_bytes. rewrite (zlen_concat _ 512) by by apply sectors_512.
  by rewrite length_map.
Qed.

Lemma zget_map {X Y} (f : X -> Y) l i : zget (map f l) i = f <$> zget l i.
Proof.
  unfold zget. case_bool_decide; [|done]. apply (list_lookup_fmap f).
Qed.

Lemma zget_sectors_bytes b d secs i :
  bs_inv b -> file_ok b d secs -> 0 <= i ->
  zget (sectors_bytes b secs) i = t ← zget secs (i / 512); zget (bs_sector b t) (i mod 512).
Proof.
  intros Hinv [] Hi. unfold sectors_bytes. rewrite (zget_concat _ 512); [|lia|by apply sectors_512|lia].
  rewrite zget_map. by destruct (zget secs (i / 512)).
Qed.

(** A piece of the file that lies inside one sector. *)
Lemma slice_sectors_bytes b d secs off t n :
  bs_inv b -> file_ok b d secs -> 0 <= off -> zget secs (off / 512) = Some t ->
  0 <= n -> off mod 512 + n <= 512 ->
  slice (sectors_bytes b secs) off n = slice (bs_sector b t) (off mod 512) n.
Proof.
  intros Hinv Hf Hoff Ht Hn Hle. pose proof (Z.mod_pos_bound off 512 ltac:(lia)).
  assert (in_range b t) as Hr.
  { pose proof (fo_range _ _ _ Hf) as Hr. rewrite Forall_forall in Hr.
    by eapply Hr, zget_elem. }
  destruct (bs_sector_ok b t Hinv Hr) as [Hl _]. unfold SECTOR in Hl.
  pose proof (zlen_sectors_bytes _ _ _ Hinv Hf) as Hlen.
  pose proof (zget_range _ _ _ Ht) as Hin.
  assert (off = 512 * (off / 512) + off mod 512) as Hdm by (apply Z.div_mod; lia).
  apply zlist_eq_range; rewrite !zlen_slice by lia; [done|]. intros j Hj.
  rewrite !zget_slice by lia. rewrite (zget_sectors_bytes _ d) by (done || lia).
  assert ((off + j) / 512 = off / 512) as -> by (Z.to_euclidean_division_equations; lia).
  rewrite Ht. simpl. f_equal. Z.to_euclidean_division_equations; lia.
Qed.

Lemma length_in_sectors b d secs : file_ok b d secs -> length_ d < 2 ^ 31 -> length_ d <= 512 * zlen secs.
Proof.
  intros [] Hl. unfold bytes_to_sectors, u64, SECTOR in *. rewrite Z.quot_div_nonneg in fo_count0 by lia.
  rewrite Z.mod_small in fo_count0; Z.to_euclidean_division_equations; lia.
Qed.
Lemma zlen_content b d secs :
  bs_inv b -> file_ok b d secs -> length_ d < 2 ^ 31 -> zlen (content b d secs) = length_ d.
Proof.
  intros Hinv Hf Hl. unfold content. rewrite length_take.
  pose proof (zlen_sectors_bytes _ _ _ Hinv Hf). pose proof (length_in_sectors _ _ _ Hf Hl).
  pose proof (fo_length _ _ _ Hf). lia.
Qed.

Lemma slice_content b d secs off n :
  0 <= off -> 0 <= n -> off + n <= length_ d ->
  slice (content b d secs) off n = slice (sectors_bytes b secs) off n.
Proof.
  intros. unfold content. change (take (Z.to_nat (length_ d)) (sectors_bytes b secs))
    with (slice (sectors_bytes b secs) 0 (length_ d)).
  by rewrite slice_slice by lia.
Qed.

Lemma sectors_bytes_same b b' d secs :
  same_store b b' -> file_ok b d secs -> sectors_bytes b' secs = sectors_bytes b secs.
Proof.
  intros Hb []. unfold sectors_bytes. f_equal. apply map_ext_in. intros t Ht.
  apply (ss_sector _ _ Hb). rewrite Forall_forall in fo_range0. apply fo_range0. by apply list_elem_of_In.
Qed.
Lemma content_same b b' d secs :
  same_store b b' -> file_ok b d secs -> content b' d secs = content b d secs.
Proof. intros Hb Hf. unfold content. by rewrite (sectors_bytes_same b b' d secs Hb Hf). Qed.

(** Writes that miss the indirect sectors leave them the same. *)
Lemma uses_meta_changes b b' d n other t :
  changes_only b other b' -> (forall t, uses_meta b d n t -> in_range b t /\ t ∉ other) ->
  uses_meta b' d n t <-> uses_meta b d n t.
Proof.
  intros Hb Hm.
  assert (251 < n -> blocks_at b' (doubly_indirect_block d) = blocks_at b (doubly_indirect_block d)) as Hd.
  { intros Ht. destruct (Hm (doubly_indirect_block d)) as [H1 H2]; [by right; left|].
    unfold blocks_at. by rewrite (co_sector _ _ _ Hb). }
  unfold uses_meta. split; intros [?|[?|(k & Hk & Hkn & Hz)]]; auto; right; right;
    exists k; (split_and!; [done..|]); [rewrite <- Hd by lia|rewrite Hd by lia]; done.
Qed.

(** A file that has none of the sectors [other]. *)
Definition apart b d (secs other : list Z) : Prop :=
  (forall t, t ∈ secs -> t ∉ other) /\ (forall t, uses_meta b d (zlen secs) t -> t ∉ other).

(** Writes elsewhere change nothing of it. *)
Lemma file_apart b b' d secs other :
  changes_only b other b' -> apart b d secs other -> file_ok b d secs ->
  file_ok b' d secs /\ content b' d secs = content b d secs /\
  (forall t, uses_meta b' d (zlen secs) t <-> uses_meta b d (zlen secs) t).
Proof.
  intros Hb [Ha Hm] Hf. split; [by eapply file_ok_off_meta|]. split.
  - unfold content, sectors_bytes. do 2 f_equal. apply map_ext_in. intros t Ht%list_elem_of_In.
    apply (co_sector _ _ _ Hb); [by eapply (Forall_forall _ secs), Ht; apply Hf|by apply Ha].
  - intros t. eapply uses_meta_changes; [done|]. intros u Hu. split; [apply (fo_meta _ _ _ Hf _ Hu)|by apply Hm].
Qed.

Lemma apart_changes b b' d secs other :
  file_ok b d secs -> changes_only b secs b' -> apart b d secs other -> apart b' d secs other.
Proof.
  intros Hf Hb [Ha Hm]. split; [done|]. intros t Ht. apply Hm.
  apply (uses_meta_changes b b' d (zlen secs) secs t Hb); [|done]. intros u Hu. by apply Hf.
Qed.

(* ------------------------------------------------------------------ *)
(** ** inode_read_at                                                   *)
(* ------------------------------------------------------------------ *)

Lemma get_inode_wp s p ip (Q : inode -> fs B -> Prop) :
  inodes s !! p = Some ip -> Q ip s -> wp (get_inode p) Q s.
Proof. intros Hp HQ. unfold get_inode. by wp_steps. Qed.

(** Turns left in a transfer that ends at [fin] when it has reached
    [off] in a file of [len] bytes. *)
Definition turns (fin len off : Z) : nat :=
  Z.to_nat (Z.max 0 (fin / 512 - off / 512) + if (off <? fin) && (off <? len) then 1 else 0).

(** The chunk of one turn: it stays in its sector, and the turn makes
    progress. *)
Definition chunk (size len off : Z) : Z := Z.min size (Z.min (len - off) (512 - off mod 512)).

Lemma turns_step fin len off c :
  0 <= off -> off < fin -> off < len -> c = chunk (fin - off) len off ->
  (turns fin len (off + c) < turns fin len off)%nat.
Proof.
  unfold turns, chunk. intros.
  rewrite (proj2 (Z.ltb_lt off fin)), (proj2 (Z.ltb_lt off len)) by lia. simpl.
  destruct (off + c <? fin) eqn:E1, (off + c <? len) eqn:E2; simpl;
    Z.to_euclidean_division_equations; lia.
Qed.

Lemma turns_fuel size len off : 0 <= off -> 0 <= size -> (turns (off + size) len off < rw_fuel size)%nat.
Proof.
  intros. unfold turns, rw_fuel, SECTOR. rewrite (Z.max_r 0 size) by lia.
  destruct (_ && _); Z.to_euclidean_division_equations; lia.
Qed.

(** The branch-free form of the code's minimum of three. *)
Lemma chunk_eq size len off :
  0 <= off ->
  (if size <? (if len - off <? SECTOR - Z.rem off SECTOR then len - off else SECTOR - Z.rem off SECTOR)
   then size else if len - off <? SECTOR - Z.rem off SECTOR then len - off else SECTOR - Z.rem off SECTOR)
  = chunk size len off.
Proof.
  intros. unfold chunk, SECTOR. rewrite Z.rem_mod_nonneg by lia.
  repeat case_match; lia.
Qed.

Lemma byte_to_sector_in s d secs off t (Q : Z -> fs B -> Prop) :
  bs_inv (store s) -> file_ok (store s) d secs -> 0 <= off < length_ d ->
  zget secs (off / 512) = Some t ->
  (forall b', same_store (store s) b' -> Q t (set_store b' s)) ->
  wp (byte_to_sector d off) Q s.
Proof.
  intros Hinv Hf Hoff Ht HQ. unfold byte_to_sector.
  rewrite (proj2 (Z.leb_le _ _)), (proj2 (Z.ltb_lt _ _)) by lia.
  by eapply index_to_sector_wp.
Qed.

Lemma byte_to_sector_out s d off (Q : Z -> fs B -> Prop) :
  ~ (0 <= off < length_ d) -> Q UNSET s -> wp (byte_to_sector d off) Q s.
Proof.
  intros Hoff HQ. unfold byte_to_sector.
  destruct (0 <=? off) eqn:E1, (off <? length_ d) eqn:E2; simpl; by (lia || apply wp_ret).
Qed.

(** What a turn reads is the next piece of the file. *)
Lemma read_piece_wp s d secs off t c (Q : list Z -> fs B -> Prop) :
  bs_inv (store s) -> file_ok (store s) d secs -> 0 <= off -> zget secs (off / 512) = Some t ->
  0 <= c -> off + c <= length_ d -> off mod 512 + c <= 512 ->
  (forall b', same_store (store s) b' ->
     Q (slice (content (store s) d secs) off c) (set_store b' s)) ->
  wp (let! bounce := cache_read t in
      if (Z.rem off SECTOR =? 0) && (c =? SECTOR) then ret bounce
      else mem_read bounce (Z.rem off SECTOR) c) Q s.
Proof.
  intros Hinv Hf Hoff Ht Hc Hlen Hsec HQ. pose proof (Z.mod_pos_bound off 512 ltac:(lia)).
  assert (in_range (store s) t) as Hr.
  { pose proof (fo_range _ _ _ Hf) as Hr. rewrite Forall_forall in Hr. by eapply Hr, zget_elem. }
  destruct (bs_sector_ok _ t Hinv Hr) as [Hl _]. unfold SECTOR in *.
  rewrite slice_content, (slice_sectors_bytes _ _ _ _ t) in HQ by (done || lia).
  wp_step. apply cache_read_wp; [done..|]. intros b' Hb. rewrite Z.rem_mod_nonneg by lia.
  apply wp_if; intros E.
  - apply andb_true_iff in E as [E1 E2]. apply Z.eqb_eq in E1, E2. apply wp_ret.
    specialize (HQ b' Hb). rewrite E1, E2, <- Hl, slice_all in HQ. done.
  - unfold mem_read. rewrite (proj2 (Z.leb_le _ _)), (proj2 (Z.leb_le _ _)) by lia.
    eapply wp_need; [done|]. by apply HQ.
Qed.

Definition reading (s : fs B) (p : loc) (ip : inode) (s' : fs B) : Prop :=
  exists b', same_store (store s) b' /\ s' = set_store b' s.

Lemma inode_read_at_wp s p ip secs size off (Q : list Z -> fs B -> Prop) :
  bs_inv (store s) -> inodes s !! p = Some ip -> file_ok (store s) (data ip) secs ->
  length_ (data ip) < 2 ^ 31 -> 0 <= off -> 0 <= size ->
  (forall b', same_store (store s) b' ->
     Q (slice (content (store s) (data ip) secs) off size) (set_store b' s)) ->
  wp (inode_read_at p size off) Q s.
Proof.
  intros Hinv Hp Hf Hlen Hoff Hsize HQ. unfold inode_read_at.
  set (text := content (store s) (data ip) secs) in *.
  assert (zlen text = length_ (data ip)) as Htext by by apply zlen_content.
  eapply (wp_while
    (fun x s' => reading s p ip s' /\ let '(size', off', acc) := x in
       0 <= size' /\ off <= off' /\ off' + size' = off + size /\ acc = slice text off (off' - off))
    (fun x _ => let '(_, off', _) := x in turns (off + size) (length_ (data ip)) off')).
  - split; [exists (store s); split; [by apply same_store_refl|by destruct s]|].
    rewrite Z.sub_diag, slice_0. split_and!; (done || lia).
  - by apply turns_fuel.
  - intros [[size' off'] acc] s' [(b1 & Hb1 & ->) (Hs & Ho & Hfin & ->)]. unfold read_step.
    assert (forall b2, same_store b1 b2 -> size' = 0 \/ length_ (data ip) <= off' ->
              Q (slice text off (off' - off)) (set_store b2 s)) as Hdone.
    { intros b2 Hb2 Hcase. replace (slice text off (off' - off)) with (slice text off size).
      - apply HQ. by eapply same_store_trans.
      - destruct Hcase as [->|Hc]; [f_equal; lia|]. apply slice_past; lia. }
    apply wp_if; intros E0.
    { apply wp_ret. apply (Hdone b1); [by apply same_store_refl, Hb1|]. lia. }
    wp_step. eapply get_inode_wp; [done|]. wp_step.
    assert (file_ok b1 (data ip) secs) as Hf1
      by (eapply file_ok_changes; [by apply same_changes_only|done]).
    destruct (decide (off' < length_ (data ip))) as [Hin|Hout].
    + destruct (file_sector s (data ip) secs off') as (t & Ht & Hr); [done|lia..|].
      eapply byte_to_sector_in; [apply Hb1|exact Hf1|lia|done|]. intros b2 Hb2. simpl in *.
      assert (same_store (store s) b2) as Hsb by by eapply same_store_trans.
      rewrite (proj2 (Z.ltb_ge t 0)) by (unfold in_range in Hr; lia).
      rewrite chunk_eq by lia. set (c := chunk size' (length_ (data ip)) off').
      pose proof (Z.mod_pos_bound off' 512 ltac:(lia)).
      assert (0 < c /\ c <= size' /\ off' + c <= length_ (data ip) /\ off' mod 512 + c <= 512)
        as (Hc0 & Hc1 & Hc2 & Hc3) by (unfold c, chunk; lia).
      rewrite (proj2 (Z.leb_gt c 0)) by lia. apply (proj1 (bind_assoc_wp _ _ _ _ _)).
      wp_step. apply (read_piece_wp _ (data ip) secs off' t c); [apply Hb2| |lia|done|lia|lia|lia|].
      { eapply file_ok_changes; [by apply same_changes_only|done]. }
      intros b3 Hb3. simpl. apply wp_ret. split; [split|].
      * exists b3. split; [by eapply same_store_trans|done].
      * split_and!; [lia..|]. simpl in Hb3 |- *.
        rewrite (content_same (store s)) by done. fold text.
        replace (slice text off' c) with (slice text (off + (off' - off)) c) by (f_equal; lia).
        rewrite slice_snoc by lia. f_equal; lia.
      * apply turns_step; try lia. unfold c. f_equal. lia.
    + apply byte_to_sector_out; [lia|]. change (UNSET <? 0) with false. cbv iota.
      rewrite chunk_eq by lia.
      rewrite (proj2 (Z.leb_le (chunk _ _ _) 0)) by (unfold chunk; lia). apply wp_ret.
      apply (Hdone b1); [by apply same_store_refl, Hb1|lia].
Qed.

(* ------------------------------------------------------------------ *)
(** ** inode_write_at inside the file                                  *)
(* ------------------------------------------------------------------ *)

(** Replacing a piece of one data sector replaces that piece of the file. *)
Lemma sectors_splice b b' d secs off t src :
  bs_inv b -> file_ok b d secs -> length_ d < 2 ^ 31 -> changes_only b [t] b' ->
  0 <= off -> zget secs (off / 512) = Some t -> off + zlen src <= length_ d ->
  off mod 512 + zlen src <= 512 -> bs_sector b' t = splice (bs_sector b t) (off mod 512) src ->
  changes_only b secs b' /\ sectors_bytes b' secs = splice (sectors_bytes b secs) off src.
Proof.
  intros Hinv Hf Hlen Hb Hoff Ht Hin Hsec Hnew. pose proof (Z.mod_pos_bound off 512 ltac:(lia)).
  assert (changes_only b secs b') as Hb'.
  { split; [apply Hb..|]. intros t' Hr Hn. apply Hb; [done|]. intros ->%list_elem_of_singleton.
    by eapply Hn, zget_elem. }
  assert (file_ok b' d secs) as Hf' by by eapply file_ok_changes.
  pose proof (co_inv _ _ _ Hb) as Hinv'.
  assert (in_range b t) as Hr by by eapply Forall_zget; [apply Hf|].
  destruct (bs_sector_ok b t Hinv Hr) as [Hl _]. unfold SECTOR in Hl.
  pose proof (zlen_sectors_bytes _ _ _ Hinv Hf) as Hc. pose proof (zlen_sectors_bytes _ _ _ Hinv' Hf') as Hc'.
  pose proof (length_in_sectors _ _ _ Hf Hlen) as Hls.
  split; [done|]. apply zlist_eq_range; [rewrite zlen_splice; lia|]. rewrite Hc'. intros i Hi.
  rewrite zget_splice by lia. rewrite !(zget_sectors_bytes _ d) by (done || lia).
  destruct (zget secs (i / 512)) as [t'|] eqn:Et; simpl.
  2:{ rewrite bool_decide_eq_false_2; [done|]. intros Hcon.
      assert (i / 512 = off / 512) as E by (Z.to_euclidean_division_equations; lia).
      rewrite E in Et. congruence. }
  assert (in_range b t') as Hr' by by eapply Forall_zget; [apply Hf|].
  destruct (decide (t' = t)) as [->|Hne].
  - assert (i / 512 = off / 512) as E by (eapply NoDup_zget; [apply Hf|done..]).
    rewrite Hnew, zget_splice by lia. pose proof (Z.div_mod i 512). pose proof (Z.div_mod off 512).
    repeat case_bool_decide; try lia; try done. f_equal. lia.
  - rewrite (co_sector _ _ _ Hb); [|done|set_solver]. rewrite bool_decide_eq_false_2; [done|].
    intros Hcon. assert (i / 512 = off / 512) as E by (Z.to_euclidean_division_equations; lia).
    rewrite E in Et. congruence.
Qed.

Lemma content_splice b b' d secs off src :
  bs_inv b -> file_ok b d secs -> length_ d < 2 ^ 31 -> 0 <= off -> off + zlen src <= length_ d ->
  sectors_bytes b' secs = splice (sectors_bytes b secs) off src ->
  content b' d secs = splice (content b d secs) off src.
Proof.
  intros Hinv Hf Hlen Hoff Hin E. unfold content. rewrite E. apply take_splice; [lia..|].
  rewrite (zlen_sectors_bytes _ _ _ Hinv Hf). by apply (length_in_sectors b).
Qed.

(** What a turn writes. *)
Lemma write_piece_wp s d secs off t src c (Q : unit -> fs B -> Prop) :
  bs_inv (store s) -> file_ok (store s) d secs -> length_ d < 2 ^ 31 ->
  0 <= off -> zget secs (off / 512) = Some t -> zlen src = c -> Forall is_u8 src ->
  off + c <= length_ d -> off mod 512 + c <= 512 ->
  (forall b', changes_only (store s) secs b' ->
     sectors_bytes b' secs = splice (sectors_bytes (store s) secs) off src -> Q tt (set_store b' s)) ->
  wp (if (Z.rem off SECTOR =? 0) && (c =? SECTOR) then cache_write t src
      else
        let! bounce :=
          (if (0 <? Z.rem off SECTOR) || (c <? SECTOR - Z.rem off SECTOR) then cache_read t
           else ret zeros) in
        let! bounce' := mem_write bounce (Z.rem off SECTOR) src in
        cache_write t bounce') Q s.
Proof.
  intros Hinv Hf Hlen Hoff Ht Hc Hu Hin Hsec HQ. pose proof (Z.mod_pos_bound off 512 ltac:(lia)).
  assert (in_range (store s) t) as Hr by by eapply Forall_zget; [apply Hf|].
  destruct (bs_sector_ok _ t Hinv Hr) as [Hl Hlu]. unfold SECTOR in *.
  rewrite Z.rem_mod_nonneg by lia.
  assert (forall b', changes_only (store s) [t] b' ->
            bs_sector b' t = splice (bs_sector (store s) t) (off mod 512) src ->
            Q tt (set_store b' s)) as HQ'.
  { intros b' Hb' Hnew. destruct (sectors_splice (store s) b' d secs off t src) as [H1 H2];
      [done..|lia|lia|done|by apply HQ]. }
  clear HQ. apply wp_if; intros E.
  - apply andb_true_iff in E as [E1 E2]. apply Z.eqb_eq in E1, E2.
    apply cache_write_wp; [done..|lia|done|]. intros b' Hb' Hs. apply HQ'; [done|].
    rewrite Hs, E1, splice_all; [done|lia].
  - wp_step. rewrite (proj2 (orb_true_iff _ _)) by (destruct (off mod 512 =? 0) eqn:?; simpl in E; lia).
    apply cache_read_wp; [done..|]. intros b1 Hb1. wp_step. unfold mem_write.
    rewrite (proj2 (Z.leb_le _ _)), (proj2 (Z.leb_le _ _)) by lia.
    eapply wp_need; [done|]. apply cache_write_wp.
    + apply Hb1.
    + eapply in_range_size; [apply Hb1|done].
    + rewrite zlen_splice; lia.
    + by apply Forall_splice.
    + simpl. intros b2 Hb2 Hs. rewrite set_store_twice. apply HQ'; [|done].
      eapply changes_only_trans; [by apply same_changes_only|done].
Qed.

(** No extension when the last byte is inside the file. *)
Lemma write_extend_inside write_at s p ip secs size off (Q : bool -> fs B -> Prop) :
  bs_inv (store s) -> inodes s !! p = Some ip -> file_ok (store s) (data ip) secs ->
  length_ (data ip) < 2 ^ 31 -> 0 <= off + size - 1 < length_ (data ip) ->
  (forall b', same_store (store s) b' -> Q true (set_store b' s)) ->
  wp (write_extend write_at p size off) Q s.
Proof.
  intros Hinv Hp Hf Hlen Hin HQ. unfold write_extend. wp_step. eapply get_inode_wp; [done|].
  destruct (file_sector s (data ip) secs (off + size - 1)) as (t & Ht & Hr); [done|lia..|].
  wp_step. eapply byte_to_sector_in; [done|done|lia|done|]. intros b' Hb.
  pose proof (bs_size_bound _ Hinv). unfold in_range, UNSET in *.
  rewrite (proj2 (Z.eqb_neq _ _)) by lia. by apply wp_ret, HQ.
Qed.

Lemma write_loop_wp s p ip secs buf size off (Q : Z -> fs B -> Prop) :
  bs_inv (store s) -> inodes s !! p = Some ip -> file_ok (store s) (data ip) secs ->
  length_ (data ip) < 2 ^ 31 -> 0 <= off -> 0 <= size -> off + size <= length_ (data ip) ->
  size <= zlen buf -> Forall is_u8 buf ->
  (forall b', changes_only (store s) secs b' ->
     sectors_bytes b' secs = splice (sectors_bytes (store s) secs) off (slice buf 0 size) ->
     Q size (set_store b' s)) ->
  wp (while_ (rw_fuel size) (write_step p buf) (size, off, 0)) Q s.
Proof.
  intros Hinv Hp Hf Hlen Hoff Hsize Hin Hbuf Hu HQ.
  set (text := sectors_bytes (store s) secs) in *.
  assert (length_ (data ip) <= zlen text) as Htext.
  { unfold text. rewrite (zlen_sectors_bytes _ _ _ Hinv Hf). by eapply length_in_sectors. }
  eapply (wp_while
    (fun x s' => let '(size', off', n) := x in
       (exists b', changes_only (store s) secs b' /\ s' = set_store b' s /\
          sectors_bytes b' secs = splice text off (slice buf 0 n)) /\
       0 <= n /\ off' = off + n /\ size' = size - n /\ 0 <= size')
    (fun x _ => let '(_, off', _) := x in turns (off + size) (length_ (data ip)) off')).
  - split; [|lia]. exists (store s). split_and!; [by apply changes_only_refl|by destruct s|].
    rewrite slice_0, splice_nil; [done|lia].
  - by apply turns_fuel.
  - intros [[size' off'] n] s' [(b1 & Hb1 & -> & Hc1) (Hn & -> & -> & Hs)]. unfold write_step.
    apply wp_if; intros E0.
    { apply wp_ret. assert (n = size) as -> by lia. by apply HQ. }
    wp_step. eapply get_inode_wp; [done|]. wp_step.
    assert (file_ok b1 (data ip) secs) as Hf1 by by eapply file_ok_changes.
    destruct (file_sector s (data ip) secs (off + n)) as (t & Ht & Hr); [done|lia..|].
    eapply byte_to_sector_in; [apply Hb1|exact Hf1|lia|done|]. intros b2 Hb2. simpl in *.
    rewrite chunk_eq by lia. set (c := chunk (size - n) (length_ (data ip)) (off + n)).
    pose proof (Z.mod_pos_bound (off + n) 512 ltac:(lia)).
    assert (0 < c /\ c <= size - n /\ off + n + c <= length_ (data ip) /\ (off + n) mod 512 + c <= 512)
      as (Hc0 & Hc2 & Hc3 & Hc4) by (unfold c, chunk; lia).
    rewrite (proj2 (Z.leb_gt c 0)) by lia. wp_step. unfold mem_read.
    rewrite (proj2 (Z.leb_le _ _)), (proj2 (Z.leb_le _ _)) by lia. eapply wp_need; [done|].
    wp_step. apply (write_piece_wp _ (data ip) secs (off + n) t); try done.
    + apply Hb2.
    + eapply file_ok_changes; [by apply same_changes_only|done].
    + lia.
    + apply zlen_slice; lia.
    + by apply Forall_slice.
    + simpl. intros b3 Hb3 Hc. apply wp_ret. split; [|apply turns_step; (lia || unfold c; f_equal; lia)].
      split; [|lia]. exists b3. split_and!; [|done|].
      * eapply changes_only_trans; [exact Hb1|]. eapply changes_only_trans; [|done].
        by apply same_changes_only.
      * rewrite Hc, (sectors_bytes_same b1 b2 (data ip)), Hc1 by done.
        assert (zlen (slice buf 0 n) = n) as Hz by (apply zlen_slice; lia).
        rewrite <- Hz at 2. rewrite splice_splice; rewrite ?Hz, ?zlen_slice by lia; [|lia..].
        do 2 f_equal. rewrite <- (slice_snoc buf 0 n c) by lia. done.
Qed.

Lemma inode_write_at_wp f s p ip secs buf size off (Q : Z -> fs B -> Prop) :
  bs_inv (store s) -> inodes s !! p = Some ip -> file_ok (store s) (data ip) secs ->
  deny_write_cnt ip = 0 ->
  length_ (data ip) < 2 ^ 31 -> 0 <= off -> 0 < size -> off + size <= length_ (data ip) ->
  size <= zlen buf -> Forall is_u8 buf ->
  (forall b', changes_only (store s) secs b' ->
     content b' (data ip) secs = splice (content (store s) (data ip) secs) off (slice buf 0 size) ->
     Q size (set_store b' s)) ->
  wp (inode_write_at_fuel (S f) p buf size off) Q s.
Proof.
  intros Hinv Hp Hf Hdeny Hlen Hoff Hsize Hin Hbuf Hu HQ.
  change (inode_write_at_fuel (S f) p buf size off)
    with (inode_write_at_body (inode_write_at_fuel f) p buf size off).
  unfold inode_write_at_body.
  wp_step. eapply get_inode_wp; [done|]. rewrite Hdeny. simpl. wp_step.
  eapply write_extend_inside; [done..|lia|]. intros b1 Hb1. simpl.
  eapply write_loop_wp; try done; [apply Hb1| |lia|].
  - eapply file_ok_changes; [by apply same_changes_only|done].
  - simpl. intros b2 Hb2 Hc. rewrite set_store_twice. apply HQ.
    + eapply changes_only_trans; [by apply same_changes_only|done].
    + assert (file_ok b1 (data ip) secs) by (eapply file_ok_changes; [by apply same_changes_only|done]).
      rewrite (content_splice b1 b2 (data ip) secs off (slice buf 0 size)); [|apply Hb1|done|done|done| |exact Hc].
      * by rewrite (content_same (store s)).
      * rewrite zlen_slice; lia.
Qed.

End facts.
End FileData.
