(* ===== verification/FreeMap.v ===== *)
(** * FreeMap: allocation and release of sectors (a3/fs/free-map.c)

    The in-memory bitmap and the free map's file, a file of the file
    system like any other, are kept equal by every allocation and
    release. *)
From S2P Require Import Prelude Bitmap Store FsState Inode FileData.

Module FreeMap.
Import Bitmap FsState Inode FileData.

Section ops.
Context {B : Type} `{!BlockStore B}.

(** The int that the code returns is the count itself for fewer than 2^31
    sectors. *)
Definition num_free_sectors : M (fs B) Z :=
  on_free_map (let! n := bitmap_size in bitmap_count 0 n false).
End ops.

Section facts.
Context {B : Type} `{!BlockStore B}.
Implicit Types (b : B) (s : fs B).

(** The free map's file: the handle [fp] leads to the inode [ip], whose
    data is in [secs] and is the image of the bitmap in memory. *)
Record free_map_ok s (fp : loc) (f : file) (ip : inode) (secs : list Z) : Prop := {
  fm_inv : bs_inv (store s);
  fm_wf : Bitmap.wf (free_map s);
  fm_pos : 0 < bit_cnt (free_map s);
  fm_file : free_map_file s = Some fp;
  fm_f : files s !! fp = Some f;
  fm_inode : inodes s !! f_inode f = Some ip;
  fm_deny : deny_write_cnt ip = 0;
  fm_secs : file_ok (store s) (data ip) secs;
  fm_length : length_ (data ip) = byte_cnt (bit_cnt (free_map s))
}.

(** The file holds the bitmap. *)
Definition on_disk s (ip : inode) (secs : list Z) : Prop :=
  content (store s) (data ip) secs = words_bytes 8 (bits (free_map s)).

Lemma byte_cnt_val n : 0 < n < BITMAP_ERROR -> byte_cnt n = 8 * ((n + 63) / 64) /\ 0 < byte_cnt n < 2 ^ 30.
Proof.
  unfold byte_cnt, BITMAP_ERROR. intros. rewrite elem_cnt_val by lia. unfold u64.
  rewrite Z.mod_small by (Z.to_euclidean_division_equations; lia).
  split; [done|]. Z.to_euclidean_division_equations; lia.
Qed.

Lemma byte_cnt_bits m : Bitmap.wf m -> 0 < bit_cnt m ->
  zlen (words_bytes 8 (bits m)) = byte_cnt (bit_cnt m).
Proof.
  intros [Hc Hl _] Hp. destruct (byte_cnt_val (bit_cnt m)) as [-> _]; [lia|].
  rewrite length_words_bytes. unfold BITMAP_ERROR in *. rewrite elem_cnt_val in Hl by lia. lia.
Qed.

Lemma get_file_wp s p f (Q : file -> fs B -> Prop) :
  files s !! p = Some f -> Q f s -> wp (get_file p) Q s.
Proof. intros Hp HQ. unfold get_file. by wp_steps. Qed.

(** Writing the bitmap to its file makes the file its image. *)
Lemma bitmap_write_wp f s fp fl ip secs m (Q : bool -> fs B -> Prop) :
  free_map_ok s fp fl ip secs -> Bitmap.wf m -> bit_cnt m = bit_cnt (free_map s) ->
  (forall b', changes_only (store s) secs b' -> 
     free_map_ok (set_store b' (set_free_map m s)) fp fl ip secs ->
     on_disk (set_store b' (set_free_map m s)) ip secs ->
     Q true (set_store b' (set_free_map m s))) ->
  wp (bitmap_write (inode_write_at_fuel (S f)) (free_map_file s)) Q (set_free_map m s).
Proof.
  intros [Hinv Hwf Hpos Hfile Hf Hi Hdeny Hsecs Hlen] Hm Hcnt HQ. unfold bitmap_write. wp_steps.
  { by rewrite Hfile. }
  eapply get_file_wp; [done|]. wp_step. rewrite Hcnt.
  assert (0 < bit_cnt (free_map s) < BITMAP_ERROR) as Hb by (split; [done|apply Hwf]).
  destruct (byte_cnt_val _ Hb) as [_ Hbound].
  assert (i32 (byte_cnt (bit_cnt (free_map s))) = byte_cnt (bit_cnt (free_map s))) as ->.
  { unfold i32. rewrite Z.mod_small; lia. }
  assert (zlen (words_bytes 8 (bits m)) = byte_cnt (bit_cnt (free_map s))) as Hz.
  { rewrite byte_cnt_bits by (done || lia). by rewrite Hcnt. }
  pose proof (zlen_content _ _ _ Hinv Hsecs ltac:(lia)) as Hzc.
  eapply inode_write_at_wp; try done; [simpl; lia..|apply words_bytes_u8|].
  simpl. intros b' Hb' Hc. apply wp_ret. rewrite Z.eqb_refl.
  assert (free_map_ok (set_store b' (set_free_map m s)) fp fl ip secs).
  { split; simpl; try done; [apply Hb'|lia| |by rewrite Hcnt]. by eapply file_ok_changes. }
  apply HQ; [done..|]. unfold on_disk. simpl. rewrite Hc. rewrite <- Hz at 1. rewrite slice_all.
  apply splice_all. lia.
Qed.

(** The code reserves the first free run and records it on disk. *)
Lemma free_map_allocate_wp f s fp fl ip secs cnt (Q : option Z -> fs B -> Prop) :
  free_map_ok s fp fl ip secs -> 0 <= cnt ->
  (first_run (free_map s) 0 cnt false BITMAP_ERROR -> Q None s) ->
  (forall r m b', first_run (free_map s) 0 cnt false r -> r <> BITMAP_ERROR ->
     range_set (free_map s) r cnt true m -> changes_only (store s) secs b' ->
     free_map_ok (set_store b' (set_free_map m s)) fp fl ip secs ->
     on_disk (set_store b' (set_free_map m s)) ip secs ->
     Q (Some r) (set_store b' (set_free_map m s))) ->
  wp (free_map_allocate (inode_write_at_fuel (S f)) cnt) Q s.
Proof.
  intros Hok Hcnt HN HQ. destruct (fm_wf _ _ _ _ _ Hok) as [Hb _ _].
  unfold free_map_allocate, on_free_map. wp_steps.
  apply bitmap_scan_and_flip_wp; [apply Hok|lia|done| |].
  - intros r Hr ->. wp_steps. simpl. destruct s. by apply HN.
  - intros r m Hr Hne Hm. wp_steps.
    assert (0 <= r < BITMAP_ERROR) by (destruct Hr as [(? & ? & ?)|[? ?]]; lia).
    unfold u32. rewrite Z.mod_small by (unfold BITMAP_ERROR in *; lia).
    rewrite (proj2 (Z.eqb_neq r _)) by done. simpl.
    rewrite bool_decide_eq_true_2 by (rewrite (fm_file _ _ _ _ _ Hok); eauto).
    wp_step. eapply bitmap_write_wp; [done|apply Hm..|]. intros b' H1 H2 H3.
    wp_steps. rewrite (proj2 (Z.eqb_neq r _)) by done. by apply HQ.
Qed.

Lemma free_map_release_wp f s fp fl ip secs sec cnt (Q : unit -> fs B -> Prop) :
  free_map_ok s fp fl ip secs -> 0 <= sec -> 0 <= cnt -> sec + cnt <= bit_cnt (free_map s) ->
  run (free_map s) sec cnt true ->
  (forall m b', range_set (free_map s) sec cnt false m -> changes_only (store s) secs b' ->
     free_map_ok (set_store b' (set_free_map m s)) fp fl ip secs ->
     on_disk (set_store b' (set_free_map m s)) ip secs ->
     Q tt (set_store b' (set_free_map m s))) ->
  wp (free_map_release (inode_write_at_fuel (S f)) sec cnt) Q s.
Proof.
  intros Hok Hs Hc Hle Hrun HQ. unfold free_map_release, on_free_map. wp_steps.
  apply bitmap_all_wp; try done; [apply Hok|]. wp_steps.
  apply bitmap_set_multiple_wp; try done; [apply Hok|]. intros m Hm. wp_steps.
  eapply (bitmap_write_wp f s); [done|apply Hm..|]. intros b' H1 H2 H3. apply wp_ret. by apply HQ.
Qed.

Lemma num_free_sectors_wp s (Q : Z -> fs B -> Prop) :
  Bitmap.wf (free_map s) ->
  Q (count_bits (free_map s) (Z.to_nat (bit_cnt (free_map s))) 0 false) s ->
  wp num_free_sectors Q s.
Proof.
  intros Hw HQ. unfold num_free_sectors, on_free_map, bitmap_size. wp_steps.
  destruct Hw as [Hc ? ?]. apply bitmap_count_wp; [done|lia..|]. by destruct s.
Qed.
End facts.
End FreeMap.
