(* ===== verification/FileProps.v ===== *)
(** * FileProps: what the inode layer and the free map do to a file system
    on the buffer cache

    The properties of Inode.v and FreeMap.v, stated over any sector store
    (Store.v), with witnesses on a small disk behind the cache of Cache.v. *)
From S2P Require Import Prelude Bitmap Block Store Cache FsState Inode FileData FreeMap.

Module FileProps.
Import Bitmap FsState Inode FileData FreeMap.
#[local] Existing Instance Cache.cache_store.

(* ------------------------------------------------------------------ *)
(** ** A small file system                                             *)
(* ------------------------------------------------------------------ *)

(** Eight sectors, sector [i] full of bytes [i]. *)
Definition demo_image : list Z := flat_map (fun i => replicate 512 i) [0; 1; 2; 3; 4; 5; 6; 7].
Definition demo_cache : Cache.cache := Cache.static_cache (Block.identify_ata_device demo_image).

(** The free map's file is sector 2; file 5, of 600 bytes, is in sectors
    4 and 3; sectors 5 to 7 are free. *)
Definition demo_map_inode : inode :=
  mkInode 0 1 false 0 (mkInodeDisk (2 :: replicate 122 0) 0 0 0 [0; 0; 0] 8 INODE_MAGIC).
Definition demo_inode : inode :=
  mkInode 1 1 false 0 (mkInodeDisk (4 :: 3 :: replicate 121 0) 0 0 0 [0; 0; 0] 600 INODE_MAGIC).
Definition demo_fs (words : list Z) : fs Cache.cache :=
  mkFs Cache.cache demo_cache (mkBitmap 8 words) (Some 1%positive) [5%positive; 2%positive]
       {[2%positive := demo_map_inode; 5%positive := demo_inode]}
       {[1%positive := mkFile 2 0 false]} ∅ None [] 9.

Lemma demo_cache_inv : bs_inv demo_cache.
Proof.
  apply Cache.static_cache_inv. split; [vm_compute; split; congruence|by vm_compute|].
  apply (bool_decide_unpack (Forall (fun b => 0 <= b < 256) _)). by vm_compute.
Qed.

(** A file that only has direct blocks. *)
Lemma direct_file_ok (c : Cache.cache) (d : inode_disk) secs :
  0 <= length_ d -> zlen secs = bytes_to_sectors (length_ d) -> zlen secs <= 123 ->
  secs = take (length secs) (direct_blocks d) -> Forall (in_range c) secs -> NoDup secs ->
  file_ok c d secs.
Proof.
  intros H1 H2 H3 H4 H5 H6. split; try done; [unfold MAX_SECTORS; lia| |].
  - intros i t Hi. pose proof (zget_range _ _ _ Hi). unfold sector_of.
    rewrite (proj2 (Z.ltb_lt _ _)) by lia. rewrite H4 in Hi. rewrite zget_lookup in Hi |- * by lia.
    by apply lookup_take_Some in Hi as [? _].
  - intros t [[? _]|[[? _]|(k & ? & ? & _)]]; lia.
Qed.

Lemma demo_file_ok : file_ok demo_cache (data demo_inode) [4; 3].
Proof.
  apply direct_file_ok; [by vm_compute..| |apply (bool_decide_unpack _); by vm_compute].
  repeat constructor; by vm_compute.
Qed.

Lemma demo_map_ok words : Bitmap.wf (mkBitmap 8 words) ->
  free_map_ok (demo_fs words) 1 (mkFile 2 0 false) demo_map_inode [2].
Proof.
  intros Hw. split; try done; [apply demo_cache_inv|].
  apply direct_file_ok; [by vm_compute..| |apply (bool_decide_unpack _); by vm_compute].
  repeat constructor; by vm_compute.
Qed.

Lemma demo_bitmap_wf w : 0 <= w < 2 ^ 64 -> Bitmap.wf (mkBitmap 8 [w]).
Proof. intros. split; [done|by vm_compute|by constructor]. Qed.

(* ------------------------------------------------------------------ *)
(** ** Files                                                           *)
(* ------------------------------------------------------------------ *)

Section props.
Context {B : Type} `{!BlockStore B}.
Implicit Types (b : B) (s : fs B) (d : inode_disk).

(** A file none of whose data is in the sectors written keeps its bytes. *)
Lemma content_changes b b' d secs secs' :
  changes_only b secs b' -> Forall (in_range b) secs' -> (forall t, t ∈ secs' -> t ∉ secs) ->
  content b' d secs' = content b d secs'.
Proof.
  intros Hb Hr Hdis. unfold content, sectors_bytes. do 2 f_equal. apply map_ext_in. intros t Ht.
  apply list_elem_of_In in Ht. rewrite Forall_forall in Hr.
  apply (co_sector _ _ _ Hb); [by apply Hr|by apply Hdis].
Qed.

(** C28: Functional correctness of inode_read_at: from any offset and for
    any size it returns the bytes of the file from that offset, fewer when
    the file ends before (none past its end), through direct, indirect
    and doubly indirect blocks; its loop ends; no sector changes. *)
Theorem inode_read_at_content s p ip secs size off :
  bs_inv (store s) -> inodes s !! p = Some ip -> file_ok (store s) (data ip) secs ->
  length_ (data ip) < 2 ^ 31 -> 0 <= off -> 0 <= size ->
  exists b', inode_read_at p size off s
             = Ok (slice (content (store s) (data ip) secs) off size) (set_store b' s) [] /\
             same_store (store s) b'.
Proof.
  intros. assert (wp (inode_read_at p size off) (fun r s' =>
    r = slice (content (store s) (data ip) secs) off size /\
    exists b', s' = set_store b' s /\ same_store (store s) b') s) as H5.
  { eapply inode_read_at_wp; [done..|]. intros b' Hb'. split; [done|]. by exists b'. }
  apply wp_Ok in H5 as (r & s' & E & -> & b' & -> & Hb'). by exists b'.
Qed.

(** C5: Functional correctness of inode_write_at inside a file whose
    writes are not denied: it writes all [size] bytes; the file is its old
    bytes with [size] bytes from [off] replaced by the buffer's; a read of
    any range after it returns the new bytes; and no other file whose data
    sectors are disjoint changes. *)
Theorem inode_write_then_read s p ip secs buf size off size2 off2 :
  bs_inv (store s) -> inodes s !! p = Some ip -> file_ok (store s) (data ip) secs ->
  deny_write_cnt ip = 0 -> length_ (data ip) < 2 ^ 31 -> 0 <= off -> 0 < size ->
  off + size <= length_ (data ip) -> size <= zlen buf -> Forall is_u8 buf ->
  0 <= off2 -> 0 <= size2 ->
  let text := content (store s) (data ip) secs in
  exists b',
    (let! n := inode_write_at p buf size off in
     let! r := inode_read_at p size2 off2 in ret (n, r)) s
    = Ok (size, slice (splice text off (slice buf 0 size)) off2 size2) (set_store b' s) [] /\
    file_ok b' (data ip) secs /\
    forall d' secs', Forall (in_range (store s)) secs' -> (forall t, t ∈ secs' -> t ∉ secs) ->
      content b' d' secs' = content (store s) d' secs'.
Proof.
  intros Hinv Hp Hf Hdeny Hlen Hoff Hsize Hle Hbuf Hu Hoff2 Hsize2 text.
  assert (wp (let! n := inode_write_at p buf size off in
              let! r := inode_read_at p size2 off2 in ret (n, r)) (fun x s' =>
    x = (size, slice (splice text off (slice buf 0 size)) off2 size2) /\
    exists b', s' = set_store b' s /\ changes_only (store s) secs b') s) as H.
  { apply wp_bind. unfold inode_write_at, write_fuel. eapply inode_write_at_wp; [done..|].
    intros b1 Hb1 Hc. apply wp_bind. eapply (inode_read_at_wp (set_store b1 s) p ip secs);
      [apply Hb1|done|by eapply file_ok_changes|done..|].
    intros b2 Hb2. apply wp_ret. simpl. rewrite Hc. split; [done|]. exists b2. split; [done|].
    eapply changes_only_trans; [done|by apply same_changes_only]. }
  apply wp_Ok in H as (x & s' & E & -> & b' & -> & Hb'). exists b'.
  split; [done|]. split; [by eapply file_ok_changes|].
  intros d' secs' Hr Hdis. by eapply content_changes.
Qed.

(* ------------------------------------------------------------------ *)
(** ** The free map                                                    *)
(* ------------------------------------------------------------------ *)

(** C20: Free_map_allocate hands out the first run of [cnt] free sectors, or
    fails when there is none and then changes nothing; it marks exactly
    that run, after which the free map's file on the device is the bitmap
    in memory and num_free_sectors has dropped by [cnt]. *)
Theorem allocate_first_free_run s fp fl ip secs cnt :
  free_map_ok s fp fl ip secs -> 0 <= cnt ->
  wp (let! n := num_free_sectors in let! r := allocate cnt in
      let! n' := num_free_sectors in ret (n, r, n'))
     (fun '(n, r, n') s' =>
        match r with
        | None => s' = s /\ n' = n /\
            forall i, 0 <= i -> i + cnt <= bit_cnt (free_map s) -> ~ run (free_map s) i cnt false
        | Some sec => n' = n - cnt /\ 0 <= sec /\ sec + cnt <= bit_cnt (free_map s) /\
            run (free_map s) sec cnt false /\
            (forall i, 0 <= i < sec -> ~ run (free_map s) i cnt false) /\
            range_set (free_map s) sec cnt true (free_map s') /\
            free_map_ok s' fp fl ip secs /\ on_disk s' ip secs
        end) s.
Proof.
  intros Hok Hcnt. wp_step. apply num_free_sectors_wp; [apply Hok|].
  wp_step. unfold allocate, inode_write_at, write_fuel.
  eapply free_map_allocate_wp; [done..| |].
  - intros [(_ & Hle & _)|[_ Hno]].
    { destruct (fm_wf _ _ _ _ _ Hok) as [Hb _ _]. unfold BITMAP_ERROR in *. lia. }
    wp_step. apply num_free_sectors_wp; [apply Hok|]. by apply wp_ret.
  - intros r m b' [(H1 & H2 & H3 & H4)|[-> _]] Hne Hm Hb' Hok' Hd; [|done].
    wp_step. apply num_free_sectors_wp; [apply Hok'|]. apply wp_ret. simpl.
    split; [|by split_and!]. by eapply count_bits_range_set.
Qed.

(** Round trip: releasing what was just allocated gives a bitmap with
    the same bits as before, in memory and on the device. *)
Theorem allocate_then_release s fp fl ip secs cnt sec s1 :
  free_map_ok s fp fl ip secs -> 0 <= cnt -> allocate cnt s = Ok (Some sec) s1 [] ->
  wp (release sec cnt)
     (fun _ s2 => (forall j, 0 <= j < bit_cnt (free_map s) -> bit (free_map s2) j = bit (free_map s) j) /\
                  bit_cnt (free_map s2) = bit_cnt (free_map s) /\
                  free_map_ok s2 fp fl ip secs /\ on_disk s2 ip secs) s1.
Proof.
  intros Hok Hcnt E.
  assert (wp (allocate cnt) (fun r s1 => forall sec, r = Some sec ->
    free_map_ok s1 fp fl ip secs /\ 0 <= sec /\ sec + cnt <= bit_cnt (free_map s) /\
    run (free_map s) sec cnt false /\ range_set (free_map s) sec cnt true (free_map s1)) s) as H.
  { unfold allocate, inode_write_at, write_fuel. eapply free_map_allocate_wp; [done..|done|].
    intros r m b' [(H1 & H2 & H3 & H4)|[-> _]] Hne Hm Hb' Hok' Hd sec' [= <-]; [|done]. by split_and!. }
  unfold wp in H. rewrite E in H. destruct H as [_ H].
  destruct (H sec eq_refl) as (Hok1 & H1 & H2 & H3 & Hw & Hc & Hbits).
  unfold release, inode_write_at, write_fuel.
  eapply free_map_release_wp; [done|done|done|lia| |].
  { intros j Hj. by rewrite Hbits, bool_decide_eq_true_2. }
  intros m b' (Hw2 & Hc2 & Hbits2) Hb' Hok2 Hd. simpl. split; [|split_and!; [congruence|done..]].
  intros j Hj. rewrite Hbits2, Hbits. case_bool_decide; [|done]. symmetry. by apply H3.
Qed.
(* ------------------------------------------------------------------ *)
(** ** Two faults                                                      *)
(* ------------------------------------------------------------------ *)


Definition not_open s (sec : Z) : Prop :=
  Forall (fun q => exists ip, inodes s !! q = Some ip /\ sector ip <> sec) (open_inodes s).

Lemma find_open_wp s l sec (Q : option loc -> fs B -> Prop) :
  Forall (fun q => exists ip, inodes s !! q = Some ip /\ sector ip <> sec) l -> Q None s ->
  wp (find_open l sec) Q s.
Proof.
  intros Hl HQ. induction Hl as [|q l (ip & Hq & Hne) _ IH]; simpl; [by apply wp_ret|].
  apply wp_bind. eapply get_inode_wp; [done|]. by rewrite (proj2 (Z.eqb_neq _ _)).
Qed.

Lemma inode_open_wp s sec (Q : loc -> fs B -> Prop) :
  bs_inv (store s) -> in_range (store s) sec -> not_open s sec ->
  (forall b', same_store (store s) b' ->
     Q (brk s) (set_inodes (<[brk s := mkInode sec 1 false 0 (decode_inode (bs_sector (store s) sec))]> (inodes s))
                 (set_store b' (set_open_inodes (brk s :: open_inodes s) (set_brk (Pos.succ (brk s)) s))))) ->
  wp (inode_open sec) Q s.
Proof.
  intros Hinv Hr Hno HQ. unfold inode_open. wp_step. apply wp_get. wp_step.
  apply find_open_wp; [done|]. unfold malloc, set_inode. wp_steps. eapply cache_read_wp; [done..|].
  intros b' Hb'. wp_steps. by apply HQ.
Qed.

(** C38: Inode_reopen does not count the new opener: after a sector is
    opened twice, which gives the same object, the first close frees it
    and the second one reads freed memory. *)
Theorem second_close_after_reopen_is_use_after_free s sec :
  bs_inv (store s) -> in_range (store s) sec -> not_open s sec ->
  (let! p := inode_open sec in let! q := inode_open sec in
   inode_close (Some p) ;; inode_close (Some q)) s = Stuck.
Proof.
  intros Hinv Hr Hno.
  eapply bind_stuck; [apply (inode_open_wp s sec (fun p s' => exists ip l, inodes s' !! p = Some ip /\
    sector ip = sec /\ open_cnt ip = 1 /\ removed ip = false /\ open_inodes s' = p :: l)); [done..|]|].
  { intros b' _. simpl. eexists _, _. split; [apply lookup_insert_eq|done]. }
  intros p s1 (ip & l & Hp & Hsec & Hcnt & Hrem & Hl).
  apply (bind_stuck _ _ (fun q s' => q = p /\ s' = s1)).
  { unfold inode_open. wp_step. apply wp_get. rewrite Hl. simpl. wp_step. wp_step.
    eapply get_inode_wp; [done|]. by rewrite (proj2 (Z.eqb_eq _ _)). }
  intros q s2 [-> ->]. apply (bind_stuck _ _ (fun _ s' => inodes s' !! p = None)).
  { unfold inode_close. wp_step. eapply get_inode_wp; [done|]. unfold set_inode, free_inode.
    wp_steps; [congruence|apply lookup_delete_eq|lia]. }
  intros _ s3 Hfreed. unfold inode_close, get_inode, bind, get. simpl. by rewrite Hfreed.
Qed.

(** No free sector: an allocation fails and changes nothing. *)
Lemma free_map_allocate_full write_at s (Q : option Z -> fs B -> Prop) :
  Bitmap.wf (free_map s) -> run (free_map s) 0 (bit_cnt (free_map s)) true -> Q None s ->
  wp (free_map_allocate write_at 1) Q s.
Proof.
  intros Hw Hfull HQ. destruct (Hw) as [Hc _ _]. unfold free_map_allocate, on_free_map. wp_steps.
  apply bitmap_scan_and_flip_wp; [done|lia..| |].
  - intros r _ ->. wp_steps. by destruct s.
  - intros r m [(H1 & H2 & H3 & _)|[-> _]] Hne; [|done]. exfalso.
    specialize (H3 r ltac:(lia)). rewrite Hfull in H3 by lia. done.
Qed.

#[local] Arguments zeros : simpl never.

(** C39: When the disk is full, extending a file into its (unallocated)
    indirect block ignores that the allocation failed, and zeroes sector
    0, where the free map's inode is, before it reports failure. *)
Theorem indirect_on_full_disk_wipes_sector_0 write_at s n :
  bs_inv (store s) -> 0 < bs_size (store s) -> Bitmap.wf (free_map s) ->
  run (free_map s) 0 (bit_cnt (free_map s)) true -> 1 <= n <= 128 ->
  wp (inode_reserve_indirect write_at 1 0 n)
     (fun r s' => r = (false, 0) /\ bs_sector (store s') 0 = zeros) s.
Proof.
  intros Hinv Hsize Hw Hfull Hn. assert (in_range (store s) 0) as Hr by (unfold in_range; lia).
  simpl. wp_step. apply wp_ret. do 2 wp_step. apply free_map_allocate_full; [done..|].
  simpl. wp_step. apply cache_write_wp; [done|done|by vm_compute|by apply Forall_replicate|].
  intros b1 Hb1 Hz. wp_steps. apply cache_read_wp; [apply Hb1|by eapply in_range_size; [apply Hb1|]|].
  simpl. intros b2 Hb2. rewrite Hz.
  assert (DIV_ROUND_UP n 1 = n) as ->.
  { unfold DIV_ROUND_UP, u64. rewrite Z.mod_small by lia. rewrite Z.div_1_r. lia. }
  replace (Z.to_nat n) with (Datatypes.S (Z.to_nat (n - 1))) by lia.
  assert (zget (decode_blocks zeros) 0 = Some 0) as H0 by by vm_compute.
  destruct (zset_ex (decode_blocks zeros) 0 0) as [l Hl]; [by eapply zget_range|].
  generalize dependent (decode_blocks zeros). intros bl H0 Hl.
  wp_step. simpl. do 2 wp_step. eapply wp_need; [exact H0|]. do 2 wp_step. apply wp_ret.
  simpl. wp_step. apply free_map_allocate_full; [done..|]. wp_steps; [exact Hl|].
  wp_steps. split; [done|]. rewrite (ss_sector _ _ Hb2); [done|].
  eapply in_range_size; [apply Hb1|done].
Qed.
End props.

(* ------------------------------------------------------------------ *)
(** ** Witnesses                                                       *)
(* ------------------------------------------------------------------ *)

Lemma inode_read_at_content_witness :
  exists b', inode_read_at 5 200 450 (demo_fs [31])
             = Ok (replicate 62 4 ++ replicate 88 3) (set_store b' (demo_fs [31])) [].
Proof.
  destruct (inode_read_at_content (demo_fs [31]) 5 demo_inode [4; 3] 200 450)
    as (b' & E & _); [apply demo_cache_inv|by vm_compute|apply demo_file_ok|done..|].
  exists b'. rewrite E. by vm_compute.
Defined.

Lemma inode_write_then_read_witness :
  exists b', (let! n := inode_write_at 5 [9; 8; 7; 0] 3 510 in
              let! r := inode_read_at 5 6 509 in ret (n, r)) (demo_fs [31])
             = Ok (3, [4; 9; 8; 7; 3; 3]) (set_store b' (demo_fs [31])) [] /\
             content b' (data demo_map_inode) [2] = replicate 8 2.
Proof.
  destruct (inode_write_then_read (demo_fs [31]) 5 demo_inode [4; 3] [9; 8; 7; 0] 3 510 6 509)
    as (b' & E & _ & Hother);
    [apply demo_cache_inv|by vm_compute|apply demo_file_ok|done..|repeat constructor; lia|done|done|].
  exists b'. split; [rewrite E; by vm_compute|].
  rewrite Hother; [by vm_compute| |].
  - apply Forall_singleton. split; by vm_compute.
  - intros t ->%list_elem_of_singleton. apply (bool_decide_unpack _). by vm_compute.
Defined.

Lemma allocate_first_free_run_witness :
  free_map_ok (demo_fs [31]) 1 (mkFile 2 0 false) demo_map_inode [2] /\
  exists s', (let! n := num_free_sectors in let! r := allocate 2 in
              let! n' := num_free_sectors in ret (n, r, n')) (demo_fs [31]) = Ok (3, Some 5, 1) s' [] /\
             on_disk s' demo_map_inode [2].
Proof.
  assert (free_map_ok (demo_fs [31]) 1 (mkFile 2 0 false) demo_map_inode [2]) as Hok
    by by apply demo_map_ok, demo_bitmap_wf.
  split; [done|].
  pose proof (allocate_first_free_run (demo_fs [31]) 1 (mkFile 2 0 false) demo_map_inode [2] 2 Hok
    ltac:(done)) as H.
  apply wp_Ok in H as ([[n r] n'] & s' & E & H). exists s'.
  assert ((n, r, n') = (3, Some 5, 1)) as Hv.
  { revert E. vm_compute. congruence. }
  rewrite Hv in E. injection Hv as -> -> ->. split; [exact E|]. apply H.
Defined.

Lemma allocate_then_release_witness :
  exists s1, allocate 3 (demo_fs [31]) = Ok (Some 5) s1 [] /\
    wp (release 5 3) (fun _ s2 => forall j, 0 <= j < 8 -> bit (free_map s2) j = bit (mkBitmap 8 [31]) j) s1.
Proof.
  destruct (allocate 3 (demo_fs [31])) as [r s1 tr| | |] eqn:E; [|exfalso; vm_compute in E; congruence..].
  assert (r = Some 5 /\ tr = []) as [-> ->] by (revert E; vm_compute; intros [= <- <- <-]; done).
  exists s1. split; [done|]. eapply wp_mono.
  - apply (allocate_then_release (demo_fs [31]) 1 (mkFile 2 0 false) demo_map_inode [2] 3 5 s1);
      [by apply demo_map_ok, demo_bitmap_wf|done|exact E].
  - intros u s2 (H & _). exact H.
Defined.

Lemma second_close_after_reopen_is_use_after_free_witness :
  (let! p := inode_open 6 in let! q := inode_open 6 in
   inode_close (Some p) ;; inode_close (Some q)) (demo_fs [31]) = Stuck.
Proof.
  apply (second_close_after_reopen_is_use_after_free (demo_fs [31]) 6).
  - apply demo_cache_inv.
  - split; by vm_compute.
  - apply Forall_cons. split; [by exists demo_inode|]. apply Forall_singleton. by exists demo_map_inode.
Defined.

Lemma indirect_on_full_disk_wipes_sector_0_witness :
  wp (inode_reserve_indirect inode_write_at 1 0 3)
     (fun r s' => r = (false, 0) /\ bs_sector (store s') 0 = zeros) (demo_fs [255]).
Proof.
  apply indirect_on_full_disk_wipes_sector_0; [apply demo_cache_inv|by vm_compute|by apply demo_bitmap_wf| |done].
  intros j Hj. simpl in Hj. assert (j ∈ seqZ 0 8) as Hin by (apply elem_of_seqZ; lia).
  revert j Hin Hj. apply (Forall_forall (fun j => 0 <= j < 0 + 8 -> bit (mkBitmap 8 [255]) j = true)).
  repeat constructor; by vm_compute.
Defined.
End FileProps.
