(* ===== verification/Dealloc.v ===== *)
(** * Dealloc: giving the sectors of a file back (inode_deallocate,
    inode_close of a3/fs/inode.c)

    Removing a file clears the bits of exactly its data sectors, its
    indirect sectors and its inode, in memory and in the free map's file. *)
From S2P Require Import Prelude Bitmap Block Store Cache FsState Inode FileData FreeMap FileProps.

Module Dealloc.
Import Bitmap FsState Inode FileData FreeMap FileProps.

(** [m'] is [m] with the bits [ts] cleared. *)
Definition cleared (m : bitmap) (ts : list Z) (m' : bitmap) : Prop :=
  Bitmap.wf m' /\ bit_cnt m' = bit_cnt m /\
  forall j, bit m' j = if bool_decide (j ∈ ts) then false else bit m j.

(** The sectors [ts] are allocated. *)
Definition allocated (m : bitmap) (ts : list Z) : Prop :=
  forall t, t ∈ ts -> 0 <= t < bit_cnt m /\ bit m t = true.

Lemma cleared_refl m : Bitmap.wf m -> cleared m [] m.
Proof. intros Hm. split_and!; [done..|]. intros j. by rewrite bool_decide_eq_false_2 by apply not_elem_of_nil. Qed.
Lemma cleared_trans m1 ts m2 us m3 : cleared m1 ts m2 -> cleared m2 us m3 -> cleared m1 (ts ++ us) m3.
Proof.
  intros (_ & Hc & Hb) (Hw' & Hc' & Hb'). split_and!; [done|congruence|]. intros j. rewrite Hb', Hb.
  rewrite (bool_decide_ext (j ∈ ts ++ us) (j ∈ ts \/ j ∈ us)) by apply elem_of_app.
  repeat case_bool_decide; naive_solver.
Qed.
#[export] Instance cleared_proper m : Proper ((≡ₚ) ==> eq ==> iff) (cleared m).
Proof.
  intros ts us Hp m' _ <-. unfold cleared.
  assert (forall j, bool_decide (j ∈ ts) = bool_decide (j ∈ us)) as E.
  { intros j. apply bool_decide_ext. by rewrite Hp. }
  split; intros (Hw & Hc & Hb); (split_and!; [done..|]); intros j; by rewrite Hb, E.
Qed.
#[export] Instance allocated_proper m : Proper ((≡ₚ) ==> iff) (allocated m).
Proof. intros ts us Hp. unfold allocated. by setoid_rewrite Hp. Qed.
Lemma allocated_cleared m ts us m' :
  cleared m ts m' -> allocated m us -> (forall t, t ∈ us -> t ∉ ts) -> allocated m' us.
Proof.
  intros (_ & Hc & Hb) Ha Hd t Ht. rewrite Hc, Hb, bool_decide_eq_false_2 by by apply Hd. by apply Ha.
Qed.
Lemma allocated_sub m ts us : allocated m us -> (forall t, t ∈ ts -> t ∈ us) -> allocated m ts.
Proof. intros Ha Hs t Ht. by apply Ha, Hs. Qed.

Lemma allocated_dec m ts : forallb (fun t => (0 <=? t) && (t <? bit_cnt m) && bit m t) ts = true -> allocated m ts.
Proof.
  intros H t Ht. apply list_elem_of_In in Ht. rewrite forallb_forall in H. specialize (H t Ht).
  apply andb_true_iff in H as [H Hb]. split; [lia|done].
Qed.

Section dealloc.
Context {B : Type} `{!BlockStore B}.
Implicit Types (b : B) (s : fs B) (d : inode_disk).

(** The indirect sectors of a file of [n] data sectors. *)
Definition first_level b d (n : Z) : list Z :=
  take (Z.to_nat ((n - 251 + 127) / 128)) (blocks_at b (doubly_indirect_block d)).
Definition meta_sectors b d (n : Z) : list Z :=
  (if 123 <? n then [indirect_block d] else []) ++
  (if 251 <? n then first_level b d n ++ [doubly_indirect_block d] else []).
Definition all_sectors b d (secs : list Z) : list Z := secs ++ meta_sectors b d (zlen secs).

Lemma zlen_decode_blocks bs : zlen (decode_blocks bs) = 128.
Proof. unfold decode_blocks. by rewrite length_bytes_words. Qed.

Lemma uses_meta_elem b d n t : n <= MAX_SECTORS -> t ∈ meta_sectors b d n <-> uses_meta b d n t.
Proof.
  intros Hn. unfold meta_sectors, uses_meta, MAX_SECTORS in *. rewrite elem_of_app.
  assert (t ∈ first_level b d n <-> exists k, 0 <= k /\ 251 + 128 * k < n /\
            zget (blocks_at b (doubly_indirect_block d)) k = Some t) as Hf.
  { unfold first_level. rewrite elem_of_take. split.
    - intros (i & Hi & Hlt). exists (Z.of_nat i). rewrite zget_lookup, Nat2Z.id by lia.
      split_and!; [lia| |done]. Z.to_euclidean_division_equations; lia.
    - intros (k & Hk & Hkn & Hz). exists (Z.to_nat k). rewrite zget_lookup in Hz by lia. split; [done|].
      Z.to_euclidean_division_equations; lia. }
  destruct (123 <? n) eqn:E1, (251 <? n) eqn:E2; rewrite ?elem_of_app, ?Hf, ?list_elem_of_singleton, ?elem_of_nil;
    split; intros; try naive_solver lia.
  all: destruct H as [?|[?|(k & ? & ? & ?)]]; try lia; naive_solver.
Qed.

(** The free map's file is fixed. *)
Section session.
Context (fp : loc) (fl : file) (mip : inode) (msecs : list Z).

(** The state after the sectors [ts] were released. *)
Definition freed s (ts : list Z) s' : Prop :=
  exists m b, s' = set_store b (set_free_map m s) /\ changes_only (store s) msecs b /\
    cleared (free_map s) ts m /\ free_map_ok s' fp fl mip msecs /\
    (ts <> [] \/ on_disk s mip msecs -> on_disk s' mip msecs).

Lemma freed_refl s : free_map_ok s fp fl mip msecs -> freed s [] s.
Proof.
  intros Hok. exists (free_map s), (store s). split_and!; [by destruct s| |apply cleared_refl, Hok|done|].
  - apply changes_only_refl, Hok.
  - naive_solver.
Qed.
Lemma freed_trans s ts s1 us s2 : freed s ts s1 -> freed s1 us s2 -> freed s (ts ++ us) s2.
Proof.
  intros (m1 & b1 & -> & Hb1 & Hc1 & Ho1 & Hd1) (m2 & b2 & -> & Hb2 & Hc2 & Ho2 & Hd2).
  exists m2, b2. split_and!; [done|by eapply changes_only_trans|by eapply cleared_trans|done|].
  intros Hd. apply Hd2. destruct us; [|by left]. right. apply Hd1. rewrite app_nil_r in Hd. done.
Qed.
Lemma freed_perm s ts us s' : ts ≡ₚ us -> freed s ts s' -> freed s us s'.
Proof.
  intros Hp (m & b & -> & Hb & Hc & Ho & Hd). exists m, b. split_and!; [done..|by rewrite <- Hp|done|].
  intros Hu. apply Hd. destruct Hu as [Hu|Hu]; [left|by right]. intros ->. apply Permutation_nil in Hp. done.
Qed.

Lemma release_wp s t (Q : unit -> fs B -> Prop) :
  free_map_ok s fp fl mip msecs -> allocated (free_map s) [t] ->
  (forall s', freed s [t] s' -> Q tt s') -> wp (release t 1) Q s.
Proof.
  intros Hok Ha HQ. destruct (Ha t) as [Ht Hbit]; [by left|].
  unfold release, inode_write_at, write_fuel. eapply free_map_release_wp; [done|lia..| |].
  - intros j Hj. by replace j with t by lia.
  - intros m b' (Hw & Hc & Hb) Hch Hok' Hd. apply HQ. exists m, b'. split_and!; [done..| |done|done].
    split_and!; [done..|]. intros j. rewrite Hb.
    by rewrite (bool_decide_ext (t <= j < t + 1) (j ∈ [t])) by (rewrite list_elem_of_singleton; lia).
Qed.

(** What is left to release after some. *)
Lemma freed_allocated s ts s1 us :
  freed s ts s1 -> allocated (free_map s) (ts ++ us) -> NoDup (ts ++ us) -> allocated (free_map s1) us.
Proof.
  intros (m & b & -> & _ & Hc & _) Ha Hn. eapply allocated_cleared; [done| |].
  - eapply allocated_sub; [done|]. intros t Ht. apply elem_of_app. by right.
  - apply NoDup_app in Hn as (_ & Hd & _). intros t Ht Ht'. by eapply Hd.
Qed.
Lemma freed_ok s ts s1 : freed s ts s1 -> free_map_ok s1 fp fl mip msecs.
Proof. by intros (m & b & -> & _ & _ & Ho & _). Qed.
Lemma freed_sector s ts s1 t :
  freed s ts s1 -> in_range (store s) t -> t ∉ msecs ->
  bs_sector (store s1) t = bs_sector (store s) t /\ in_range (store s1) t.
Proof.
  intros (m & b & -> & Hb & _) Hr Hn. split; [by apply Hb|]. eapply in_range_size; [apply Hb|done].
Qed.
Lemma freed_inodes s ts s1 : freed s ts s1 -> inodes s1 = inodes s.
Proof. by intros (m & b & -> & _). Qed.

(** Reading a sector changes nothing that matters. *)
Lemma freed_read s ts s1 b : freed s ts s1 -> same_store (store s1) b -> freed s ts (set_store b s1).
Proof.
  intros Hf Hb. rewrite <- (app_nil_r ts). eapply freed_trans; [done|].
  pose proof (freed_ok _ _ _ Hf) as Hok.
  exists (free_map s1), b. split_and!; [by destruct s1|by apply same_changes_only|apply cleared_refl, Hok| |].
  - destruct Hok. split; simpl; try done; [apply Hb|].
    eapply file_ok_changes; [by apply same_changes_only|done].
  - intros [?|Hd]; [done|]. unfold on_disk in *. simpl. rewrite (content_same (store s1)); [done|done|apply Hok].
Qed.

(* ------------------------------------------------------------------ *)
(** ** Loops over the entries of a block                               *)
(* ------------------------------------------------------------------ *)

Lemma take_next (ts : list Z) i t :
  0 <= i -> zget ts i = Some t -> take (Z.to_nat (i + 1)) ts = take (Z.to_nat i) ts ++ [t].
Proof.
  intros Hi Ht. rewrite zget_lookup in Ht by done. replace (Z.to_nat (i + 1)) with (S (Z.to_nat i)) by lia.
  by apply take_S_r.
Qed.

(** The loop that releases one sector per turn; [us] is released before. *)
Lemma freed_next s ts s1 i t :
  freed s (take (Z.to_nat i) ts) s1 -> 0 <= i -> zget ts i = Some t ->
  NoDup ts -> allocated (free_map s) ts ->
  allocated (free_map s1) [t] /\
  (forall s2, freed s1 [t] s2 -> freed s (take (Z.to_nat (i + 1)) ts) s2).
Proof.
  intros Hf Hi Ht Hn Ha. rewrite (take_next _ _ _ Hi Ht). split; [|intros s2; by apply freed_trans].
  assert (ts = (take (Z.to_nat i) ts ++ [t]) ++ drop (Z.to_nat (i + 1)) ts) as E.
  { rewrite <- (take_next _ _ _ Hi Ht). symmetry. apply take_drop. }
  eapply freed_allocated; [done| |].
  - eapply allocated_sub; [done|]. intros x Hx. rewrite E. apply elem_of_app. by left.
  - rewrite E in Hn. by apply NoDup_app in Hn as [? _].
Qed.

Lemma release_direct_wp s ts l (Q : unit -> fs B -> Prop) :
  free_map_ok s fp fl mip msecs -> NoDup ts -> allocated (free_map s) ts ->
  (forall i t, zget ts i = Some t -> zget l i = Some t) ->
  (forall s', freed s ts s' -> Q tt s') ->
  wp (for_ (length ts) 0 (fun i => let! e := need (zget l i) in release e 1)) Q s.
Proof.
  intros Hok Hn Ha Hl HQ. eapply (wp_for (fun i s' => freed s (take (Z.to_nat i) ts) s')).
  - by apply freed_refl.
  - intros j s1 Hj Hf. destruct (zget_ex ts j) as [t Ht]; [lia|].
    destruct (freed_next s ts s1 j t Hf) as [Ha1 Hnext]; [lia|done..|].
    wp_step. eapply wp_need; [by apply Hl|]. apply release_wp; [by eapply freed_ok|done|]. intros s2. apply Hnext.
  - intros s' Hf. apply HQ. rewrite take_ge in Hf by lia. done.
Qed.

(** One indirect block: its sectors, then itself. *)
Lemma dealloc_level1_wp s entry ts (Q : unit -> fs B -> Prop) :
  free_map_ok s fp fl mip msecs -> in_range (store s) entry -> entry ∉ msecs ->
  NoDup (ts ++ [entry]) -> allocated (free_map s) (ts ++ [entry]) -> zlen ts < 2 ^ 32 ->
  (forall i t, zget ts i = Some t -> zget (blocks_at (store s) entry) i = Some t) ->
  (forall s', freed s (ts ++ [entry]) s' -> Q tt s') ->
  wp (inode_deallocate_indirect 1 entry (zlen ts)) Q s.
Proof.
  intros Hok Hr Hm Hn Ha Hlen Hl HQ. simpl. do 3 wp_step.
  apply cache_read_wp; [apply Hok|done|]. intros b' Hb'. wp_step.
  assert (DIV_ROUND_UP (zlen ts) 1 = zlen ts) as ->.
  { unfold DIV_ROUND_UP, u64. rewrite Z.mod_small by lia. rewrite Z.div_1_r. lia. }
  rewrite Nat2Z.id.
  assert (NoDup ts /\ allocated (free_map s) ts) as [Hn1 Ha1].
  { split; [by apply NoDup_app in Hn as [? _]|]. eapply allocated_sub; [done|]. intros t Ht. apply elem_of_app. by left. }
  eapply (wp_for_acc (fun i num s' => num = zlen ts - i /\ freed s (take (Z.to_nat i) ts) s')).
  - split; [lia|]. eapply freed_read; [by apply freed_refl|done].
  - intros j num s1 Hj [-> Hf]. destruct (zget_ex ts j) as [t Ht]; [lia|].
    destruct (freed_next s ts s1 j t Hf) as [Ht1 Hnext]; [lia|done..|].
    wp_step. eapply wp_need; [by apply Hl|]. do 3 wp_step.
    apply release_wp; [by eapply freed_ok|done|]. intros s2 Hs2. apply wp_ret. split; [|by apply Hnext].
    unfold min. case_match; lia.
  - intros num s1 [-> Hf]. rewrite take_ge in Hf by lia. wp_step. apply wp_assert; [lia|].
    apply release_wp; [by eapply freed_ok| |].
    + by eapply freed_allocated.
    + intros s2 Hs2. apply HQ. by eapply freed_trans.
Qed.

(** A doubly indirect block: each of its indirect blocks [firsts] with
    128 of the sectors, then itself. *)
Lemma dealloc_level2_wp s entry ts (Q : unit -> fs B -> Prop) :
  let firsts := take (Z.to_nat ((zlen ts + 127) / 128)) (blocks_at (store s) entry) in
  free_map_ok s fp fl mip msecs -> zlen ts <= 128 * 128 ->
  Forall (fun t => in_range (store s) t /\ t ∉ msecs) (firsts ++ [entry]) ->
  NoDup ((ts ++ firsts) ++ [entry]) -> allocated (free_map s) ((ts ++ firsts) ++ [entry]) ->
  (forall i t, zget ts i = Some t ->
     exists f, zget firsts (i / 128) = Some f /\ zget (blocks_at (store s) f) (i mod 128) = Some t) ->
  (forall s', freed s ((ts ++ firsts) ++ [entry]) s' -> Q tt s') ->
  wp (inode_deallocate_indirect 2 entry (zlen ts)) Q s.
Proof.
  intros firsts Hok Hlen Hm Hn Ha Hl HQ.
  assert (zlen firsts = (zlen ts + 127) / 128) as Hlf.
  { unfold firsts. rewrite length_take. pose proof (zlen_decode_blocks (bs_sector (store s) entry)).
    unfold blocks_at. Z.to_euclidean_division_equations; lia. }
  apply Forall_app in Hm as [Hmf Hme]. apply Forall_singleton in Hme as [Hr Hme].
  assert (NoDup (ts ++ firsts) /\ allocated (free_map s) (ts ++ firsts)) as [Hn1 Ha1].
  { split; [by apply NoDup_app in Hn as [? _]|]. eapply allocated_sub; [done|]. intros t Ht. apply elem_of_app. by left. }
  change (inode_deallocate_indirect 2 entry (zlen ts)) with
    (assert_ (S := fs B) true "level <= 2" ;;
     let! bs := cache_read entry in
     let! num := for_acc (Z.to_nat (DIV_ROUND_UP (zlen ts) 128)) 0
       (fun i num =>
          let! e := need (zget (decode_blocks bs) i) in
          inode_deallocate_indirect 1 e (min num 128) ;; ret (num - min num 128)) (zlen ts) in
     assert_ (num =? 0) "num_sectors == 0" ;; release entry 1)%c.
  wp_step. apply wp_assert; [done|]. wp_step. apply cache_read_wp; [apply Hok|done|]. intros b' Hb'. wp_step.
  assert (DIV_ROUND_UP (zlen ts) 128 = zlen firsts) as ->.
  { unfold DIV_ROUND_UP, u64. rewrite Z.mod_small by lia. rewrite Hlf. f_equal. lia. }
  rewrite Nat2Z.id.
  eapply (wp_for_acc (fun i num s' => num = Z.max 0 (zlen ts - 128 * i) /\
    freed s (take (Z.to_nat (128 * i)) ts ++ take (Z.to_nat i) firsts) s')).
  - split; [lia|]. eapply freed_read; [by apply freed_refl|done].
  - intros j num s1 Hj [-> Hf]. destruct (zget_ex firsts j) as [f Hfj]; [lia|].
    assert (128 * j < zlen ts) as Hjt by (Z.to_euclidean_division_equations; lia).
    rewrite (Z.max_r 0) by lia. set (c := slice ts (128 * j) 128).
    assert (zlen c = Z.min 128 (zlen ts - 128 * j)) as Hc by (unfold c; rewrite zlen_slice_min; lia).
    assert (min (zlen ts - 128 * j) 128 = zlen c) as -> by (unfold min; case_match; lia).
    assert (take (Z.to_nat (128 * (j + 1))) ts = take (Z.to_nat (128 * j)) ts ++ c) as Et.
    { pose proof (slice_snoc ts 0 (128 * j) 128) as E. unfold slice in E. rewrite drop_0 in E. unfold c, slice.
      replace (128 * (j + 1)) with (128 * j + 128) by lia. symmetry. apply E; lia. }
    pose proof (take_next _ _ _ (proj1 Hj) Hfj) as Ef.
    set (A := take (Z.to_nat (128 * j)) ts) in *. set (F := take (Z.to_nat j) firsts) in *.
    assert ((A ++ F) ++ (c ++ [f]) ≡ₚ take (Z.to_nat (128 * (j + 1))) ts ++ take (Z.to_nat (j + 1)) firsts) as Hp.
    { rewrite Et, Ef. rewrite <- !app_assoc. apply Permutation_app_head. rewrite !app_assoc.
      apply Permutation_app_tail, Permutation_app_comm. }
    assert (NoDup ((A ++ F) ++ (c ++ [f])) /\ allocated (free_map s) ((A ++ F) ++ (c ++ [f]))) as [Hn2 Ha2].
    { assert (take (Z.to_nat (128 * (j + 1))) ts ++ take (Z.to_nat (j + 1)) firsts `sublist_of` ts ++ firsts) as Hsub.
      { apply sublist_app; apply sublist_take. }
      split; [rewrite Hp; by eapply sublist_NoDup|]. eapply allocated_sub; [exact Ha1|]. intros x. rewrite Hp.
      intros Hx. by eapply elem_of_sublist. }
    wp_step. eapply wp_need.
    { rewrite <- Hfj. unfold firsts. rewrite !zget_lookup by lia. symmetry. apply lookup_take_lt.
      revert Hj Hlf. clear. lia. }
    assert (in_range (store s) f /\ f ∉ msecs) as [Hrf Hmf'] by by eapply Forall_zget in Hmf.
    destruct (freed_sector _ _ _ f Hf Hrf Hmf') as [Es Hr1].
    wp_step. apply dealloc_level1_wp; [by eapply freed_ok|done|done| | |lia| |].
    + by apply NoDup_app in Hn2 as (_ & _ & ?).
    + by eapply freed_allocated.
    + intros i t Ht. unfold blocks_at. rewrite Es.
      pose proof (zget_range _ _ _ Ht) as Hi. unfold c in Ht. rewrite zget_slice in Ht by lia.
      destruct (Hl _ _ Ht) as (f' & Hf' & Hz).
      assert ((128 * j + i) / 128 = j) as E1 by (Z.to_euclidean_division_equations; lia).
      assert ((128 * j + i) mod 128 = i) as E2 by (Z.to_euclidean_division_equations; lia).
      rewrite E1, Hfj in Hf'. injection Hf' as <-. by rewrite E2 in Hz.
    + intros s2 Hs2. apply wp_ret. split; [lia|]. eapply freed_perm; [exact Hp|]. by eapply freed_trans.
  - intros num s1 [-> Hf]. rewrite !take_ge in Hf by (rewrite ?Hlf; Z.to_euclidean_division_equations; lia).
    wp_step. apply wp_assert.
    { rewrite Hlf. Z.to_euclidean_division_equations; lia. }
    apply release_wp; [by eapply freed_ok|by eapply freed_allocated|].
    intros s2 Hs2. apply HQ. by eapply freed_trans.
Qed.

(* ------------------------------------------------------------------ *)
(** ** The whole file                                                  *)
(* ------------------------------------------------------------------ *)

(** The file's sectors, the indirect ones too, are allocated, once each,
    and are not the free map's. *)
Record owned s d (secs : list Z) : Prop := {
  ow_file : file_ok (store s) d secs;
  ow_nodup : NoDup (all_sectors (store s) d secs);
  ow_allocated : allocated (free_map s) (all_sectors (store s) d secs);
  ow_apart : forall t, t ∈ all_sectors (store s) d secs -> t ∉ msecs
}.

Lemma min_val x y : min x y = Z.min x y.
Proof. unfold min. case_match; lia. Qed.

(** The three parts of the sector map, and what is released with each. *)
Definition part1 (secs : list Z) : list Z := take 123 secs.
Definition part2 (secs : list Z) : list Z := slice secs 123 128.
Definition part3 (secs : list Z) : list Z := drop 251 secs.
Definition group2 d (secs : list Z) : list Z :=
  if 123 <? zlen secs then part2 secs ++ [indirect_block d] else [].
Definition group3 b d (secs : list Z) : list Z :=
  if 251 <? zlen secs then (part3 secs ++ first_level b d (zlen secs)) ++ [doubly_indirect_block d] else [].

Lemma secs_split secs : secs = part1 secs ++ part2 secs ++ part3 secs.
Proof.
  unfold part1, part2, part3, slice. rewrite <- (take_drop 123 secs) at 1. f_equal.
  rewrite <- (take_drop 128 (drop 123 secs)) at 1. by rewrite drop_drop.
Qed.
Lemma zlen_parts secs :
  zlen (part1 secs) = Z.min (zlen secs) 123 /\
  zlen (part2 secs) = Z.max 0 (Z.min 128 (zlen secs - 123)) /\
  zlen (part3 secs) = Z.max 0 (zlen secs - 251).
Proof.
  unfold part1, part2, part3. rewrite zlen_slice_min, length_take, length_drop by lia. lia.
Qed.
Lemma groups_perm b d secs : (part1 secs ++ group2 d secs) ++ group3 b d secs ≡ₚ all_sectors b d secs.
Proof.
  destruct (zlen_parts secs) as (_ & L2 & L3). unfold all_sectors.
  transitivity ((part1 secs ++ part2 secs ++ part3 secs) ++ meta_sectors b d (zlen secs));
    [|by rewrite <- secs_split]. unfold group2, group3, meta_sectors.
  assert (zlen secs <= 123 -> part2 secs = []) as N2 by (intros; apply nil_length_inv; lia).
  assert (zlen secs <= 251 -> part3 secs = []) as N3 by (intros; apply nil_length_inv; lia).
  destruct (123 <? zlen secs) eqn:E1, (251 <? zlen secs) eqn:E2; try lia;
    rewrite ?N2, ?N3 by lia; rewrite ?app_nil_r; solve_Permutation.
Qed.

(** Single and doubly indirect sectors of an owned file. *)
Lemma owned_blocks s d secs i t :
  file_ok (store s) d secs -> zget secs i = Some t ->
  (i < 123 -> zget (direct_blocks d) i = Some t) /\
  (123 <= i < 251 -> zget (blocks_at (store s) (indirect_block d)) (i - 123) = Some t) /\
  (251 <= i -> exists f, zget (blocks_at (store s) (doubly_indirect_block d)) ((i - 251) / 128) = Some f /\
     zget (blocks_at (store s) f) ((i - 251) mod 128) = Some t).
Proof.
  intros Hf Hi. pose proof (fo_secs _ _ _ Hf _ _ Hi) as H. unfold sector_of in H. split_and!; intros Hc.
  - by rewrite (proj2 (Z.ltb_lt _ _)) in H.
  - rewrite (proj2 (Z.ltb_ge _ _)), (proj2 (Z.ltb_lt _ _)) in H by lia. done.
  - rewrite !(proj2 (Z.ltb_ge _ _)) in H by lia. destruct (zget _ ((i - 251) / 128)) as [f|]; [|done]. by exists f.
Qed.

(** The second and the third group, after the ones before. *)
Lemma dealloc_single_wp s d secs s1 (Q : unit -> fs B -> Prop) :
  owned s d secs -> freed s (part1 secs) s1 ->
  NoDup (part1 secs ++ group2 d secs) -> allocated (free_map s) (part1 secs ++ group2 d secs) ->
  (forall s2, freed s (part1 secs ++ group2 d secs) s2 -> Q tt s2) ->
  wp (when (0 <? zlen (part2 secs)) (inode_deallocate_indirect 1 (indirect_block d) (zlen (part2 secs)))) Q s1.
Proof.
  intros [Hf _ _ Hm] Hs1 Hn Ha HQ. destruct (zlen_parts secs) as (_ & L2 & _). unfold group2 in *.
  destruct (123 <? zlen secs) eqn:E1; apply wp_when; intros E; try (exfalso; lia).
  2:{ apply HQ. by rewrite app_nil_r. }
  assert (in_range (store s) (indirect_block d)) as Hr by (apply Hf; left; lia).
  assert (indirect_block d ∉ msecs) as Hnm.
  { apply Hm, elem_of_app. right. unfold meta_sectors. rewrite E1. apply elem_of_app. left. by left. }
  destruct (freed_sector _ _ _ _ Hs1 Hr Hnm) as [Hsec Hr1].
  apply dealloc_level1_wp; [by eapply freed_ok|done|done| |by eapply freed_allocated|lia| |].
  - by apply NoDup_app in Hn as (_ & _ & ?).
  - intros i t Hi. pose proof (zget_range _ _ _ Hi). unfold blocks_at. rewrite Hsec.
    replace i with (123 + i - 123) by lia. apply (owned_blocks s d secs (123 + i) t); [done| |lia].
    unfold part2 in Hi. by rewrite zget_slice in Hi by lia.
  - intros s2 Hs2. apply HQ. by eapply freed_trans.
Qed.

Lemma dealloc_double_wp s d secs s2 (Q : unit -> fs B -> Prop) :
  owned s d secs -> freed s (part1 secs ++ group2 d secs) s2 ->
  (forall s3, freed s ((part1 secs ++ group2 d secs) ++ group3 (store s) d secs) s3 -> Q tt s3) ->
  wp (when (0 <? zlen (part3 secs)) (inode_deallocate_indirect 2 (doubly_indirect_block d) (zlen (part3 secs)))) Q s2.
Proof.
  intros [Hf Hn Ha Hm] Hs2 HQ. destruct (zlen_parts secs) as (_ & _ & L3).
  pose proof (fo_max _ _ _ Hf) as Hmax. rewrite <- groups_perm in Hn, Ha. unfold group3 in *. set (n := zlen secs) in *.
  destruct (251 <? n) eqn:E1; apply wp_when; intros E; try (exfalso; lia).
  2:{ apply HQ. by rewrite app_nil_r. }
  assert (forall t, t ∈ first_level (store s) d n ++ [doubly_indirect_block d] ->
            bs_sector (store s2) t = bs_sector (store s) t /\ in_range (store s2) t /\ t ∉ msecs) as Hin.
  { intros t Ht. assert (t ∈ meta_sectors (store s) d n) as Ht'.
    { unfold meta_sectors. rewrite E1. apply elem_of_app. by right. }
    assert (t ∉ msecs) as Hnm by (apply Hm, elem_of_app; by right).
    apply uses_meta_elem in Ht'; [|exact Hmax].
    destruct (freed_sector _ _ _ t Hs2) as [? ?]; [by apply Hf|done|done]. }
  destruct (Hin (doubly_indirect_block d)) as (Hsec & Hr & Hnm); [apply elem_of_app; right; by left|].
  assert (first_level (store s) d n =
          take (Z.to_nat ((zlen (part3 secs) + 127) / 128)) (blocks_at (store s2) (doubly_indirect_block d))) as Efl.
  { unfold first_level, blocks_at. rewrite Hsec. do 3 f_equal. lia. }
  apply dealloc_level2_wp; rewrite <- ?Efl;
    [by eapply freed_ok|unfold MAX_SECTORS in Hmax; lia| | |by eapply freed_allocated| |].
  - apply Forall_forall. intros t Ht. by destruct (Hin t Ht) as (_ & ? & ?).
  - by apply NoDup_app in Hn as (_ & _ & ?).
  - intros i t Hi. pose proof (zget_range _ _ _ Hi).
    assert (zget secs (251 + i) = Some t) as Hi'.
    { unfold part3 in Hi. rewrite zget_lookup in Hi |- * by lia. rewrite lookup_drop in Hi.
      by replace (Z.to_nat (251 + i)) with (251 + Z.to_nat i)%nat by lia. }
    destruct (owned_blocks s d secs (251 + i) t Hf Hi') as (_ & _ & (f & Hf1 & Hf2)); [lia|].
    replace (251 + i - 251) with i in Hf1, Hf2 by lia.
    assert (zget (first_level (store s) d n) (i / 128) = Some f) as Hff.
    { assert (0 <= i / 128 < (n - 251 + 127) / 128) by (Z.to_euclidean_division_equations; lia).
      unfold first_level. rewrite zget_lookup in Hf1 |- * by lia. by rewrite lookup_take_lt by lia. }
    exists f. split; [done|]. unfold blocks_at.
    destruct (Hin f) as (-> & _); [apply elem_of_app; left; by eapply zget_elem|done].
  - intros s3 Hs3. apply HQ. by eapply freed_trans.
Qed.

(** C22: Functional correctness of inode_deallocate, for files of every
    size the inode can address: it releases each of the file's data
    sectors and indirect sectors exactly once and no other sector, without
    a failed assertion; the free map stays sound and its file the image of
    the bitmap in memory, and no sector outside that file is written. *)
Theorem inode_deallocate_frees s q ip secs :
  free_map_ok s fp fl mip msecs -> inodes s !! q = Some ip -> owned s (data ip) secs ->
  wp (inode_deallocate q) (fun ok s' => ok = true /\ freed s (all_sectors (store s) (data ip) secs) s') s.
Proof.
  intros Hok Hq Ho. pose proof Ho as [Hf Hn Ha _]. set (d := data ip) in *.
  pose proof (fo_max _ _ _ Hf) as Hmax. unfold MAX_SECTORS in Hmax.
  pose proof (groups_perm (store s) d secs) as Hp. destruct (zlen_parts secs) as (L1 & L2 & L3).
  rewrite <- Hp in Hn, Ha. apply NoDup_app in Hn as [Hn12 _].
  assert (allocated (free_map s) (part1 secs ++ group2 d secs)) as Ha12.
  { eapply allocated_sub; [done|]. intros t Ht. apply elem_of_app. by left. }
  assert (Z.min (zlen secs) 123 = zlen (part1 secs) /\ Z.min (zlen secs - zlen (part1 secs)) 128 = zlen (part2 secs) /\
          Z.min (zlen secs - zlen (part1 secs) - zlen (part2 secs)) (128 * 128) = zlen (part3 secs))
    as (M1 & M2 & M3) by lia.
  unfold inode_deallocate. wp_step. eapply get_inode_wp; [done|]. fold d.
  rewrite (proj2 (Z.ltb_ge _ _)) by apply Hf. rewrite <- (fo_count _ _ _ Hf).
  change DIRECT_BLOCKS_COUNT with 123. change INDIRECT_BLOCKS_PER_SECTOR with 128.
  rewrite !min_val, M1, M2, M3, Nat2Z.id. wp_step.
  apply release_direct_wp; [done|by apply NoDup_app in Hn12 as [? _]| | |].
  { eapply allocated_sub; [exact Ha12|]. intros t Ht. apply elem_of_app. by left. }
  { intros i t Hi. pose proof (zget_range _ _ _ Hi). apply (owned_blocks s d secs i t); [done| |lia].
    rewrite (secs_split secs), zget_app. by rewrite bool_decide_eq_true_2 by lia. }
  intros s1 Hs1. wp_step. eapply dealloc_single_wp; [done..|]. intros s2 Hs2.
  wp_step. eapply dealloc_double_wp; [done..|]. intros s3 Hs3.
  wp_step. apply wp_assert; [lia|]. apply wp_ret. split; [done|]. by eapply freed_perm.
Qed.

(* ------------------------------------------------------------------ *)
(** ** Frames                                                          *)
(* ------------------------------------------------------------------ *)

(** What concerns the free map only looks at it, at its file and at that
    file's sectors. *)
Lemma free_map_ok_frame s s' other :
  free_map_ok s fp fl mip msecs -> free_map s' = free_map s -> free_map_file s' = free_map_file s ->
  files s' = files s -> inodes s' !! f_inode fl = Some mip -> changes_only (store s) other (store s') ->
  apart (store s) (data mip) msecs other ->
  free_map_ok s' fp fl mip msecs /\ (on_disk s mip msecs -> on_disk s' mip msecs).
Proof.
  intros [] Em Ef Efs Ei Hb Ha. destruct (file_apart _ _ _ _ _ Hb Ha fm_secs0) as (H1 & H2 & _).
  unfold on_disk. rewrite Em, H2. split; [|done].
  split; try done; [apply Hb|by rewrite Em|by rewrite Em|by rewrite Ef|by rewrite Efs|by rewrite Em].
Qed.

Lemma meta_sectors_changes b b' d n other :
  changes_only b other b' ->
  (251 < n -> in_range b (doubly_indirect_block d) /\ doubly_indirect_block d ∉ other) ->
  meta_sectors b' d n = meta_sectors b d n.
Proof.
  intros Hb Hd. unfold meta_sectors. destruct (251 <? n) eqn:E; [|done]. destruct Hd as [Hr Hn]; [lia|].
  unfold first_level, blocks_at. by rewrite (co_sector _ _ _ Hb).
Qed.

Lemma owned_changes s s' d secs other :
  owned s d secs -> changes_only (store s) other (store s') ->
  (forall t, t ∈ all_sectors (store s) d secs -> t ∉ other) ->
  allocated (free_map s') (all_sectors (store s) d secs) ->
  owned s' d secs /\ all_sectors (store s') d secs = all_sectors (store s) d secs.
Proof.
  intros [Hf Hn _ Hm] Hb Hoff Ha. pose proof (fo_max _ _ _ Hf) as Hmax.
  assert (forall t, uses_meta (store s) d (zlen secs) t -> t ∈ all_sectors (store s) d secs) as Hu.
  { intros t Ht. apply elem_of_app. right. by apply uses_meta_elem. }
  assert (all_sectors (store s') d secs = all_sectors (store s) d secs) as E.
  { unfold all_sectors. f_equal. eapply meta_sectors_changes; [done|]. intros Hlt.
    assert (uses_meta (store s) d (zlen secs) (doubly_indirect_block d)) as Ht by by right; left.
    split; [by apply Hf|]. by apply Hoff, Hu. }
  split; [|done]. split; rewrite ?E; try done.
  eapply file_ok_off_meta; [done| |done]. intros t Ht. by apply Hoff, Hu.
Qed.

(** Closing the last opener of a removed inode. *)
Lemma inode_close_removed_wp s q ip secs (Q : unit -> fs B -> Prop) :
  free_map_ok s fp fl mip msecs -> inodes s !! q = Some ip -> open_cnt ip = 1 -> removed ip = true ->
  q <> f_inode fl -> owned s (data ip) secs -> sector ip ∉ msecs ->
  let all := sector ip :: all_sectors (store s) (data ip) secs in
  NoDup all -> allocated (free_map s) all ->
  (forall m b, changes_only (store s) msecs b -> cleared (free_map s) all m ->
     let s' := set_inodes (delete q (inodes s))
       (set_open_inodes (filter (fun p => p <> q) (open_inodes s)) (set_store b (set_free_map m s))) in
     free_map_ok s' fp fl mip msecs -> on_disk s' mip msecs -> Q tt s') ->
  wp (inode_close (Some q)) Q s.
Proof.
  intros Hok Hq Hcnt Hrem Hne Ho Hsec all Hn Ha HQ. unfold inode_close. wp_step. eapply get_inode_wp; [done|].
  rewrite Hcnt, Hrem. simpl. unfold set_inode. do 5 wp_step.
  set (s1 := set_open_inodes _ _).
  assert (free_map_ok s1 fp fl mip msecs) as Hok1.
  { destruct Hok. split; simpl; try done. by rewrite lookup_insert_ne by done. }
  wp_step. apply release_wp; [done| |].
  { intros t ->%list_elem_of_singleton. apply Ha. by left. }
  intros s2 Hs2. pose proof (freed_ok _ _ _ Hs2) as Hok2.
  assert (owned s2 (data ip) secs /\ all_sectors (store s2) (data ip) secs = all_sectors (store s) (data ip) secs)
    as [Ho2 Eall].
  { pose proof Hs2 as (m & b & -> & Hb & Hc & _). eapply (owned_changes s); [done|exact Hb|apply Ho|].
    eapply allocated_cleared; [exact Hc| |].
    - eapply allocated_sub; [exact Ha|]. intros t Ht. by right.
    - apply NoDup_cons in Hn as [Hn _]. by intros t Ht ->%list_elem_of_singleton. }
  wp_step. eapply wp_mono.
  { eapply (inode_deallocate_frees s2 q (mkInode (sector ip) (1 - 1) true (deny_write_cnt ip) (data ip)));
      [exact Hok2| |exact Ho2].
    rewrite (freed_inodes _ _ _ Hs2). simpl. apply lookup_insert_eq. }
  intros ok s3 [-> Hs3]. apply wp_ret. cbn [data] in Hs3. rewrite Eall in Hs3.
  pose proof (freed_trans _ _ _ _ _ Hs2 Hs3) as (m & b & -> & Hb & Hc & Hok3 & Hd3).
  unfold free_inode. wp_step. specialize (HQ m b Hb Hc). simpl in HQ.
  unfold set_inodes, set_open_inodes, s1 in *. simpl in *. rewrite delete_insert_eq. apply HQ.
  - destruct Hok3. split; simpl in *; try done. rewrite lookup_insert_ne in fm_inode0 by done.
    by rewrite lookup_delete_ne.
  - by apply Hd3; left.
Qed.
End session.
End dealloc.

#[local] Existing Instance Cache.cache_store.

Lemma inode_deallocate_frees_witness :
  wp (inode_deallocate 5) (fun ok s' => ok = true /\
    map (bit (free_map s')) (seqZ 0 8) = [true; true; true; false; false; false; false; false]) (demo_fs [31]).
Proof.
  eapply wp_mono.
  { apply (inode_deallocate_frees 1 (mkFile 2 0 false) demo_map_inode [2] (demo_fs [31]) 5 demo_inode [4; 3]).
    - by apply demo_map_ok, demo_bitmap_wf.
    - done.
    - split; [apply demo_file_ok|apply (bool_decide_unpack _); by vm_compute|apply allocated_dec; by vm_compute|].
      intros t Ht ->%list_elem_of_singleton. revert Ht. apply (bool_decide_unpack _). by vm_compute. }
  intros ok s' (-> & m & b & -> & _ & (_ & _ & Hb) & _). split; [done|].
  simpl seqZ. simpl map. rewrite !Hb. by vm_compute.
Defined.
End Dealloc.
