(* ===== verification/Grow.v ===== *)
(** * Grow: extending a file (inode_reserve of a3/fs/inode.c)

    The sectors of a file hang from its inode in trees of indirect blocks.
    inode_reserve completes the trees with zeroed sectors taken from the
    free map; it takes exactly as many as the new length needs. *)
From S2P Require Import Prelude Bitmap Block Store Cache FsState Inode FileData FreeMap FileProps Dealloc.

Module Grow.
Import Bitmap FsState Inode FileData FreeMap FileProps Dealloc.

(** The number of free sectors, as num_free_sectors counts them. *)
Definition free_count (m : bitmap) : Z := count_bits m (Z.to_nat (bit_cnt m)) 0 false.

(** [m'] is [m] with the free bits [ts] set. *)
Record marked (m : bitmap) (ts : list Z) (m' : bitmap) : Prop := {
  mk_wf : Bitmap.wf m';
  mk_cnt : bit_cnt m' = bit_cnt m;
  mk_nodup : NoDup ts;
  mk_free : forall t, t ∈ ts -> 0 <= t < bit_cnt m /\ bit m t = false;
  mk_bits : forall j, bit m' j = bool_decide (j ∈ ts) || bit m j;
  mk_count : free_count m' = free_count m - zlen ts
}.

Lemma marked_refl m : Bitmap.wf m -> marked m [] m.
Proof.
  intros Hm. split; [done|done|apply NoDup_nil_2|by intros t ?%not_elem_of_nil| |simpl; lia].
  intros j. by rewrite bool_decide_eq_false_2 by apply not_elem_of_nil.
Qed.
Lemma marked_trans m1 ts m2 us m3 : marked m1 ts m2 -> marked m2 us m3 -> marked m1 (ts ++ us) m3.
Proof.
  intros [W1 C1 N1 F1 B1 K1] [W2 C2 N2 F2 B2 K2]. split; [done|congruence| | | |].
  - apply NoDup_app. split_and!; [done| |done]. intros t Ht Hu. destruct (F2 t Hu) as [_ Hb].
    rewrite B1, bool_decide_eq_true_2 in Hb by done. done.
  - intros t [Ht|Ht]%elem_of_app; [by apply F1|]. destruct (F2 t Ht) as [Hr Hb]. rewrite C1 in Hr. split; [done|].
    rewrite B1 in Hb. by destruct (bit m1 t); [rewrite orb_true_r in Hb|].
  - intros j. rewrite B2, B1, (bool_decide_ext (j ∈ ts ++ us) (j ∈ ts \/ j ∈ us)) by apply elem_of_app.
    destruct (bit m1 j); repeat case_bool_decide; naive_solver.
  - rewrite zlen_app. lia.
Qed.

Lemma marked_one m r m' :
  Bitmap.wf m -> 0 <= r < bit_cnt m -> bit m r = false -> range_set m r 1 true m' -> marked m [r] m'.
Proof.
  intros Hw Hr Hb Hm. pose proof Hm as (Hw' & Hc & Hbits). destruct Hw as [Hcnt _ _].
  split; [done|done|apply NoDup_singleton| | |].
  - by intros t ->%list_elem_of_singleton.
  - intros k. rewrite Hbits, (bool_decide_ext (r <= k < r + 1) (k ∈ [r])).
    + by case_bool_decide.
    + rewrite list_elem_of_singleton. lia.
  - unfold free_count. erewrite (count_bits_range_set m m' r 1 false); [done|lia..| |done].
    intros j Hj. by replace j with r by lia.
Qed.
Lemma marked_keep m ts m' k : marked m ts m' -> bit m k = true -> bit m' k = true.
Proof. intros Hm Hk. by rewrite (mk_bits _ _ _ Hm), Hk, orb_true_r. Qed.

(** A positive count means a free sector. *)
Lemma free_exists m : 0 < free_count m -> exists j, 0 <= j < bit_cnt m /\ bit m j = false.
Proof.
  intros Hc. destruct (decide (Exists (fun j => bit m j = false) (seqZ 0 (bit_cnt m)))) as [E|E].
  - apply Exists_exists in E as (j & Hj%elem_of_seqZ & Hb). exists j. split; [lia|done].
  - exfalso. unfold free_count in Hc. rewrite count_bits_norun in Hc; [lia|]. intros j Hj. simpl.
    destruct (bit m j) eqn:Eb; [done|]. exfalso. apply E, Exists_exists. exists j.
    split; [apply elem_of_seqZ; lia|done].
Qed.

(** Looking for one free sector finds one. *)
Lemma first_run_free m r :
  Bitmap.wf m -> 0 < free_count m -> first_run m 0 1 false r ->
  r <> BITMAP_ERROR /\ 0 <= r < bit_cnt m /\ bit m r = false.
Proof.
  intros [Hcnt _ _] Hc Hr. destruct (free_exists _ Hc) as (j & Hj & Hbit).
  destruct Hr as [(H1 & H2 & H3 & _)|[_ Hno]].
  - unfold BITMAP_ERROR in *. split_and!; [lia..|apply H3; lia].
  - exfalso. apply (Hno j); [lia..|]. intros i Hi. by replace i with j by lia.
Qed.

(* ------------------------------------------------------------------ *)
(** ** Trees of sectors                                                *)
(* ------------------------------------------------------------------ *)

(** The data sectors below an entry of each level. *)
Definition cap (level : nat) : Z := match level with O => 1 | 1%nat => 128 | _ => 128 * 128 end.

(** What is left for entry [i] of a block when [n] sectors are below it. *)
Definition share (level : nat) (n i : Z) : Z := Z.max 0 (Z.min (cap level) (n - cap level * i)).

(** The sectors of a tree with [n] data sectors, and of the first [i]
    subtrees of a block. *)
Definition nodes_for (level : nat) (n : Z) : Z :=
  match level with
  | O => n
  | 1%nat => if 0 <? n then n + 1 else 0
  | _ => if 0 <? n then n + 1 + (n + 127) / 128 else 0
  end.
Definition nodes_upto (level : nat) (i n : Z) : Z :=
  match level with
  | O => Z.min n i
  | _ => Z.min n (128 * i) + Z.min i ((n + 127) / 128)
  end.

Lemma nodes_upto_next level i n : (level <= 1)%nat -> 0 <= i -> 0 <= n ->
  nodes_upto level (i + 1) n = nodes_upto level i n + nodes_for level (share level n i).
Proof.
  intros Hl Hi Hn. destruct level as [|[|level]]; [| |lia]; unfold nodes_upto, nodes_for, share, cap; [lia|].
  case_match; Z.to_euclidean_division_equations; lia.
Qed.
Lemma nodes_for_upto level i n : (level <= 1)%nat -> 0 < n <= cap level * i ->
  nodes_for (S level) n = 1 + nodes_upto level i n.
Proof.
  intros Hl Hn. destruct level as [|[|level]]; [| |lia]; unfold nodes_upto, nodes_for, cap in *;
    (case_match; [|lia]); Z.to_euclidean_division_equations; lia.
Qed.
Lemma nodes_upto_mono level i k m n : (level <= 1)%nat -> 0 <= i <= k -> 0 <= m <= n ->
  nodes_upto level i n - nodes_upto level i m <= nodes_upto level k n - nodes_upto level k m.
Proof.
  intros Hl Hi Hm. destruct level as [|[|level]]; [| |lia]; unfold nodes_upto; [lia|].
  assert ((m + 127) / 128 <= (n + 127) / 128) by (apply Z.div_le_mono; lia). lia.
Qed.
Lemma nodes_upto_0 level n : (level <= 1)%nat -> 0 <= n -> nodes_upto level 0 n = 0.
Proof.
  intros Hl Hn. destruct level as [|[|level]]; [| |lia]; unfold nodes_upto; [lia|].
  Z.to_euclidean_division_equations; lia.
Qed.
Lemma nodes_upto_nil level i : 0 <= i -> nodes_upto level i 0 = 0.
Proof. intros Hi. destruct level as [|level]; unfold nodes_upto; change ((0 + 127) / 128) with 0; lia. Qed.
Lemma nodes_for_0 level : nodes_for level 0 = 0.
Proof. by destruct level as [|[|level]]. Qed.
Lemma cap_pos level : 0 < cap level.
Proof. by destruct level as [|[|level]]. Qed.

Section grow.
Context {B : Type} `{!BlockStore B}.
Implicit Types (b : B) (s : fs B) (d : inode_disk).

(** The data sectors below the entry [e] are [secs], packed to the left. *)
Fixpoint tree b (level : nat) (e : Z) (secs : list Z) : Prop :=
  if e =? 0 then secs = [] else
  match level with
  | O => secs = [e]
  | S l => secs <> [] /\ zlen secs <= cap level /\
      forall i x, zget (blocks_at b e) i = Some x -> tree b l x (slice secs (cap l * i) (cap l))
  end.
(** The indirect sectors of the tree. *)
Fixpoint inner b (level : nat) (e : Z) : list Z :=
  match level with
  | O => []
  | S l => if e =? 0 then [] else e :: concat (map (inner b l) (blocks_at b e))
  end.
(** The same for the entries [xs] of a block. *)
Definition forest b (level : nat) (xs secs : list Z) : Prop :=
  forall i x, zget xs i = Some x -> tree b level x (slice secs (cap level * i) (cap level)).
Definition inners b (level : nat) (xs : list Z) : list Z := concat (map (inner b level) xs).

#[global] Arguments tree : simpl never.
#[global] Arguments inner : simpl never.
Lemma tree_O b e secs : tree b 0 e secs = if e =? 0 then secs = [] else secs = [e].
Proof. done. Qed.
Lemma tree_S b l e secs : tree b (S l) e secs = if e =? 0 then secs = [] else
  (secs <> [] /\ zlen secs <= cap (S l) /\ forest b l (blocks_at b e) secs).
Proof. done. Qed.
Lemma inner_O b e : inner b 0 e = [].
Proof. done. Qed.
Lemma inner_S b l e : inner b (S l) e = if e =? 0 then [] else e :: inners b l (blocks_at b e).
Proof. done. Qed.
Lemma tree_zero b level secs : tree b level 0 secs <-> secs = [].
Proof. by destruct level. Qed.
Lemma inner_zero b level : inner b level 0 = [].
Proof. by destruct level. Qed.
#[global] Opaque tree inner.

Lemma tree_zlen b level e secs : tree b level e secs -> zlen secs <= cap level.
Proof.
  pose proof (cap_pos level). destruct level; rewrite ?tree_O, ?tree_S; case_match; intros H'; [subst; cbn [length]; lia..|].
  apply H'.
Qed.
Lemma tree_nonzero b level e secs : tree b level e secs -> secs <> [] -> e <> 0.
Proof. intros Ht Hs ->. by apply tree_zero in Ht. Qed.

Lemma tree_nil b level e : tree b level e [] -> e = 0.
Proof. destruct level; rewrite ?tree_O, ?tree_S; case_match; intros H'; [lia|done|lia|by destruct H']. Qed.

(** A tree's root is one of its sectors. *)
Lemma tree_root b level e secs : tree b level e secs -> e <> 0 -> e ∈ secs ++ inner b level e.
Proof.
  intros Ht He. rewrite elem_of_app. destruct level; rewrite ?tree_O, ?inner_S in *;
    rewrite (proj2 (Z.eqb_neq _ _)) in * by done; [subst; left|right]; by left.
Qed.

Lemma elem_inners b level xs t : t ∈ inners b level xs <-> exists x, x ∈ xs /\ t ∈ inner b level x.
Proof.
  unfold inners. rewrite list_elem_of_In, in_concat. setoid_rewrite in_map_iff.
  setoid_rewrite <- list_elem_of_In. naive_solver.
Qed.
Lemma inners_O b xs : inners b 0 xs = [].
Proof. by induction xs. Qed.
Lemma inners_app b level xs ys : inners b level (xs ++ ys) = inners b level xs ++ inners b level ys.
Proof. unfold inners. by rewrite map_app, concat_app. Qed.
Lemma inners_cons b level x xs : inners b level (x :: xs) = inner b level x ++ inners b level xs.
Proof. done. Qed.

(** A tree depends on its indirect sectors only. *)
Lemma inners_frame_of b b' level xs :
  (forall e, (forall t, t ∈ inner b level e -> bs_sector b' t = bs_sector b t) -> inner b' level e = inner b level e) ->
  (forall t, t ∈ inners b level xs -> bs_sector b' t = bs_sector b t) -> inners b' level xs = inners b level xs.
Proof.
  intros IH Hb. unfold inners. f_equal. apply map_ext_in. intros x Hx%list_elem_of_In. apply IH.
  intros t Ht. apply Hb, elem_inners. by exists x.
Qed.
Lemma blocks_at_frame b b' e : bs_sector b' e = bs_sector b e -> blocks_at b' e = blocks_at b e.
Proof. unfold blocks_at. by intros ->. Qed.
Lemma inner_frame b b' level : forall e,
  (forall t, t ∈ inner b level e -> bs_sector b' t = bs_sector b t) -> inner b' level e = inner b level e.
Proof.
  induction level as [|level IH]; intros e; [by rewrite !inner_O|]. rewrite !inner_S. destruct (e =? 0); [done|].
  intros Hb. rewrite (blocks_at_frame b b') by by apply Hb; left. f_equal.
  apply inners_frame_of; [done|]. intros t Ht. apply Hb. by right.
Qed.
Lemma inners_frame b b' level xs :
  (forall t, t ∈ inners b level xs -> bs_sector b' t = bs_sector b t) -> inners b' level xs = inners b level xs.
Proof. apply inners_frame_of, inner_frame. Qed.
Lemma tree_frame b b' level : forall e secs,
  (forall t, t ∈ inner b level e -> bs_sector b' t = bs_sector b t) -> tree b level e secs -> tree b' level e secs.
Proof.
  induction level as [|level IH]; intros e secs; [by rewrite !tree_O|]. rewrite !tree_S, !inner_S.
  destruct (e =? 0); [done|]. intros Hb (H1 & H2 & H3). split_and!; [done..|].
  rewrite (blocks_at_frame b b') by by apply Hb; left. intros i x Hx. apply IH; [|by apply H3].
  intros t Ht. apply Hb. right. apply elem_inners. exists x. split; [by eapply zget_elem|done].
Qed.

(** The free map's file is fixed. *)
Section session.
Context (fp : loc) (fl : file) (mip : inode) (msecs : list Z).

Definition map_meta s (t : Z) : Prop := uses_meta (store s) (data mip) (zlen msecs) t.

(** A state in which the sectors of the free map's file, its indirect
    ones too, and the sector of its inode are not free. *)
Record ground s : Prop := {
  gr_map : free_map_ok s fp fl mip msecs;
  gr_bits : bit_cnt (free_map s) <= bs_size (store s);
  gr_zero : bit (free_map s) FREE_MAP_SECTOR = true;
  gr_secs : forall t, t ∈ msecs -> bit (free_map s) t = true;
  gr_metas : forall t, map_meta s t -> bit (free_map s) t = true
}.

(** Sectors that are allocated, and not to the free map. *)
Record mine s (ts : list Z) : Prop := {
  mi_allocated : allocated (free_map s) ts;
  mi_apart : forall t, t ∈ ts -> t <> 0 /\ t ∉ msecs /\ ~ map_meta s t
}.

(** The state after the sectors [news] were taken from the free map, when
    only they, the sectors [ws] and the free map's were written. *)
Definition grown s (news ws : list Z) s' : Prop :=
  exists m b, s' = set_store b (set_free_map m s) /\ changes_only (store s) (msecs ++ news ++ ws) b /\
    marked (free_map s) news m /\ ground s' /\ (forall t, map_meta s' t <-> map_meta s t) /\
    (news <> [] \/ on_disk s mip msecs -> on_disk s' mip msecs).

Lemma grown_ground s news ws s' : grown s news ws s' -> ground s'.
Proof. by intros (m & b & _ & _ & _ & H & _). Qed.
Lemma grown_count s news ws s' : grown s news ws s' -> free_count (free_map s') = free_count (free_map s) - zlen news.
Proof. intros (m & b & -> & _ & Hm & _). apply Hm. Qed.
Lemma grown_bits s news ws s' : grown s news ws s' ->
  bit_cnt (free_map s') = bit_cnt (free_map s) /\ forall j, bit (free_map s) j = true -> bit (free_map s') j = true.
Proof.
  intros (m & b & -> & _ & Hm & _). split; [apply Hm|]. intros j Hj. simpl. by rewrite (mk_bits _ _ _ Hm), Hj, orb_true_r.
Qed.
Lemma grown_size s news ws s' : grown s news ws s' -> bs_size (store s') = bs_size (store s).
Proof. intros (m & b & -> & Hb & _). apply Hb. Qed.
Lemma grown_inodes s news ws s' : grown s news ws s' -> inodes s' = inodes s /\ files s' = files s.
Proof. by intros (m & b & -> & _). Qed.
Lemma grown_news s news ws s' t :
  grown s news ws s' -> t ∈ news -> 0 <= t < bit_cnt (free_map s) /\ bit (free_map s) t = false.
Proof. intros (m & b & _ & _ & Hm & _). apply Hm. Qed.
Lemma grown_nodup s news ws s' : grown s news ws s' -> NoDup news.
Proof. intros (m & b & _ & _ & Hm & _). apply Hm. Qed.

Lemma grown_refl s : ground s -> grown s [] [] s.
Proof.
  intros Hg. pose proof (gr_map _ Hg) as Hok. exists (free_map s), (store s).
  split_and!; [by destruct s|apply changes_only_refl, Hok|apply marked_refl, Hok|done|done|naive_solver].
Qed.

Lemma grown_trans s n1 w1 s1 n2 w2 s2 ws :
  grown s n1 w1 s1 -> grown s1 n2 w2 s2 ->
  (forall t, t ∈ w1 -> t ∈ ws) -> (forall t, t ∈ w2 -> t ∈ n1 ++ ws) -> grown s (n1 ++ n2) ws s2.
Proof.
  intros (m1 & b1 & -> & Hb1 & Hm1 & Hg1 & Hu1 & Hd1) (m2 & b2 & -> & Hb2 & Hm2 & Hg2 & Hu2 & Hd2) H1 H2.
  exists m2, b2. split_and!; [done| |by eapply marked_trans|done| |].
  - eapply changes_only_trans; (eapply changes_only_mono; [eassumption|]); intros t; rewrite !elem_of_app.
    + naive_solver.
    + specialize (H2 t). rewrite elem_of_app in H2. naive_solver.
  - intros t. by rewrite Hu2.
  - intros H. apply Hd2. destruct n2; [right|by left]. apply Hd1. by rewrite app_nil_r in H.
Qed.

Lemma grown_weaken s news ws s' ws' : grown s news ws s' -> (forall t, t ∈ ws -> t ∈ ws') -> grown s news ws' s'.
Proof.
  intros (m & b & -> & Hb & H) Hw. exists m, b. split; [done|]. split; [|done]. eapply changes_only_mono; [exact Hb|].
  intros t. rewrite !elem_of_app. naive_solver.
Qed.
Lemma mine_range s ts t : ground s -> mine s ts -> t ∈ ts -> in_range (store s) t.
Proof. intros Hg [Ha _] Ht. destruct (Ha t Ht) as [Hr _]. pose proof (gr_bits _ Hg). unfold in_range. lia. Qed.
Lemma mine_sub s ts us : mine s us -> (forall t, t ∈ ts -> t ∈ us) -> mine s ts.
Proof. intros [Ha Hp] Hs. split; [by eapply allocated_sub|]. intros t Ht. by apply Hp, Hs. Qed.
Lemma mine_app s ts us : mine s (ts ++ us) <-> mine s ts /\ mine s us.
Proof.
  split.
  - intros H. split; (eapply mine_sub; [exact H|]); intros t Ht; apply elem_of_app; auto.
  - intros [[A1 P1] [A2 P2]]. split; intros t [Ht|Ht]%elem_of_app; auto.
Qed.

Lemma grown_mine s news ws s' ts : grown s news ws s' -> mine s ts -> mine s' ts.
Proof.
  intros (m & b & -> & _ & Hm & _ & Hu & _) [Ha Hp]. split; intros t Ht.
  - destruct (Ha t Ht) as [Hr Hb]. simpl. rewrite (mk_cnt _ _ _ Hm), (mk_bits _ _ _ Hm), Hb, orb_true_r. done.
  - rewrite Hu. by apply Hp.
Qed.
(** What was taken is the taker's. *)
Lemma grown_mine_news s news ws s' : ground s -> grown s news ws s' -> mine s' news.
Proof.
  intros Hg (m & b & -> & _ & Hm & _ & Hu & _). split; intros t Ht; destruct (mk_free _ _ _ Hm t Ht) as [Hr Hb].
  - simpl. rewrite (mk_cnt _ _ _ Hm), (mk_bits _ _ _ Hm), bool_decide_eq_true_2 by done. done.
  - split_and!.
    + intros ->. pose proof (gr_zero _ Hg) as H0. unfold FREE_MAP_SECTOR in H0. congruence.
    + intros Hin. pose proof (gr_secs _ Hg t Hin). congruence.
    + rewrite Hu. intros Hin. pose proof (gr_metas _ Hg t Hin). congruence.
Qed.
Lemma grown_new_old s news ws s' ts t : grown s news ws s' -> mine s ts -> t ∈ news -> t ∉ ts.
Proof. intros Hn [Ha _] Ht Hs. destruct (grown_news _ _ _ _ _ Hn Ht), (Ha t Hs). congruence. Qed.

(** A sector that is neither the free map's nor written is as it was. *)
Lemma grown_sector s news ws s' t :
  ground s -> grown s news ws s' -> mine s [t] -> t ∉ ws -> bs_sector (store s') t = bs_sector (store s) t.
Proof.
  intros Hg Hs Hm Hw. assert (t ∈ [t]) as Hin by by left.
  pose proof (mine_range _ _ _ Hg Hm Hin) as Hr.
  assert (t ∉ news) as Hn by (intros Ht; by eapply (grown_new_old s news ws s' [t] t)).
  destruct Hs as (m & b & -> & Hb & _), Hm as [_ Hp]. destruct (Hp t Hin) as (_ & Hms & _).
  apply (co_sector _ _ _ Hb); [done|]. rewrite !not_elem_of_app. done.
Qed.

(* ------------------------------------------------------------------ *)
(** ** The steps                                                       *)
(* ------------------------------------------------------------------ *)

(** Writing sectors of one's own. *)
Lemma grown_store s ws b :
  ground s -> mine s ws -> changes_only (store s) ws b -> grown s [] ws (set_store b s).
Proof.
  intros Hg [_ Hp] Hb. pose proof (gr_map _ Hg) as Hok.
  assert (forall t, map_meta s t -> in_range (store s) t /\ t ∉ ws) as Hmeta.
  { intros t Ht. split; [by apply (fo_meta _ _ _ (fm_secs _ _ _ _ _ Hok))|]. intros Hw.
    by destruct (Hp t Hw) as (_ & _ & ?). }
  assert (forall t, map_meta (set_store b s) t <-> map_meta s t) as Hu.
  { intros t. by eapply uses_meta_changes. }
  destruct (free_map_ok_frame fp fl mip msecs s (set_store b s) ws) as [Hok' Hd]; try done.
  { apply Hok. }
  { split; [|intros t Ht; by apply Hmeta]. intros t Ht Hw. by destruct (Hp t Hw) as (_ & ? & _). }
  exists (free_map s), b. split_and!; [by destruct s| |apply marked_refl, Hok| |done|].
  - eapply changes_only_mono; [exact Hb|]. intros t Ht. apply elem_of_app. by right.
  - destruct Hg. split; simpl; [done| |done|done|]; [by rewrite (co_size _ _ _ Hb)|]. intros t Ht%Hu. by apply gr_metas0.
  - intros [?|?]; [done|by apply Hd].
Qed.

Lemma read_own_wp s t (Q : list Z -> fs B -> Prop) :
  ground s -> in_range (store s) t ->
  (forall s', grown s [] [] s' -> (forall u, in_range (store s) u -> bs_sector (store s') u = bs_sector (store s) u) ->
     Q (bs_sector (store s) t) s') ->
  wp (cache_read t) Q s.
Proof.
  intros Hg Hr HQ. apply cache_read_wp; [apply (gr_map _ Hg)|done|]. intros b Hb. apply HQ; [|by apply Hb].
  apply grown_store; [done| |by apply same_changes_only]. split; by intros u ?%not_elem_of_nil.
Qed.
Lemma write_own_wp s t buf (Q : unit -> fs B -> Prop) :
  ground s -> mine s [t] -> zlen buf = 512 -> Forall is_u8 buf ->
  (forall s', grown s [] [t] s' -> bs_sector (store s') t = buf -> Q tt s') ->
  wp (cache_write t buf) Q s.
Proof.
  intros Hg Hm Hl Hu HQ. apply cache_write_wp; [apply (gr_map _ Hg)| |done|done|].
  { eapply mine_range; [done|done|by left]. }
  intros b Hb Hs. apply HQ; [by apply grown_store|done].
Qed.

Lemma allocate_wp f s (Q : option Z -> fs B -> Prop) :
  ground s -> 0 < free_count (free_map s) ->
  (forall t s', grown s [t] [] s' -> Q (Some t) s') ->
  wp (free_map_allocate (inode_write_at_fuel (S f)) 1) Q s.
Proof.
  intros Hg Hc HQ. pose proof (gr_map _ Hg) as Hok. pose proof (fm_wf _ _ _ _ _ Hok) as Hwf.
  eapply free_map_allocate_wp; [done|lia| |].
  - intros Hr. by destruct (first_run_free _ _ Hwf Hc Hr).
  - intros r m b Hr Hne Hm Hb Hok' Hd. destruct (first_run_free _ _ Hwf Hc Hr) as (_ & H1 & H2).
    pose proof (marked_one _ _ _ Hwf H1 H2 Hm) as Hmk.
    assert (forall t, map_meta (set_store b (set_free_map m s)) t <-> map_meta s t) as Hu.
    { intros t. eapply uses_meta_changes; [exact Hb|]. intros u Hu. apply (fo_meta _ _ _ (fm_secs _ _ _ _ _ Hok) _ Hu). }
    apply HQ. exists m, b. split_and!; [done| |exact Hmk| |done|intros _; exact Hd].
    + eapply changes_only_mono; [exact Hb|]. intros t Ht. apply elem_of_app. by left.
    + destruct Hg, Hm as (_ & Hc' & _).
      split; simpl; [done|by rewrite Hc', (co_size _ _ _ Hb)|by eapply marked_keep| |];
        [intros t Ht; eapply marked_keep; [exact Hmk|by apply gr_secs0]|].
      intros t Ht%Hu. eapply marked_keep; [exact Hmk|by apply gr_metas0].
Qed.

(** Taking a sector and clearing it. *)
Lemma zeros_ok : zlen zeros = 512 /\ Forall is_u8 zeros.
Proof. split; [done|]. by apply Forall_replicate. Qed.
Lemma claim_wp s t s1 (Q : unit -> fs B -> Prop) :
  ground s -> grown s [t] [] s1 ->
  (forall s', grown s [t] [] s' -> bs_sector (store s') t = zeros -> Q tt s') ->
  wp (cache_write t zeros) Q s1.
Proof.
  intros Hg Hs HQ. destruct zeros_ok as [Hl Hu].
  apply write_own_wp; [by eapply grown_ground|by eapply grown_mine_news|done|done|]. intros s2 Hs2 Hz.
  apply HQ; [|done]. rewrite <- (app_nil_r [t]). eapply grown_trans; [exact Hs|exact Hs2|done|].
  intros u Hu'. by rewrite app_nil_r.
Qed.

(* ------------------------------------------------------------------ *)
(** ** Growing the entries of a block, one after the other             *)
(* ------------------------------------------------------------------ *)

(** The tree of [e] grew from [secs] to [n] data sectors, [fresh] the new
    ones, at the cost of [news]. *)
Record grew s (level : nat) (e : Z) (secs : list Z) (n e' : Z) (fresh news : list Z) s' : Prop := {
  gw_grown : grown s news (inner (store s) level e) s';
  gw_tree : tree (store s') level e' (secs ++ fresh);
  gw_len : zlen (secs ++ fresh) = n;
  gw_perm : fresh ++ inner (store s') level e' ≡ₚ inner (store s) level e ++ news;
  gw_count : zlen news = nodes_for level n - nodes_for level (zlen secs);
  gw_zero : forall t, t ∈ fresh -> bs_sector (store s') t = zeros
}.

(** What a function that grows trees of one level does. *)
Definition grows (level : nat) (child : Z -> Z -> M (fs B) (bool * Z)) : Prop :=
  forall s e secs n (Q : bool * Z -> fs B -> Prop),
    ground s -> mine s (secs ++ inner (store s) level e) -> NoDup (secs ++ inner (store s) level e) ->
    tree (store s) level e secs -> zlen secs <= n <= cap level -> 0 < n ->
    nodes_for level n - nodes_for level (zlen secs) <= free_count (free_map s) ->
    (forall e' fresh news s', grew s level e secs n e' fresh news s' -> Q (true, e') s') ->
    wp (child e n) Q s.

(** The entries before [i] have grown to their shares of [n]. *)
Record forest_grew s (level : nat) (xs secs : list Z) (n i : Z) (ys fresh news : list Z) s' : Prop := {
  fg_grown : grown s news (inners (store s) level (take (Z.to_nat i) xs)) s';
  fg_len : zlen ys = zlen xs;
  fg_rest : forall j, i <= j -> zget ys j = zget xs j;
  fg_done : forall j y, j < i -> zget ys j = Some y ->
    tree (store s') level y
      (slice (take (Z.to_nat (cap level * i)) secs ++ fresh) (cap level * j) (cap level));
  fg_acc : zlen (take (Z.to_nat (cap level * i)) secs ++ fresh) = Z.min n (cap level * i);
  fg_perm : inners (store s') level ys ++ fresh ≡ₚ inners (store s) level xs ++ news;
  fg_count : zlen news = nodes_upto level i n - nodes_upto level i (zlen secs);
  fg_zero : forall t, t ∈ fresh -> bs_sector (store s') t = zeros
}.

Lemma forest_grew_0 s level xs secs n :
  ground s -> (level <= 1)%nat -> 0 <= n -> forest_grew s level xs secs n 0 xs [] [] s.
Proof.
  intros Hg Hl Hn. rewrite <- (app_nil_r xs) at 2.
  split; rewrite ?Z.mul_0_r, ?app_nil_r; try done.
  - by apply grown_refl.
  - intros j y Hj Hy%zget_range. lia.
  - simpl. lia.
  - rewrite !nodes_upto_0 by lia. done.
  - by intros t ?%not_elem_of_nil.
Qed.

Lemma forest_part level (secs : list Z) (i : Z) : 0 <= i ->
  zlen (slice secs (cap level * i) (cap level)) = share level (zlen secs) i /\
  take (Z.to_nat (cap level * (i + 1))) secs
  = take (Z.to_nat (cap level * i)) secs ++ slice secs (cap level * i) (cap level).
Proof.
  intros Hi. pose proof (cap_pos level). assert (0 <= cap level * i) by nia. split.
  - rewrite zlen_slice_min by lia. unfold share. lia.
  - unfold slice. rewrite Z.mul_add_distr_l, Z.mul_1_r, Z2Nat.inj_add by lia. symmetry. apply take_take_drop.
Qed.

Section forest.
Context (s : fs B) (level : nat) (xs secs : list Z) (n : Z).
Context (Hg : ground s) (Hmine : mine s (secs ++ inners (store s) level xs)).
Context (Hnodup : NoDup (secs ++ inners (store s) level xs)).
Context (Hforest : forest (store s) level xs secs) (Hle : zlen secs <= n) (Hlevel : (level <= 1)%nat).

(** The sectors in use on the way. *)
Lemma forest_state i ys fresh news s' :
  forest_grew s level xs secs n i ys fresh news s' ->
  let all := (secs ++ fresh) ++ inners (store s') level ys in
  all ≡ₚ (secs ++ inners (store s) level xs) ++ news /\ NoDup all /\ mine s' all /\ ground s'.
Proof using Hg Hmine Hnodup.
  intros [Hs _ _ _ _ Hp _ _] all.
  assert (all ≡ₚ (secs ++ inners (store s) level xs) ++ news) as Hall.
  { unfold all. rewrite <- !app_assoc, <- Hp. apply Permutation_app_head, Permutation_app_comm. }
  split_and!; [done| | |by eapply grown_ground].
  - rewrite Hall. apply NoDup_app. split_and!; [done| |by eapply grown_nodup].
    intros t Ht Hn. by eapply (grown_new_old s news).
  - eapply mine_sub; [|intros t Ht; rewrite Hall in Ht; exact Ht]. apply mine_app. split.
    + by eapply grown_mine.
    + by eapply grown_mine_news.
Qed.

(** The next entry is still as it was. *)
Lemma forest_entry i x ys fresh news s' :
  forest_grew s level xs secs n i ys fresh news s' -> 0 <= i -> zget xs i = Some x ->
  let part := slice secs (cap level * i) (cap level) in
  zget ys i = Some x /\ inner (store s') level x = inner (store s) level x /\
  tree (store s') level x part /\ mine s' (part ++ inner (store s') level x) /\
  NoDup (part ++ inner (store s') level x).
Proof using Hg Hmine Hnodup Hforest.
  intros Hf Hi Hx part. destruct (forest_state _ _ _ _ _ Hf) as (_ & Hn & Hm & _).
  destruct Hf as [Hs _ Hrest _ _ _ _ _].
  assert (zget ys i = Some x) as Hy by by rewrite Hrest.
  assert (forall t, t ∈ inner (store s) level x -> bs_sector (store s') t = bs_sector (store s) t) as Hb.
  { intros t Ht. rewrite zget_lookup in Hx by done.
    rewrite <- (take_drop_middle _ _ _ Hx), inners_app, inners_cons in Hnodup, Hmine.
    eapply grown_sector; [done|exact Hs| |].
    - eapply mine_sub; [exact Hmine|]. intros u ->%list_elem_of_singleton. rewrite !elem_of_app. auto.
    - intros Hin. apply NoDup_app in Hnodup as (_ & _ & Hn'). apply NoDup_app in Hn' as (_ & Hd & _).
      apply (Hd t Hin). apply elem_of_app. by left. }
  pose proof (inner_frame _ _ _ _ Hb) as E.
  assert (part ++ inner (store s') level x `sublist_of` (secs ++ fresh) ++ inners (store s') level ys) as Hsub.
  { apply sublist_app.
    - apply sublist_inserts_r. unfold part, slice. etrans; [apply sublist_take|apply sublist_drop].
    - rewrite zget_lookup in Hy by done. rewrite <- (take_drop_middle _ _ _ Hy), inners_app, inners_cons.
      apply sublist_inserts_l, sublist_inserts_r. done. }
  split_and!; [done|done|eapply tree_frame; [done|by apply Hforest]| |by eapply sublist_NoDup].
  eapply mine_sub; [exact Hm|]. intros t Ht. by eapply elem_of_sublist.
Qed.

(** What was gathered so far, with the next share. *)
Lemma forest_acc i ys fresh news s' (fr : list Z) :
  forest_grew s level xs secs n i ys fresh news s' -> 0 <= i ->
  zlen (slice secs (cap level * i) (cap level) ++ fr) = share level n i ->
  let acc := take (Z.to_nat (cap level * i)) secs ++ fresh in
  let r := slice secs (cap level * i) (cap level) ++ fr in
  take (Z.to_nat (cap level * (i + 1))) secs ++ fresh ++ fr = acc ++ r /\
  slice (acc ++ r) (cap level * i) (cap level) = r /\
  (forall j, 0 <= j < i -> slice (acc ++ r) (cap level * j) (cap level) = slice acc (cap level * j) (cap level)) /\
  zlen (acc ++ r) = Z.min n (cap level * (i + 1)).
Proof using Hle Hlevel.
  intros Hf Hi Hr acc r. pose proof (cap_pos level) as Hc. destruct (forest_part level secs i Hi) as [Hp Ht].
  pose proof (fg_acc _ _ _ _ _ _ _ _ _ _ Hf) as Hacc. fold acc in Hacc. set (c := cap level) in *.
  fold r in Hr. unfold share in Hr. fold c in Hr.
  assert (zlen acc = c * i \/ (zlen acc <= c * i /\ r = [])) as Hcase.
  { destruct (decide (n <= c * i)); [right|left; lia]. split; [lia|]. apply nil_length_inv. lia. }
  split_and!.
  - rewrite Ht. unfold acc, r. rewrite <- !app_assoc. f_equal.
    destruct (slice secs (c * i) c) as [|y part] eqn:E; [done|].
    assert (fresh = []) as ->; [|done]. apply nil_length_inv. unfold acc in Hacc. rewrite zlen_app in Hacc.
    simpl in Hp. unfold share in Hp. fold c in Hp. rewrite length_take in Hacc. lia.
  - destruct Hcase as [E|[E ->]].
    + unfold slice. rewrite <- E, Nat2Z.id, drop_app_length. apply take_ge. unfold c in *. lia.
    + rewrite app_nil_r. unfold slice. rewrite drop_ge by lia. apply take_nil.
  - intros j Hj. destruct Hcase as [E|[E ->]]; [|by rewrite app_nil_r].
    assert (c * j + c <= c * i) by nia. unfold slice. rewrite drop_app_le by lia.
    apply take_app_le. rewrite length_drop. lia.
  - rewrite zlen_app. nia.
Qed.

Lemma forest_next i x ys fresh news s' e' fr nw s'' :
  forest_grew s level xs secs n i ys fresh news s' -> 0 <= i -> zget xs i = Some x ->
  grew s' level x (slice secs (cap level * i) (cap level)) (share level n i) e' fr nw s'' ->
  forest_grew s level xs secs n (i + 1) (<[Z.to_nat i := e']> ys) (fresh ++ fr) (news ++ nw) s''.
Proof using Hg Hmine Hnodup Hforest Hle Hlevel.
  intros Hf Hi Hx Hw. destruct (forest_entry _ _ _ _ _ _ Hf Hi Hx) as (Hy & Ein & _ & _ & _).
  destruct (forest_state _ _ _ _ _ Hf) as (_ & Hn & Hm & Hg').
  destruct (forest_acc _ _ _ _ _ fr Hf Hi (gw_len _ _ _ _ _ _ _ _ _ Hw)) as (E1 & E2 & E3 & E4).
  destruct (forest_part level secs i Hi) as [Hp _].
  destruct Hf as [Hs Hlen Hrest Hdone Hacc Hperm Hcount Hzero], Hw as [Ws Wt Wl Wp Wc Wz].
  rewrite zget_lookup in Hx, Hy by done. pose proof (lookup_lt_Some _ _ _ Hy) as Hlt.
  pose proof (take_drop_middle _ _ _ Hy) as Ey. set (pre := take (Z.to_nat i) ys) in *.
  set (post := drop (S (Z.to_nat i)) ys) in *.
  assert (<[Z.to_nat i := e']> ys = pre ++ e' :: post) as Ey' by by rewrite insert_take_drop.
  rewrite <- Ey, inners_app, inners_cons in Hn, Hm.
  assert (forall t, t ∈ (secs ++ fresh) ++ inners (store s') level pre ++ inners (store s') level post ->
            bs_sector (store s'') t = bs_sector (store s') t) as Hb.
  { intros t Ht. assert (t ∉ inner (store s') level x) as Hnx.
    { intros Hin. apply NoDup_app in Hn as (_ & Hd1 & Hn). apply NoDup_app in Hn as (_ & Hd2 & Hn).
      apply NoDup_app in Hn as (_ & Hd3 & _). rewrite !elem_of_app in Ht.
      destruct Ht as [Ht|[Ht|Ht]].
      - apply (Hd1 t); rewrite !elem_of_app; auto.
      - apply (Hd2 t Ht), elem_of_app. by left.
      - by apply (Hd3 t). }
    eapply grown_sector; [exact Hg'|exact Ws| |exact Hnx]. eapply mine_sub; [exact Hm|].
    intros u ->%list_elem_of_singleton. rewrite !elem_of_app in Ht. rewrite !elem_of_app. tauto. }
  split; rewrite ?E1, ?Ey'.
  - eapply grown_trans; [exact Hs|exact Ws|..]; intros t Ht; replace (Z.to_nat (i + 1)) with (S (Z.to_nat i)) by lia;
      rewrite (take_S_r _ _ _ Hx), inners_app, !elem_of_app; [by left|]. rewrite Ein in Ht. right; right.
    apply elem_inners. exists x. split; [by left|done].
  - rewrite <- Hlen, <- Ey, !length_app. done.
  - intros j Hj. rewrite <- Hrest by lia. rewrite <- Ey, !zget_lookup by lia.
    rewrite !lookup_app_r by (unfold pre; rewrite length_take; lia).
    assert (length pre = Z.to_nat i) as -> by (unfold pre; rewrite length_take; lia).
    by replace (Z.to_nat j - Z.to_nat i)%nat with (S (Z.to_nat (j - i - 1))) by lia.
  - intros j y Hj Hyj. pose proof (zget_range _ _ _ Hyj) as Hrj. destruct (decide (j = i)) as [->|Hne].
    + rewrite E2. rewrite <- Ey', zget_lookup, list_lookup_insert_eq in Hyj by lia. by injection Hyj as <-.
    + rewrite E3 by lia. rewrite <- Ey', zget_lookup, list_lookup_insert_ne in Hyj by lia.
      rewrite <- zget_lookup in Hyj by lia. eapply tree_frame; [|apply (Hdone j); [lia|done]].
      intros t Ht. apply Hb. apply elem_of_app. right. apply elem_of_app. left. apply elem_inners. exists y.
      split; [|done]. rewrite zget_lookup in Hyj by lia. unfold pre. apply elem_of_take.
      exists (Z.to_nat j). split; [done|lia].
  - done.
  - rewrite inners_app, inners_cons.
    rewrite (inners_frame (store s') (store s'') level pre), (inners_frame (store s') (store s'') level post);
      [|intros t Ht; apply Hb; rewrite !elem_of_app; tauto..].
    transitivity ((inners (store s) level xs ++ news) ++ nw); [|by rewrite app_assoc].
    rewrite <- Hperm, <- Ey, inners_app, inners_cons.
    transitivity ((inners (store s') level pre ++ inners (store s') level post ++ fresh) ++
      (fr ++ inner (store s'') level e')); [solve_Permutation|]. rewrite Wp. solve_Permutation.
  - rewrite zlen_app, Hcount, Wc, !nodes_upto_next, Hp by lia. lia.
  - intros t [Ht|Ht]%elem_of_app; [|by apply Wz]. rewrite <- (Hzero t Ht). apply Hb. rewrite !elem_of_app. auto.
Qed.

(** When the shares of the first [i] entries are all of [n]. *)
Lemma forest_all i ys fresh news s' :
  forest_grew s level xs secs n i ys fresh news s' -> 0 <= i -> n <= cap level * i ->
  forest (store s') level ys (secs ++ fresh) /\ zlen (secs ++ fresh) = n.
Proof using Hforest Hle Hlevel.
  intros [_ Hlen Hrest Hdone Hacc _ _ _] Hi Hn. rewrite take_ge in Hdone, Hacc by lia. split; [|lia].
  intros j y Hy. destruct (decide (j < i)) as [Hj|Hj]; [by apply Hdone|]. pose proof (cap_pos level).
  assert (cap level * i <= cap level * j) by nia. rewrite Hrest in Hy by lia.
  assert (forall l : list Z, zlen l <= n -> slice l (cap level * j) (cap level) = []) as Hnil.
  { intros l Hl. unfold slice. rewrite drop_ge by lia. apply take_nil. }
  pose proof (Hforest _ _ Hy) as Ht. rewrite Hnil in Ht by lia. apply tree_nil in Ht as ->.
  rewrite Hnil by lia. by apply tree_zero.
Qed.
End forest.

(* ------------------------------------------------------------------ *)
(** ** inode_reserve_indirect                                          *)
(* ------------------------------------------------------------------ *)

(** Its loop, over any function that grows the subtrees. *)
Lemma forest_loop_wp s level xs secs n k child (Q : (list Z * Z) + unit -> fs B -> Prop) :
  ground s -> mine s (secs ++ inners (store s) level xs) -> NoDup (secs ++ inners (store s) level xs) ->
  forest (store s) level xs secs -> zlen secs <= n -> (level <= 1)%nat -> 0 < n ->
  0 <= k <= zlen xs -> cap level * (k - 1) < n <= cap level * k -> grows level child ->
  nodes_upto level k n - nodes_upto level k (zlen secs) <= free_count (free_map s) ->
  (forall ys fresh news s', forest_grew s level xs secs n k ys fresh news s' -> Q (inl (ys, 0)) s') ->
  wp (for_ret (Z.to_nat k) 0 (fun i '(blocks, num) =>
        let! x := need (zget blocks i) in
        let! ob := child x (min num (cap level)) in
        let! blocks' := need (zset blocks i (snd ob)) in
        ret (if fst ob : bool then inl (blocks', num - min num (cap level)) else inr tt)) (xs, n)) Q s.
Proof.
  intros Hg Hm Hn Hf Hle Hlv Hpos Hk Hkn Hc Hfree HQ. pose proof (cap_pos level) as Hcap.
  eapply (wp_for_ret (fun i '(ys, num) s' => num = Z.max 0 (n - cap level * i) /\
    exists fresh news, forest_grew s level xs secs n i ys fresh news s')).
  - split; [lia|]. exists [], []. apply forest_grew_0; [done|done|lia].
  - intros i [ys num] s' Hi [-> (fresh & news & Hs)]. destruct (zget_ex xs i) as [x Hx]; [lia|].
    destruct (forest_entry s level xs secs n Hg Hm Hn Hf i x ys fresh news s' Hs) as (Hy & _ & Ht & Hm' & Hn'); [lia|done|].
    destruct (forest_part level secs i) as [Hp _]; [lia|].
    assert (cap level * i <= cap level * (k - 1)) by nia.
    assert (min (Z.max 0 (n - cap level * i)) (cap level) = share level n i) as Eshare
      by (rewrite min_val; unfold share; lia).
    wp_step. eapply wp_need; [done|]. wp_step. rewrite Eshare. apply (Hc s' x (slice secs (cap level * i) (cap level)));
      [by eapply grown_ground, (fg_grown _ _ _ _ _ _ _ _ _ _ Hs)|done|done|done|rewrite Hp; unfold share; lia|unfold share; lia| |].
    + rewrite Hp, (grown_count _ _ _ _ (fg_grown _ _ _ _ _ _ _ _ _ _ Hs)), (fg_count _ _ _ _ _ _ _ _ _ _ Hs).
      pose proof (nodes_upto_mono level (i + 1) k (zlen secs) n Hlv ltac:(lia) ltac:(lia)) as Hmono.
      rewrite !nodes_upto_next in Hmono by lia. lia.
    + intros e' fr nw s'' Hw. wp_step. eapply wp_need.
      { apply zset_Some. rewrite (fg_len _ _ _ _ _ _ _ _ _ _ Hs). lia. }
      apply wp_ret. split; [unfold share; lia|]. exists (fresh ++ fr), (news ++ nw). eapply forest_next; (done || lia).
  - intros [ys num] s' [-> (fresh & news & Hs)]. replace (Z.max 0 _) with 0 by lia.
    rewrite Z2Nat.id, Z.add_0_l in Hs by lia. by eapply HQ.
Qed.

Lemma zget_zeros i x : zget (decode_blocks zeros) i = Some x -> x = 0.
Proof.
  assert (decode_blocks zeros = replicate 128 0) as -> by by vm_compute. intros Hx%zget_elem.
  by apply elem_of_replicate in Hx as [-> _].
Qed.

(** The root of the tree, taken from the free map if there is none yet,
    and read. *)
Lemma reserve_root_wp f s level e secs {A} (K : Z -> list Z -> M (fs B) A) (Q : A -> fs B -> Prop) :
  ground s -> mine s (secs ++ inner (store s) (S level) e) -> NoDup (secs ++ inner (store s) (S level) e) ->
  tree (store s) (S level) e secs -> (secs = [] -> 0 < free_count (free_map s)) ->
  (forall e1 n0 s1, let xs := blocks_at (store s1) e1 in
     grown s n0 [] s1 -> e1 <> 0 -> mine s1 (secs ++ e1 :: inners (store s1) level xs) ->
     NoDup (secs ++ e1 :: inners (store s1) level xs) -> forest (store s1) level xs secs ->
     e1 :: inners (store s1) level xs ≡ₚ inner (store s) (S level) e ++ n0 ->
     zlen n0 = (if zlen secs =? 0 then 1 else 0) -> wp (K e1 (bs_sector (store s1) e1)) Q s1) ->
  wp (let! entry :=
        (if e =? 0 then
           let! r := free_map_allocate (inode_write_at_fuel (S f)) 1 in
           let e := default e r in
           cache_write e zeros ;; ret e
         else ret e) in
      let! bs := cache_read entry in K entry bs) Q s.
Proof.
  rewrite tree_S, inner_S. intros Hg Hm Hn Ht Hfree HQ. wp_step. destruct (e =? 0) eqn:E.
  - subst secs. wp_step. apply allocate_wp; [done|by apply Hfree|]. intros t s0 Hs0. simpl.
    wp_step. eapply claim_wp; [done|exact Hs0|]. intros s1 Hs1 Hz. wp_step.
    pose proof (grown_mine_news _ _ _ _ Hg Hs1) as Hm1. pose proof (grown_ground _ _ _ _ Hs1) as Hg1.
    assert (t ∈ [t]) as Hin by by left. pose proof (mine_range _ _ _ Hg1 Hm1 Hin) as Hr.
    wp_step. apply read_own_wp; [done|done|]. intros s2 Hs2 Hsame. rewrite <- (Hsame t Hr).
    assert (forall x, x ∈ blocks_at (store s2) t -> x = 0) as Hx0.
    { unfold blocks_at. rewrite (Hsame t Hr), Hz. intros x [i Hi]%elem_zget. by eapply zget_zeros. }
    assert (inners (store s2) level (blocks_at (store s2) t) = []) as Ei.
    { destruct (inners (store s2) level _) as [|u l] eqn:Eu; [done|]. exfalso.
      assert (u ∈ inners (store s2) level (blocks_at (store s2) t)) as Hu by (rewrite Eu; by left).
      apply elem_inners in Hu as (x & Hx & Hu). rewrite (Hx0 x Hx) in Hu.
      rewrite inner_zero in Hu. by apply not_elem_of_nil in Hu. }
    apply (HQ t [t]); rewrite ?Ei; simpl; try done.
    + rewrite <- (app_nil_r [t]). eapply grown_trans; [exact Hs1|exact Hs2|done|]. by intros u ?%not_elem_of_nil.
    + by apply (mi_apart _ _ Hm1).
    + by eapply grown_mine.
    + apply NoDup_singleton.
    + intros i x Hx. rewrite (Hx0 x) by by eapply zget_elem. apply tree_zero. unfold slice. by rewrite drop_nil, take_nil.
  - destruct Ht as (Hne & Hlen & Hf). wp_step.
    assert (e ∈ secs ++ e :: inners (store s) level (blocks_at (store s) e)) as Hin by (apply elem_of_app; right; by left).
    wp_step. apply read_own_wp; [done|by eapply mine_range|]. intros s1 Hs1 Hsame.
    rewrite <- (Hsame e) by by eapply mine_range.
    assert (forall t, t ∈ secs ++ e :: inners (store s) level (blocks_at (store s) e) ->
              bs_sector (store s1) t = bs_sector (store s) t) as Hb.
    { intros t Ht. apply Hsame. by eapply mine_range. }
    assert (blocks_at (store s1) e = blocks_at (store s) e) as Eb by by apply blocks_at_frame, Hb.
    assert (inners (store s1) level (blocks_at (store s) e) = inners (store s) level (blocks_at (store s) e)) as Ei.
    { apply inners_frame. intros t Ht. apply Hb, elem_of_app. right. by right. }
    apply (HQ e []); rewrite ?Eb, ?Ei, ?app_nil_r; try done; [lia|by eapply grown_mine| |].
    + intros i x Hx. eapply tree_frame; [|by apply Hf]. intros t Ht. apply Hb, elem_of_app. right. right.
      apply elem_inners. exists x. split; [by eapply zget_elem|done].
    + rewrite (proj2 (Z.eqb_neq _ _)); [done|]. by destruct secs.
Qed.

(** Writing the block back completes the tree. *)
Lemma reserve_back_wp s level e secs n k e1 n0 s1 ys fresh news s3 (Q : unit -> fs B -> Prop) :
  let xs := blocks_at (store s1) e1 in
  ground s -> tree (store s) (S level) e secs -> (level <= 1)%nat -> zlen secs <= n <= cap (S level) -> 0 < n ->
  0 <= k <= 128 -> n <= cap level * k ->
  grown s n0 [] s1 -> e1 <> 0 -> mine s1 (secs ++ e1 :: inners (store s1) level xs) ->
  NoDup (secs ++ e1 :: inners (store s1) level xs) -> forest (store s1) level xs secs ->
  e1 :: inners (store s1) level xs ≡ₚ inner (store s) (S level) e ++ n0 ->
  zlen n0 = (if zlen secs =? 0 then 1 else 0) ->
  forest_grew s1 level xs secs n k ys fresh news s3 ->
  (forall s4, grew s (S level) e secs n e1 fresh (n0 ++ news) s4 -> Q tt s4) ->
  wp (cache_write e1 (encode_blocks ys)) Q s3.
Proof.
  intros xs Hg Ht Hlv Hle Hpos Hk Hnk Hs1 He1 Hm1 Hn1 Hf1 Hp1 Hc0 H3 HQ. pose proof (grown_ground _ _ _ _ Hs1) as Hg1.
  assert (e1 :: secs ++ inners (store s1) level xs ≡ₚ secs ++ e1 :: inners (store s1) level xs) as Hperm
    by apply Permutation_middle.
  rewrite <- Hperm in Hn1. apply NoDup_cons in Hn1 as [Hne Hn1].
  assert (mine s1 (secs ++ inners (store s1) level xs)) as Hm1'.
  { eapply mine_sub; [exact Hm1|]. intros t. rewrite !elem_of_app. intros [?|?]; [by left|right; by right]. }
  assert (mine s1 [e1]) as Hme.
  { eapply mine_sub; [exact Hm1|]. intros t ->%list_elem_of_singleton. apply elem_of_app. right. by left. }
  destruct (forest_state s1 level xs secs n Hg1 Hm1' Hn1 k ys fresh news s3 H3) as (Hall & Hn3 & Hm3 & Hg3).
  destruct (forest_all s1 level xs secs n Hf1 ltac:(lia) Hlv k ys fresh news s3 H3) as [Hf3 Hlen3]; [lia..|].
  destruct H3 as [G3 L3 _ _ _ P3 C3 Z3].
  assert (e1 ∉ (secs ++ fresh) ++ inners (store s3) level ys) as Hne3.
  { intros Hin. rewrite Hall in Hin. apply elem_of_app in Hin as [?|Hin]; [done|].
    by eapply (grown_new_old s1 news _ s3 [e1] e1); [done|done| |left]. }
  assert (zlen ys = 128) as Ly by (rewrite L3; apply zlen_decode_blocks).
  assert (forall y, y ∈ ys -> 0 <= y < 2 ^ 32) as Hys.
  { intros y [i Hy]%elem_zget. destruct (decide (y = 0)) as [->|Hy0]; [done|].
    assert (y ∈ (secs ++ fresh) ++ inners (store s3) level ys) as Hin.
    { pose proof (tree_root _ _ _ _ (Hf3 _ _ Hy) Hy0) as Hr. rewrite elem_of_app in Hr. rewrite (elem_of_app (secs ++ fresh)).
      destruct Hr as [Hr|Hr]; [left|right; apply elem_inners; exists y; split; [by eapply zget_elem|done]].
      unfold slice in Hr. eapply elem_of_sublist; [exact Hr|]. etrans; [apply sublist_take|apply sublist_drop]. }
    pose proof (mine_range _ _ _ Hg3 Hm3 Hin). pose proof (bs_size_bound (store s3) (fm_inv _ _ _ _ _ (gr_map _ Hg3))).
    unfold in_range in *. lia. }
  apply write_own_wp; [done|by eapply grown_mine| |apply words_bytes_u8|].
  { unfold encode_blocks. rewrite length_words_bytes. lia. }
  intros s4 Hs4 Hb4. apply HQ.
  assert (forall t, t ∈ (secs ++ fresh) ++ inners (store s3) level ys -> bs_sector (store s4) t = bs_sector (store s3) t) as Hb.
  { intros t Ht'. eapply grown_sector; [done|exact Hs4| |].
    - eapply mine_sub; [exact Hm3|]. by intros u ->%list_elem_of_singleton.
    - intros ->%list_elem_of_singleton. done. }
  assert (blocks_at (store s4) e1 = ys) as Eys.
  { unfold blocks_at, decode_blocks. rewrite Hb4. unfold encode_blocks. rewrite <- (app_nil_r (words_bytes 4 ys)).
    assert (length ys = 128%nat) as <- by lia. apply bytes_words_bytes. by apply Forall_forall. }
  assert (inners (store s4) level ys = inners (store s3) level ys) as Ei4.
  { apply inners_frame. intros t Hin. apply Hb, elem_of_app. by right. }
  split.
  - rewrite <- (app_nil_r (n0 ++ news)), <- app_assoc.
    assert (e1 ∈ inner (store s) (S level) e ++ n0) as Hin by (rewrite <- Hp1; by left).
    eapply (grown_trans _ _ _ _ _ (inner (store s) (S level) e ++ n0)); [exact Hs1| |by intros t ?%not_elem_of_nil|].
    + eapply grown_trans; [exact G3|exact Hs4| |].
      * intros t Hin'. rewrite <- Hp1. right. apply elem_inners in Hin' as (x & Hx & Hin'). apply elem_inners.
        exists x. split; [|done]. eapply elem_of_sublist; [exact Hx|apply sublist_take].
      * intros t ->%list_elem_of_singleton. apply elem_of_app. by right.
    + intros t. rewrite !elem_of_app. tauto.
  - rewrite tree_S, (proj2 (Z.eqb_neq _ _)) by done. rewrite Eys. split_and!; [by intros E; rewrite E in Hlen3; simpl in Hlen3; lia|lia|].
    intros i x Hx. eapply tree_frame; [|by apply Hf3]. intros t Hin. apply Hb, elem_of_app. right.
    apply elem_inners. exists x. split; [by eapply zget_elem|done].
  - done.
  - rewrite inner_S, (proj2 (Z.eqb_neq _ _)) by done. rewrite Eys, Ei4, app_assoc, <- Hp1.
    rewrite <- Permutation_middle, (Permutation_app_comm fresh), P3. reflexivity.
  - rewrite zlen_app, Hc0, C3, (nodes_for_upto level k n) by lia. destruct (zlen secs =? 0) eqn:E0.
    + replace (zlen secs) with 0 by lia. rewrite nodes_upto_nil, nodes_for_0 by lia. lia.
    + rewrite (nodes_for_upto level k (zlen secs)) by lia. lia.
  - intros t Hin. rewrite Hb; [by apply Z3|]. rewrite !elem_of_app. auto.
Qed.

(** A leaf is kept, or taken from the free map. *)
Lemma leaf_kept s e : ground s -> e <> 0 -> grew s 0 e [e] 1 e [] [] s.
Proof.
  intros Hg He. split; try done; [by apply grown_refl|by rewrite tree_O, (proj2 (Z.eqb_neq _ _))|by intros t ?%not_elem_of_nil].
Qed.
Lemma leaf_claimed s t s' :
  ground s -> grown s [t] [] s' -> bs_sector (store s') t = zeros -> grew s 0 0 [] 1 t [t] [t] s'.
Proof.
  intros Hg Hs Hz. assert (t <> 0) as Ht by (apply (mi_apart _ _ (grown_mine_news _ _ _ _ Hg Hs)); by left).
  split; try done; [by rewrite tree_O, (proj2 (Z.eqb_neq _ _))|by intros u ->%list_elem_of_singleton].
Qed.
Lemma reserve_leaf_grows f : grows 0 (inode_reserve_indirect (inode_write_at_fuel (S f)) 0).
Proof.
  intros s e secs n Q Hg Hm Hn Ht Hle Hpos Hfree HQ. unfold cap in Hle. assert (n = 1) as -> by lia.
  cbn [inode_reserve_indirect]. wp_step. apply wp_assert; [done|]. rewrite tree_O in Ht. unfold nodes_for in Hfree.
  destruct (Z.eqb_spec e 0) as [->|E]; subst secs; simpl in Hfree.
  - wp_step. apply allocate_wp; [done|lia|]. intros t s0 Hs0. simpl. wp_step. eapply claim_wp; [done|exact Hs0|].
    intros s1 Hs1 Hz. apply wp_ret. by eapply HQ, leaf_claimed.
  - apply wp_ret. by eapply HQ, leaf_kept.
Qed.

(** inode_reserve_indirect grows a tree of any level, given enough free
    sectors. *)
Lemma reserve_grows f level : (level <= 2)%nat -> grows level (inode_reserve_indirect (inode_write_at_fuel (S f)) level).
Proof.
  induction level as [|level IH]; intros Hlv; [apply reserve_leaf_grows|].
  intros s e secs n Q Hg Hm Hn Ht Hle Hpos Hfree HQ.
  assert (cap (S level) = cap level * 128) as Ecap by by (destruct level as [|[|level]]; [| |lia]).
  pose proof (cap_pos level) as Hcap. set (k := (n + cap level - 1) / cap level).
  assert (cap level * (k - 1) < n <= cap level * k /\ 0 <= k <= 128) as [Hk1 Hk2]
    by (unfold k; Z.to_euclidean_division_equations; nia).
  cbn [inode_reserve_indirect]. wp_step. apply wp_assert; [apply Z.leb_le; lia|].
  assert ((if Nat.eqb (S level) 1 then 1 else INDIRECT_BLOCKS_PER_SECTOR) = cap level) as ->
    by by (destruct level as [|[|level]]; [| |lia]).
  assert (DIV_ROUND_UP n (cap level) = k) as ->.
  { unfold DIV_ROUND_UP, u64, k. rewrite Z.mod_small; [done|]. split; [lia|].
    destruct level as [|[|level]]; [| |lia]; unfold cap in *; lia. }
  apply (reserve_root_wp f s level e secs); [done..| |].
  { intros ->. pose proof (nodes_for_upto level k n) as E1. pose proof (nodes_upto_mono level 0 k 0 n) as E2.
    rewrite !nodes_upto_0, nodes_upto_nil in E2 by lia. rewrite E1, zlen_nil, nodes_for_0 in Hfree by lia. lia. }
  intros e1 n0 s1 xs Hs1 He1 Hm1 Hn1 Hf1 Hp1 Hc0. wp_step.
  assert (zlen xs = 128) as Hxs by apply zlen_decode_blocks.
  apply (forest_loop_wp s1 level xs secs n k).
  - by eapply grown_ground.
  - eapply mine_sub; [exact Hm1|]. intros t. rewrite !elem_of_app. intros [?|?]; [by left|right; by right].
  - assert (e1 :: secs ++ inners (store s1) level xs ≡ₚ secs ++ e1 :: inners (store s1) level xs) as Hperm
      by apply Permutation_middle. rewrite <- Hperm in Hn1. by apply NoDup_cons in Hn1 as [_ Hn1].
  - done.
  - lia.
  - lia.
  - done.
  - lia.
  - lia.
  - apply IH. lia.
  - rewrite (grown_count _ _ _ _ Hs1), Hc0. destruct (zlen secs =? 0) eqn:E0.
    + replace (zlen secs) with 0 in * by lia. rewrite nodes_upto_nil by lia.
      rewrite (nodes_for_upto level k), nodes_for_0 in Hfree by lia. lia.
    + rewrite !(nodes_for_upto level k) in Hfree by lia. lia.
  - intros ys fresh news s3 H3. wp_step. apply wp_assert; [done|]. wp_step.
    eapply (reserve_back_wp s level e secs n k e1 n0 s1 ys fresh news s3); try done; [lia..|].
    intros s4 Hs4. apply wp_ret. by eapply HQ.
Qed.
End session.
End grow.
End Grow.
