(* ===== verification/CString.v ===== *)
(** * CString: the C library functions on strings and text files that the
    shells use

    A NUL-terminated string is the [string] before its terminator; a text
    file holds no NUL. *)
From S2P Require Import Prelude.
From Stdlib Require Import Ascii.

Definition ch (n : nat) : ascii := Ascii.ascii_of_nat n.
Abbreviation NUL := (Ascii.Ascii false false false false false false false false).
Definition LF : ascii := ch 10.
Definition CR : ascii := ch 13.
Definition TAB : ascii := ch 9.

Definition strlen (s : string) : Z := Z.of_nat (String.length s).

(** [s[a]]: the characters of [s], its terminator, nothing beyond. *)
Definition char_at (s : string) (a : Z) : option ascii :=
  if bool_decide (0 <= a) then
    match String.get (Z.to_nat a) s with
    | Some c => Some c
    | None => if bool_decide (a = strlen s) then Some NUL else None
    end
  else None.

Definition read {S} (s : string) (a : Z) : M S ascii := need (char_at s a).

(** strcmp(s, t) == 0. *)
Definition streq (s t : string) : bool := bool_decide (s = t).

(** [s[strcspn(s, stops)] = 0]. *)
Fixpoint cut (stop : ascii -> bool) (s : string) : string :=
  match s with
  | EmptyString => EmptyString
  | String c s' => if stop c then EmptyString else String c (cut stop s')
  end.

(** strcpy or strcat into an array of [n] bytes: the result, undefined
    when the terminator does not fit. *)
Definition into {S} (n : Z) (s : string) : M S string :=
  need (if strlen s <? n then Some s else None).

Definition snoc (s : string) (c : ascii) : string := (s +:+ String c EmptyString)%string.

(* ------------------------------------------------------------------ *)
(** ** Text files                                                      *)
(* ------------------------------------------------------------------ *)

(** An open file: the characters not read yet, and the end-of-file flag. *)
Record FILE := mkFILE { rest : string; feof : bool }.

(** The longest prefix of at most [n] characters that ends with its first
    newline, if any, and what follows it. *)
Fixpoint take_line (n : nat) (s : string) : string * string :=
  match n, s with
  | O, _ => (EmptyString, s)
  | _, EmptyString => (EmptyString, EmptyString)
  | S n', String c s' =>
      if Ascii.eqb c LF then (String c EmptyString, s')
      else let '(l, r) := take_line n' s' in (String c l, r)
  end.

Fixpoint has_lf (s : string) : bool :=
  match s with
  | EmptyString => false
  | String c s' => Ascii.eqb c LF || has_lf s'
  end.

(** fgets(line, size, f), [size > 1]: [None] (and the buffer unchanged)
    when there is nothing left.  The flag is set when the end is met. *)
Definition fgets (size : Z) (f : FILE) : option string * FILE :=
  let '(l, r) := take_line (Z.to_nat (size - 1)) (rest f) in
  match l with
  | EmptyString => (None, mkFILE r true)
  | _ => (Some l, mkFILE r (feof f || (negb (has_lf l) && (strlen l <? size - 1))))
  end.

Fixpoint chars (s : string) : list ascii :=
  match s with EmptyString => [] | String c s' => c :: chars s' end.

(* ------------------------------------------------------------------ *)
(** ** Facts                                                           *)
(* ------------------------------------------------------------------ *)

Lemma take_line_split n s : (fst (take_line n s) +:+ snd (take_line n s))%string = s.
Proof.
  revert s. induction n as [|n IH]; intros [|c s]; simpl; try done.
  destruct (Ascii.eqb c LF); [done|]. specialize (IH s). destruct (take_line n s) as [l r].
  by rewrite <- IH.
Qed.

Lemma strlen_nonneg s : 0 <= strlen s.
Proof. unfold strlen. lia. Qed.
Lemma strlen_app s t : strlen (s +:+ t) = strlen s + strlen t.
Proof.
  unfold strlen. induction s as [|c s IH]; simpl; [done|]. rewrite !Nat2Z.inj_succ, IH. lia.
Qed.
Lemma strlen_snoc t c : strlen (snoc t c) = strlen t + 1.
Proof. unfold snoc. by rewrite strlen_app. Qed.

Lemma take_line_nonempty n s : (0 < n)%nat -> s <> EmptyString -> fst (take_line n s) <> EmptyString.
Proof.
  destruct n as [|n]; [lia|]. destruct s as [|c s]; [done|]. intros _ _. simpl.
  destruct (Ascii.eqb c LF); [done|]. by destruct (take_line n s).
Qed.

(** fgets makes progress until the file is used up. *)
Lemma fgets_shorter size f l f' :
  1 < size -> fgets size f = (Some l, f') -> strlen (rest f') < strlen (rest f).
Proof.
  intros Hs. unfold fgets. pose proof (take_line_split (Z.to_nat (size - 1)) (rest f)) as Hsp.
  destruct (take_line _ (rest f)) as [k r]. simpl in Hsp. destruct k as [|c k]; [done|].
  intros [= _ <-]. simpl. rewrite <- Hsp, strlen_app. unfold strlen. simpl. lia.
Qed.

Lemma fgets_end size f f' :
  1 < size -> fgets size f = (None, f') -> rest f = EmptyString /\ rest f' = EmptyString /\ feof f' = true.
Proof.
  intros Hs. unfold fgets. pose proof (take_line_split (Z.to_nat (size - 1)) (rest f)) as Hsp.
  destruct (decide (rest f = EmptyString)) as [E|E].
  - destruct (take_line _ (rest f)) as [k r]. simpl in Hsp. rewrite E in Hsp.
    destruct k; [|done]. intros [= <-]. done.
  - pose proof (take_line_nonempty (Z.to_nat (size - 1)) (rest f)) as Hne.
    destruct (take_line _ (rest f)) as [k r]. simpl in Hne. specialize (Hne ltac:(lia) E).
    destruct k; [done|]. discriminate.
Qed.

(** ** Files of lines *)

(** A file made of lines, each with its newline. *)
Fixpoint unlines (ls : list string) : string :=
  match ls with
  | [] => EmptyString
  | l :: ls' => (l +:+ String LF (unlines ls'))%string
  end.

(** A line that fits the buffers of the shells. *)
Definition short_line (l : string) : Prop := has_lf l = false /\ strlen l < 98.

Lemma take_line_lf l r n :
  has_lf l = false -> (String.length l < n)%nat ->
  take_line n (l +:+ String LF r)%string = ((l +:+ String LF EmptyString)%string, r).
Proof.
  revert n. induction l as [|c l IH]; intros n Hl Hn; (destruct n as [|n]; [simpl in Hn; lia|]).
  - done.
  - simpl in Hl. apply orb_false_iff in Hl as [Hc Hl].
    change (take_line (S n) (String c l +:+ String LF r)%string) with
      (if Ascii.eqb c LF then (String c EmptyString, (l +:+ String LF r)%string)
       else let '(k, t) := take_line n (l +:+ String LF r)%string in (String c k, t)).
    rewrite Hc, IH by (done || simpl in Hn; lia). done.
Qed.

Lemma has_lf_snoc l : has_lf (l +:+ String LF EmptyString)%string = true.
Proof.
  induction l as [|c l IH]; [done|]. change (Ascii.eqb c LF || has_lf (l +:+ String LF EmptyString)%string = true).
  rewrite IH. apply orb_true_r.
Qed.

(** fgets reads the lines of such a file one by one, and meets the end
    only after the last. *)
Lemma fgets_line_n n l ls e :
  100 <= n -> short_line l ->
  fgets n (mkFILE (unlines (l :: ls)) e) = (Some (l +:+ String LF EmptyString)%string, mkFILE (unlines ls) e).
Proof.
  intros Hn [Hl Hs]. unfold fgets. cbn [rest unlines].
  rewrite take_line_lf by (unfold strlen in Hs; (done || lia)).
  rewrite has_lf_snoc. cbn [negb andb feof]. rewrite orb_false_r. by destruct l.
Qed.
Lemma fgets_line l ls e :
  short_line l ->
  fgets 100 (mkFILE (unlines (l :: ls)) e) = (Some (l +:+ String LF EmptyString)%string, mkFILE (unlines ls) e).
Proof. by apply fgets_line_n. Qed.

(** ** Decimal numbers *)

Lemma pretty_N_go_nonempty x s : s <> EmptyString \/ (0 < x)%N -> pretty_N_go x s <> EmptyString.
Proof.
  revert s. induction (N.lt_wf_0 x) as [x _ IH]; intros s Hs.
  destruct (decide (x = 0)%N) as [->|Hx]; [rewrite pretty_N_go_0; destruct Hs; [done|lia]|].
  rewrite pretty_N_go_step by lia. apply IH; [apply N.div_lt; lia|by left].
Qed.

Lemma pretty_Z_nonempty z : 0 <= z -> 0 < strlen (pretty z).
Proof.
  intros Hz. assert (pretty z <> EmptyString) as Hne.
  { destruct z as [|p|p]; [done| |lia]. unfold pretty, pretty_Z, pretty, pretty_positive, pretty, pretty_N.
    case_decide; [done|]. apply pretty_N_go_nonempty. right. lia. }
  destruct (pretty z); [done|]. unfold strlen. simpl. lia.
Qed.
