(* ===== verification/Debug.v ===== *)
(** * Debug: the printing functions of a3/fs/debug.c

    [panic] and [assert_] of Prelude.v are its debug_panic and ASSERT. *)
From Stdlib Require Import Ascii.
From S2P Require Import Prelude Bitmap.

Module Debug.
Import Bitmap.

(** printf's %x with at least [width] digits, padded with zeros. *)
Definition hex_digit (d : Z) : ascii :=
  ascii_of_nat (Z.to_nat (if d <? 10 then 48 + d else 87 + d)).
Fixpoint hex_digits (fuel : nat) (z : Z) (acc : string) : string :=
  match fuel with
  | O => acc
  | S f => if z =? 0 then acc else hex_digits f (z / 16) (String (hex_digit (z mod 16)) acc)
  end.
Definition spaces (n : Z) (s : string) : string := String.concat EmptyString (replicate (Z.to_nat n) s).
Definition hex (width z : Z) : string :=
  let s := if z =? 0 then "0"%string else hex_digits 16 z EmptyString in
  (spaces (width - Z.of_nat (String.length s)) "0" +:+ s)%string.

Definition per_line : Z := 16.
Definition isprint (b : Z) : bool := (32 <=? b) && (b <=? 126).
Definition char_of (b : Z) : string := String (ascii_of_nat (Z.to_nat b)) EmptyString.

(** One line: the bytes [bs], at most 16, from column [start]. *)
Definition dump_line (ofs start : Z) (bs : list Z) (ascii : bool) : string :=
  let fill s := spaces (per_line - (start + zlen bs)) s in
  (hex 8 (ofs / per_line * per_line)%Z +:+ "  " +:+ spaces start "   " +:+
   String.concat EmptyString
     (imap (fun k b => hex 2 b +:+ (if (start + Z.of_nat k =? per_line / 2 - 1)%Z then "-" else " "))%string bs) +:+
   (if ascii then
      fill "   " +:+ "|" +:+ spaces start " " +:+
      String.concat EmptyString (map (fun b => if isprint b then char_of b else ".") bs) +:+ fill " " +:+ "|"
    else "") +:+ nl)%string.

(** A turn prints at least one byte; [bs] are the bytes left. *)
Fixpoint dump_lines {S} (fuel : nat) (ofs : Z) (bs : list Z) (ascii : bool) : M S unit :=
  match bs with
  | [] => ret tt
  | _ =>
      match fuel with
      | O => out_of_fuel
      | Datatypes.S f =>
          let start := ofs mod per_line in
          let n := Z.min (per_line - start) (zlen bs) in
          print (dump_line ofs start (take (Z.to_nat n) bs) ascii) ;;
          dump_lines f (u64 (ofs + n)) (drop (Z.to_nat n) bs) ascii
      end
  end.
Definition hex_dump {S} (ofs : Z) (bs : list Z) (ascii : bool) : M S unit :=
  dump_lines (length bs) ofs bs ascii.

Fixpoint scale (size : Z) (factor : string) (rest : list string) : Z * string :=
  match rest with
  | next :: rest => if 1024 <=? size then scale (size / 1024) next rest else (size, factor)
  | [] => (size, factor)
  end.
Definition print_human_readable_size {S} (size : Z) : M S unit :=
  if size =? 1 then print "1 byte"
  else
    let '(size, factor) := scale size "bytes" ["kB"; "MB"; "GB"; "TB"]%string in
    print (pretty size +:+ " " +:+ factor)%string.

(** bitmap_dump (bitmap.c). *)
Definition bitmap_dump : M bitmap unit :=
  let! b := get in hex_dump 0 (take (Z.to_nat (byte_cnt (bit_cnt b))) (words_bytes 8 (bits b))) false.

(* ------------------------------------------------------------------ *)
(** ** Properties                                                      *)
(* ------------------------------------------------------------------ *)

(** The dump ends, whatever the bytes. *)
Lemma dump_lines_ends {S} fuel ofs bs ascii (s : S) :
  (length bs <= fuel)%nat -> wpt (dump_lines fuel ofs bs ascii) (fun _ s' _ => s' = s) s.
Proof.
  revert ofs bs. induction fuel as [|f IH]; intros ofs bs Hl; destruct bs as [|b bs]; simpl in Hl; try lia; [done..|].
  change (wpt (print (S := S) (dump_line ofs (ofs mod per_line)
      (take (Z.to_nat (Z.min (per_line - ofs mod per_line) (zlen (b :: bs)))) (b :: bs)) ascii) ;;
    dump_lines f (u64 (ofs + Z.min (per_line - ofs mod per_line) (zlen (b :: bs))))
      (drop (Z.to_nat (Z.min (per_line - ofs mod per_line) (zlen (b :: bs)))) (b :: bs)) ascii)%c
    (fun _ s' _ => s' = s) s).
  apply wpt_bind. apply IH. rewrite length_drop. unfold per_line. pose proof (Z.mod_pos_bound ofs 16).
  simpl length. lia.
Qed.
End Debug.
