(* ===== verification/Files.v ===== *)
(** * Files: open files and the table of open files (a3/fs/file.c), and the
    free map's own file (a3/fs/free-map.c, bitmap_read of bitmap.c)

    A [struct file] is a position in an inode.  The shell keeps those it
    opened in a table, searched by name. *)
From S2P Require Import Prelude Bitmap Store FsState Inode FileData FreeMap CString.

Module Files.
Import Bitmap FsState Inode FileData FreeMap.

(** Pointers are [None] for NULL. *)
Abbreviation ptr := (option loc).

Section ops.
Context {B : Type} `{!BlockStore B}.

(** [calloc], and the assignments to its three fields; the inode is closed
    when there is none. *)
Definition file_open (inode : ptr) : M (fs B) ptr :=
  let! p := malloc in
  match inode with
  | Some i => set_file p (mkFile i 0 false) ;; ret (Some p)
  | None => inode_close inode ;; ret None
  end.

Definition file_reopen (file : ptr) : M (fs B) ptr :=
  let! p := need file in
  let! f := get_file p in
  let! i := inode_reopen (f_inode f) in
  file_open (Some i).

Definition file_deny_write (file : ptr) : M (fs B) unit :=
  assert_ (bool_decide (is_Some file)) "file != NULL" ;;
  let! p := need file in
  let! f := get_file p in
  when (negb (f_deny_write f))
    (set_file p (mkFile (f_inode f) (f_pos f) true) ;; inode_deny_write (f_inode f)).

Definition file_allow_write (file : ptr) : M (fs B) unit :=
  assert_ (bool_decide (is_Some file)) "file != NULL" ;;
  let! p := need file in
  let! f := get_file p in
  when (f_deny_write f)
    (set_file p (mkFile (f_inode f) (f_pos f) false) ;; inode_allow_write (f_inode f)).

Definition file_close (file : ptr) : M (fs B) unit :=
  match file with
  | None => ret tt
  | Some p =>
      file_allow_write file ;;
      let! f := get_file p in
      inode_close (Some (f_inode f)) ;;
      free_file p
  end.

Definition file_get_inode (file : loc) : M (fs B) loc :=
  let! f := get_file file in ret (f_inode f).

(** The bytes read; their number is the result of the C function. *)
Definition file_read (file : loc) (size : Z) : M (fs B) (list Z) :=
  let! f := get_file file in
  let! bytes := inode_read_at (f_inode f) size (f_pos f) in
  let! f := get_file file in
  set_file file (mkFile (f_inode f) (f_pos f + zlen bytes) (f_deny_write f)) ;;
  ret bytes.

Definition file_read_at (file : loc) (size file_ofs : Z) : M (fs B) (list Z) :=
  let! f := get_file file in inode_read_at (f_inode f) size file_ofs.

(** The result, and the caller's buffer, whose last byte is overwritten. *)
Definition file_write (file : loc) (buffer : list Z) (size : Z) : M (fs B) (Z * list Z) :=
  let! buffer := need (zset buffer (size - 1) 0) in
  let! f := get_file file in
  let! bytes_written := inode_write_at (f_inode f) buffer size (f_pos f) in
  let! f := get_file file in
  set_file file (mkFile (f_inode f) (f_pos f + (bytes_written - 2)) (f_deny_write f)) ;;
  ret (bytes_written, buffer).

Definition file_write_at (file : loc) (buffer : list Z) (size file_ofs : Z) : M (fs B) Z :=
  let! f := get_file file in inode_write_at (f_inode f) buffer size file_ofs.

Definition file_length (file : ptr) : M (fs B) Z :=
  assert_ (bool_decide (is_Some file)) "file != NULL" ;;
  let! p := need file in
  let! f := get_file p in
  inode_length (f_inode f).

Definition file_seek (file : ptr) (new_pos : Z) : M (fs B) unit :=
  assert_ (bool_decide (is_Some file)) "file != NULL" ;;
  assert_ (0 <=? new_pos) "new_pos >= 0" ;;
  let! p := need file in
  let! f := get_file p in
  set_file p (mkFile (f_inode f) new_pos (f_deny_write f)).

Definition file_tell (file : ptr) : M (fs B) Z :=
  assert_ (bool_decide (is_Some file)) "file != NULL" ;;
  let! p := need file in
  let! f := get_file p in
  ret (f_pos f).

(* ------------------------------------------------------------------ *)
(** ** The file table                                                  *)
(* ------------------------------------------------------------------ *)

(** The entries in the order of the list [file_table]. *)
Definition init_file_table : M (fs B) unit := modify (set_file_table []).

Fixpoint find_entry (fname : string) (t : list file_table_entry) : option file_table_entry :=
  match t with
  | [] => None
  | e :: t => if streq (fte_name e) fname then Some e else find_entry fname t
  end.
Fixpoint drop_entry (fname : string) (t : list file_table_entry) : list file_table_entry :=
  match t with
  | [] => []
  | e :: t => if streq (fte_name e) fname then t else e :: drop_entry fname t
  end.

Definition get_file_by_fname (fname : string) : M (fs B) ptr :=
  let! s := get in ret (fte_file <$> find_entry fname (file_table s)).

(** The callers give a file that is there. *)
Definition add_to_file_table (file : loc) (fname : string) : M (fs B) unit :=
  let! p := get_file_by_fname fname in
  match p with
  | Some _ => ret tt
  | None => modify (fun s => set_file_table (file_table s ++ [mkFte fname file]) s)
  end.

Definition remove_from_file_table (fname : string) : M (fs B) bool :=
  let! s := get in
  match find_entry fname (file_table s) with
  | None => ret false
  | Some e =>
      file_close (Some (fte_file e)) ;;
      modify (fun s => set_file_table (drop_entry fname (file_table s)) s) ;;
      ret true
  end.

(** The second unlinking of the popped element, list_remove after
    list_pop_front, changes no link that is still used. *)
Definition free_file_table : M (fs B) unit :=
  let! s := get in
  while_ (S (length (file_table s))) (fun _ =>
    let! s := get in
    match file_table s with
    | [] => ret (inr tt)
    | e :: t =>
        put (set_file_table t s) ;;
        file_close (Some (fte_file e)) ;;
        ret (inl tt)
    end) tt.

(* ------------------------------------------------------------------ *)
(** ** The free map's file                                             *)
(* ------------------------------------------------------------------ *)

(** [device_size] is block_size(fs_device).  The bitmap has no bit for the
    last sector. *)
Definition free_map_init (device_size : Z) : M (fs B) unit :=
  let! m := bitmap_create (u32 (device_size - 1)) in
  modify (set_free_map m) ;;
  on_free_map (bitmap_mark FREE_MAP_SECTOR) ;;
  on_free_map (bitmap_mark ROOT_DIR_SECTOR).

(** bitmap_read (bitmap.c): a short read changes the words it reaches. *)
Definition bitmap_read (file : loc) : M (fs B) bool :=
  let! s := get in
  let b := free_map s in
  if 0 <? bit_cnt b then
    let size := i32 (byte_cnt (bit_cnt b)) in
    let! bytes := file_read_at file size 0 in
    let ws := bytes_words 8 (length (bits b)) (splice (words_bytes 8 (bits b)) 0 bytes) in
    let last := elem_cnt (bit_cnt b) - 1 in
    let! w := need (zget ws last) in
    let! ws := need (zset ws last (Z.land w (last_mask b))) in
    modify (set_free_map (mkBitmap (bit_cnt b) ws)) ;;
    ret (zlen bytes =? size)
  else ret true.

Definition free_map_open : M (fs B) unit :=
  let! i := inode_open FREE_MAP_SECTOR in
  let! f := file_open (Some i) in
  modify (set_free_map_file f) ;;
  when (negb (bool_decide (is_Some f))) (panic "can't open free map") ;;
  let! p := need f in
  let! ok := bitmap_read p in
  when (negb ok) (panic "can't read free map").

(** [free_map_file] keeps the address of the closed file. *)
Definition free_map_close : M (fs B) unit :=
  let! s := get in file_close (free_map_file s).

Definition free_map_create : M (fs B) unit :=
  let! size := on_free_map bitmap_file_size in
  let! ok := inode_create FREE_MAP_SECTOR (i32 size) false in
  when (negb ok) (panic "free map creation failed") ;;
  let! i := inode_open FREE_MAP_SECTOR in
  let! f := file_open (Some i) in
  modify (set_free_map_file f) ;;
  when (negb (bool_decide (is_Some f))) (panic "can't open free map") ;;
  let! s := get in
  let! ok := bitmap_write inode_write_at (free_map_file s) in
  when (negb ok) (panic "can't write free map").
End ops.
End Files.
