(* ===== verification/FilesProps.v ===== *)
(** * FilesProps: what open files, the file table and the free map's file
    guarantee

    The functions of Files.v on a file whose sector map is sound
    ([FileData.file_ok]), with witnesses on the small disk of FileProps.v. *)
From S2P Require Import Prelude Bitmap Block Store Cache FsState Inode FileData FreeMap FileProps CString Files.

Module FilesProps.
Import Bitmap FsState Inode FileData FreeMap FileProps Files.

Section props.
Context {B : Type} `{!BlockStore B}.
Implicit Types (b : B) (s : fs B) (d : inode_disk).

(** The handle [fp] is the open file [f], on the inode [ip] whose data is
    in [secs]. *)
Record opened s (fp : loc) (f : file) (ip : inode) (secs : list Z) : Prop := {
  op_inv : bs_inv (store s);
  op_file : files s !! fp = Some f;
  op_inode : inodes s !! f_inode f = Some ip;
  op_secs : file_ok (store s) (data ip) secs;
  op_length : length_ (data ip) < 2 ^ 31;
  op_pos : 0 <= f_pos f
}.

Definition text s (ip : inode) (secs : list Z) : list Z := content (store s) (data ip) secs.

(** The state after a transfer moved the position to [pos]. *)
Definition moved s (fp : loc) (f : file) (pos : Z) b : fs B :=
  set_files (<[fp := mkFile (f_inode f) pos (f_deny_write f)]> (files s)) (set_store b s).

Lemma moved_opened s fp f ip secs pos b :
  opened s fp f ip secs -> changes_only (store s) secs b -> 0 <= pos ->
  opened (moved s fp f pos b) fp (mkFile (f_inode f) pos (f_deny_write f)) ip secs.
Proof.
  intros [] Hb Hpos. split; simpl; try done; [apply Hb|apply lookup_insert_eq|].
  by eapply file_ok_changes.
Qed.

(* ------------------------------------------------------------------ *)
(** ** Reading and writing at the position                             *)
(* ------------------------------------------------------------------ *)

Lemma file_read_wp s fp f ip secs size (Q : list Z -> fs B -> Prop) :
  opened s fp f ip secs -> 0 <= size ->
  (forall b', same_store (store s) b' ->
     let bytes := slice (text s ip secs) (f_pos f) size in
     Q bytes (moved s fp f (f_pos f + zlen bytes) b')) ->
  wp (file_read fp size) Q s.
Proof.
  intros [] Hsize HQ. unfold file_read. wp_step. eapply get_file_wp; [done|].
  wp_step. eapply inode_read_at_wp; [done..|]. intros b' Hb'.
  wp_step. eapply get_file_wp; [done|]. unfold set_file. wp_steps. by apply HQ.
Qed.

(** The buffer as file_write leaves it: its last byte is 0. *)
Lemma file_write_wp s fp f ip secs buf size (Q : Z * list Z -> fs B -> Prop) :
  opened s fp f ip secs -> deny_write_cnt ip = 0 -> 0 < size -> f_pos f + size <= length_ (data ip) ->
  size <= zlen buf -> Forall is_u8 buf ->
  (forall b' buf', changes_only (store s) secs b' -> zset buf (size - 1) 0 = Some buf' ->
     content b' (data ip) secs = splice (text s ip secs) (f_pos f) (slice buf 0 (size - 1) ++ [0]) ->
     Q (size, buf') (moved s fp f (f_pos f + (size - 2)) b')) ->
  wp (file_write fp buf size) Q s.
Proof.
  intros [] Hdeny Hsize Hin Hbuf Hu HQ. unfold file_write.
  destruct (zset_ex buf (size - 1) 0) as [buf' E]; [lia|].
  destruct (zset_inv _ _ _ _ E) as (_ & Hl & Hz).
  assert (slice buf' 0 size = slice buf 0 (size - 1) ++ [0]) as Hs.
  { apply zlist_eq_range; [rewrite zlen_app, !zlen_slice by lia; simpl; lia|].
    rewrite zlen_slice by lia. intros i Hi. rewrite zget_slice, Hz by lia. rewrite zget_app, zlen_slice by lia.
    repeat case_bool_decide; try lia; [by replace (i - (size - 1)) with 0 by lia|].
    by rewrite zget_slice by lia. }
  wp_step. eapply wp_need; [done|]. wp_step. eapply get_file_wp; [done|]. wp_step.
  unfold inode_write_at, write_fuel. eapply inode_write_at_wp; try done; [lia| |].
  - rewrite Forall_forall. intros x Hx. apply elem_zget in Hx as [i Hi]. rewrite Hz in Hi.
    case_bool_decide; [injection Hi as <-; split; lia|by eapply Forall_zget].
  - intros b' Hb' Hc. wp_step. eapply get_file_wp; [done|]. unfold set_file. wp_steps.
    eapply HQ; [done..|]. by rewrite Hc, Hs.
Qed.

(** A client that reads the file piece by piece. *)
Fixpoint read_pieces (fp : loc) (sizes : list Z) : M (fs B) (list (list Z)) :=
  match sizes with
  | [] => ret []
  | n :: sizes =>
      let! bytes := file_read fp n in
      let! rest := read_pieces fp sizes in
      ret (bytes :: rest)
  end.

Definition total (sizes : list Z) : Z := foldr Z.add 0 sizes.

Lemma total_nonneg sizes : Forall (Z.le 0) sizes -> 0 <= total sizes.
Proof. induction 1; simpl; lia. Qed.

(** C29: Functional correctness of file_read: however a client cuts its
    reads, the pieces put end to end are the bytes of the file from the
    position where it started, none lost or read twice, and none past the
    end of the file; the position is then behind the last byte read; the
    file and every other sector are unchanged. *)
Theorem reads_in_pieces sizes s fp f ip secs :
  opened s fp f ip secs -> Forall (Z.le 0) sizes ->
  wp (read_pieces fp sizes) (fun pieces s' =>
    concat pieces = slice (text s ip secs) (f_pos f) (total sizes) /\
    exists b', same_store (store s) b' /\
      files s' !! fp = Some (mkFile (f_inode f) (f_pos f + zlen (concat pieces)) (f_deny_write f)) /\
      store s' = b' /\ inodes s' = inodes s) s.
Proof.
  intros Ho Hs. revert s f Ho. induction Hs as [|n sizes Hn Hs IH]; intros s f Ho; simpl.
  { apply wp_ret. rewrite slice_0. split; [done|]. exists (store s).
    split; [apply same_store_refl, Ho|]. rewrite (op_file _ _ _ _ _ Ho). simpl. rewrite Z.add_0_r. by destruct f. }
  wp_step. eapply file_read_wp; [done..|]. intros b' Hb' bytes.
  pose proof (total_nonneg _ Hs) as Ht. pose proof (op_pos _ _ _ _ _ Ho) as Hp.
  wp_step. eapply wp_mono.
  { apply IH. eapply moved_opened; [done|by apply same_changes_only|lia]. }
  intros rest s' (Hr & b2 & Hb2 & Hf & <- & Hi). apply wp_ret. simpl in *.
  assert (text (moved s fp f (f_pos f + zlen bytes) b') ip secs = text s ip secs) as Et.
  { apply content_same; [done|apply Ho]. }
  rewrite Et in Hr. split.
  - rewrite Hr. subst bytes. rewrite zlen_slice_min by done.
    rewrite <- (slice_snoc _ (f_pos f) n (total sizes)) by lia. f_equal.
    destruct (decide (f_pos f + n <= zlen (text s ip secs))).
    + f_equal. lia.
    + unfold slice. rewrite !drop_ge by lia. by rewrite !take_nil.
  - exists (store s'). split; [by eapply same_store_trans|]. split; [|done].
    rewrite Hf. rewrite length_app. do 2 f_equal. lia.
Qed.

(** C36: The behaviour of file_write, which moves the position by two less
    than it wrote: of two writes that follow each other the second
    overwrites the last two bytes of the first (the second of which it had
    set to 0), and itself ends with a 0 in place of its last byte. *)
Theorem consecutive_writes_overlap s fp f ip secs buf1 buf2 n1 n2 :
  opened s fp f ip secs -> deny_write_cnt ip = 0 -> 2 <= n1 -> 2 <= n2 ->
  f_pos f + n1 - 2 + n2 <= length_ (data ip) ->
  n1 <= zlen buf1 -> n2 <= zlen buf2 -> Forall is_u8 buf1 -> Forall is_u8 buf2 ->
  wp (let! r1 := file_write fp buf1 n1 in let! r2 := file_write fp buf2 n2 in ret (fst r1, fst r2))
     (fun r s' => r = (n1, n2) /\
        files s' !! fp = Some (mkFile (f_inode f) (f_pos f + n1 + n2 - 4) (f_deny_write f)) /\
        text s' ip secs =
          splice (text s ip secs) (f_pos f) (slice buf1 0 (n1 - 2) ++ slice buf2 0 (n2 - 1) ++ [0])) s.
Proof.
  intros Ho Hdeny H1 H2 Hin Hl1 Hl2 Hu1 Hu2. pose proof (op_pos _ _ _ _ _ Ho) as Hp.
  pose proof (zlen_content _ _ _ (op_inv _ _ _ _ _ Ho) (op_secs _ _ _ _ _ Ho) (op_length _ _ _ _ _ Ho)) as Hlen.
  wp_step. eapply file_write_wp; [done|done|lia..|done|]. intros b1 buf1' Hb1 _ Hc1.
  wp_step. eapply file_write_wp; [eapply moved_opened; [done..|lia]|done|simpl; lia..|done|].
  intros b2 buf2' Hb2 _ Hc2. apply wp_ret. simpl. split; [done|]. split.
  { rewrite lookup_insert_eq. do 2 f_equal. lia. }
  unfold text at 1. simpl. rewrite Hc2. unfold text at 1. simpl. rewrite Hc1. fold (text s ip secs) in *.
  change (content (store s) (data ip) secs) with (text s ip secs) in Hlen.
  set (w1 := slice buf1 0 (n1 - 1) ++ [0]). set (w2 := slice buf2 0 (n2 - 1) ++ [0]).
  assert (zlen w1 = n1) as E1 by (unfold w1; rewrite zlen_app, zlen_slice by lia; simpl; lia).
  assert (zlen w2 = n2) as E2 by (unfold w2; rewrite zlen_app, zlen_slice by lia; simpl; lia).
  assert (zlen (slice buf1 0 (n1 - 2)) = n1 - 2) as E3 by (apply zlen_slice; lia).
  assert (zlen (slice buf1 0 (n1 - 2) ++ w2) = n1 - 2 + n2) as E4 by (rewrite zlen_app; lia).
  apply zlist_eq. intros i.
  rewrite (zget_splice (text s ip secs)) by (fold w2; lia). fold w2.
  rewrite zget_splice by (rewrite ?zlen_splice; lia).
  rewrite zget_splice by lia. rewrite E1, E2, E4.
  rewrite zget_app, E3.
  repeat case_bool_decide; try lia; try done.
  - f_equal. lia.
  - unfold w1. rewrite zget_app, zlen_slice by lia. case_bool_decide; [|lia].
    by rewrite !zget_slice by lia.
Qed.

(* ------------------------------------------------------------------ *)
(** ** Closing                                                         *)
(* ------------------------------------------------------------------ *)

(** The inodes after one opener less. *)
Definition one_less (q : loc) (ip : inode) s : fs B :=
  if open_cnt ip =? 1 then
    set_inodes (delete q (inodes s)) (set_open_inodes (filter (fun p => p <> q) (open_inodes s)) s)
  else set_inodes (<[q := mkInode (sector ip) (open_cnt ip - 1) (removed ip) (deny_write_cnt ip) (data ip)]>
                     (inodes s)) s.

Lemma inode_close_wp s q ip (Q : unit -> fs B -> Prop) :
  inodes s !! q = Some ip -> removed ip = false -> Q tt (one_less q ip s) ->
  wp (inode_close (Some q)) Q s.
Proof.
  intros Hq Hr HQ. unfold inode_close. wp_step. eapply get_inode_wp; [done|].
  unfold one_less in HQ. unfold set_inode, free_inode. wp_step. wp_step. simpl.
  rewrite Hr in HQ |- *. replace (open_cnt ip - 1 =? 0) with (open_cnt ip =? 1) by lia.
  destruct (open_cnt ip =? 1); simpl; [|by apply wp_ret].
  wp_steps. unfold set_inodes, set_open_inodes in *. simpl in *. by rewrite delete_insert_eq.
Qed.

Lemma file_close_wp s fp f ip (Q : unit -> fs B -> Prop) :
  files s !! fp = Some f -> f_deny_write f = false -> inodes s !! f_inode f = Some ip ->
  removed ip = false ->
  Q tt (set_files (delete fp (files s)) (one_less (f_inode f) ip s)) ->
  wp (file_close (Some fp)) Q s.
Proof.
  intros Hf Hd Hi Hr HQ. unfold file_close, file_allow_write. do 2 wp_step. apply wp_assert.
  { by rewrite bool_decide_eq_true_2 by eauto. }
  wp_step. wp_step; [done|]. wp_step. eapply get_file_wp; [done|]. rewrite Hd. wp_step; [done|].
  wp_step. eapply get_file_wp; [done|]. wp_step. eapply inode_close_wp; [done..|].
  unfold free_file. wp_step. revert HQ. unfold one_less. by case_match.
Qed.

(* ------------------------------------------------------------------ *)
(** ** The file table                                                  *)
(* ------------------------------------------------------------------ *)

(** The table as a map from names to open files. *)
Definition table_map (t : list file_table_entry) : gmap string loc :=
  list_to_map ((fun e => (fte_name e, fte_file e)) <$> t).
Definition table_ok s : Prop := NoDup (fte_name <$> file_table s).

Lemma table_map_cons e t : table_map (e :: t) = <[fte_name e := fte_file e]> (table_map t).
Proof. done. Qed.
Lemma find_entry_map fname t : fte_file <$> find_entry fname t = table_map t !! fname.
Proof.
  unfold table_map. induction t as [|e t IH]; simpl; [done|]. unfold streq.
  case_bool_decide as E.
  - by rewrite E, lookup_insert_eq.
  - by rewrite lookup_insert_ne.
Qed.
Lemma find_entry_In fname t : is_Some (find_entry fname t) <-> fname ∈ fte_name <$> t.
Proof.
  induction t as [|e t IH]; simpl; [by rewrite is_Some_alt, elem_of_nil|].
  rewrite elem_of_cons, <- IH. unfold streq. case_bool_decide; naive_solver.
Qed.
Lemma find_entry_fte fname t e : find_entry fname t = Some e -> e ∈ t /\ fte_name e = fname.
Proof.
  induction t as [|e' t IH]; simpl; [done|]. unfold streq. case_bool_decide as E.
  - intros [= ->]. by split; [left|].
  - intros [? ?]%IH. by split; [right|].
Qed.
Lemma table_map_snoc t fname fp :
  table_map t !! fname = None -> table_map (t ++ [mkFte fname fp]) = <[fname := fp]> (table_map t).
Proof.
  unfold table_map. intros H. rewrite fmap_app, list_to_map_app. simpl.
  rewrite insert_empty, insert_union_singleton_r; done.
Qed.
Lemma drop_entry_sub fname t : sublist (drop_entry fname t) t.
Proof.
  induction t as [|e t IH]; simpl; [constructor|]. by case_match; constructor.
Qed.
Lemma drop_entry_map fname t :
  NoDup (fte_name <$> t) -> table_map (drop_entry fname t) = delete fname (table_map t).
Proof.
  induction t as [|e t IH]; [intros _; symmetry; apply delete_empty|].
  rewrite fmap_cons. intros [Hn Ht]%NoDup_cons. rewrite table_map_cons. simpl. unfold streq.
  case_bool_decide as E.
  - subst. rewrite delete_insert_eq, delete_id; [done|]. apply not_elem_of_list_to_map_1.
    by rewrite <- list_fmap_compose.
  - rewrite table_map_cons, IH by done. by rewrite delete_insert_ne.
Qed.

(** What remove_from_file_table does to an entry whose file is not being
    removed. *)
Lemma remove_entry_wp s fname e f ip (Q : bool -> fs B -> Prop) :
  find_entry fname (file_table s) = Some e -> files s !! fte_file e = Some f ->
  f_deny_write f = false -> inodes s !! f_inode f = Some ip -> removed ip = false ->
  Q true (set_file_table (drop_entry fname (file_table s))
            (set_files (delete (fte_file e) (files s)) (one_less (f_inode f) ip s))) ->
  wp (remove_from_file_table fname) Q s.
Proof.
  intros He Hf Hd Hi Hr HQ. unfold remove_from_file_table. wp_step. wp_step. rewrite He.
  wp_step. eapply file_close_wp; [done..|]. wp_steps. revert HQ. unfold one_less. by case_match.
Qed.

(** C35: The table of open files is a map from names to files: names stay
    distinct, a search gives the file of the name, adding keeps the file
    that already has the name, and removing deletes the name, closes its
    file (and its inode with the last opener) and says whether there was
    one. *)
Theorem file_table_is_map s fname fp :
  table_ok s ->
  let m := table_map (file_table s) in
  wp (get_file_by_fname fname) (fun r s' => r = m !! fname /\ s' = s) s /\
  wp (add_to_file_table fp fname) (fun _ s' => table_ok s' /\
    table_map (file_table s') = (if m !! fname is Some _ then m else <[fname := fp]> m) /\
    s' = set_file_table (file_table s') s) s /\
  (m !! fname = None -> wp (remove_from_file_table fname) (fun r s' => r = false /\ s' = s) s) /\
  (forall p f ip, m !! fname = Some p -> files s !! p = Some f -> f_deny_write f = false ->
     inodes s !! f_inode f = Some ip -> removed ip = false ->
     wp (remove_from_file_table fname) (fun r s' => r = true /\ table_ok s' /\
       table_map (file_table s') = delete fname m /\ files s' = delete p (files s) /\
       inodes s' = inodes (one_less (f_inode f) ip s)) s).
Proof.
  intros Hok m.
  assert (forall Q : ptr -> fs B -> Prop, Q (m !! fname) s -> wp (get_file_by_fname fname) Q s) as Hget.
  { intros Q HQ. unfold get_file_by_fname. wp_steps. by rewrite find_entry_map. }
  split; [by apply Hget|]. split; [|split].
  - unfold add_to_file_table. wp_step. apply Hget. destruct (m !! fname) as [q|] eqn:E.
    + apply wp_ret. split_and!; [done..|by destruct s].
    + wp_step. split_and!; [|by apply table_map_snoc|done].
      unfold table_ok. simpl. rewrite fmap_app. apply NoDup_app. split_and!; [done| |apply NoDup_singleton].
      intros x Hx ->%list_elem_of_singleton. simpl in Hx. apply find_entry_In in Hx as [e He].
      unfold m in E. rewrite <- find_entry_map, He in E. done.
  - intros E. unfold remove_from_file_table. wp_step. wp_step. unfold m in E. rewrite <- find_entry_map in E.
    destruct (find_entry fname _); [done|]. by apply wp_ret.
  - intros p f ip E Hf Hd Hi Hr. unfold m in E. rewrite <- find_entry_map in E.
    destruct (find_entry fname (file_table s)) as [e|] eqn:He; [|done]. injection E as <-.
    eapply remove_entry_wp; [done..|]. split; [done|]. unfold table_ok. simpl.
    split; [|split; [by apply drop_entry_map|]].
    + eapply sublist_NoDup; [done|]. apply fmap_sublist, drop_entry_sub.
    + unfold one_less. by case_match.
Qed.

(* ------------------------------------------------------------------ *)
(** ** The free map's file                                             *)
(* ------------------------------------------------------------------ *)

Lemma last_mask_testbit m k :
  0 <= k < 64 -> Z.testbit (last_mask m) k = (bit_cnt m mod 64 =? 0) || (k <? bit_cnt m mod 64).
Proof.
  intros Hk. unfold last_mask, ELEM_BITS. cbv zeta. pose proof (Z.mod_pos_bound (bit_cnt m) 64).
  set (r := bit_cnt m mod 64) in *. destruct (r =? 0) eqn:E; simpl.
  - change (u64 (-1)) with (Z.ones 64). by apply Z.ones_spec_low.
  - rewrite Z.shiftl_1_l.
    assert (0 < 2 ^ r /\ 2 ^ r < 2 ^ 64) as [H1 H2] by (split; [lia|apply Z.pow_lt_mono_r; lia]).
    unfold u64. rewrite (Z.mod_small (2 ^ r)), Z.mod_small by lia.
    replace (2 ^ r - 1) with (Z.ones r) by (rewrite Z.ones_equiv; lia).
    destruct (k <? r) eqn:Ek; [apply Z.ones_spec_low|apply Z.ones_spec_high]; lia.
Qed.

(** Clearing the bits of the last word that stand for nothing keeps the
    bits of the bitmap. *)
Lemma trimmed_bits m w ws :
  Bitmap.wf m -> 0 < bit_cnt m -> zget (bits m) (elem_cnt (bit_cnt m) - 1) = Some w ->
  zset (bits m) (elem_cnt (bit_cnt m) - 1) (Z.land w (last_mask m)) = Some ws ->
  Bitmap.wf (mkBitmap (bit_cnt m) ws) /\
  forall j, 0 <= j < bit_cnt m -> bit (mkBitmap (bit_cnt m) ws) j = bit m j.
Proof.
  intros [Hc Hl Hw] Hp Hg Hs. unfold BITMAP_ERROR in Hc.
  assert (elem_cnt (bit_cnt m) = (bit_cnt m + 63) / 64) as He by (apply elem_cnt_val; lia).
  destruct (zset_inv _ _ _ _ Hs) as (Hi & Hl' & Hz). split; [split; simpl; [done|lia|]|].
  - rewrite Forall_forall. intros x Hx. apply elem_zget in Hx as [i Hx]. rewrite Hz in Hx.
    case_bool_decide; [injection Hx as <-; apply land_mask|]; by eapply (Forall_zget _ _ _ _ Hw).
  - intros j Hj. unfold bit, elem_idx, ELEM_BITS. simpl. rewrite Hz. case_bool_decide as Ej; [|done].
    rewrite Ej, Hg. simpl. rewrite Z.land_spec, last_mask_testbit by (apply Z.mod_pos_bound; lia).
    rewrite (proj2 (orb_true_iff _ _)); [apply andb_true_r|].
    rewrite Z.eqb_eq, Z.ltb_lt. rewrite He in Ej. Z.to_euclidean_division_equations; lia.
Qed.

(** Reading a file that holds a bitmap of this size. *)
Lemma bitmap_read_wp s fp f ip secs ws (Q : bool -> fs B -> Prop) :
  opened s fp f ip secs -> Bitmap.wf (free_map s) -> 0 < bit_cnt (free_map s) ->
  Bitmap.wf (mkBitmap (bit_cnt (free_map s)) ws) -> text s ip secs = words_bytes 8 ws ->
  (forall b' m, same_store (store s) b' -> Bitmap.wf m -> bit_cnt m = bit_cnt (free_map s) ->
     (forall j, 0 <= j < bit_cnt m -> bit m j = bit (mkBitmap (bit_cnt m) ws) j) ->
     Q true (set_free_map m (set_store b' s))) ->
  wp (bitmap_read fp) Q s.
Proof.
  intros [] Hwf Hp Hws Ht HQ. unfold bitmap_read. wp_step. wp_step.
  assert (0 < bit_cnt (free_map s) < BITMAP_ERROR) as Hb by (split; [done|apply Hwf]).
  destruct (byte_cnt_val _ Hb) as [_ Hbound]. rewrite (proj2 (Z.ltb_lt 0 _)) by done.
  assert (i32 (byte_cnt (bit_cnt (free_map s))) = byte_cnt (bit_cnt (free_map s))) as ->.
  { unfold i32. rewrite Z.mod_small; lia. }
  pose proof (byte_cnt_bits _ Hws Hp) as Hz. simpl in Hz.
  pose proof (byte_cnt_bits _ Hwf Hp) as Hz0.
  unfold file_read_at. wp_step. wp_step. eapply get_file_wp; [done|].
  eapply inode_read_at_wp; [done..|lia|lia|]. fold (text s ip secs). rewrite Ht, <- Hz, slice_all.
  intros b' Hb'. rewrite splice_all by lia.
  assert (length (bits (free_map s)) = length ws) as Hlw.
  { rewrite !length_words_bytes in *. lia. }
  assert (bytes_words 8 (length (bits (free_map s))) (words_bytes 8 ws) = ws) as ->.
  { rewrite Hlw. rewrite <- (app_nil_r (words_bytes 8 ws)). apply bytes_words_bytes, Hws. }
  pose proof (wf_len _ Hws) as Hlen. simpl in Hlen.
  destruct (zget_ex ws (elem_cnt (bit_cnt (free_map s)) - 1)) as [w Hw].
  { unfold BITMAP_ERROR in Hb. rewrite elem_cnt_val in Hlen |- * by lia.
    Z.to_euclidean_division_equations; lia. }
  wp_step. eapply wp_need; [done|].
  destruct (zset_ex ws (elem_cnt (bit_cnt (free_map s)) - 1) (Z.land w (last_mask (free_map s))))
    as [ws' Hs]; [by eapply zget_range|].
  destruct (trimmed_bits (mkBitmap (bit_cnt (free_map s)) ws) w ws') as [Hw' Hbits]; [done..|].
  wp_step. eapply wp_need; [done|]. wp_steps. rewrite Z.eqb_refl. by apply HQ.
Qed.

Lemma free_map_init_wp s n (Q : unit -> fs B -> Prop) :
  2 < n < 2 ^ 32 ->
  (forall m, Bitmap.wf m -> bit_cnt m = n - 1 -> Q tt (set_free_map m s)) ->
  wp (free_map_init n) Q s.
Proof.
  intros Hn HQ. unfold free_map_init. wp_step. unfold u32. rewrite Z.mod_small by lia.
  apply bitmap_create_wp; [unfold BITMAP_ERROR; lia|]. intros m Hm Hc _.
  do 2 wp_step. unfold on_free_map, FREE_MAP_SECTOR, ROOT_DIR_SECTOR. wp_step. wp_step.
  apply bitmap_mark_wp; [done|simpl; lia|]. intros m1 (Hm1 & Hc1 & _). simpl in Hc1.
  wp_step. simpl. apply bitmap_mark_wp; [done|lia|]. intros m2 (Hm2 & Hc2 & _). apply HQ; [done|lia].
Qed.

(** C34: Round trip through a restart: when the free map's file holds the
    bitmap, as every allocation and release leaves it, and its inode is in
    sector 0, a new session on the same device (inode_init, free_map_init,
    free_map_open) has the same bits in memory, and its free map is sound
    again. *)
Theorem restart_restores_free_map s fp fl ip secs s2 :
  free_map_ok s fp fl ip secs -> on_disk s ip secs -> inode_disk_ok (data ip) ->
  bs_sector (store s) FREE_MAP_SECTOR = encode_inode (data ip) -> 0 < bs_size (store s) ->
  1 < bit_cnt (free_map s) -> same_store (store s) (store s2) ->
  wp (inode_init ;; free_map_init (bit_cnt (free_map s) + 1) ;; free_map_open)
     (fun _ s3 => bit_cnt (free_map s3) = bit_cnt (free_map s) /\
        (forall j, 0 <= j < bit_cnt (free_map s) -> bit (free_map s3) j = bit (free_map s) j) /\
        exists fp' fl' ip', free_map_ok s3 fp' fl' ip' secs /\ data ip' = data ip) s2.
Proof.
  intros [] Hd Hdok Hsec Hsize Hcnt Hs. pose proof (wf_cnt _ fm_wf0) as Hb. unfold BITMAP_ERROR in Hb.
  unfold inode_init. wp_steps. apply free_map_init_wp; [lia|]. intros m0 Hm0 Hc0.
  unfold free_map_open. wp_step. destruct (in_range_size (store s) (store s2) FREE_MAP_SECTOR) as [H1 H2];
    [apply Hs|unfold in_range, FREE_MAP_SECTOR; lia|].
  apply inode_open_wp; [apply Hs|done|by apply Forall_nil|].
  intros b1 Hb1. unfold file_open, malloc, set_file. simpl store in *.
  rewrite (ss_sector _ _ Hs), Hsec, decode_encode_inode by (done || (unfold in_range, FREE_MAP_SECTOR; lia)).
  assert (same_store (store s) b1) as Hsb by by eapply same_store_trans.
  assert (file_ok b1 (data ip) secs) as Hf1.
  { eapply file_ok_changes; [by apply same_changes_only|done]. }
  wp_steps.
  destruct (byte_cnt_val (bit_cnt (free_map s))) as [_ Hbound]; [unfold BITMAP_ERROR; lia|].
  eapply (bitmap_read_wp _ _ _ _ secs (bits (free_map s))).
  - split; simpl; [apply Hb1|apply lookup_insert_eq|apply lookup_insert_eq|exact Hf1|simpl; lia|done].
  - exact Hm0.
  - simpl. lia.
  - simpl. rewrite Hc0. replace (bit_cnt (free_map s) + 1 - 1) with (bit_cnt (free_map s)) by lia.
    by destruct (free_map s).
  - unfold text. simpl. rewrite (content_same (store s)) by done. exact Hd.
  - simpl. intros b2 m Hb2 Hm Hcm Hbits. wp_steps.
    assert (bit_cnt m = bit_cnt (free_map s)) as Hcm' by lia.
    split; [done|]. split.
    { intros j Hj. rewrite Hbits by lia. rewrite Hcm'. by destruct (free_map s). }
    exists (Pos.succ (brk s2)), (mkFile (brk s2) 0 false), (mkInode FREE_MAP_SECTOR 1 false 0 (data ip)).
    split; [|done]. split; simpl; try done; [apply Hb2|lia|apply lookup_insert_eq..| |by rewrite Hcm'].
    eapply file_ok_changes; [by apply same_changes_only|done].
Qed.
End props.

(* ------------------------------------------------------------------ *)
(** ** Witnesses                                                       *)
(* ------------------------------------------------------------------ *)

#[local] Existing Instance Cache.cache_store.

(** File 5 of demo_fs open at position 509, as "notes". *)
Definition demo_file : file := mkFile 5 509 false.
Definition demo_open : fs Cache.cache :=
  set_file_table [mkFte "notes" 3] (set_files {[1%positive := mkFile 2 0 false; 3%positive := demo_file]} (demo_fs [31])).

Lemma demo_opened : opened demo_open 3 demo_file demo_inode [4; 3].
Proof. split; [apply demo_cache_inv|by vm_compute..|apply demo_file_ok|by vm_compute|by vm_compute]. Qed.

Lemma reads_in_pieces_witness :
  Forall (Z.le 0) [2; 0; 3; 500] /\
  wp (read_pieces 3 [2; 0; 3; 500]) (fun pieces s' =>
    concat pieces = replicate 3 4 ++ replicate 88 3 /\
    files s' !! 3%positive = Some (mkFile 5 600 false)) demo_open.
Proof.
  split; [by repeat constructor|]. eapply wp_mono.
  { apply (reads_in_pieces [2; 0; 3; 500] demo_open 3 demo_file demo_inode [4; 3]);
      [apply demo_opened|by repeat constructor]. }
  intros pieces s' (E & b' & _ & Hf & _). rewrite E in Hf |- *. split; [by vm_compute|].
  rewrite Hf. by vm_compute.
Defined.

Lemma consecutive_writes_overlap_witness :
  wp (let! r1 := file_write 3 [65; 66; 67; 10] 4 in let! r2 := file_write 3 [68; 69; 10] 3 in ret (fst r1, fst r2))
     (fun r s' => r = (4, 3) /\ slice (text s' demo_inode [4; 3]) 507 8 = [4; 4; 65; 66; 68; 69; 0; 3]) demo_open.
Proof.
  eapply wp_mono.
  { apply (consecutive_writes_overlap demo_open 3 demo_file demo_inode [4; 3] [65; 66; 67; 10] [68; 69; 10] 4 3);
      [apply demo_opened|by vm_compute..|repeat constructor; lia|repeat constructor; lia]. }
  intros r s' (-> & _ & ->). split; [done|by vm_compute].
Defined.

Lemma file_table_is_map_witness :
  wp (add_to_file_table 7 "notes") (fun _ s' => table_map (file_table s') = {["notes"%string := 3%positive]}) demo_open /\
  wp (remove_from_file_table "notes") (fun r s' => r = true /\ table_map (file_table s') = ∅) demo_open.
Proof.
  assert (table_ok demo_open) as Hok by by apply NoDup_singleton.
  destruct (file_table_is_map demo_open "notes" 7 Hok) as (_ & Hadd & _ & Hrm). split.
  - eapply wp_mono; [exact Hadd|]. intros u s' (_ & -> & _). by vm_compute.
  - eapply wp_mono; [apply (Hrm 3%positive demo_file demo_inode); by vm_compute|].
    intros r s' (-> & _ & -> & _). split; [done|]. by vm_compute.
Defined.

(** A formatted disk: the inode of the free map's file in sector 0, its
    8 bytes in sector 2. *)
Definition formatted_image : list Z :=
  encode_inode (data demo_map_inode) ++ replicate 512 1 ++ le_bytes 8 23 ++ replicate (504 + 5 * 512) 0.
Definition formatted_fs : fs Cache.cache :=
  set_free_map (mkBitmap 7 [23])
    (set_store (Cache.static_cache (Block.identify_ata_device formatted_image)) (demo_fs [23])).
Definition other_session : fs Cache.cache :=
  mkFs Cache.cache (store formatted_fs) (mkBitmap 0 []) None [] ∅ ∅ ∅ None [] 1.

Lemma formatted_inv : bs_inv (store formatted_fs).
Proof.
  apply Cache.static_cache_inv. split; [vm_compute; split; congruence|by vm_compute|].
  apply (bool_decide_unpack (Forall (fun b => 0 <= b < 256) _)). by vm_compute.
Qed.

Lemma restart_restores_free_map_witness :
  wp (inode_init ;; free_map_init 8 ;; free_map_open)
     (fun _ s3 => map (bit (free_map s3)) [0; 1; 2; 3; 4; 5; 6] = [true; true; true; false; true; false; false])
     other_session.
Proof.
  eapply wp_mono.
  { apply (restart_restores_free_map formatted_fs 1 (mkFile 2 0 false) demo_map_inode [2] other_session).
    - split; [apply formatted_inv|split; [done|by vm_compute|by repeat constructor]|by vm_compute..| |by vm_compute].
      apply direct_file_ok; [by vm_compute..| |apply (bool_decide_unpack _); by vm_compute].
      repeat constructor; by vm_compute.
    - by vm_compute.
    - split; try done; repeat constructor; done.
    - by vm_compute.
    - by vm_compute.
    - by vm_compute.
    - apply same_store_refl, formatted_inv. }
  intros u s3 (_ & Hb & _). simpl map. rewrite !Hb by (vm_compute; split; congruence). by vm_compute.
Defined.
End FilesProps.
