(* ===== verification/Directory.v ===== *)
(** * Directory: directories and paths (a3/fs/directory.c)

    A directory is a file of entries of 36 bytes; its first entry names
    the parent.  The [struct dir] of cwd is shared: dir_open_root counts
    its users. *)
From Stdlib Require Import Ascii.
From S2P Require Import Prelude Bitmap Store FsState Inode FileData FreeMap CString Files.

Module Directory.
Import Bitmap FsState Inode Files.

(* ------------------------------------------------------------------ *)
(** ** Names and paths                                                 *)
(* ------------------------------------------------------------------ *)

Definition NAME_MAX : Z := 30.

(** The bytes of a C string without its terminator. *)
Definition bytes_of (s : string) : list Z := map (fun c => Z.of_nat (nat_of_ascii c)) (chars s).

(** The pieces between the characters '/', as strtok_r(s, "/", &p) returns
    them: the empty ones are skipped. *)
Fixpoint tokens_from (w : string) (s : string) : list string :=
  let flush l := match w with EmptyString => l | _ => w :: l end in
  match s with
  | EmptyString => flush []
  | String c s => if Ascii.eqb c "/" then flush (tokens_from EmptyString s) else tokens_from (snoc w c) s
  end.
Definition tokens (s : string) : list string := tokens_from EmptyString s.

(** What split_path_filename writes to its two buffers. *)
Definition split_path_filename (path : string) : string * string :=
  let dir := match path with String "/" _ => "/"%string | _ => EmptyString end in
  fold_left (fun '(dir, last_token) token =>
    (if 0 <? strlen last_token then (dir +:+ last_token +:+ "/")%string else dir, token))
    (tokens path) (dir, EmptyString).

(* ------------------------------------------------------------------ *)
(** ** Entries                                                         *)
(* ------------------------------------------------------------------ *)

(** struct dir_entry: 4 bytes, the 31 bytes of the name, a bool. *)
Record dir_entry := mkEntry { inode_sector : Z; name : list Z; in_use : Z }.
Definition sizeof_entry : Z := 36.
Definition encode_entry (e : dir_entry) : list Z := le_bytes 4 (inode_sector e) ++ name e ++ [in_use e].
Definition decode_entry (bs : list Z) : dir_entry :=
  mkEntry (le_value (slice bs 0 4)) (slice bs 4 31) (le_value (slice bs 35 1)).
Definition used (e : dir_entry) : bool := negb (in_use e =? 0).

(** strcmp(s, b) == 0 where [b] is an array of bytes: [None] when the
    comparison runs past its end. *)
Fixpoint strcmp_eq (s b : list Z) : option bool :=
  match s, b with
  | _, [] => None
  | [], y :: _ => Some (y =? 0)
  | x :: s, y :: b => if x =? y then strcmp_eq s b else Some false
  end.

(** strncpy(dst, s, n): [n] bytes of [s] up to its NUL, padded with NUL. *)
Fixpoint until_nul (s : list Z) : list Z :=
  match s with [] => [] | x :: s => if x =? 0 then [] else x :: until_nul s end.
Definition strncpy (s : list Z) (n : nat) : list Z := take n (until_nul s ++ replicate n 0).

Section ops.
Context {B : Type} `{!BlockStore B}.

Definition get_dir (p : loc) : M (fs B) dir := let! s := get in need (dirs s !! p).
Definition set_dir (p : loc) (d : dir) : M (fs B) unit :=
  modify (fun s => set_dirs (<[p := d]> (dirs s)) s).
Definition free_dir (p : loc) : M (fs B) unit := modify (fun s => set_dirs (delete p (dirs s)) s).

(** One entry at [ofs]: [None] at the end of the file. *)
Definition read_entry_at (inode : loc) (ofs : Z) : M (fs B) (option dir_entry) :=
  let! bs := inode_read_at inode sizeof_entry ofs in
  ret (if zlen bs =? sizeof_entry then Some (decode_entry bs) else None).
Definition write_entry_at (inode : loc) (e : dir_entry) (ofs : Z) : M (fs B) bool :=
  let! n := inode_write_at inode (encode_entry e) sizeof_entry ofs in
  ret (n =? sizeof_entry).

(** A loop over the entries of a directory has one turn for each, and the
    one that finds the end. *)
Definition dir_walk {X R} (inode : loc) (body : X -> M (fs B) (X + R)) (x : X) : M (fs B) R :=
  let! ip := get_inode inode in
  while_ (Z.to_nat (length_ (data ip) / sizeof_entry + 2)) body x.

(* ------------------------------------------------------------------ *)
(** ** Opening and closing                                             *)
(* ------------------------------------------------------------------ *)

Definition dir_open (inode : ptr) : M (fs B) ptr :=
  let! p := malloc in
  match inode with
  | Some i => set_dir p (mkDir i sizeof_entry 1) ;; ret (Some p)
  | None => inode_close inode ;; ret None
  end.

(** Closing any directory for good resets cwd. *)
Definition dir_close (dir : ptr) : M (fs B) unit :=
  match dir with
  | None => ret tt
  | Some p =>
      let! d := get_dir p in
      let n := d_open_cnt d - 1 in
      set_dir p (mkDir (d_inode d) (d_pos d) n) ;;
      when (n =? 0)
        (inode_close (Some (d_inode d)) ;;
         free_dir p ;;
         modify (set_cwd None))
  end.

Definition dir_get_inode (dir : ptr) : M (fs B) loc :=
  assert_ (bool_decide (is_Some dir)) "dir != NULL" ;;
  let! p := need dir in
  let! d := get_dir p in
  ret (d_inode d).

Definition dir_reopen (dir : loc) : M (fs B) ptr :=
  let! d := get_dir dir in
  let! i := inode_reopen (d_inode d) in
  dir_open (Some i).

Definition dir_create (sector entry_cnt : Z) : M (fs B) bool :=
  let! success := inode_create sector (i32 (u64 (entry_cnt * sizeof_entry))) true in
  if negb success then ret false else
  let! i := inode_open sector in
  let! dir := dir_open (Some i) in
  assert_ (bool_decide (is_Some dir)) "dir != NULL" ;;
  let e := mkEntry sector (replicate 31 0) 1 in
  let! p := need dir in
  let! d := get_dir p in
  let! ok := write_entry_at (d_inode d) e 0 in
  dir_close dir ;;
  ret ok.

Definition dir_open_root : M (fs B) ptr :=
  let! s := get in
  match cwd s with
  | None =>
      let! i := inode_open ROOT_DIR_SECTOR in
      let! d := dir_open (Some i) in
      modify (set_cwd d) ;;
      ret d
  | Some c =>
      let! d := get_dir c in
      set_dir c (mkDir (d_inode d) (d_pos d) (d_open_cnt d + 1)) ;;
      ret (Some c)
  end.

(* ------------------------------------------------------------------ *)
(** ** Searching                                                       *)
(* ------------------------------------------------------------------ *)

(** The entry and its offset. *)
Definition lookup (dir : ptr) (nm : string) : M (fs B) (option (dir_entry * Z)) :=
  assert_ (bool_decide (is_Some dir)) "dir != NULL" ;;
  let! p := need dir in
  let! d := get_dir p in
  dir_walk (d_inode d) (fun ofs =>
    let! r := read_entry_at (d_inode d) ofs in
    match r with
    | None => ret (inr None)
    | Some e =>
        if used e then
          let! eq := need (strcmp_eq (bytes_of nm) (name e)) in
          ret (if eq : bool then inr (Some (e, ofs)) else inl (ofs + sizeof_entry))
        else ret (inl (ofs + sizeof_entry))
    end) sizeof_entry.

Definition dir_is_empty (dir : loc) : M (fs B) bool :=
  let! d := get_dir dir in
  dir_walk (d_inode d) (fun ofs =>
    let! r := read_entry_at (d_inode d) ofs in
    ret (match r with
         | None => inr true
         | Some e => if used e then inr false else inl (ofs + sizeof_entry)
         end)) sizeof_entry.

(** [*inode]. *)
Definition dir_lookup (dir : ptr) (nm : string) : M (fs B) ptr :=
  assert_ (bool_decide (is_Some dir)) "dir != NULL" ;;
  let! p := need dir in
  let! d := get_dir p in
  if streq nm "." then let! i := inode_reopen (d_inode d) in ret (Some i)
  else if streq nm ".." then
    (* a short read leaves the rest of the entry unset *)
    let! bs := inode_read_at (d_inode d) sizeof_entry 0 in
    let! sector := need (if 4 <=? zlen bs then Some (le_value (slice bs 0 4)) else None) in
    let! i := inode_open sector in ret (Some i)
  else
    let! r := lookup dir nm in
    match r with
    | Some (e, _) => let! i := inode_open (inode_sector e) in ret (Some i)
    | None => ret None
    end.

Definition dir_open_path (path : string) : M (fs B) ptr :=
  let! curr :=
    (match path with
     | String "/" _ => dir_open_root
     | _ =>
         let! s := get in
         match cwd s with None => dir_open_root | Some c => dir_reopen c end
     end) in
  let! r := (fix walk ts curr :=
    match ts with
    | [] => ret (Some curr)
    | token :: ts =>
        let! inode := dir_lookup curr token in
        match inode with
        | None => dir_close curr ;; ret None
        | Some _ =>
            let! next := dir_open inode in
            match next with
            | None => dir_close curr ;; ret None
            | Some _ => dir_close curr ;; walk ts next
            end
        end
    end) (tokens path) curr in
  match r with
  | None => ret None
  | Some curr =>
      let! i := dir_get_inode curr in
      let! removed := inode_is_removed i in
      if removed : bool then dir_close curr ;; ret None else ret curr
  end.

(* ------------------------------------------------------------------ *)
(** ** Changing                                                        *)
(* ------------------------------------------------------------------ *)

(** [junk]: the 31 bytes that are on the stack in place of the name of the
    entry, which dir_add writes to the disk for a directory. *)
Definition dir_add (junk : list Z) (dir : ptr) (nm : string) (sector : Z) (is_dir : bool) : M (fs B) bool :=
  assert_ (bool_decide (is_Some dir)) "dir != NULL" ;;
  if streq nm "" || (NAME_MAX <? strlen nm) then ret false else
  let! r := lookup dir nm in
  match r with
  | Some _ => ret false
  | None =>
      let! p := need dir in
      let! go :=
        (if is_dir then
           let! i := inode_open sector in
           let! child_dir := dir_open (Some i) in
           match child_dir with
           | None => ret false
           | Some c =>
               let! pi := dir_get_inode dir in
               let! parent := inode_get_inumber pi in
               let! cd := get_dir c in
               let! ok := write_entry_at (d_inode cd) (mkEntry parent junk 1) 0 in
               dir_close child_dir ;;
               ret ok
           end
         else ret true) in
      if negb go then ret false else
      let! d := get_dir p in
      let! ofs := dir_walk (d_inode d) (fun ofs =>
        let! r := read_entry_at (d_inode d) ofs in
        ret (match r with
             | None => inr ofs
             | Some e => if used e then inl (ofs + sizeof_entry) else inr ofs
             end)) 0 in
      write_entry_at (d_inode d) (mkEntry sector (strncpy (bytes_of nm) 31) 1) ofs
  end.

Definition dir_remove (dir : ptr) (nm : string) : M (fs B) bool :=
  assert_ (bool_decide (is_Some dir)) "dir != NULL" ;;
  let! r := lookup dir nm in
  match r with
  | None => inode_close None ;; ret false
  | Some (e, ofs) =>
      let! inode := inode_open (inode_sector e) in
      let! is_directory := inode_is_directory inode in
      let! is_empty :=
        (if is_directory : bool then
           let! target := dir_open (Some inode) in
           let! t := need target in
           let! is_empty := dir_is_empty t in
           dir_close target ;;
           ret is_empty
         else ret true) in
      let! success :=
        (if negb is_empty then ret false else
         let! p := need dir in
         let! d := get_dir p in
         let! ok := write_entry_at (d_inode d) (mkEntry (inode_sector e) (name e) 0) ofs in
         if negb ok then ret false else
         inode_remove inode ;;
         ret true) in
      inode_close (Some inode) ;;
      ret success
  end.

(** The bytes copied to [name] and the sector of the entry. *)
Definition readdir_entry (dir : loc) : M (fs B) (option dir_entry) :=
  let! d := get_dir dir in
  dir_walk (d_inode d) (fun _ =>
    let! d := get_dir dir in
    let! r := read_entry_at (d_inode d) (d_pos d) in
    match r with
    | None => ret (inr None)
    | Some e =>
        set_dir dir (mkDir (d_inode d) (d_pos d + sizeof_entry) (d_open_cnt d)) ;;
        ret (if used e then inr (Some e) else inl tt)
    end) tt.
Definition dir_readdir (dir : loc) : M (fs B) (option (list Z)) :=
  let! r := readdir_entry dir in
  ret ((fun e => strncpy (name e) 31) <$> r).
Definition dir_readdir_inode (dir : loc) : M (fs B) (Z * option (list Z)) :=
  let! r := readdir_entry dir in
  ret (match r with Some e => (inode_sector e, Some (strncpy (name e) 31)) | None => (UNSET, None) end).
End ops.
End Directory.
