(* ===== verification/DemoDisk.v ===== *)
(** * DemoDisk: a small formatted disk, on which the properties of the
    directory layer are exercised

    Ten sectors: the free map's inode (0) and data (2), the root directory
    (inode 1, data 3) with the entries ["a.txt"] (inode 4, 600 bytes in 5
    and 7), three that are not used, and the empty directory ["sub"] (inode 6,
    data 8). *)
From S2P Require Import Prelude Bitmap Block Store Cache FsState Inode FileData FreeMap FileProps CString Files Directory.

Module DemoDisk.
Import Bitmap FsState Inode FileData FreeMap FileProps Directory.
#[local] Existing Instance Cache.cache_store.

Definition file_at (secs : list Z) (length dir : Z) : inode_disk :=
  mkInodeDisk (secs ++ replicate (123 - List.length secs) 0) 0 0 dir [0; 0; 0] length INODE_MAGIC.

Definition map_disk : inode_disk := file_at [2] 8 0.
Definition root_disk : inode_disk := file_at [3] 216 1.
Definition a_txt : inode_disk := file_at [5; 7] 600 0.
Definition sub_disk : inode_disk := file_at [8] 72 1.

Definition entry_at (sec : Z) (nm : string) (flag : Z) : dir_entry := mkEntry sec (strncpy (bytes_of nm) 31) flag.
Definition root_entries : list dir_entry :=
  [entry_at 1 "" 1; entry_at 4 "a.txt" 1; entry_at 0 "" 0; entry_at 6 "sub" 1; entry_at 0 "" 0; entry_at 0 "" 0].
Definition sub_entries : list dir_entry := [entry_at 1 "" 1; entry_at 0 "" 0].

Definition pad_sector (bs : list Z) : list Z := bs ++ replicate (512 - length bs) 0.
Definition image : list Z :=
  flat_map pad_sector
    [encode_inode map_disk; encode_inode root_disk; le_bytes 8 511; flat_map encode_entry root_entries;
     encode_inode a_txt; replicate 512 5; encode_inode sub_disk; replicate 512 7; flat_map encode_entry sub_entries; []].

Definition disk : Cache.cache := Cache.static_cache (Block.identify_ata_device image).

(** A session with the free map and the root directory open. *)
Definition map_inode : inode := mkInode 0 1 false 0 map_disk.
Definition root_inode : inode := mkInode 1 1 false 0 root_disk.
Definition root_dir : dir := mkDir 5 36 1.
Definition session : fs Cache.cache :=
  mkFs Cache.cache disk (mkBitmap 10 [511]) (Some 1%positive) [5%positive; 2%positive]
       {[2%positive := map_inode; 5%positive := root_inode]}
       {[1%positive := mkFile 2 0 false]} {[6%positive := root_dir]} (Some 6%positive) [] 9.

Lemma disk_inv : bs_inv disk.
Proof.
  apply Cache.static_cache_inv. split; [vm_compute; split; congruence|by vm_compute|].
  apply (bool_decide_unpack (Forall (fun b => 0 <= b < 256) _)). by vm_compute.
Qed.

Ltac disk_file :=
  apply direct_file_ok; [by vm_compute..| |apply (bool_decide_unpack _); by vm_compute];
  repeat constructor; by vm_compute.

Lemma map_file_ok : file_ok disk map_disk [2].
Proof. disk_file. Qed.
Lemma root_file_ok : file_ok disk root_disk [3].
Proof. disk_file. Qed.
Lemma a_txt_file_ok : file_ok disk a_txt [5; 7].
Proof. disk_file. Qed.
Lemma sub_file_ok : file_ok disk sub_disk [8].
Proof. disk_file. Qed.

Lemma session_map_ok : free_map_ok session 1 (mkFile 2 0 false) map_inode [2].
Proof.
  split; [apply disk_inv|split; [done|by vm_compute|by repeat constructor]|done|done|done|done|done| |by vm_compute].
  apply map_file_ok.
Qed.
End DemoDisk.
