(* ===== verification/Extend.v ===== *)
(** * Extend: writing past the end of a file (inode_reserve and
    inode_write_at of a3/fs/inode.c) *)
From S2P Require Import Prelude Bitmap Block Store Cache FsState Inode FileData FreeMap FileProps Dealloc Grow CString Files Directory DemoDisk.

Module Extend.
Import Bitmap FsState Inode FileData FreeMap FileProps Dealloc Grow.

(** The sectors a file with [n] data sectors takes, indirect ones
    included. *)
Definition sectors_for (n : Z) : Z :=
  n + (if 123 <? n then 1 else 0) + (if 251 <? n then 1 + (n - 251 + 127) / 128 else 0).

Lemma sectors_for_parts n : 0 <= n ->
  sectors_for n = nodes_for 0 (Z.min n 123) + nodes_for 1 (Z.max 0 (Z.min 128 (n - 123)))
                  + nodes_for 2 (Z.max 0 (n - 251)).
Proof.
  intros Hn. unfold sectors_for, nodes_for. destruct (123 <? n) eqn:E1, (251 <? n) eqn:E2; try lia.
  - rewrite !(proj2 (Z.ltb_lt 0 _)) by lia. rewrite (Z.max_r 0 (n - 251)) by lia. lia.
  - rewrite (proj2 (Z.ltb_lt 0 _)), (proj2 (Z.ltb_ge 0 _)) by lia. lia.
  - rewrite !(proj2 (Z.ltb_ge 0 _)) by lia. lia.
Qed.

Lemma sectors_for_ge n : 0 <= n -> n <= sectors_for n.
Proof.
  intros Hn. unfold sectors_for. destruct (251 <? n) eqn:E; [|case_match; lia].
  assert (0 <= (n - 251 + 127) / 128) by (apply Z.div_pos; lia). case_match; lia.
Qed.
Lemma parts_app (q1 q2 q3 : list Z) m :
  zlen q1 = Z.min m 123 -> zlen q2 = Z.max 0 (Z.min 128 (m - 123)) -> zlen q3 = Z.max 0 (m - 251) -> 0 <= m ->
  part1 (q1 ++ q2 ++ q3) = q1 /\ part2 (q1 ++ q2 ++ q3) = q2 /\ part3 (q1 ++ q2 ++ q3) = q3 /\
  zlen (q1 ++ q2 ++ q3) = m.
Proof.
  intros L1 L2 L3 Hm. unfold part1, part2, part3, slice. change (Z.to_nat 123) with 123%nat.
  change (Z.to_nat 128) with 128%nat. rewrite !zlen_app. destruct (decide (m <= 123)).
  { rewrite (nil_length_inv q2), (nil_length_inv q3), !app_nil_r by lia. rewrite !drop_ge, take_ge by lia.
    split_and!; [done..|]. simpl. lia. }
  rewrite (take_app_length' q1), (drop_app_length' q1) by lia. destruct (decide (m <= 251)).
  { rewrite (nil_length_inv q3), !app_nil_r, (take_ge q2), drop_ge by (rewrite ?length_app; lia).
    split_and!; [done..|]. simpl. lia. }
  rewrite (take_app_length' q2) by lia. rewrite app_assoc, drop_app_length' by (rewrite length_app; lia).
  split_and!; [done..|]. lia.
Qed.
Lemma parts_grow (secs f1 f2 f3 : list Z) m :
  zlen secs <= m ->
  zlen (part1 secs ++ f1) = Z.min m 123 -> zlen (part2 secs ++ f2) = Z.max 0 (Z.min 128 (m - 123)) ->
  zlen (part3 secs ++ f3) = Z.max 0 (m - 251) ->
  let secs' := secs ++ f1 ++ f2 ++ f3 in
  part1 secs' = part1 secs ++ f1 /\ part2 secs' = part2 secs ++ f2 /\ part3 secs' = part3 secs ++ f3 /\
  zlen secs' = m.
Proof.
  intros Hm L1 L2 L3 secs'. destruct (zlen_parts secs) as (P1 & P2 & P3).
  assert (secs' = (part1 secs ++ f1) ++ (part2 secs ++ f2) ++ (part3 secs ++ f3)) as ->; [|by apply parts_app; lia].
  unfold secs'. rewrite (secs_split secs) at 1. rewrite !zlen_app in *. rewrite <- !app_assoc. f_equal.
  destruct (decide (zlen secs < 123)); [by rewrite (nil_length_inv (part2 secs)), (nil_length_inv (part3 secs)) by lia|].
  rewrite (nil_length_inv f1) by lia. simpl. f_equal.
  destruct (decide (zlen secs < 251)); [by rewrite (nil_length_inv (part3 secs)) by lia|].
  by rewrite (nil_length_inv f2) by lia.
Qed.

Section extend.
Context {B : Type} `{!BlockStore B}.
Implicit Types (b : B) (s : fs B) (d : inode_disk).

(** The indirect sectors of a file. *)
Definition metas b d : list Z := inner b 1 (indirect_block d) ++ inner b 2 (doubly_indirect_block d).

Lemma elem_metas b d t :
  t ∈ metas b d <-> t ∈ inner b 1 (indirect_block d) \/ t ∈ inner b 2 (doubly_indirect_block d).
Proof. unfold metas. by rewrite elem_of_app. Qed.
Lemma metas_frame b b' d :
  (forall t, t ∈ metas b d -> bs_sector b' t = bs_sector b t) -> metas b' d = metas b d.
Proof.
  intros Hb. unfold metas.
  rewrite (inner_frame b b' 1), (inner_frame b b' 2); [done|..]; intros t Ht; apply Hb, elem_metas; auto.
Qed.

(** The fields inode_reserve leaves alone. *)
Record same_fields d d' : Prop := {
  sf_is_dir : is_dir d' = is_dir d;
  sf_pad : pad d' = pad d;
  sf_length : length_ d' = length_ d;
  sf_magic : magic d' = magic d
}.

Section session.
Context (fp : loc) (fl : file) (mip : inode) (msecs : list Z).
Notation ground := (ground fp fl mip msecs).
Notation mine := (mine mip msecs).
Notation grown := (grown fp fl mip msecs).

(** A file whose data is in [p1], [p2] and [p3], below its direct, its
    indirect and its doubly indirect entries; no sector has two uses. *)
Record shape s d (p1 p2 p3 : list Z) : Prop := {
  sh_direct : zlen (direct_blocks d) = 123;
  sh_part1 : forest (store s) 0 (direct_blocks d) p1;
  sh_part2 : tree (store s) 1 (indirect_block d) p2;
  sh_part3 : tree (store s) 2 (doubly_indirect_block d) p3;
  sh_mine : mine s ((p1 ++ p2 ++ p3) ++ metas (store s) d);
  sh_nodup : NoDup ((p1 ++ p2 ++ p3) ++ metas (store s) d)
}.

(** What growing does to the file: the data sectors [fresh] are new, and
    [news] were taken from the free map for them and for indirect sectors. *)
Record gained s d (fresh news : list Z) s' d' : Prop := {
  ga_grown : grown s news (metas (store s) d) s';
  ga_fields : same_fields d d';
  ga_perm : fresh ++ metas (store s') d' ≡ₚ metas (store s) d ++ news;
  ga_zero : forall t, t ∈ fresh -> bs_sector (store s') t = zeros
}.

Lemma gained_refl s d : ground s -> gained s d [] [] s d.
Proof.
  intros Hg. split; [|done|by rewrite app_nil_r|by intros t ?%not_elem_of_nil].
  eapply grown_weaken; [by apply grown_refl|]. by intros t ?%not_elem_of_nil.
Qed.

(** Sectors in use after growing. *)
Lemma gained_sectors s d l fresh news s' d' :
  ground s -> mine s (l ++ metas (store s) d) -> NoDup (l ++ metas (store s) d) ->
  gained s d fresh news s' d' ->
  mine s' ((l ++ fresh) ++ metas (store s') d') /\ NoDup ((l ++ fresh) ++ metas (store s') d').
Proof.
  intros Hg Hm Hn [Gg _ Gp _].
  assert ((l ++ fresh) ++ metas (store s') d' ≡ₚ (l ++ metas (store s) d) ++ news) as Hall.
  { rewrite <- !app_assoc. by apply Permutation_app_head. }
  split.
  - eapply mine_sub; [|intros t Ht; rewrite Hall in Ht; exact Ht]. apply mine_app. split.
    + by eapply grown_mine.
    + by eapply grown_mine_news.
  - rewrite Hall. apply NoDup_app. split_and!; [done| |by eapply grown_nodup].
    intros t Ht Hin. by eapply (grown_new_old _ _ _ _ s news).
Qed.
Lemma gained_data s d l fresh news s' d' t :
  ground s -> mine s (l ++ metas (store s) d) -> NoDup (l ++ metas (store s) d) ->
  gained s d fresh news s' d' -> t ∈ l -> bs_sector (store s') t = bs_sector (store s) t.
Proof.
  intros Hg Hm Hn [Gg _ _ _] Ht. eapply grown_sector; [done|exact Gg| |].
  - eapply mine_sub; [exact Hm|]. intros u ->%list_elem_of_singleton. apply elem_of_app. by left.
  - apply NoDup_app in Hn as (_ & Hd & _). by apply Hd.
Qed.

Lemma gained_trans s d l fresh news s1 d1 fresh1 news1 s2 d2 :
  ground s -> mine s (l ++ metas (store s) d) -> NoDup (l ++ metas (store s) d) ->
  gained s d fresh news s1 d1 -> gained s1 d1 fresh1 news1 s2 d2 ->
  gained s d (fresh ++ fresh1) (news ++ news1) s2 d2.
Proof.
  intros Hg Hm Hn H1 H2. pose proof (grown_ground _ _ _ _ _ _ _ _ (ga_grown _ _ _ _ _ _ H1)) as Hg1.
  destruct (gained_sectors _ _ _ _ _ _ _ Hg Hm Hn H1) as [Hm1 Hn1].
  pose proof (fun t => gained_data s1 d1 (l ++ fresh) fresh1 news1 s2 d2 t Hg1 Hm1 Hn1 H2) as Hdata.
  destruct H1 as [G1 F1 P1 Z1], H2 as [G2 F2 P2 Z2]. split.
  - eapply grown_trans; [exact G1|exact G2|done|]. intros t Ht. apply elem_of_app, or_comm, elem_of_app.
    rewrite <- P1. apply elem_of_app. by right.
  - destruct F1, F2. split; congruence.
  - rewrite <- app_assoc, P2, !app_assoc, P1. done.
  - intros t [Ht|Ht]%elem_of_app; [|by apply Z2]. rewrite Hdata; [by apply Z1|].
    apply elem_of_app. by right.
Qed.

Lemma gained_shape s d p1 p2 p3 fresh news s' d' q1 q2 q3 :
  ground s -> shape s d p1 p2 p3 -> gained s d fresh news s' d' ->
  q1 ++ q2 ++ q3 ≡ₚ (p1 ++ p2 ++ p3) ++ fresh -> zlen (direct_blocks d') = 123 ->
  forest (store s') 0 (direct_blocks d') q1 -> tree (store s') 1 (indirect_block d') q2 ->
  tree (store s') 2 (doubly_indirect_block d') q3 -> shape s' d' q1 q2 q3.
Proof.
  intros Hg [_ _ _ _ Hm Hn] Hs Hq H1 H2 H3 H4. destruct (gained_sectors _ _ _ _ _ _ _ Hg Hm Hn Hs) as [Hm' Hn'].
  split; try done; [|by rewrite Hq]. eapply mine_sub; [exact Hm'|]. intros t. by rewrite Hq.
Qed.

(** A sector of the file that is not written. *)
Lemma shape_sector s d p1 p2 p3 news ws s' t :
  ground s -> shape s d p1 p2 p3 -> grown s news ws s' -> t ∈ metas (store s) d -> t ∉ ws ->
  bs_sector (store s') t = bs_sector (store s) t.
Proof.
  intros Hg [_ _ _ _ Hm _] Hs Ht Hw. eapply grown_sector; [done|exact Hs| |done].
  eapply mine_sub; [exact Hm|]. intros u ->%list_elem_of_singleton. apply elem_of_app. by right.
Qed.

(** The loop over the direct blocks. *)
Lemma direct_stage_wp f s d p1 p2 p3 n (Q : inode_disk + inode_disk -> fs B -> Prop) :
  ground s -> shape s d p1 p2 p3 -> zlen p1 <= n <= 123 -> n - zlen p1 <= free_count (free_map s) ->
  (forall fresh news s' d', gained s d fresh news s' d' -> shape s' d' (p1 ++ fresh) p2 p3 ->
     zlen (p1 ++ fresh) = n -> zlen news = n - zlen p1 -> Q (inl d') s') ->
  wp (for_ret (Z.to_nat n) 0
    (fun i d =>
       let! x := need (zget (direct_blocks d) i) in
       if x =? 0 then
         let! a := free_map_allocate (inode_write_at_fuel (S f)) 1 in
         match a with
         | None => ret (inr d)
         | Some s =>
             let! bl := need (zset (direct_blocks d) i s) in
             cache_write s zeros ;;
             ret (inl (set_direct d bl))
         end
       else ret (inl d)) d) Q s.
Proof.
  intros Hg Hsh Hle Hfree HQ. pose proof Hsh as [H1 H2 H3 H4 Hm Hn]. set (xs := direct_blocks d) in *.
  assert (mine s (p1 ++ inners (store s) 0 xs) /\ NoDup (p1 ++ inners (store s) 0 xs)) as [Hm1 Hn1].
  { rewrite inners_O, app_nil_r. rewrite <- !app_assoc in Hn, Hm. split; [by apply mine_app in Hm as [? _]|].
    by apply NoDup_app in Hn as [? _]. }
  eapply (wp_for_ret (fun i d' s' => exists ys fresh news, d' = set_direct d ys /\
    forest_grew fp fl mip msecs s 0 xs p1 n i ys fresh news s')).
  - exists xs, [], []. split; [by destruct d|]. apply forest_grew_0; [done|lia..].
  - intros i d' s' Hi (ys & fresh & news & -> & Hs). destruct (zget_ex xs i) as [x Hx]; [lia|].
    destruct (forest_entry _ _ _ _ s 0 xs p1 n Hg Hm1 Hn1 H2 i x ys fresh news s' Hs) as (Hy & _ & Ht & _); [lia|done|].
    pose proof (grown_ground _ _ _ _ _ _ _ _ (fg_grown _ _ _ _ _ _ _ _ _ _ _ _ _ _ Hs)) as Hg'.
    destruct (forest_part 0 p1 i) as [Hp _]; [lia|].
    assert (share 0 n i = 1) as Eshare by (unfold share, cap; lia).
    assert (forall e' fr nw s'', grew fp fl mip msecs s' 0 x (slice p1 (cap 0 * i) (cap 0)) 1 e' fr nw s'' ->
      exists ys' fresh news, set_direct d (<[Z.to_nat i:=e']> ys) = set_direct d ys' /\
        forest_grew fp fl mip msecs s 0 xs p1 n (i + 1) ys' fresh news s'') as Hnext.
    { intros e' fr nw s'' Hw. do 3 eexists. split; [done|]. rewrite <- Eshare in Hw.
      eapply forest_next; (done || lia). }
    wp_step. eapply wp_need; [exact Hy|]. rewrite tree_O in Ht. destruct (Z.eqb_spec x 0) as [->|Hx0].
    + wp_step. eapply allocate_wp; [exact Hg'| |].
      { rewrite (grown_count _ _ _ _ _ _ _ _ (fg_grown _ _ _ _ _ _ _ _ _ _ _ _ _ _ Hs)),
          (fg_count _ _ _ _ _ _ _ _ _ _ _ _ _ _ Hs). rewrite Ht in Hp. simpl in Hp. unfold share, cap in Hp.
        unfold nodes_upto. lia. }
      intros t s0 Hs0. wp_step. eapply wp_need.
      { apply zset_Some. simpl. rewrite (fg_len _ _ _ _ _ _ _ _ _ _ _ _ _ _ Hs). lia. }
      wp_step. eapply claim_wp; [exact Hg'|exact Hs0|]. intros s1 Hs1 Hz. apply wp_ret. simpl.
      eapply Hnext. rewrite Ht. by eapply leaf_claimed.
    + apply wp_ret. rewrite <- (list_insert_id ys (Z.to_nat i) x) by by rewrite <- zget_lookup by lia.
      eapply Hnext. rewrite Ht. by apply leaf_kept.
  - intros d' s' (ys & fresh & news & -> & Hs). replace (0 + Z.of_nat (Z.to_nat n)) with n in Hs by lia.
    destruct (forest_all _ _ _ _ s 0 xs p1 n H2 ltac:(lia) ltac:(lia) n ys fresh news s' Hs) as [Hf Hl]; [lia|unfold cap; lia|].
    destruct Hs as [Gs Hlen _ _ _ Hp Hc Hz]. rewrite !inners_O in Hp. rewrite inners_O in Gs. simpl in Hp.
    assert (forall t, t ∈ metas (store s) d -> bs_sector (store s') t = bs_sector (store s) t) as Hb.
    { intros t Ht. eapply shape_sector; [done|exact Hsh|exact Gs|done|apply not_elem_of_nil]. }
    assert (metas (store s') (set_direct d ys) = metas (store s) d) as Em.
    { by apply (metas_frame (store s) (store s') d). }
    assert (gained s d fresh news s' (set_direct d ys)) as Hga.
    { split; [|by split|rewrite Em, Hp; apply Permutation_app_comm|exact Hz].
      eapply grown_weaken; [exact Gs|]. intros t Ht. by destruct (not_elem_of_nil _ Ht). }
    eapply HQ; [exact Hga| |done|rewrite Hc; unfold nodes_upto; lia].
    eapply gained_shape; [done|exact Hsh|exact Hga|solve_Permutation|simpl; lia|exact Hf| |];
      (eapply tree_frame; [|eassumption]); intros t Ht; apply Hb, elem_metas; auto.
Qed.

(** The indirect block and the doubly indirect one. *)
Lemma indirect_stage_wp f s d p1 p2 p3 n (Q : bool * Z -> fs B -> Prop) :
  ground s -> shape s d p1 p2 p3 -> zlen p2 <= n <= 128 -> 0 < n ->
  nodes_for 1 n - nodes_for 1 (zlen p2) <= free_count (free_map s) ->
  (forall e fresh news s', gained s d fresh news s' (set_indirect d e) ->
     shape s' (set_indirect d e) p1 (p2 ++ fresh) p3 -> zlen (p2 ++ fresh) = n ->
     zlen news = nodes_for 1 n - nodes_for 1 (zlen p2) -> Q (true, e) s') ->
  wp (inode_reserve_indirect (inode_write_at_fuel (S f)) 1 (indirect_block d) n) Q s.
Proof.
  intros Hg Hsh Hle Hpos Hfree HQ. pose proof Hsh as [H1 H2 H3 H4 Hm Hn].
  assert (p2 ++ inner (store s) 1 (indirect_block d) `sublist_of` (p1 ++ p2 ++ p3) ++ metas (store s) d) as Hsub.
  { apply sublist_app; [apply sublist_inserts_l, sublist_inserts_r|apply sublist_inserts_r]; done. }
  eapply (reserve_grows fp fl mip msecs f 1); [lia|done| |by eapply sublist_NoDup|done|done|done|done|].
  { eapply mine_sub; [exact Hm|]. intros t Ht. by eapply elem_of_sublist. }
  intros e fresh news s' [Wg Wt Wl Wp Wc Wz].
  assert (forall t, t ∈ inner (store s) 2 (doubly_indirect_block d) -> bs_sector (store s') t = bs_sector (store s) t) as Hb.
  { intros t Ht. eapply shape_sector; [done|exact Hsh|exact Wg|apply elem_metas; by right|].
    apply NoDup_app in Hn as (_ & _ & Hn). unfold metas in Hn. apply NoDup_app in Hn as (_ & Hd & _). intros Ht'.
    by apply (Hd t). }
  assert (gained s d fresh news s' (set_indirect d e)) as Hga.
  { split; [eapply grown_weaken; [exact Wg|]; intros t Ht; apply elem_metas; by left|done| |done].
    unfold metas. cbn [indirect_block doubly_indirect_block set_indirect].
    rewrite (inner_frame (store s) (store s') 2) by exact Hb. rewrite app_assoc, Wp, <- !app_assoc.
    apply Permutation_app_head, Permutation_app_comm. }
  eapply HQ; [exact Hga| |done|done].
  eapply gained_shape; [done|exact Hsh|exact Hga|solve_Permutation|done| |exact Wt|by eapply tree_frame].
  intros i x Hx. eapply tree_frame; [|by apply H2]. intros t. rewrite inner_O. by intros ?%not_elem_of_nil.
Qed.

Lemma doubly_stage_wp f s d p1 p2 p3 n (Q : bool * Z -> fs B -> Prop) :
  ground s -> shape s d p1 p2 p3 -> zlen p3 <= n <= 128 * 128 -> 0 < n ->
  nodes_for 2 n - nodes_for 2 (zlen p3) <= free_count (free_map s) ->
  (forall e fresh news s', gained s d fresh news s' (set_doubly d e) ->
     shape s' (set_doubly d e) p1 p2 (p3 ++ fresh) -> zlen (p3 ++ fresh) = n ->
     zlen news = nodes_for 2 n - nodes_for 2 (zlen p3) -> Q (true, e) s') ->
  wp (inode_reserve_indirect (inode_write_at_fuel (S f)) 2 (doubly_indirect_block d) n) Q s.
Proof.
  intros Hg Hsh Hle Hpos Hfree HQ. pose proof Hsh as [H1 H2 H3 H4 Hm Hn].
  assert (p3 ++ inner (store s) 2 (doubly_indirect_block d) `sublist_of` (p1 ++ p2 ++ p3) ++ metas (store s) d) as Hsub.
  { apply sublist_app; [apply sublist_inserts_l, sublist_inserts_l|apply sublist_inserts_l]; done. }
  eapply (reserve_grows fp fl mip msecs f 2); [lia|done| |by eapply sublist_NoDup|done|done|done|done|].
  { eapply mine_sub; [exact Hm|]. intros t Ht. by eapply elem_of_sublist. }
  intros e fresh news s' [Wg Wt Wl Wp Wc Wz].
  assert (forall t, t ∈ inner (store s) 1 (indirect_block d) -> bs_sector (store s') t = bs_sector (store s) t) as Hb.
  { intros t Ht. eapply shape_sector; [done|exact Hsh|exact Wg|apply elem_metas; by left|].
    apply NoDup_app in Hn as (_ & _ & Hn). unfold metas in Hn. apply NoDup_app in Hn as (_ & Hd & _). by apply Hd. }
  assert (gained s d fresh news s' (set_doubly d e)) as Hga.
  { split; [eapply grown_weaken; [exact Wg|]; intros t Ht; apply elem_metas; by right|done| |done].
    unfold metas. cbn [indirect_block doubly_indirect_block set_doubly].
    rewrite (inner_frame (store s) (store s') 1) by exact Hb. rewrite app_assoc, (Permutation_app_comm fresh), <- !app_assoc.
    by apply Permutation_app_head. }
  eapply HQ; [exact Hga| |done|done].
  eapply gained_shape; [done|exact Hsh|exact Hga|solve_Permutation|done| |by eapply tree_frame|exact Wt].
  intros i x Hx. eapply tree_frame; [|by apply H2]. intros t. rewrite inner_O. by intros ?%not_elem_of_nil.
Qed.

(** A file in shape. *)
Definition sound s d (secs : list Z) : Prop := shape s d (part1 secs) (part2 secs) (part3 secs).

Lemma sound_max s d secs : sound s d secs -> zlen secs <= MAX_SECTORS.
Proof.
  intros [_ _ _ H _ _]. apply tree_zlen in H. destruct (zlen_parts secs) as (_ & _ & L). unfold MAX_SECTORS, cap in *. lia.
Qed.
Lemma sound_sectors s d secs :
  sound s d secs -> mine s (secs ++ metas (store s) d) /\ NoDup (secs ++ metas (store s) d).
Proof. intros [_ _ _ _ Hm Hn]. by rewrite <- secs_split in Hm, Hn. Qed.

(** inode_reserve, given enough free sectors. *)
Lemma inode_reserve_wp f s d secs len (Q : bool * inode_disk -> fs B -> Prop) :
  let m := bytes_to_sectors len in
  ground s -> sound s d secs -> 0 <= len -> zlen secs <= m <= MAX_SECTORS ->
  sectors_for m - sectors_for (zlen secs) <= free_count (free_map s) ->
  (forall fresh news s' d', gained s d fresh news s' d' -> sound s' d' (secs ++ fresh) ->
     zlen (secs ++ fresh) = m -> zlen news = sectors_for m - sectors_for (zlen secs) -> Q (true, d') s') ->
  wp (inode_reserve (inode_write_at_fuel (S f)) d len) Q s.
Proof.
  intros m Hg Hsh Hlen Hm Hfree HQ. unfold inode_reserve. fold m. unfold MAX_SECTORS in Hm.
  rewrite (proj2 (Z.ltb_ge len 0)) by done. change DIRECT_BLOCKS_COUNT with 123. change INDIRECT_BLOCKS_PER_SECTOR with 128.
  destruct (zlen_parts secs) as (L1 & L2 & L3). pose proof (sound_sectors _ _ _ Hsh) as [Hm0 Hn0].
  rewrite !sectors_for_parts in Hfree by lia. rewrite <- L1, <- L2, <- L3 in Hfree.
  assert (forall k k', 0 <= k <= k' -> 0 <= nodes_for 1 k <= nodes_for 1 k' /\ 0 <= nodes_for 2 k <= nodes_for 2 k') as Hmono.
  { intros k k' Hk. unfold nodes_for. assert (0 <= (k + 127) / 128 <= (k' + 127) / 128)
      by (split; [apply Z.div_pos|apply Z.div_le_mono]; lia). repeat case_match; lia. }
  destruct (Hmono (zlen (part2 secs)) (Z.max 0 (Z.min 128 (m - 123)))) as [M2 _]; [lia|].
  destruct (Hmono (zlen (part3 secs)) (Z.max 0 (m - 251))) as [_ M3]; [lia|]. unfold nodes_for at 1 4 in Hfree.
  rewrite !min_val. wp_step. apply (direct_stage_wp f s d (part1 secs) (part2 secs) (part3 secs)); [done|done|lia|lia|].
  intros f1 n1 s1 d1 G1 S1 F1 C1. pose proof (grown_ground _ _ _ _ _ _ _ _ (ga_grown _ _ _ _ _ _ G1)) as Hg1.
  pose proof (grown_count _ _ _ _ _ _ _ _ (ga_grown _ _ _ _ _ _ G1)) as K1.
  destruct (gained_sectors _ _ _ _ _ _ _ Hg Hm0 Hn0 G1) as [Hm1 Hn1].
  assert (forall f2 f3 n2 n3 s' d', gained s d (f1 ++ f2 ++ f3) (n1 ++ n2 ++ n3) s' d' ->
    shape s' d' (part1 secs ++ f1) (part2 secs ++ f2) (part3 secs ++ f3) ->
    zlen (part2 secs ++ f2) = Z.max 0 (Z.min 128 (m - 123)) -> zlen (part3 secs ++ f3) = Z.max 0 (m - 251) ->
    zlen n2 = nodes_for 1 (Z.max 0 (Z.min 128 (m - 123))) - nodes_for 1 (zlen (part2 secs)) ->
    zlen n3 = nodes_for 2 (Z.max 0 (m - 251)) - nodes_for 2 (zlen (part3 secs)) -> Q (true, d') s') as Hend.
  { intros f2 f3 n2 n3 s' d' G S F2 F3 C2 C3. eapply HQ; [exact G| | |].
    - destruct (parts_grow secs f1 f2 f3 m) as (E1 & E2 & E3 & _); [lia..|]. unfold sound. by rewrite E1, E2, E3.
    - apply (parts_grow secs f1 f2 f3 m); lia.
    - rewrite !zlen_app, !sectors_for_parts by lia. rewrite <- L1, <- L2, <- L3. unfold nodes_for at 1 4. lia. }
  destruct (m - Z.min m 123 =? 0) eqn:E1.
  { apply wp_ret. apply (Hend [] [] [] []); rewrite ?app_nil_r; try done; try lia;
      replace (Z.max 0 (m - 251)) with 0 by lia; replace (Z.max 0 (Z.min 128 (m - 123))) with 0 by lia; [lia..| |].
    - by replace (zlen (part2 secs)) with 0 by lia.
    - by replace (zlen (part3 secs)) with 0 by lia. }
  assert (Z.min (m - Z.min m 123) 128 = Z.max 0 (Z.min 128 (m - 123))) as -> by lia.
  wp_step. apply (indirect_stage_wp f s1 d1 _ _ _ _ _ Hg1 S1); [lia|lia|lia|]. intros e2 f2 n2 s2 G2 S2 F2 C2.
  pose proof (grown_ground _ _ _ _ _ _ _ _ (ga_grown _ _ _ _ _ _ G2)) as Hg2.
  pose proof (grown_count _ _ _ _ _ _ _ _ (ga_grown _ _ _ _ _ _ G2)) as K2.
  pose proof (gained_trans _ _ _ _ _ _ _ _ _ _ _ Hg Hm0 Hn0 G1 G2) as G12. cbn [fst snd negb].
  destruct (m - Z.min m 123 - Z.max 0 (Z.min 128 (m - 123)) =? 0) eqn:E2.
  { apply wp_ret. apply (Hend f2 [] n2 []); rewrite ?app_nil_r; try done; try lia;
      replace (Z.max 0 (m - 251)) with 0 by lia. by replace (zlen (part3 secs)) with 0 by lia. }
  assert (Z.min (m - Z.min m 123 - Z.max 0 (Z.min 128 (m - 123))) (128 * 128) = Z.max 0 (m - 251)) as -> by lia.
  wp_step. change (doubly_indirect_block d1) with (doubly_indirect_block (set_indirect d1 e2)).
  apply (doubly_stage_wp f s2 (set_indirect d1 e2) _ _ _ _ _ Hg2 S2); [lia|lia|lia|]. intros e3 f3 n3 s3 G3 S3 F3 C3.
  destruct (gained_sectors _ _ _ _ _ _ _ Hg Hm0 Hn0 G12) as [Hm2 Hn2].
  pose proof (gained_trans _ _ _ _ _ _ _ _ _ _ _ Hg Hm0 Hn0 G12 G3) as G123. cbn [fst snd negb].
  rewrite (proj2 (Z.eqb_eq _ 0)) by lia. apply wp_ret.
  apply (Hend f2 f3 n2 n3); rewrite ?app_assoc; try done.
Qed.

(* ------------------------------------------------------------------ *)
(** ** The sector map of a sound file                                  *)
(* ------------------------------------------------------------------ *)

Lemma forest_leaf b xs secs i t :
  forest b 0 xs secs -> zget secs i = Some t -> i < zlen xs -> zget xs i = Some t.
Proof.
  intros Hf Hi Hlt. pose proof (zget_range _ _ _ Hi). destruct (zget_ex xs i) as [x Hx]; [lia|].
  pose proof (Hf _ _ Hx) as Ht. change (cap 0) with 1 in Ht. rewrite Z.mul_1_l in Ht.
  assert (slice secs i 1 = [t]) as E.
  { unfold slice. rewrite zget_lookup in Hi by lia. by rewrite (drop_S _ _ _ Hi). }
  rewrite E, tree_O in Ht. destruct (x =? 0); [done|]. by injection Ht as ->.
Qed.
Lemma tree_level1 b e secs i t :
  tree b 1 e secs -> zget secs i = Some t -> zget (blocks_at b e) i = Some t.
Proof.
  intros Ht Hi. pose proof (tree_zlen _ _ _ _ Ht) as Hl. pose proof (zget_range _ _ _ Hi).
  pose proof (zlen_decode_blocks (bs_sector b e)) as Hx. unfold blocks_at, cap in *.
  rewrite tree_S in Ht. destruct (e =? 0); [subst; simpl in *; lia|]. destruct Ht as (_ & _ & Hf).
  eapply forest_leaf; [exact Hf|done|]. unfold blocks_at. lia.
Qed.
Lemma tree_level2 b e secs i t :
  tree b 2 e secs -> zget secs i = Some t ->
  exists g, zget (blocks_at b e) (i / 128) = Some g /\ zget (blocks_at b g) (i mod 128) = Some t.
Proof.
  intros Ht Hi. pose proof (tree_zlen _ _ _ _ Ht) as Hl. pose proof (zget_range _ _ _ Hi) as Hr.
  pose proof (zlen_decode_blocks (bs_sector b e)) as Hx. unfold cap in Hl.
  rewrite tree_S in Ht. destruct (e =? 0); [subst; simpl in *; lia|]. destruct Ht as (_ & _ & Hf).
  destruct (zget_ex (blocks_at b e) (i / 128)) as [g Hg].
  { unfold blocks_at. Z.to_euclidean_division_equations; lia. }
  exists g. split; [done|]. pose proof (Hf _ _ Hg) as Ht. eapply tree_level1; [exact Ht|].
  change (cap 1) with 128. rewrite zget_slice by (Z.to_euclidean_division_equations; lia).
  rewrite <- Hi. f_equal. rewrite <- Z.div_mod; lia.
Qed.

Lemma sound_meta s d secs t :
  sound s d secs -> uses_meta (store s) d (zlen secs) t -> t ∈ metas (store s) d.
Proof.
  intros [_ _ H2 H3 _ _] Hu. destruct (zlen_parts secs) as (_ & L2 & L3). apply elem_metas.
  assert (forall level e l, tree (store s) (S level) e l -> 0 < zlen l -> e ∈ inner (store s) (S level) e) as Hroot.
  { intros level e l Ht Hl. rewrite inner_S, (proj2 (Z.eqb_neq _ _)); [by left|].
    eapply tree_nonzero; [done|]. intros ->. done. }
  destruct Hu as [[Hn ->]|[[Hn ->]|(k & Hk & Hkn & Hz)]]; [left|right|right].
  - eapply Hroot; [exact H2|lia].
  - eapply Hroot; [exact H3|lia].
  - rewrite tree_S in H3. rewrite inner_S. destruct (doubly_indirect_block d =? 0) eqn:E.
    { exfalso. rewrite H3 in L3. simpl in L3. lia. }
    destruct H3 as (_ & _ & Hf). right. apply elem_inners. exists t. split; [by eapply zget_elem|].
    eapply Hroot; [exact (Hf _ _ Hz)|]. change (cap 1) with 128. rewrite zlen_slice_min; lia.
Qed.

Lemma sound_file_ok s d secs :
  ground s -> sound s d secs -> 0 <= length_ d -> zlen secs = bytes_to_sectors (length_ d) -> file_ok (store s) d secs.
Proof.
  intros Hg Hs Hlen Hc. destruct (sound_sectors _ _ _ Hs) as [Hm Hn]. pose proof (sound_max _ _ _ Hs) as Hmax.
  assert (forall t, t ∈ secs ++ metas (store s) d -> in_range (store s) t) as Hr by (intros t; by eapply mine_range).
  split; [done|done|done| | | |].
  - intros i t Hi. pose proof (zget_range _ _ _ Hi) as Hir. destruct Hs as [H0 H1 H2 H3 _ _]. unfold sector_of.
    destruct (zlen_parts secs) as (L1 & L2 & L3). rewrite (secs_split secs), !zget_app in Hi.
    destruct (Z.ltb_spec i 123) as [E1|E1].
    { rewrite bool_decide_eq_true_2 in Hi by lia. eapply forest_leaf; [exact H1|done|lia]. }
    rewrite bool_decide_eq_false_2 in Hi by lia. replace (i - zlen (part1 secs)) with (i - 123) in Hi by lia.
    destruct (Z.ltb_spec i (123 + 128)) as [E2|E2].
    { rewrite bool_decide_eq_true_2 in Hi by lia. by eapply tree_level1. }
    rewrite bool_decide_eq_false_2 in Hi by lia. replace (i - 123 - zlen (part2 secs)) with (i - 251) in Hi by lia.
    by destruct (tree_level2 _ _ _ _ _ H3 Hi) as (g & -> & Hg2).
  - apply Forall_forall. intros t Ht. apply Hr, elem_of_app. by left.
  - by apply NoDup_app in Hn as [? _].
  - intros t Ht. apply (sound_meta _ _ _ _ Hs) in Ht. split; [apply Hr, elem_of_app; by right|].
    apply NoDup_app in Hn as (_ & Hd & _). intros Hin. by apply (Hd t).
Qed.

(* ------------------------------------------------------------------ *)
(** ** Open files that can grow                                        *)
(* ------------------------------------------------------------------ *)

(** Zero bytes behind the end of the file, in its last sector. *)
Definition slack d (secs : list Z) : list Z := replicate (Z.to_nat (512 * zlen secs - length_ d)) 0.

(** The invariant of an open file: its inode [ip] is in memory at [p] and
    on the disk, its data is in [secs], and what its last sector has behind
    the end of the file is zero. *)
Record growable s (p : loc) (ip : inode) (secs : list Z) : Prop := {
  gb_ground : ground s;
  gb_inode : inodes s !! p = Some ip;
  gb_map : p <> f_inode fl;
  gb_deny : deny_write_cnt ip = 0;
  gb_ok : inode_disk_ok (data ip);
  gb_length : 0 <= length_ (data ip);
  gb_count : zlen secs = bytes_to_sectors (length_ (data ip));
  gb_sound : sound s (data ip) secs;
  gb_sector : mine s [sector ip];
  gb_apart : sector ip ∉ secs ++ metas (store s) (data ip);
  gb_home : decode_inode (bs_sector (store s) (sector ip)) = data ip;
  gb_slack : sectors_bytes (store s) secs = content (store s) (data ip) secs ++ slack (data ip) secs
}.

Lemma growable_file s p ip secs : growable s p ip secs -> file_ok (store s) (data ip) secs.
Proof. intros []. by apply sound_file_ok. Qed.
Lemma growable_inv s p ip secs : growable s p ip secs -> bs_inv (store s) /\ length_ (data ip) < 2 ^ 31.
Proof. intros []. split; [apply (gr_map _ _ _ _ _ gb_ground0)|]. destruct gb_ok0. lia. Qed.

(** A sound file stays so when its indirect sectors do not change. *)
Lemma sound_frame s s' d secs :
  (forall t, t ∈ metas (store s) d -> bs_sector (store s') t = bs_sector (store s) t) ->
  mine s' (secs ++ metas (store s) d) -> sound s d secs -> sound s' d secs /\ metas (store s') d = metas (store s) d.
Proof.
  intros Hb Hm [H0 H1 H2 H3 _ Hn]. rewrite <- (metas_frame _ _ _ Hb) in Hn, Hm. split; [|by apply metas_frame].
  split; [done|exact H1| | |by rewrite <- secs_split|exact Hn].
  - eapply tree_frame; [|exact H2]. intros t Ht. apply Hb, elem_metas. by left.
  - eapply tree_frame; [|exact H3]. intros t Ht. apply Hb, elem_metas. by right.
Qed.

(** Writing the file's own data keeps the invariant. *)
Lemma growable_store s p ip secs b :
  growable s p ip secs -> changes_only (store s) secs b ->
  sectors_bytes b secs = content b (data ip) secs ++ slack (data ip) secs ->
  grown s [] secs (set_store b s) /\ growable (set_store b s) p ip secs.
Proof.
  intros [] Hb Ht. destruct (sound_sectors _ _ _ gb_sound0) as [Hm Hn].
  pose proof Hm as [Hms _]%mine_app. apply NoDup_app in Hn as (_ & Hd & _).
  assert (grown s [] secs (set_store b s)) as Hs by by apply grown_store.
  split; [done|]. destruct (sound_frame s (set_store b s) (data ip) secs) as [H1 H2]; [|by eapply grown_mine|done|].
  { intros t Hin. eapply grown_sector; [done|exact Hs| |intros Hs'; by apply (Hd t)].
    eapply mine_sub; [exact Hm|]. intros u ->%list_elem_of_singleton. apply elem_of_app. by right. }
  split; [by eapply grown_ground|exact gb_inode0|done|done|done|done|done|exact H1|by eapply grown_mine
    |rewrite H2; exact gb_apart0| |exact Ht].
  simpl. rewrite (co_sector _ _ _ Hb); [done|eapply (mine_range _ _ _ _ s [sector ip]); [done|done|by left]|].
  intros Hin. apply gb_apart0, elem_of_app. by left.
Qed.

Lemma content_prefix b d secs l k :
  zlen l = length_ d -> sectors_bytes b secs = l ++ k -> content b d secs = l.
Proof. intros Hl E. unfold content. rewrite E, <- Hl, Nat2Z.id. apply take_app_length. Qed.
Lemma splice_app_l (l k d : list Z) off : 0 <= off -> off + zlen d <= zlen l -> splice (l ++ k) off d = splice l off d ++ k.
Proof.
  intros. unfold splice. rewrite take_app_le, drop_app_le, <- !app_assoc by lia. done.
Qed.

(** The loop of inode_write_at, inside the file. *)
Lemma growable_write_wp s p ip secs buf size off (Q : Z -> fs B -> Prop) :
  growable s p ip secs -> 0 <= off -> 0 <= size -> off + size <= length_ (data ip) -> size <= zlen buf -> Forall is_u8 buf ->
  (forall b, let s' := set_store b s in grown s [] secs s' -> growable s' p ip secs ->
     content b (data ip) secs = splice (content (store s) (data ip) secs) off (slice buf 0 size) -> Q size s') ->
  wp (while_ (rw_fuel size) (write_step p buf) (size, off, 0)) Q s.
Proof.
  intros Hgb Hoff Hsize Hin Hbuf Hu HQ. pose proof (growable_file _ _ _ _ Hgb) as Hf.
  destruct (growable_inv _ _ _ _ Hgb) as [Hinv Hlen]. pose proof (zlen_content _ _ _ Hinv Hf Hlen) as Hz.
  eapply write_loop_wp; try done; [apply Hgb|]. intros b Hb E.
  rewrite (gb_slack _ _ _ _ Hgb), splice_app_l in E by (rewrite ?zlen_slice; lia).
  assert (content b (data ip) secs = splice (content (store s) (data ip) secs) off (slice buf 0 size)) as Ec.
  { eapply content_prefix; [|exact E]. rewrite zlen_splice; rewrite ?zlen_slice; lia. }
  destruct (growable_store s p ip secs b Hgb Hb) as [H1 H2]; [by rewrite E, Ec|]. by apply HQ.
Qed.

(* ------------------------------------------------------------------ *)
(** ** The extension                                                   *)
(* ------------------------------------------------------------------ *)

Lemma bytes_to_sectors_val n : 0 <= n < 2 ^ 31 -> bytes_to_sectors n = (n + 511) / 512.
Proof.
  intros Hn. unfold bytes_to_sectors, u64, SECTOR. rewrite Z.quot_div_nonneg by lia.
  rewrite Z.mod_small; Z.to_euclidean_division_equations; lia.
Qed.

Lemma sound_entries s d secs :
  ground s -> sound s d secs ->
  Forall (fun x => 0 <= x < 2 ^ 32) (direct_blocks d) /\ 0 <= indirect_block d < 2 ^ 32 /\ 0 <= doubly_indirect_block d < 2 ^ 32.
Proof.
  intros Hg Hs. destruct (sound_sectors _ _ _ Hs) as [Hm _].
  assert (forall x l k, (x <> 0 -> x ∈ l ++ k) -> (forall t, t ∈ l -> t ∈ secs) -> (forall t, t ∈ k -> t ∈ metas (store s) d) ->
            0 <= x < 2 ^ 32) as H.
  { intros x l k Hx Hl Hk. destruct (decide (x = 0)) as [->|Hx0]; [done|].
    assert (x ∈ secs ++ metas (store s) d) as Hin.
    { specialize (Hx Hx0). rewrite elem_of_app in Hx |- *. naive_solver. }
    pose proof (mine_range _ _ _ _ _ _ _ Hg Hm Hin) as Hr.
    pose proof (bs_size_bound (store s) (fm_inv _ _ _ _ _ (gr_map _ _ _ _ _ Hg))). unfold in_range in Hr. lia. }
  assert (forall l, l `sublist_of` secs -> forall t, t ∈ l -> t ∈ secs) as Hsub.
  { intros l Hl t Ht. by eapply elem_of_sublist. }
  destruct Hs as [_ H1 H2 H3 _ _]. split; [|split].
  - apply Forall_forall. intros x [i Hx]%elem_zget. apply H1 in Hx.
    eapply (H x _ []); [|apply Hsub|by intros t ?%not_elem_of_nil].
    + intros Hx0. pose proof (tree_root _ _ _ _ Hx Hx0) as Hr. rewrite inner_O in Hr. exact Hr.
    + unfold slice, part1. etrans; [apply sublist_take|]. etrans; [apply sublist_drop|apply sublist_take].
  - eapply H; [apply (tree_root _ _ _ _ H2)|apply Hsub|intros t Ht; apply elem_metas; by left].
    unfold part2, slice. etrans; [apply sublist_take|apply sublist_drop].
  - eapply H; [apply (tree_root _ _ _ _ H3)|apply Hsub, sublist_drop|intros t Ht; apply elem_metas; by right].
Qed.

(** A change of the inode in memory. *)
Lemma ground_inode s p ip : ground s -> p <> f_inode fl -> ground (set_inodes (<[p := ip]> (inodes s)) s).
Proof.
  intros [Hok H1 H2 H3 H4] Hp. split; [|done..]. destruct Hok. split; try done. simpl. by rewrite lookup_insert_ne.
Qed.

Lemma mine_inodes s I ts : mine s ts -> mine (set_inodes I s) ts.
Proof. intros [H1 H2]. by split. Qed.
Lemma sound_inodes s I d n secs : sound s d secs -> sound (set_inodes I s) (set_length d n) secs.
Proof. intros [H0 H1 H2 H3 [H4 H5] H6]. by split. Qed.

(** The file [ip], [secs] became [ip'], [secs'], of [len] bytes. *)
Record extended s p (ip : inode) (secs : list Z) (len : Z) s' (ip' : inode) (secs' : list Z) : Prop := {
  ex_growable : growable s' p ip' secs';
  ex_length : length_ (data ip') = len;
  ex_prefix : secs `prefix_of` secs';
  ex_content : content (store s') (data ip') secs'
    = content (store s) (data ip) secs ++ replicate (Z.to_nat (len - length_ (data ip))) 0;
  ex_count : free_count (free_map s') = free_count (free_map s) - (sectors_for (zlen secs') - sectors_for (zlen secs));
  ex_inode : sector ip' = sector ip /\ open_cnt ip' = open_cnt ip /\ removed ip' = removed ip /\
    is_dir (data ip') = is_dir (data ip);
  ex_state : exists m b, s' = set_inodes (<[p := ip']> (inodes s)) (set_store b (set_free_map m s));
  ex_bits : bit_cnt (free_map s') = bit_cnt (free_map s) /\
    forall j, bit (free_map s) j = true -> bit (free_map s') j = true;
  ex_sectors : forall t, in_range (store s) t -> bit (free_map s) t = true -> t ∉ msecs ->
    t ∉ metas (store s) (data ip) -> t <> sector ip -> bs_sector (store s') t = bs_sector (store s) t;
  ex_fresh : forall t, t ∈ secs' -> t ∈ secs \/ t ∈ metas (store s) (data ip) \/ bit (free_map s) t = false;
  ex_size : bs_size (store s') = bs_size (store s)
}.

(** The bytes of a file that gained zeroed sectors. *)
Lemma sectors_bytes_zeros b b' secs fresh :
  (forall t, t ∈ secs -> bs_sector b' t = bs_sector b t) -> (forall t, t ∈ fresh -> bs_sector b' t = zeros) ->
  sectors_bytes b' (secs ++ fresh) = sectors_bytes b secs ++ replicate (512 * length fresh) 0.
Proof.
  intros Hb Hz. unfold sectors_bytes. rewrite map_app, concat_app. f_equal.
  - f_equal. apply map_ext_in. intros t Ht. by apply Hb, list_elem_of_In.
  - induction fresh as [|t fresh IH]; [done|]. cbn [map concat length]. rewrite Hz by by left.
    rewrite IH by (intros u Hu; apply Hz; by right). unfold zeros. rewrite <- replicate_add. f_equal. lia.
Qed.

Lemma content_zeros b b' d d' secs fresh :
  (forall t, t ∈ secs -> bs_sector b' t = bs_sector b t) -> (forall t, t ∈ fresh -> bs_sector b' t = zeros) ->
  sectors_bytes b secs = content b d secs ++ slack d secs -> zlen (content b d secs) = length_ d ->
  0 <= length_ d <= 512 * zlen secs -> length_ d <= length_ d' <= 512 * zlen (secs ++ fresh) ->
  content b' d' (secs ++ fresh) = content b d secs ++ replicate (Z.to_nat (length_ d' - length_ d)) 0 /\
  sectors_bytes b' (secs ++ fresh) = content b' d' (secs ++ fresh) ++ slack d' (secs ++ fresh).
Proof.
  intros Hb Hz Ht Hc Hl Hl'. pose proof (sectors_bytes_zeros _ _ _ _ Hb Hz) as E.
  rewrite Ht in E. unfold slack in E. rewrite <- app_assoc, <- replicate_add in E.
  set (l := content b d secs) in *. rewrite zlen_app in Hl'.
  assert (sectors_bytes b' (secs ++ fresh) =
    (l ++ replicate (Z.to_nat (length_ d' - length_ d)) 0) ++ slack d' (secs ++ fresh)) as E2.
  { rewrite E. unfold slack. rewrite <- app_assoc, <- replicate_add, zlen_app. do 2 f_equal. lia. }
  assert (content b' d' (secs ++ fresh) = l ++ replicate (Z.to_nat (length_ d' - length_ d)) 0) as E3.
  { eapply content_prefix; [|exact E2]. rewrite zlen_app, length_replicate. lia. }
  by rewrite E3, E2.
Qed.

(** The inode in memory after the reservation, and its own sector. *)
Lemma extension_ready s p ip secs len fresh news s1 d1 :
  growable s p ip secs -> 0 <= len < 2 ^ 31 -> gained s (data ip) fresh news s1 d1 -> sound s1 d1 (secs ++ fresh) ->
  let d2 := set_length d1 len in
  let s3 := set_inodes (<[p := set_data ip d2]> (inodes s1)) s1 in
  ground s3 /\ mine s3 [sector ip] /\ sound s3 d2 (secs ++ fresh) /\ inode_disk_ok d2 /\
  sector ip ∉ (secs ++ fresh) ++ metas (store s3) d2.
Proof.
  intros Hgb Hlr G1 S1 d2 s3. destruct Hgb as [Hg Hp Hmap Hdeny Hok Hl0 Hcnt Hs Hsec Hap Hhome Hsl].
  destruct G1 as [G1 [F1 F2 F3 F4] P1 Z1]. pose proof (grown_ground _ _ _ _ _ _ _ _ G1) as Hg1.
  destruct (sound_entries _ _ _ Hg1 S1) as (W1 & W2 & W3).
  split; [by apply ground_inode|]. split; [by eapply mine_inodes, grown_mine|]. split; [by apply sound_inodes|]. split.
  - destruct Hok. split; simpl; try done; [|by rewrite F1|by rewrite F2|lia|by rewrite F4]. pose proof (sh_direct _ _ _ _ _ S1). lia.
  - change (metas (store s3) d2) with (metas (store s1) d1). rewrite <- app_assoc, P1, app_assoc. intros [Hin|Hin]%elem_of_app; [done|].
    by apply (grown_new_old _ _ _ _ _ _ _ _ [sector ip] (sector ip) G1); [|done|left].
Qed.

(** Writing that inode completes the extension. *)
Lemma extension_written s p ip secs len fresh news s1 d1 s4 :
  let m := bytes_to_sectors len in
  growable s p ip secs -> length_ (data ip) < len < 2 ^ 31 -> gained s (data ip) fresh news s1 d1 ->
  sound s1 d1 (secs ++ fresh) -> zlen (secs ++ fresh) = m -> zlen news = sectors_for m - sectors_for (zlen secs) ->
  let d2 := set_length d1 len in
  let s3 := set_inodes (<[p := set_data ip d2]> (inodes s1)) s1 in
  grown s3 [] [sector ip] s4 -> bs_sector (store s4) (sector ip) = encode_inode d2 ->
  extended s p ip secs len s4 (set_data ip d2) (secs ++ fresh).
Proof.
  intros m Hgb Hlen G1 S1 L1 C1 d2 s3 G4 Hb4. pose proof (growable_file _ _ _ _ Hgb) as Hf.
  destruct (growable_inv _ _ _ _ Hgb) as [Hinv Hmax]. pose proof (zlen_content _ _ _ Hinv Hf Hmax) as Hz.
  pose proof (length_in_sectors _ _ _ Hf Hmax) as Hls. pose proof (gb_length _ _ _ _ Hgb) as Hl0.
  assert (0 <= len < 2 ^ 31) as Hlr by lia.
  destruct (extension_ready _ _ _ _ _ _ _ _ _ Hgb Hlr G1 S1) as (Hg3 & Hsec3 & S3 & Hok2 & Hap1). fold d2 s3 in Hg3, Hsec3, S3, Hok2, Hap1.
  destruct Hgb as [Hg Hp Hmap Hdeny Hok _ Hcnt Hs Hsec Hap Hhome Hsl]. set (d := data ip) in *.
  destruct (sound_sectors _ _ _ Hs) as [Hmine Hnd]. destruct (sound_sectors _ _ _ S3) as [Hm3 _].
  pose proof (fun t => gained_data _ _ _ _ _ _ _ t Hg Hmine Hnd G1) as Hdata.
  destruct G1 as [G1 [F1 F2 F3 F4] P1 Z1]. destruct (grown_inodes _ _ _ _ _ _ _ _ G1) as [Ei Ef].
  assert (forall t, t ∈ (secs ++ fresh) ++ metas (store s3) d2 -> bs_sector (store s4) t = bs_sector (store s1) t) as Hb.
  { intros t Ht. change (store s1) with (store s3). eapply grown_sector; [exact Hg3|exact G4| |].
    - eapply mine_sub; [exact Hm3|]. by intros u ->%list_elem_of_singleton.
    - intros ->%list_elem_of_singleton. exact (Hap1 Ht). }
  destruct (sound_frame s3 s4 d2 (secs ++ fresh)) as [S4 M4]; [|exact (grown_mine _ _ _ _ _ _ _ _ _ G4 Hm3)|exact S3|].
  { intros t Ht. apply Hb, elem_of_app. by right. }
  destruct (content_zeros (store s) (store s4) d d2 secs fresh) as [E1 E2]; [| |done|done|lia| |].
  { intros t Ht. rewrite Hb by (rewrite !elem_of_app; auto). by apply Hdata. }
  { intros t Ht. rewrite Hb by (rewrite !elem_of_app; auto). by apply Z1. }
  { simpl. rewrite L1. unfold m. rewrite bytes_to_sectors_val by done. Z.to_euclidean_division_equations; lia. }
  destruct (grown_inodes _ _ _ _ _ _ _ _ G4) as [Ei4 Ef4].
  split.
  - split.
    + by eapply grown_ground.
    + rewrite Ei4. apply lookup_insert_eq.
    + done.
    + done.
    + exact Hok2.
    + simpl. lia.
    + rewrite L1. done.
    + exact S4.
    + exact (grown_mine _ _ _ _ _ _ _ _ _ G4 Hsec3).
    + intros Hin. apply Hap1. rewrite <- M4. exact Hin.
    + change (sector (set_data ip d2)) with (sector ip). rewrite Hb4. by apply decode_encode_inode.
    + exact E2.
  - done.
  - by apply prefix_app_r.
  - exact E1.
  - rewrite (grown_count _ _ _ _ _ _ _ _ G4). change (free_map s3) with (free_map s1).
    rewrite (grown_count _ _ _ _ _ _ _ _ G1), C1, L1. simpl. lia.
  - by split_and!.
  - destruct G4 as (m4 & b4 & -> & _). exists m4, b4. unfold s3. rewrite Ei. by destruct G1 as (m1 & b1 & -> & _).
  - destruct (grown_bits _ _ _ _ _ _ _ _ G4) as [-> H4]. destruct (grown_bits _ _ _ _ _ _ _ _ G1) as [H1 H1'].
    split; [exact H1|]. intros j Hj. by apply H4, H1'.
  - intros t Hr Hbit Hms Hmt Hne. destruct G4 as (m4 & b4 & -> & Hb4' & _), G1 as (m1 & b1 & -> & Hb1 & Hk & _).
    simpl in *. rewrite (co_sector _ _ _ Hb4'); [apply (co_sector _ _ _ Hb1); [done|]|by eapply in_range_size; [apply Hb1|]|].
    + rewrite !elem_of_app. intros [Hin|[Hin|Hin]]; [exact (Hms Hin)| |exact (Hmt Hin)].
      apply (mk_free _ _ _ Hk) in Hin as [_ Hin]. congruence.
    + rewrite elem_of_app. intros [Hin|Hin%list_elem_of_singleton]; [exact (Hms Hin)|exact (Hne Hin)].
  - intros t [Hin|Hin]%elem_of_app; [by left|right]. assert (t ∈ metas (store s) d ++ news) as Hin'.
    { rewrite <- P1. apply elem_of_app. by left. }
    apply elem_of_app in Hin' as [Hin'|Hin']; [by left|right]. apply (grown_news _ _ _ _ _ _ _ _ _ G1 Hin').
  - rewrite (grown_size _ _ _ _ _ _ _ _ G4). exact (grown_size _ _ _ _ _ _ _ _ G1).
Qed.

Lemma write_extend_wp f s p ip secs size off (Q : bool -> fs B -> Prop) :
  let len := off + size in let m := bytes_to_sectors len in
  growable s p ip secs -> 0 <= off -> 0 < size -> length_ (data ip) < len <= 512 * MAX_SECTORS ->
  sectors_for m - sectors_for (zlen secs) <= free_count (free_map s) ->
  (forall s' ip' secs', extended s p ip secs len s' ip' secs' -> zlen secs' = m -> Q true s') ->
  wp (write_extend (inode_write_at_fuel (S f)) p size off) Q s.
Proof.
  intros len m Hgb Hoff Hsize Hlen Hfree HQ. pose proof (growable_file _ _ _ _ Hgb) as Hf.
  destruct (growable_inv _ _ _ _ Hgb) as [Hinv Hmax]. pose proof (length_in_sectors _ _ _ Hf Hmax) as Hls.
  pose proof (gb_length _ _ _ _ Hgb) as Hl0. pose proof (gb_count _ _ _ _ Hgb) as Hcnt. pose proof (gb_inode _ _ _ _ Hgb) as Hp.
  unfold MAX_SECTORS in Hlen. assert (0 <= len < 2 ^ 31) as Hlr by lia.
  assert (m = (len + 511) / 512) as Hm by by apply bytes_to_sectors_val.
  rewrite bytes_to_sectors_val in Hcnt by lia. set (d := data ip) in *.
  assert (zlen secs <= m <= MAX_SECTORS) as Hmr by (unfold MAX_SECTORS; Z.to_euclidean_division_equations; lia).
  unfold write_extend. wp_step. eapply get_inode_wp; [done|]. fold d. wp_step. apply byte_to_sector_out; [lia|].
  change (UNSET =? UNSET) with true. cbv iota. wp_step.
  apply (inode_reserve_wp f s d secs len); [apply Hgb|apply Hgb|lia|done|done|].
  intros fresh news s1 d1 G1 S1 L1 C1. destruct (grown_inodes _ _ _ _ _ _ _ _ (ga_grown _ _ _ _ _ _ G1)) as [Ei _].
  destruct (extension_ready _ _ _ _ _ _ _ _ _ Hgb Hlr G1 S1) as (Hg3 & Hsec3 & _ & Hok2 & _).
  wp_step. eapply get_inode_wp; [by rewrite Ei|]. cbn [fst snd negb]. unfold set_inode. do 2 wp_step. do 2 wp_step.
  set (d2 := set_length d1 len) in *. set (ip2 := set_data ip d2) in *.
  match goal with |- wp _ _ ?st => assert (st = set_inodes (<[p:=ip2]> (inodes s1)) s1) as -> end.
  { unfold set_inodes. simpl. by rewrite insert_insert_eq. }
  wp_step. eapply write_own_wp; [exact Hg3|exact Hsec3|by rewrite length_encode_inode|by apply encode_inode_u8|].
  intros s4 G4 Hb4. apply wp_ret. apply (HQ s4 ip2 (secs ++ fresh)); [|done].
  apply (extension_written s p ip secs len fresh news s1 d1 s4); [exact Hgb|unfold len; split; [apply Hlen|apply Hlr]|exact G1|exact S1|exact L1|exact C1|exact G4|exact Hb4].
Qed.

(** What a write of [size] bytes from [off] makes of a file: it ends behind
    them if it did not reach that far, and holds zeros where nothing was
    written. *)
Definition padded (text : list Z) (len : Z) : list Z := text ++ replicate (Z.to_nat (len - zlen text)) 0.
Record written s p ip secs (buf : list Z) (size off : Z) s' (ip' : inode) (secs' : list Z) : Prop := {
  wr_growable : growable s' p ip' secs';
  wr_length : length_ (data ip') = Z.max (length_ (data ip)) (off + size);
  wr_prefix : secs `prefix_of` secs';
  wr_content : content (store s') (data ip') secs'
    = splice (padded (content (store s) (data ip) secs) (off + size)) off (slice buf 0 size);
  wr_count : free_count (free_map s')
    = free_count (free_map s) - (sectors_for (bytes_to_sectors (length_ (data ip'))) - sectors_for (zlen secs));
  wr_inode : sector ip' = sector ip /\ open_cnt ip' = open_cnt ip /\ removed ip' = removed ip /\
    is_dir (data ip') = is_dir (data ip);
  wr_state : exists m b, s' = set_inodes (<[p := ip']> (inodes s)) (set_store b (set_free_map m s));
  wr_bits : bit_cnt (free_map s') = bit_cnt (free_map s) /\
    forall j, bit (free_map s) j = true -> bit (free_map s') j = true;
  wr_sectors : forall t, in_range (store s) t -> bit (free_map s) t = true -> t ∉ msecs ->
    t ∉ secs ++ metas (store s) (data ip) -> t <> sector ip -> bs_sector (store s') t = bs_sector (store s) t;
  wr_size : bs_size (store s') = bs_size (store s)
}.

(** Reading a sector changes nothing of it. *)
Lemma growable_read s p ip secs b :
  growable s p ip secs -> same_store (store s) b ->
  growable (set_store b s) p ip secs /\ content b (data ip) secs = content (store s) (data ip) secs.
Proof.
  intros Hgb Hb. pose proof (growable_file _ _ _ _ Hgb) as Hf.
  pose proof (content_same _ _ _ _ Hb Hf) as Ec. split; [|done].
  apply growable_store; [done|by apply same_changes_only|].
  rewrite Ec, (sectors_bytes_same _ _ _ _ Hb Hf). apply Hgb.
Qed.

Lemma growable_write_at_wp f s p ip secs buf size off (Q : Z -> fs B -> Prop) :
  growable s p ip secs -> 0 <= off -> 0 < size -> off + size <= 512 * MAX_SECTORS -> size <= zlen buf -> Forall is_u8 buf ->
  sectors_for (Z.max (zlen secs) (bytes_to_sectors (off + size))) - sectors_for (zlen secs) <= free_count (free_map s) ->
  (forall s' ip' secs', written s p ip secs buf size off s' ip' secs' -> Q size s') ->
  wp (inode_write_at_fuel (S (S f)) p buf size off) Q s.
Proof.
  intros Hgb Hoff Hsize Hmax Hbuf Hu Hfree HQ.
  change (inode_write_at_fuel (S (S f)) p buf size off)
    with (inode_write_at_body (inode_write_at_fuel (S f)) p buf size off). unfold inode_write_at_body.
  pose proof (growable_file _ _ _ _ Hgb) as Hf. destruct (growable_inv _ _ _ _ Hgb) as [Hinv Hlen].
  pose proof (zlen_content _ _ _ Hinv Hf Hlen) as Hz. pose proof (gb_count _ _ _ _ Hgb) as Hcnt.
  pose proof (gb_length _ _ _ _ Hgb) as Hl0. rewrite bytes_to_sectors_val in Hcnt by lia.
  rewrite bytes_to_sectors_val in Hfree by (unfold MAX_SECTORS in Hmax; lia).
  wp_step. eapply get_inode_wp; [apply Hgb|]. rewrite (gb_deny _ _ _ _ Hgb). cbn [negb Z.eqb]. wp_step.
  destruct (decide (off + size <= length_ (data ip))) as [Hin|Hout].
  - eapply write_extend_inside; [done|apply Hgb|done|done|lia|]. intros b1 Hb1. cbn [negb].
    destruct (growable_read _ _ _ _ _ Hgb Hb1) as [Hgb1 Ec1].
    eapply growable_write_wp; [exact Hgb1|lia..|done|]. intros b s' G2 Hgb2 E2. subst s'. rewrite set_store_twice in *.
    apply (HQ _ ip secs). split; [done|lia|done| | |done| |by split| |].
    + simpl in *. rewrite E2, Ec1. unfold padded. rewrite Hz. by replace (Z.to_nat (off + size - length_ (data ip))) with 0%nat
        by lia; rewrite app_nil_r.
    + simpl. rewrite <- (gb_count _ _ _ _ Hgb). lia.
    + exists (free_map s), b. rewrite insert_id by apply Hgb. by destruct s.
    + intros t Hr Hbit Hms Hnot Hne. apply not_elem_of_app in Hnot as [Hnot _].
      destruct G2 as (m & b' & Es & Hb' & _). injection Es as <- Em. simpl in *.
      rewrite (co_sector _ _ _ Hb'); [by apply Hb1|by eapply in_range_size; [apply Hb1|]|by rewrite elem_of_app; intros [?|?]].
    + rewrite (grown_size _ _ _ _ _ _ _ _ G2). apply Hb1.
  - assert (zlen secs <= (off + size + 511) / 512) by (rewrite Hcnt; apply Z.div_le_mono; lia).
    eapply write_extend_wp; [exact Hgb|lia|lia|lia| |].
    { rewrite bytes_to_sectors_val by (unfold MAX_SECTORS in Hmax; lia). rewrite Z.max_r in Hfree by lia. lia. }
    intros s1 ip1 secs1 [E1 E2 E3 E4 E5 E6 (m & b0 & E7) [Eb Eb'] E8 E9 E10] Hz1. cbn [negb].
    eapply growable_write_wp; [exact E1|lia..|done|]. intros b s' G2 Hgb2 Ew. subst s'.
    destruct (grown_inodes _ _ _ _ _ _ _ _ G2) as [Ei Ef].
    apply (HQ _ ip1 secs1). split; [done|lia|done| | |done| | | |by rewrite (grown_size _ _ _ _ _ _ _ _ G2)].
    + simpl. rewrite Ew, E4. unfold padded. by rewrite Hz.
    + rewrite (grown_count _ _ _ _ _ _ _ _ G2), E5, E2, <- Hz1. simpl. lia.
    + exists m, b. by rewrite E7.
    + by split.
    + intros t Hr Hbit Hms Hnot Hne. apply not_elem_of_app in Hnot as [Hn1 Hn2]. rewrite <- (E8 t) by done.
      destruct G2 as (m' & b' & Es & Hb' & _). injection Es as <- Em. simpl in Hb'. apply (co_sector _ _ _ Hb').
      * exact (in_range_size _ _ _ E10 Hr).
      * rewrite elem_of_app. intros [Hin|Hin]; [exact (Hms Hin)|].
        destruct (E9 t Hin) as [Hin'|[Hin'|Hin']]; [exact (Hn1 Hin')|exact (Hn2 Hin')|congruence].
Qed.

(** C2: Writing at any offset, inside a file, at its end or beyond it:
    when the disk has the sectors for it, inode_write_at writes all the
    bytes; a file that ended before them now ends behind them, with zeros
    in the gap; exactly the sectors the new length needs, indirect blocks
    included, were taken from the free map; nothing of other files changed;
    and the invariant of the file holds again, its inode on the disk being
    the one in memory. At least one byte is written, within the length of
    the largest file, and writes to the inode are not denied. *)
Theorem write_at_any_offset s p ip secs buf size off :
  growable s p ip secs -> 0 <= off -> 0 < size -> off + size <= 512 * MAX_SECTORS -> size <= zlen buf -> Forall is_u8 buf ->
  sectors_for (Z.max (zlen secs) (bytes_to_sectors (off + size))) - sectors_for (zlen secs) <= free_count (free_map s) ->
  wp (inode_write_at p buf size off)
     (fun n s' => n = size /\ exists ip' secs', written s p ip secs buf size off s' ip' secs') s.
Proof.
  intros. unfold inode_write_at, write_fuel. apply (growable_write_at_wp 1 s p ip secs); [done..|].
  intros s' ip' secs' Hw. split; [done|]. by exists ip', secs'.
Qed.
End session.
End extend.

(* ------------------------------------------------------------------ *)
(** ** Witness                                                         *)
(* ------------------------------------------------------------------ *)

#[local] Existing Instance Cache.cache_store.

(** A file with direct blocks only. *)
Lemma direct_sound {B} `{!BlockStore B} mip msecs (s : fs B) d secs :
  zlen (direct_blocks d) = 123 -> direct_blocks d = secs ++ replicate (123 - length secs) 0 ->
  zlen secs <= 123 -> indirect_block d = 0 -> doubly_indirect_block d = 0 ->
  mine mip msecs s secs -> NoDup secs -> sound mip msecs s d secs /\ metas (store s) d = [].
Proof.
  intros Hd Hb Hl Hi Hdb Hm Hn. assert (metas (store s) d = []) as Em by (unfold metas; by rewrite Hi, Hdb, !inner_zero).
  split; [|done]. destruct (zlen_parts secs) as (L1 & L2 & L3).
  rewrite (secs_split secs), (nil_length_inv (part2 secs)), (nil_length_inv (part3 secs)), !app_nil_r in Hm, Hn, Hb by lia.
  unfold sound. rewrite (nil_length_inv (part2 secs)), (nil_length_inv (part3 secs)) by lia.
  split; rewrite ?Em, ?app_nil_r; try done; [|by rewrite Hi; apply tree_zero|by rewrite Hdb; apply tree_zero].
  intros i x Hx. change (cap 0) with 1. rewrite Z.mul_1_l. pose proof (zget_range _ _ _ Hx).
  rewrite Hb, zget_app in Hx. rewrite tree_O. case_bool_decide as Hin.
  - destruct Hm as [_ Hm]. destruct (Hm x) as (Hx0 & _); [by eapply zget_elem|].
    rewrite (proj2 (Z.eqb_neq _ _)) by done. unfold slice. rewrite zget_lookup in Hx by lia. by rewrite (drop_S _ _ _ Hx).
  - apply zget_elem, elem_of_replicate in Hx as [-> _]. simpl. unfold slice. by rewrite drop_ge by lia.
Qed.

Lemma session_ground : ground 1 (mkFile 2 0 false) DemoDisk.map_inode [2] DemoDisk.session.
Proof.
  split; [apply DemoDisk.session_map_ok|by vm_compute|by vm_compute|by intros t ->%list_elem_of_singleton; vm_compute|].
  intros t [[H _]|[[H _]|(k & ? & H & _)]]; simpl in H; lia.
Qed.
Lemma session_mine ts :
  forallb (fun t => (0 <? t) && (t <? 10) && bit (mkBitmap 10 [511]) t && negb (t =? 2)) ts = true ->
  mine DemoDisk.map_inode [2] DemoDisk.session ts.
Proof.
  intros H. rewrite forallb_forall in H.
  assert (forall t, t ∈ ts -> 0 < t < 10 /\ bit (mkBitmap 10 [511]) t = true /\ t <> 2) as H'.
  { intros t Ht%list_elem_of_In. apply H in Ht. rewrite !andb_true_iff in Ht. destruct Ht as [[[? ?] ?] Hne]. split_and!; [lia|lia|done|by intros ->]. }
  split; intros t Ht; destruct (H' t Ht) as (Hr & Hb & Hne).
  - split; [simpl; lia|done].
  - split_and!; [lia|by intros ?%list_elem_of_singleton|].
    intros [[Hl _]|[[Hl _]|(k & ? & Hl & _)]]; simpl in Hl; lia.
Qed.

Lemma root_growable :
  growable 1 (mkFile 2 0 false) DemoDisk.map_inode [2] DemoDisk.session 5 DemoDisk.root_inode [3].
Proof.
  pose proof session_ground as Hg.
  assert (decode_inode (bs_sector DemoDisk.disk 1) = DemoDisk.root_disk) as Hdec by by vm_compute.
  destruct (direct_sound DemoDisk.map_inode [2] DemoDisk.session DemoDisk.root_disk [3]) as [Hs Hm];
    [by vm_compute|by vm_compute|by vm_compute|reflexivity|reflexivity|by apply session_mine|apply NoDup_singleton|].
  split; [exact Hg|reflexivity|discriminate|reflexivity| |by vm_compute|by vm_compute|exact Hs|by apply session_mine
    | |by vm_compute|by vm_compute].
  - assert (0 <= 1 < bs_size DemoDisk.disk) as Hr by (vm_compute; split; [discriminate|reflexivity]).
    pose proof (bs_sector_ok DemoDisk.disk 1 DemoDisk.disk_inv Hr) as [Hl Hu].
    assert (inode_disk_ok (decode_inode (bs_sector DemoDisk.disk 1))) as Hok.
    { apply decode_inode_ok; [unfold SECTOR in Hl; lia|exact Hu]. }
    rewrite Hdec in Hok. exact Hok.
  - change (data DemoDisk.root_inode) with DemoDisk.root_disk. rewrite Hm. apply (bool_decide_unpack _). by vm_compute.
Qed.

(** Four bytes at 600 in the root directory, of 216 bytes: the last free
    sector is taken. *)
Lemma write_at_any_offset_witness :
  wp (inode_write_at 5 [1; 2; 3; 4] 4 600)
     (fun n s' => n = 4 /\ free_count (free_map s') = 0 /\ exists ip secs, inodes s' !! 5%positive = Some ip /\
        content (store s') (data ip) secs
        = content DemoDisk.disk DemoDisk.root_disk [3] ++ replicate 384 0 ++ [1; 2; 3; 4]) DemoDisk.session.
Proof.
  eapply wp_mono.
  - apply (write_at_any_offset 1 (mkFile 2 0 false) DemoDisk.map_inode [2] DemoDisk.session 5 DemoDisk.root_inode [3]);
      [apply root_growable|done|done|done|done|by repeat constructor|by vm_compute].
  - intros n s' (-> & ip & secs & Hw). split; [done|]. split.
    + rewrite (wr_count _ _ _ _ _ _ _ _ _ _ _ _ _ _ Hw), (wr_length _ _ _ _ _ _ _ _ _ _ _ _ _ _ Hw). by vm_compute.
    + exists ip, secs. split; [apply (gb_inode _ _ _ _ _ _ _ _ (wr_growable _ _ _ _ _ _ _ _ _ _ _ _ _ _ Hw))|].
      rewrite (wr_content _ _ _ _ _ _ _ _ _ _ _ _ _ _ Hw). by vm_compute.
Defined.

(** A write of no bytes at the start of a file finds offset -1 outside the
    file and takes it for one that must be extended, to length 0: the file
    is emptied, and its sectors stay marked. *)
Theorem empty_write_truncates :
  wp (inode_write_at 5 [] 0 0)
     (fun n s' => n = 0 /\ (fun ip => length_ (data ip)) <$> inodes s' !! 5%positive = Some 0 /\
        bits (free_map s') = bits (free_map DemoDisk.session)) DemoDisk.session.
Proof. vm_compute. repeat split. Qed.
End Extend.
