(* ===== verification/Partition.v ===== *)
(** * Partition: registration of the disk and its partitions
    (a3/fs/partition.c, block_register of block.c, ide_init of ide.c)

    ide_init registers the disk as the hard drive and scans its partition
    table; every partition it finds is registered too, and so replaces the
    disk as the hard drive. *)
From S2P Require Import Prelude Bitmap Block Store Cache FsState FileData Debug DemoDisk.

Module Partition.
Import Block FsState.
Open Scope string_scope. Open Scope Z_scope.

(** A struct block whose driver is partition.c: [p_start] is in the struct
    partition of its driver data, whose block is the disk. *)
Record part := mkPart { p_name : string; p_start : Z; p_size : Z; p_read_cnt : Z; p_write_cnt : Z }.

(** The disk, the partitions registered so far, and hard_drive: the disk
    itself ([None]) or one of the partitions. *)
Record drives := mkDrives { disk : block; parts : list part; hard_drive : option nat }.

Definition on_disk {A} (m : M block A) : M drives A :=
  zoom disk (fun x d => mkDrives x (parts d) (hard_drive d)) m.
Definition block_set_hd (b : option nat) : M drives unit :=
  modify (fun d => mkDrives (disk d) (parts d) b).

(** What block_register prints. *)
Definition announce (nm : string) (sectors : Z) : M drives unit :=
  print (nm +:+ ": " +:+ pretty sectors +:+ " sectors (") ;;
  Debug.print_human_readable_size (u64 (sectors * BLOCK_SECTOR_SIZE)) ;;
  print (")" +:+ nl).

(** block_register for a partition; the name is that of an array of 16
    bytes that strncpy fills. *)
Definition block_register (nm : string) (sectors start : Z) : M drives unit :=
  announce nm sectors ;;
  let! d := get in
  put (mkDrives (disk d) (parts d ++ [mkPart nm start sectors 0 0])%list (hard_drive d)) ;;
  block_set_hd (Some (length (parts d))).

(* ------------------------------------------------------------------ *)
(** ** The partition table                                             *)
(* ------------------------------------------------------------------ *)

(** struct partition_table_entry; what follows [type] is not read. *)
Record partition_table_entry := mkPte { e_type : Z; e_offset : Z; e_size : Z }.
(** Entry [i] of struct partition_table, and its signature. *)
Definition partition_at (pt : list Z) (i : Z) : partition_table_entry :=
  let e := slice pt (446 + 16 * i) 16 in
  mkPte (le_value (slice e 4 1)) (le_value (slice e 8 4)) (le_value (slice e 12 4)).
Definition signature (pt : list Z) : Z := le_value (slice pt 510 2).

Definition found_partition (start size part_nr : Z) : M drives unit :=
  let! d := get in
  let nm := name (disk d) in
  if Block.size (disk d) <=? start then
    print (nm +:+ pretty part_nr +:+ ": Partition starts past end of device (sector " +:+ pretty start +:+ ")" +:+ nl)
  else if (u32 (start + size) <? start) || (Block.size (disk d) <? u32 (start + size)) then
    print (nm +:+ pretty part_nr +:+ ": Partition end (" +:+ pretty (u32 (start + size)) +:+
           ") past end of device (" +:+ pretty (Block.size (disk d)) +:+ ")" +:+ nl)
  else block_register (nm +:+ pretty part_nr) size start.

Definition empty_entry (e : partition_table_entry) : bool := (e_size e =? 0) || (e_type e =? 0).
Definition extended (e : partition_table_entry) : bool :=
  (e_type e =? 5) || (e_type e =? 15) || (e_type e =? 133) || (e_type e =? 197).

(** What malloc gives read_partition_table for its table. *)
Section scan.
Variable garbage : list Z.

(** The number of partitions found so far is passed and returned.
    block_read is always given sector 0. *)
Fixpoint read_partition_table (fuel : nat) (sector primary_extended_sector part_nr : Z) : M drives Z :=
  match fuel with
  | O => out_of_fuel
  | S fuel =>
      let! d := get in
      let nm := name (disk d) in
      if Block.size (disk d) <=? sector then
        print (nm +:+ ": Partition table at sector " +:+ pretty sector +:+ " past end of device." +:+ nl) ;; ret part_nr
      else
        let! pt := on_disk (block_read 0 garbage) in
        if negb (signature pt =? 43605) then
          (if primary_extended_sector =? 0 then print (nm +:+ ": Invalid partition table signature" +:+ nl)
           else print (nm +:+ ": Invalid extended partition table in sector " +:+ pretty sector +:+ nl)) ;;
          ret part_nr
        else
          for_acc 4 0 (fun i part_nr =>
            let e := partition_at pt i in
            if empty_entry e then ret part_nr
            else if extended e then
              print (nm +:+ ": Extended partition in sector " +:+ pretty sector +:+ nl) ;;
              if sector =? 0 then read_partition_table fuel (e_offset e) (e_offset e) part_nr
              else read_partition_table fuel (u32 (e_offset e + primary_extended_sector)) primary_extended_sector part_nr
            else
              found_partition (u32 (e_offset e + sector)) (e_size e) (part_nr + 1) ;;
              ret (part_nr + 1)) part_nr
  end.

Definition partition_scan (fuel : nat) : M drives unit :=
  let! part_nr := read_partition_table fuel 0 0 0 in
  let! d := get in
  when (part_nr =? 0) (print (name (disk d) +:+ ": Device contains no partitions" +:+ nl)).

(** ide_init and identify_ata_device, when open returned [fd] and the disk
    file holds [img]. *)
Definition ide_init (fuel : nat) (fd : Z) (img : list Z) : M drives unit :=
  when (fd =? 1) (panic "FD -1") ;;
  put (mkDrives (identify_ata_device img) [] None) ;;
  let! d := get in
  announce (name (disk d)) (Block.size (disk d)) ;;
  partition_scan fuel.
End scan.

(* ------------------------------------------------------------------ *)
(** ** Access to a partition                                           *)
(* ------------------------------------------------------------------ *)

Definition get_part (i : nat) : M drives part := let! d := get in need (parts d !! i).
Definition set_part (i : nat) (p : part) : M drives unit :=
  modify (fun d => mkDrives (disk d) (<[i := p]> (parts d)) (hard_drive d)).
Definition partition_read (p : part) (sector : Z) (buffer : list Z) : M drives (list Z) :=
  on_disk (block_read (u32 (p_start p + sector + 1)) buffer).
Definition partition_write (p : part) (sector : Z) (buffer : list Z) : M drives unit :=
  on_disk (block_write (u32 (p_start p + sector + 1)) buffer).

(** block_read and block_write on the hard drive. *)
Definition hd_read (sector : Z) (buffer : list Z) : M drives (list Z) :=
  let! d := get in
  match hard_drive d with
  | None => on_disk (block_read sector buffer)
  | Some i =>
      let! p := get_part i in
      when (p_size p <=? sector) (panic "Access past end of device") ;;
      let! r := partition_read p sector buffer in
      set_part i (mkPart (p_name p) (p_start p) (p_size p) (u64 (p_read_cnt p + 1)) (p_write_cnt p)) ;;
      ret r
  end.
Definition hd_write (sector : Z) (buffer : list Z) : M drives unit :=
  let! d := get in
  match hard_drive d with
  | None => on_disk (block_write sector buffer)
  | Some i =>
      let! p := get_part i in
      when (p_size p <=? sector) (panic "Access past end of device") ;;
      partition_write p sector buffer ;;
      set_part i (mkPart (p_name p) (p_start p) (p_size p) (p_read_cnt p) (u64 (p_write_cnt p + 1)))
  end.
(* ------------------------------------------------------------------ *)
(** ** Properties                                                      *)
(* ------------------------------------------------------------------ *)

Lemma bind_get {S A} (f : S -> M S A) s : bind get f s = f s s.
Proof. by apply bind_Ok_nil. Qed.

(** The disk is as it was but for its counters. *)
Record same_disk (b b' : block) : Prop := {
  sd_wf : Block.wf b'; sd_size : Block.size b' = Block.size b; sd_image : image b' = image b; sd_name : name b' = name b
}.
Lemma same_sector b b' s : same_disk b b' -> sector_at b' s = sector_at b s.
Proof. intros [_ _ E _]. unfold sector_at. by rewrite E. Qed.

(** A formatted disk: its first sector holds the inode of the free map. *)
Definition formatted (b : block) : Prop :=
  exists di, inode_disk_ok di /\ magic di = INODE_MAGIC /\ sector_at b 0 = encode_inode di.

Lemma formatted_signature b : formatted b -> signature (sector_at b 0) = 18766.
Proof.
  intros (di & Hd & Hm & ->). unfold signature.
  assert (slice (encode_inode di) 508 4 = le_bytes 4 INODE_MAGIC) as E.
  { pose proof (f_equal magic (decode_encode_inode di Hd)) as E. simpl in E. rewrite Hm in E.
    assert (length (slice (encode_inode di) 508 4) = 4%nat) as Hl
      by (unfold slice; rewrite length_take, length_drop, length_encode_inode by done; done).
    pose proof (le_bytes_value (slice (encode_inode di) 508 4)) as F. rewrite Hl, E in F.
    symmetry. by apply F, Forall_slice, encode_inode_u8. }
  rewrite <- (slice_slice _ 508 4 2 2), E by lia. done.
Qed.

(** Entry [i] of the table is that of an extended partition, and those
    before it are empty. *)
Definition first_extended (pt : list Z) (i o : Z) : Prop :=
  0 <= i < 4 /\ (forall j, 0 <= j < i -> empty_entry (partition_at pt j) = true) /\
  empty_entry (partition_at pt i) = false /\ extended (partition_at pt i) = true /\
  e_offset (partition_at pt i) = o.

Lemma for_first_extended pt i o (body : Z -> Z -> M drives Z) nr d :
  first_extended pt i o ->
  (forall j nr, empty_entry (partition_at pt j) = true -> body j nr d = Ok nr d []) ->
  body i nr d = NoFuel -> for_acc 4 0 body nr d = NoFuel.
Proof.
  intros (Hi & He & _) Hbody Hstop.
  assert (forall n j, 0 <= j <= i -> i - j < Z.of_nat n -> for_acc n j body nr d = NoFuel) as H; [|apply H; lia].
  induction n as [|n IH]; intros j Hj Hn; [lia|]. cbn [for_acc]. destruct (Z.eq_dec j i) as [->|Hne].
  - unfold bind. by rewrite Hstop.
  - rewrite (bind_Ok_nil _ _ _ nr d); [apply IH; lia|]. apply Hbody, He. lia.
Qed.

(** The four entries of a table. *)
Fixpoint entries_from (pt : list Z) (n : nat) (i : Z) : list partition_table_entry :=
  match n with O => [] | S n => partition_at pt i :: entries_from pt n (i + 1) end.
Definition table (pt : list Z) : list partition_table_entry := entries_from pt 4 0.
Definition primary_entry (e : partition_table_entry) : Prop := empty_entry e = true \/ extended e = false.

(** The partitions to register: those not empty that lie inside the device
    of [size] sectors, numbered from [nr + 1]. *)
Fixpoint found_parts (size : Z) (nm : string) (nr : Z) (es : list partition_table_entry) : list part :=
  match es with
  | [] => []
  | e :: es =>
      if empty_entry e then found_parts size nm nr es
      else
        ((if e_offset e + e_size e <=? size then [mkPart (nm +:+ pretty (nr + 1)) (e_offset e) (e_size e) 0 0] else [])
         ++ found_parts size nm (nr + 1) es)%list
  end.
(** [ps] are registered one after the other. *)
Definition register (ps : list part) (d : drives) : drives :=
  mkDrives (disk d) (parts d ++ ps)%list
    (match ps with [] => hard_drive d | _ => Some (length (parts d) + length ps - 1)%nat end).

Lemma register_app ps qs d : register qs (register ps d) = register (ps ++ qs)%list d.
Proof.
  unfold register. simpl. rewrite app_assoc. f_equal. destruct qs as [|q qs]; [by rewrite app_nil_r|].
  rewrite !length_app. destruct ps as [|p ps]; simpl; f_equal; lia.
Qed.

Lemma block_register_wpt nm size start d (Q : unit -> drives -> list event -> Prop) :
  (forall tr, Q tt (register [mkPart nm start size 0 0] d) tr) -> wpt (block_register nm size start) Q d.
Proof.
  intros HQ.
  assert (register [mkPart nm start size 0 0] d
    = mkDrives (disk d) (parts d ++ [mkPart nm start size 0 0])%list (Some (length (parts d)))) as E
    by (unfold register; simpl; by rewrite Nat.add_sub).
  rewrite E in HQ. unfold block_register, announce, Debug.print_human_readable_size, wpt.
  destruct (_ =? 1); [|destruct (Debug.scale _ _ _)]; apply HQ.
Qed.

Definition u32_entry (e : partition_table_entry) : Prop := 0 <= e_offset e < 2 ^ 32 /\ 0 <= e_size e < 2 ^ 32.

Lemma found_partition_wpt e nr d (Q : unit -> drives -> list event -> Prop) :
  u32_entry e -> empty_entry e = false -> 0 <= Block.size (disk d) < 2 ^ 32 ->
  (forall tr, Q tt (register (if e_offset e + e_size e <=? Block.size (disk d)
                              then [mkPart (name (disk d) +:+ pretty nr) (e_offset e) (e_size e) 0 0] else []) d) tr) ->
  wpt (found_partition (u32 (e_offset e + 0)) (e_size e) nr) Q d.
Proof.
  intros [H1 H2] He Hs HQ. unfold empty_entry in He. apply orb_false_iff in He as [He%Z.eqb_neq _].
  assert (u32 (e_offset e + 0) = e_offset e) as -> by (unfold u32; rewrite Z.add_0_r; by apply Z.mod_small).
  assert (register [] d = d) as Er by (unfold register; rewrite app_nil_r; by destruct d).
  unfold found_partition. apply wpt_seq, wp_get.
  destruct (Z.leb_spec (Block.size (disk d)) (e_offset e)) as [Hl|Hl].
  { rewrite (proj2 (Z.leb_gt _ _)), Er in HQ by lia. apply HQ. }
  destruct (Z.leb_spec (e_offset e + e_size e) (Block.size (disk d))) as [Hin|Hin].
  - assert (u32 (e_offset e + e_size e) = e_offset e + e_size e) as -> by (apply Z.mod_small; lia).
    rewrite (proj2 (Z.ltb_ge _ _)), (proj2 (Z.ltb_ge _ _)) by lia. simpl orb. cbv iota.
    by apply block_register_wpt.
  - rewrite Er in HQ.
    assert ((u32 (e_offset e + e_size e) <? e_offset e) || (Block.size (disk d) <? u32 (e_offset e + e_size e)) = true)
      as ->; [|apply HQ].
    unfold u32. destruct (Z.lt_ge_cases (e_offset e + e_size e) (2 ^ 32)) as [Hlt|Hge].
    + rewrite Z.mod_small by lia. apply orb_true_iff. right. by apply Z.ltb_lt.
    + assert ((e_offset e + e_size e) mod 2 ^ 32 = e_offset e + e_size e - 2 ^ 32) as ->.
      { symmetry. apply Z.mod_unique with 1; lia. }
      apply orb_true_iff. left. apply Z.ltb_lt. lia.
Qed.

Lemma partition_at_u32 pt j : Forall is_u8 pt -> u32_entry (partition_at pt j).
Proof.
  intros Hu. unfold u32_entry, partition_at. simpl.
  assert (forall l off, Forall is_u8 l -> 0 <= le_value (slice l off 4) < 2 ^ 32) as H.
  { intros l off Hl. pose proof (le_value_bound (slice l off 4)) as Hr.
    pose proof (zlen_slice_le l off 4). split; [by apply Hr, Forall_slice|].
    eapply Z.lt_le_trans; [by apply Hr, Forall_slice|]. change (2 ^ 32) with (256 ^ 4). apply Z.pow_le_mono_r; lia. }
  split; by apply H, Forall_slice.
Qed.

(** The loop over the entries, whatever it does for extended ones. *)
Lemma entries_wpt (ext : Z -> Z -> M drives Z) pt n : forall i nr d,
  Forall is_u8 pt -> 0 <= Block.size (disk d) < 2 ^ 32 -> Forall primary_entry (entries_from pt n i) ->
  wpt (for_acc n i (fun i part_nr =>
         let e := partition_at pt i in
         if empty_entry e then ret part_nr
         else if extended e then ext i part_nr
         else found_partition (u32 (e_offset e + 0)) (e_size e) (part_nr + 1) ;; ret (part_nr + 1)) nr)
    (fun _ d' _ => d' = register (found_parts (Block.size (disk d)) (name (disk d)) nr (entries_from pt n i)) d) d.
Proof.
  induction n as [|n IH]; intros i nr d Hu Hs Hp.
  { apply wpt_ret. unfold register. simpl. rewrite app_nil_r. by destruct d. }
  cbn [entries_from] in Hp. apply Forall_cons in Hp as [He Hp]. cbn [for_acc entries_from found_parts]. apply wpt_bind.
  destruct (empty_entry (partition_at pt i)) eqn:E.
  { apply wpt_ret. eapply wpt_mono; [by apply IH|]. done. }
  destruct He as [He|He]; [congruence|]. rewrite He. apply wpt_bind, found_partition_wpt; [by apply partition_at_u32|done..|].
  intros tr. apply wpt_ret. eapply wpt_mono; [by apply IH|]. intros nr' d' tr' ->. by rewrite register_app.
Qed.

Section props.
Variable garbage : list Z.
Hypothesis garbage_length : zlen garbage = 512.

(** Reading the table leaves everything but the counters. *)
Lemma read_table d :
  Block.wf (disk d) -> 0 < Block.size (disk d) ->
  exists b, on_disk (block_read 0 garbage) d = Ok (sector_at (disk d) 0) (mkDrives b (parts d) (hard_drive d)) [] /\
    same_disk (disk d) b.
Proof using garbage_length.
  intros Hw Hs.
  assert (wp (block_read 0 garbage) (fun r b => r = sector_at (disk d) 0 /\ same_disk (disk d) b) (disk d)) as H.
  { unfold block_read, check_sector, ide_read. wp_steps; [lia|].
    rewrite ide_offset_val by lia.
    rewrite splice_all by (rewrite zlen_slice; destruct Hw; unfold BLOCK_SECTOR_SIZE in *; lia).
    split; [done|]. destruct Hw. by split. }
  apply wp_Ok in H as (r & b & E & -> & Hb). exists b. split; [|done]. unfold on_disk, zoom. by rewrite E.
Qed.

(** C18: ide_init finds no partition on a formatted disk, so the disk stays
    the hard drive: the last bytes of the inode in its first sector are
    those of the inode magic number, not the signature of a partition
    table. *)
Theorem formatted_disk_unpartitioned fuel d :
  Block.wf (disk d) -> 0 < Block.size (disk d) -> formatted (disk d) ->
  exists b, partition_scan garbage (S fuel) d =
      Ok tt (mkDrives b (parts d) (hard_drive d))
        [Print (name (disk d) +:+ ": Invalid partition table signature" +:+ nl);
         Print (name (disk d) +:+ ": Device contains no partitions" +:+ nl)] /\
    same_disk (disk d) b.
Proof using garbage_length.
  intros Hw Hs Hf. destruct (read_table d Hw Hs) as (b & E & Hb). exists b. split; [|done].
  assert (read_partition_table garbage (S fuel) 0 0 0 d = Ok 0 (mkDrives b (parts d) (hard_drive d))
    [Print (name (disk d) +:+ ": Invalid partition table signature" +:+ nl)]) as Et.
  { cbn [read_partition_table]. rewrite bind_get, (proj2 (Z.leb_gt _ _)) by done.
    by rewrite (bind_Ok_nil _ _ _ _ _ E), formatted_signature by done. }
  unfold partition_scan. rewrite (bind_Ok _ _ _ _ _ _ Et). destruct Hb as [_ _ _ En].
  rewrite bind_get. simpl. by rewrite En.
Qed.

(** The table of sector 0 is read again at every level. *)
Lemma extended_hangs fuel : forall sector primary nr d i o,
  Block.wf (disk d) -> sector < Block.size (disk d) -> 0 < Block.size (disk d) ->
  signature (sector_at (disk d) 0) = 43605 -> first_extended (sector_at (disk d) 0) i o ->
  0 < o -> 2 * o < Block.size (disk d) -> (sector = 0 \/ primary = o) ->
  read_partition_table garbage fuel sector primary nr d = NoFuel.
Proof using garbage_length.
  induction fuel as [|fuel IH]; intros sector primary nr d i o Hw Hs H0 Hsig Hf Ho Ho2 Hp; [done|].
  destruct (read_table d Hw H0) as (b & E & Hb). cbn [read_partition_table].
  rewrite bind_get, (proj2 (Z.leb_gt _ _)) by lia. rewrite (bind_Ok_nil _ _ _ _ _ E), Hsig. simpl negb. cbv iota.
  pose proof (same_sector _ _ 0 Hb) as Es. destruct Hb as [B1 B2 B3 B4].
  assert (forall s p nr, s < Block.size (disk d) -> (s = 0 \/ p = o) ->
    read_partition_table garbage fuel s p nr (mkDrives b (parts d) (hard_drive d)) = NoFuel) as Hrec.
  { intros s p nr' Hs' Hp'. apply (IH s p nr' _ i o); simpl; rewrite ?Es, ?B2; done || lia. }
  apply (for_first_extended (sector_at (disk d) 0) i o); [exact Hf|..].
  - intros j nr' He. by rewrite He.
  - destruct Hf as (_ & _ & He & Hx & Eo). rewrite He, Hx, Eo. unfold bind, print. simpl.
    destruct (Z.eqb_spec sector 0) as [E0|E0]; [by rewrite Hrec by (lia || by right)|].
    destruct Hp as [|Hp]; [done|]. subst primary. rewrite Hrec; [done| |by right].
    unfold u32. rewrite Z.mod_small; [lia|]. destruct Hw. lia.
Qed.

(** Partition_scan never returns on a disk whose table has an extended
    partition (its first entry that is not empty) with an offset in the
    first half of the disk: block_read is given sector 0 at every level, so
    the same table is found again and again, until the stack overflows. *)
Theorem extended_partition_never_ends fuel d i o :
  Block.wf (disk d) -> 0 < Block.size (disk d) -> signature (sector_at (disk d) 0) = 43605 ->
  first_extended (sector_at (disk d) 0) i o -> 0 < o -> 2 * o < Block.size (disk d) ->
  partition_scan garbage fuel d = NoFuel.
Proof using garbage_length.
  intros. unfold partition_scan, bind. rewrite (extended_hangs fuel 0 0 0 d i o); auto.
Qed.

(** C19: on a disk whose table has only primary partitions, partition_scan
    registers those that lie inside the device, in order and under their
    numbers, and rejects the others, the ones whose end wraps around in 32
    bits included; the last one registered is the hard drive from then on,
    in place of the disk. *)
Theorem primary_partitions_registered fuel d :
  Block.wf (disk d) -> 0 < Block.size (disk d) -> signature (sector_at (disk d) 0) = 43605 ->
  Forall primary_entry (table (sector_at (disk d) 0)) ->
  exists b tr, partition_scan garbage (S fuel) d
    = Ok tt (register (found_parts (Block.size (disk d)) (name (disk d)) 0 (table (sector_at (disk d) 0)))
               (mkDrives b (parts d) (hard_drive d))) tr /\
    same_disk (disk d) b.
Proof using garbage_length.
  intros Hw Hs Hsig Hp. destruct (read_table d Hw Hs) as (b & E & Hb).
  assert (wpt (partition_scan garbage (S fuel)) (fun _ d' _ => d' =
    register (found_parts (Block.size (disk d)) (name (disk d)) 0 (table (sector_at (disk d) 0)))
      (mkDrives b (parts d) (hard_drive d))) d) as H.
  { unfold partition_scan. cbn [read_partition_table]. apply wpt_bind, wpt_seq, wp_get.
    rewrite (proj2 (Z.leb_gt _ _)) by done. apply wpt_seq, wp_Ok. do 2 eexists. split; [exact E|].
    rewrite Hsig. change (negb (43605 =? 43605)) with false. cbv iota.
    eapply wpt_mono; [apply (entries_wpt _ (sector_at (disk d) 0) 4 0 0)|].
    { destruct Hw as [_ _ Hu]. by apply Forall_slice. }
    { cbn [disk]. destruct Hb as [_ -> _ _]. destruct Hw. lia. }
    { exact Hp. }
    intros nr d1 tr E1. cbn [disk] in E1. destruct Hb as [_ B2 _ B4]. rewrite B2, B4 in E1. apply wpt_seq, wp_get.
    unfold when. destruct (nr =? 0); by apply wpt_ret || done. }
  apply wpt_Ok in H as ([] & d' & tr & E2 & ->). by exists b, tr.
Qed.
End props.

(* ------------------------------------------------------------------ *)
(** ** Witnesses                                                       *)
(* ------------------------------------------------------------------ *)

Definition pte_bytes (t off sz : Z) : list Z := ([0; 0; 0; 0; t; 0; 0; 0] ++ le_bytes 4 off ++ le_bytes 4 sz)%list.
(** A device of ten sectors with these entries in its table. *)
Definition table_image (es : list (Z * Z * Z)) : list Z :=
  (replicate 446 0 ++ flat_map (fun '(t, off, sz) => pte_bytes t off sz) es ++ [85; 170] ++ replicate 4608 0)%list.
Definition drives_of (img : list Z) : drives := mkDrives (identify_ata_device img) [] None.
Definition junk : list Z := replicate 512 7.

Definition extended_image : list Z := table_image [(0, 0, 0); (5, 2, 4); (0, 0, 0); (0, 0, 0)].
Definition primary_image : list Z := table_image [(131, 1, 4); (131, 8, 2 ^ 32 - 1); (0, 0, 0); (131, 5, 5)].

Ltac wf_disk :=
  split; [vm_compute; split; congruence|by vm_compute|];
  apply (bool_decide_unpack (Forall (fun b => 0 <= b < 256) _)); by vm_compute.
Lemma extended_wf : Block.wf (disk (drives_of extended_image)).
Proof. wf_disk. Qed.
Lemma primary_wf : Block.wf (disk (drives_of primary_image)).
Proof. wf_disk. Qed.
Lemma demo_image_wf : Block.wf (disk (drives_of DemoDisk.image)).
Proof. wf_disk. Qed.

Lemma map_disk_ok : inode_disk_ok DemoDisk.map_disk.
Proof.
  assert (forall z, bool_decide (0 <= z < 2 ^ 32) = true -> 0 <= z < 2 ^ 32) as H
    by (intros z Hz; by apply bool_decide_eq_true in Hz).
  split; [done|apply (bool_decide_unpack (Forall (fun w => 0 <= w < 2 ^ 32) _)); by vm_compute
    |by apply H|by apply H|by split|split; [done|by repeat constructor]|by split|by apply H].
Qed.

Lemma formatted_disk_unpartitioned_witness :
  exists b, partition_scan junk 1 (drives_of DemoDisk.image)
    = Ok tt (mkDrives b [] None)
        [Print ("hda: Invalid partition table signature" +:+ nl); Print ("hda: Device contains no partitions" +:+ nl)] /\
    same_disk (disk (drives_of DemoDisk.image)) b.
Proof.
  apply (formatted_disk_unpartitioned junk eq_refl 0 (drives_of DemoDisk.image)); [apply demo_image_wf|by vm_compute|].
  exists DemoDisk.map_disk. split; [apply map_disk_ok|split; by vm_compute].
Defined.

Lemma extended_partition_never_ends_witness :
  partition_scan junk 1000%nat (drives_of extended_image) = NoFuel.
Proof.
  apply (extended_partition_never_ends junk eq_refl 1000%nat (drives_of extended_image) 1 2);
    [apply extended_wf|by vm_compute|by vm_compute| |lia|by vm_compute].
  split; [lia|split; [|by vm_compute]]. intros j Hj. assert (j = 0) as -> by lia. by vm_compute.
Defined.

(** The second partition is rejected, the fourth becomes the hard drive. *)
Lemma primary_partitions_registered_witness :
  exists b tr, partition_scan junk 1 (drives_of primary_image)
    = Ok tt (mkDrives b [mkPart "hda1" 1 4 0 0; mkPart "hda3" 5 5 0 0] (Some 1%nat)) tr /\
    same_disk (disk (drives_of primary_image)) b.
Proof.
  apply (primary_partitions_registered junk eq_refl 0 (drives_of primary_image));
    [apply primary_wf|by vm_compute|by vm_compute|].
  repeat apply Forall_cons_2; try apply Forall_nil_2; first [by right; vm_compute|by left; vm_compute].
Defined.
End Partition.
