(* ===== verification/DirectoryProps.v ===== *)
(** * DirectoryProps: a directory is a map from names to sectors

    What the functions of Directory.v do to the entries in a directory's
    file, and to the map from names to inode sectors that those entries
    stand for. *)
From Stdlib Require Import Ascii.
From S2P Require Import Prelude Bitmap Block Store Cache FsState Inode FileData FreeMap FileProps CString Files Directory DemoDisk.

Module DirectoryProps.
Import Bitmap FsState Inode FileData FreeMap FileProps Files Directory DemoDisk.

(* ------------------------------------------------------------------ *)
(** ** Entries and their bytes                                         *)
(* ------------------------------------------------------------------ *)

Record entry_ok (e : dir_entry) : Prop := {
  eo_sector : 0 <= inode_sector e < 2 ^ 32;
  eo_name : length (name e) = 31%nat;
  eo_u8 : Forall is_u8 (name e);
  eo_used : is_u8 (in_use e)
}.

Lemma zlen_encode_entry e : length (name e) = 31%nat -> zlen (encode_entry e) = 36.
Proof. intros H. unfold encode_entry. rewrite !length_app, length_le_bytes, H. done. Qed.

(** Round trip: a directory entry fills 36 bytes, and entries and
    36-byte images correspond one to one. *)
Theorem dir_entry_roundtrip e bs :
  entry_ok e -> length bs = 36%nat -> Forall is_u8 bs ->
  zlen (encode_entry e) = sizeof_entry /\ Forall is_u8 (encode_entry e) /\
  decode_entry (encode_entry e) = e /\
  entry_ok (decode_entry bs) /\ encode_entry (decode_entry bs) = bs.
Proof.
  intros [H1 H2 H3 H4] Hl Hu. split; [by apply zlen_encode_entry|]. split.
  { unfold encode_entry. rewrite !Forall_app. split_and!; [apply le_bytes_u8|done|by constructor]. }
  split.
  { assert (slice (encode_entry e) 0 4 = le_bytes 4 (inode_sector e)) as E1.
    { apply (slice_app_at []); [done|by rewrite length_le_bytes]. }
    assert (slice (encode_entry e) 4 31 = name e) as E2.
    { apply slice_app_at; [by rewrite length_le_bytes|lia]. }
    assert (slice (encode_entry e) 35 1 = [in_use e]) as E3.
    { unfold encode_entry. rewrite app_assoc, <- (app_nil_r [in_use e]).
      apply slice_app_at; [rewrite length_app, length_le_bytes; lia|done]. }
    unfold decode_entry. rewrite E1, E2, E3, le_value_bytes by done. simpl. rewrite Z.add_0_r. by destruct e. }
  assert (forall off n, 0 <= off -> 0 <= n -> off + n <= 36 ->
            zlen (slice bs off n) = n /\ Forall is_u8 (slice bs off n)) as Hs.
  { intros off n ? ? ?. split; [apply zlen_slice; lia|by apply Forall_slice]. }
  destruct (Hs 0 4) as [La Ua], (Hs 4 31) as [Lb Ub], (Hs 35 1) as [Lc Uc]; try lia.
  assert (le_bytes 4 (le_value (slice bs 0 4)) = slice bs 0 4) as Ea.
  { rewrite <- (le_bytes_value (slice bs 0 4)) at 2 by done. f_equal. lia. }
  assert ([le_value (slice bs 35 1)] = slice bs 35 1) as Ec.
  { destruct (slice bs 35 1) as [|x [|y l]]; simpl in *; try lia. by rewrite Z.add_0_r. }
  split.
  - unfold decode_entry. split; simpl; [|lia|done|].
    + pose proof (le_value_bound _ Ua) as Hb. rewrite La in Hb. exact Hb.
    + pose proof (le_value_bound _ Uc) as Hb. rewrite Lc in Hb. exact Hb.
  - unfold encode_entry, decode_entry. simpl. rewrite Ec.
    change (le_bytes 4 (le_value (slice bs 0 4)) ++ slice bs 4 31 ++ slice bs 35 1 = bs).
    assert (slice bs 0 4 ++ slice bs 4 31 = slice bs 0 35) as E1 by (apply (slice_snoc bs 0 4 31); lia).
    assert (slice bs 0 35 ++ slice bs 35 1 = slice bs 0 36) as E2 by (apply (slice_snoc bs 0 35 1); lia).
    rewrite Ea, app_assoc, E1, E2. change 36 with (Z.of_nat 36). rewrite <- Hl. apply slice_all.
Qed.

(** The entries in the bytes of a directory; bytes after the last whole
    entry are not one. *)
Definition dir_entries (text : list Z) : list dir_entry :=
  map (fun i => decode_entry (slice text (sizeof_entry * i) sizeof_entry)) (seqZ 0 (zlen text / sizeof_entry)).

Lemma zlen_dir_entries text : zlen (dir_entries text) = zlen text / 36.
Proof.
  unfold dir_entries. rewrite length_map, length_seqZ. apply Z2Nat.id, Z.div_pos; lia.
Qed.

Lemma zget_dir_entries text i :
  0 <= i -> zget (dir_entries text) i =
  if zlen (slice text (36 * i) 36) =? 36 then Some (decode_entry (slice text (36 * i) 36)) else None.
Proof.
  intros Hi. destruct (decide (i < zlen text / 36)) as [H|H].
  - unfold dir_entries. rewrite zget_map, zget_lookup by done.
    rewrite lookup_seqZ_lt by (unfold sizeof_entry; lia). simpl. rewrite Z2Nat.id by done.
    unfold sizeof_entry. rewrite zlen_slice; [done|lia..|]. Z.to_euclidean_division_equations; lia.
  - rewrite (proj2 (zget_None _ _)) by (rewrite zlen_dir_entries; lia).
    rewrite (proj2 (Z.eqb_neq _ _)); [done|]. rewrite zlen_slice_min by lia.
    Z.to_euclidean_division_equations; lia.
Qed.

(** Writing an entry over the [k]-th. *)
Lemma dir_entries_splice text k e :
  entry_ok e -> 0 <= k -> 36 * k + 36 <= zlen text ->
  dir_entries (splice text (36 * k) (encode_entry e)) = <[Z.to_nat k := e]> (dir_entries text).
Proof.
  intros He Hk Hin. pose proof (zlen_encode_entry e (eo_name _ He)) as Hl.
  assert (zlen (splice text (36 * k) (encode_entry e)) = zlen text) as Hz by (apply zlen_splice; lia).
  assert (k < zlen text / 36) as Hk2 by (Z.to_euclidean_division_equations; lia).
  apply zlist_eq_range; [rewrite length_insert, !zlen_dir_entries, Hz; done|].
  rewrite zlen_dir_entries, Hz. intros i Hi. rewrite zget_dir_entries by lia.
  assert (forall j, 0 <= j < 36 -> 36 * i + j < zlen text) as Hij.
  { intros j Hj. Z.to_euclidean_division_equations; lia. }
  specialize (Hij 35 ltac:(lia)).
  rewrite zlen_slice, Z.eqb_refl by lia. rewrite zget_lookup by lia.
  destruct (decide (i = k)) as [->|Hne].
  - rewrite list_lookup_insert_eq by (pose proof (zlen_dir_entries text); lia).
    do 1 f_equal. rewrite <- (proj1 (proj2 (proj2 (dir_entry_roundtrip e (replicate 36 0) He ltac:(done)
      ltac:(by apply Forall_replicate))))) at 2. f_equal.
    apply zlist_eq_range; [rewrite zlen_slice; lia|]. rewrite zlen_slice by lia. intros j Hj.
    rewrite zget_slice, zget_splice by lia. rewrite bool_decide_eq_true_2 by lia. f_equal. lia.
  - rewrite list_lookup_insert_ne by lia. rewrite <- zget_lookup by lia. rewrite zget_dir_entries by lia.
    rewrite zlen_slice, Z.eqb_refl by lia. do 2 f_equal.
    apply zlist_eq_range; [rewrite !zlen_slice; lia|]. rewrite zlen_slice by lia. intros j Hj.
    rewrite !zget_slice, zget_splice by lia. by rewrite bool_decide_eq_false_2 by lia.
Qed.

(* ------------------------------------------------------------------ *)
(** ** Names                                                           *)
(* ------------------------------------------------------------------ *)

(** The name in an entry, and the entries that lookup looks at: those
    after the first whose flag is set. *)
Definition entry_name (e : dir_entry) : list Z := until_nul (name e).
Definition named (nm : list Z) (e : dir_entry) : bool := used e && bool_decide (entry_name e = nm).

(** Names end with NUL inside their 31 bytes. *)
Definition terminated (e : dir_entry) : Prop := 0 ∈ name e.

(** A C string of at most [NAME_MAX] characters, not empty. *)
Record good_name (nm : string) : Prop := {
  gn_nul : 0 ∉ bytes_of nm;
  gn_pos : nm <> EmptyString;
  gn_max : strlen nm <= NAME_MAX
}.

Lemma zlen_bytes_of nm : zlen (bytes_of nm) = strlen nm.
Proof. unfold bytes_of, strlen. rewrite length_map. f_equal. induction nm; simpl; congruence. Qed.
Lemma bytes_of_u8 nm : Forall is_u8 (bytes_of nm).
Proof.
  unfold bytes_of. apply Forall_map. apply Forall_true. intros c. unfold is_u8.
  pose proof (nat_ascii_bounded c). lia.
Qed.

Lemma strcmp_eq_spec s b :
  0 ∉ s -> 0 ∈ b -> strcmp_eq s b = Some (bool_decide (until_nul b = s)).
Proof.
  revert s. induction b as [|y b IH]; intros s Hs Hb; [by apply elem_of_nil in Hb|].
  destruct s as [|x s]; simpl.
  - f_equal. destruct (y =? 0) eqn:E; symmetry; [by apply bool_decide_eq_true_2|by apply bool_decide_eq_false_2].
  - apply not_elem_of_cons in Hs as [Hx Hs]. destruct (Z.eqb_spec x y) as [->|Hne].
    + rewrite (proj2 (Z.eqb_neq y 0)) by done. rewrite IH; [|done|set_solver].
      f_equal. apply bool_decide_ext. split; [by intros ->|by intros [= ->]].
    + f_equal. symmetry. apply bool_decide_eq_false_2. destruct (y =? 0); [done|congruence].
Qed.

Lemma until_nul_pad s n : 0 ∉ s -> (0 < n)%nat -> until_nul (s ++ replicate n 0) = s.
Proof.
  intros Hs Hn. induction s as [|x s IH]; simpl; [by destruct n; [lia|]|].
  apply not_elem_of_cons in Hs as [Hx Hs]. by rewrite (proj2 (Z.eqb_neq x 0)), IH by done.
Qed.
Lemma until_nul_id s : 0 ∉ s -> until_nul s = s.
Proof.
  induction s as [|x s IH]; simpl; [done|]. intros [Hx Hs]%not_elem_of_cons.
  by rewrite (proj2 (Z.eqb_neq x 0)), IH by done.
Qed.

(** The name that strncpy leaves in an entry. *)
Lemma strncpy_name nm :
  good_name nm ->
  let bs := strncpy (bytes_of nm) 31 in
  length bs = 31%nat /\ Forall is_u8 bs /\ until_nul bs = bytes_of nm /\ 0 ∈ bs.
Proof.
  intros [Hn Hp Hm] bs. unfold NAME_MAX in Hm. pose proof (zlen_bytes_of nm) as Hl.
  assert (bs = bytes_of nm ++ replicate (31 - length (bytes_of nm)) 0) as ->.
  { unfold bs, strncpy. rewrite until_nul_id by done. rewrite take_app, take_ge by lia. f_equal.
    rewrite take_replicate. f_equal. lia. }
  split_and!.
  - rewrite length_app, length_replicate. lia.
  - apply Forall_app. split; [apply bytes_of_u8|by apply Forall_replicate].
  - apply until_nul_pad; [done|lia].
  - apply elem_of_app. right. apply elem_of_replicate. lia.
Qed.

(* ------------------------------------------------------------------ *)
(** ** The first entry that satisfies a test                           *)
(* ------------------------------------------------------------------ *)

Fixpoint find_slot (P : dir_entry -> bool) (es : list dir_entry) (i : Z) : option (Z * dir_entry) :=
  match es with
  | [] => None
  | e :: es => if P e then Some (i, e) else find_slot P es (i + 1)
  end.

Lemma find_slot_Some P es i k e :
  find_slot P es i = Some (k, e) ->
  exists l1 l2, es = l1 ++ e :: l2 /\ k = i + zlen l1 /\ P e = true /\ Forall (fun x => P x = false) l1.
Proof.
  revert i. induction es as [|x es IH]; simpl; intros i; [done|]. destruct (P x) eqn:E.
  - intros [= <- <-]. exists [], es. simpl. split_and!; [done|lia|done|constructor].
  - intros (l1 & l2 & -> & -> & HP & Hl)%IH. exists (x :: l1), l2. simpl. split_and!; [done|lia|done|by constructor].
Qed.
Lemma find_slot_None P es i : find_slot P es i = None <-> Forall (fun x => P x = false) es.
Proof.
  revert i. induction es as [|x es IH]; simpl; intros i; [done|]. rewrite Forall_cons.
  destruct (P x); [naive_solver|]. rewrite IH. naive_solver.
Qed.

(* ------------------------------------------------------------------ *)
(** ** The map that the entries stand for                              *)
(* ------------------------------------------------------------------ *)

Definition live (es : list dir_entry) : list dir_entry := filter (fun e => used e = true) es.
Definition bindings (es : list dir_entry) : list (list Z * Z) :=
  map (fun e => (entry_name e, inode_sector e)) (live es).

(** The first entry is the parent's; the names of the others are
    terminated and distinct. *)
Definition dir_map (es : list dir_entry) : gmap (list Z) Z := list_to_map (bindings (tail es)).
Record entries_ok (es : list dir_entry) : Prop := {
  en_parent : exists e0 tl, es = e0 :: tl /\ used e0 = true;
  en_terminated : Forall terminated (live (tail es));
  en_distinct : NoDup (map entry_name (live (tail es)))
}.

Lemma live_mid l1 x l2 : live (l1 ++ x :: l2) = live l1 ++ (if used x then [x] else []) ++ live l2.
Proof.
  unfold live. rewrite filter_app, filter_cons. by destruct (used x).
Qed.
Lemma bindings_mid l1 x l2 :
  bindings (l1 ++ x :: l2) =
  bindings l1 ++ (if used x then [(entry_name x, inode_sector x)] else []) ++ bindings l2.
Proof. unfold bindings. rewrite live_mid, !map_app. by destruct (used x). Qed.
Lemma fst_bindings es : (bindings es).*1 = map entry_name (live es).
Proof. unfold bindings. induction (live es) as [|e l IH]; simpl; [done|]. by rewrite <- IH. Qed.

Lemma named_live nm es : Forall (fun e => named nm e = false) es <-> nm ∉ map entry_name (live es).
Proof.
  induction es as [|e es IH]; simpl; [by split; [intros _; apply not_elem_of_nil|]|].
  rewrite Forall_cons, IH. change (e :: es) with ([] ++ e :: es). rewrite live_mid. simpl.
  unfold named. destruct (used e); simpl; [|naive_solver].
  rewrite bool_decide_eq_false, not_elem_of_cons. naive_solver.
Qed.

(** The search that lookup makes is a lookup in the map. *)
Lemma find_slot_map nm e0 tl i :
  (fun r => inode_sector (snd r)) <$> find_slot (named nm) tl i = dir_map (e0 :: tl) !! nm.
Proof.
  unfold dir_map. simpl. revert i. induction tl as [|e tl IH]; intros i; [done|].
  change (e :: tl) with ([] ++ e :: tl) at 2. rewrite bindings_mid. simpl. unfold named at 1.
  destruct (used e); simpl; [|apply IH]. case_bool_decide as E; simpl.
  - by rewrite E, lookup_insert_eq.
  - by rewrite IH, lookup_insert_ne.
Qed.

Lemma list_to_map_mid (l1 l2 : list (list Z * Z)) nm sec :
  nm ∉ l1.*1 ->
  (list_to_map (l1 ++ (nm, sec) :: l2) : gmap _ _) = <[nm := sec]> (list_to_map (l1 ++ l2)).
Proof.
  intros Hn. rewrite !list_to_map_app. simpl. symmetry. apply insert_union_r.
  by apply not_elem_of_list_to_map_1.
Qed.

(** Filling a free entry, and freeing one. *)
Lemma entries_ok_fill e0 l1 x l2 e :
  entries_ok (e0 :: l1 ++ x :: l2) -> used x = false -> used e = true -> terminated e ->
  dir_map (e0 :: l1 ++ x :: l2) !! entry_name e = None ->
  entries_ok (e0 :: l1 ++ e :: l2) /\
  dir_map (e0 :: l1 ++ e :: l2) = <[entry_name e := inode_sector e]> (dir_map (e0 :: l1 ++ x :: l2)).
Proof.
  intros [(e1 & tl & [= <- <-] & H1) H2 H3] Hx He Ht Hnew. simpl in *.
  unfold dir_map in *. simpl in *. rewrite live_mid, Hx in H2, H3. rewrite !bindings_mid, Hx, He in *. simpl in *.
  apply not_elem_of_list_to_map in Hnew. rewrite fmap_app, !fst_bindings in Hnew.
  apply not_elem_of_app in Hnew as [Hn1 Hn2]. rewrite map_app in H3. split.
  - split; simpl; [by eauto|..].
    + rewrite live_mid, He. apply Forall_app in H2 as [Ha Hb]. apply Forall_app. split; [done|by constructor].
    + rewrite live_mid, He, map_app. simpl. rewrite <- Permutation_middle. apply NoDup_cons.
      split; [|done]. by apply not_elem_of_app.
  - apply list_to_map_mid. by rewrite fst_bindings.
Qed.
Lemma entries_ok_free e0 l1 x l2 e :
  entries_ok (e0 :: l1 ++ x :: l2) -> used x = true -> used e = false ->
  entries_ok (e0 :: l1 ++ e :: l2) /\
  dir_map (e0 :: l1 ++ e :: l2) = delete (entry_name x) (dir_map (e0 :: l1 ++ x :: l2)).
Proof.
  intros [(e1 & tl & [= <- <-] & H1) H2 H3] Hx He. simpl in *.
  unfold dir_map in *. simpl in *. rewrite live_mid, Hx in H2, H3. rewrite !bindings_mid, Hx, He in *. simpl in *.
  rewrite map_app in H3. simpl in H3. rewrite <- Permutation_middle in H3. apply NoDup_cons in H3 as [Hn H3].
  apply not_elem_of_app in Hn as [Hn1 Hn2]. split.
  - split; simpl; [by eauto|..].
    + rewrite live_mid, He. apply Forall_app in H2 as [Ha Hb]. apply Forall_cons in Hb as [_ Hb].
      by apply Forall_app.
    + by rewrite live_mid, He, map_app.
  - rewrite list_to_map_mid by by rewrite fst_bindings. rewrite delete_insert_eq, delete_id; [done|].
    apply not_elem_of_list_to_map_1. rewrite fmap_app, !fst_bindings. by apply not_elem_of_app.
Qed.

Section props.
Context {B : Type} `{!BlockStore B}.
Implicit Types (b : B) (s : fs B).

(** The inode [ip] at [q] holds a directory in the sectors [secs]. *)
Record dir_file s (q : loc) (ip : inode) (secs : list Z) : Prop := {
  df_inv : bs_inv (store s);
  df_inode : inodes s !! q = Some ip;
  df_secs : file_ok (store s) (data ip) secs;
  df_length : length_ (data ip) < 2 ^ 31
}.
Definition entries_of b d secs : list dir_entry := dir_entries (content b d secs).

Lemma entries_of_same b b' d secs :
  same_store b b' -> file_ok b d secs -> entries_of b' d secs = entries_of b d secs.
Proof. intros. unfold entries_of. by rewrite (content_same b). Qed.

Lemma dir_file_same s q ip secs b' :
  dir_file s q ip secs -> changes_only (store s) secs b' -> dir_file (set_store b' s) q ip secs.
Proof. intros [] Hb. split; simpl; [apply Hb|done| |done]. by eapply file_ok_changes. Qed.

Lemma get_dir_wp s p d (Q : dir -> fs B -> Prop) :
  dirs s !! p = Some d -> Q d s -> wp (get_dir p) Q s.
Proof. intros Hp HQ. unfold get_dir. by wp_steps. Qed.

(* ------------------------------------------------------------------ *)
(** ** Reading and writing one entry                                   *)
(* ------------------------------------------------------------------ *)

Lemma read_entry_at_wp s q ip secs k (Q : option dir_entry -> fs B -> Prop) :
  dir_file s q ip secs -> 0 <= k ->
  (forall b', same_store (store s) b' ->
     Q (zget (entries_of (store s) (data ip) secs) k) (set_store b' s)) ->
  wp (read_entry_at q (sizeof_entry * k)) Q s.
Proof.
  intros [] Hk HQ. unfold read_entry_at, sizeof_entry in *. wp_step.
  eapply inode_read_at_wp; [done..|lia|lia|]. intros b' Hb'. apply wp_ret.
  specialize (HQ b' Hb'). unfold entries_of in HQ. by rewrite zget_dir_entries in HQ.
Qed.

Lemma write_entry_at_wp s q ip secs k e (Q : bool -> fs B -> Prop) :
  dir_file s q ip secs -> deny_write_cnt ip = 0 -> entry_ok e ->
  0 <= k < zlen (entries_of (store s) (data ip) secs) ->
  (forall b', changes_only (store s) secs b' ->
     entries_of b' (data ip) secs = <[Z.to_nat k := e]> (entries_of (store s) (data ip) secs) ->
     Q true (set_store b' s)) ->
  wp (write_entry_at q e (sizeof_entry * k)) Q s.
Proof.
  intros [] Hdeny He Hk HQ. unfold write_entry_at, sizeof_entry in *.
  unfold entries_of in *. rewrite zlen_dir_entries in Hk.
  pose proof (zlen_content _ _ _ df_inv0 df_secs0 df_length0) as Hlen.
  assert (36 * k + 36 <= length_ (data ip)) as Hin by (Z.to_euclidean_division_equations; lia).
  pose proof (zlen_encode_entry e (eo_name _ He)) as Hz.
  destruct (dir_entry_roundtrip e (replicate 36 0) He) as (_ & Hu & _); [done|by apply Forall_replicate|].
  wp_step. unfold inode_write_at, write_fuel. eapply inode_write_at_wp; [done..|lia|lia|lia|lia|done|].
  intros b' Hb' Hc. apply wp_ret. rewrite Z.eqb_refl. apply HQ; [done|].
  rewrite Hc. rewrite <- Hz at 2. rewrite slice_all. apply dir_entries_splice; [done|lia|lia].
Qed.

(* ------------------------------------------------------------------ *)
(** ** The loops over the entries                                      *)
(* ------------------------------------------------------------------ *)

(** What one turn of such a loop does at the [k]-th entry, [i] the first,
    in a store with the same contents: leave with [none] at the end, or with [found] when
    the entry satisfies [P], else go on with the next. *)
Definition turn_ok {R} s (es : list dir_entry) (P : dir_entry -> bool)
    (none : Z -> R) (found : dir_entry -> Z -> R) (body : Z -> M (fs B) (Z + R)) (i : Z) : Prop :=
  forall b1 k (Q : Z + R -> fs B -> Prop), same_store (store s) b1 -> i <= k ->
    (forall b2, same_store (store s) b2 ->
       Q (match zget es k with
          | None => inr (none (sizeof_entry * k))
          | Some e => if P e then inr (found e (sizeof_entry * k)) else inl (sizeof_entry * k + sizeof_entry)
          end) (set_store b2 s)) ->
    wp (body (sizeof_entry * k)) Q (set_store b1 s).

Lemma dir_walk_wp {R} s q ip secs P (none : Z -> R) found body i (Q : R -> fs B -> Prop) :
  dir_file s q ip secs ->
  let es := entries_of (store s) (data ip) secs in
  turn_ok s es P none found body i -> 0 <= i <= zlen es ->
  (forall b', same_store (store s) b' ->
     Q (match find_slot P (drop (Z.to_nat i) es) i with
        | Some (k, e) => found e (sizeof_entry * k)
        | None => none (sizeof_entry * zlen es)
        end) (set_store b' s)) ->
  wp (dir_walk q body (sizeof_entry * i)) Q s.
Proof.
  intros Hd es Hbody Hi HQ. unfold dir_walk. wp_step. eapply get_inode_wp; [apply Hd|].
  assert (zlen es = length_ (data ip) / 36) as Hes.
  { unfold es, entries_of. rewrite zlen_dir_entries. f_equal. destruct Hd. by apply zlen_content. }
  eapply (wp_while_ghost (fun n ofs s' => exists b' k, same_store (store s) b' /\ s' = set_store b' s /\
    ofs = sizeof_entry * k /\ i <= k <= zlen es /\ n = Z.to_nat (zlen es - k) /\
    find_slot P (drop (Z.to_nat k) es) k = find_slot P (drop (Z.to_nat i) es) i)
    _ _) with (n := Z.to_nat (zlen es - i)).
  - intros n ofs s' (b' & k & Hb' & -> & -> & Hk & -> & Hfind). apply Hbody; [done|lia|].
    intros b2 Hb2. destruct (zget es k) as [e|] eqn:Hg.
    + pose proof (zget_range _ _ _ Hg) as Hr. rewrite zget_lookup in Hg by lia.
      rewrite (drop_S _ _ _ Hg) in Hfind. simpl in Hfind. destruct (P e).
      * specialize (HQ b2 Hb2). by rewrite <- Hfind in HQ.
      * exists (Z.to_nat (zlen es - (k + 1))). split; [lia|]. exists b2, (k + 1).
        split_and!; [done|done|unfold sizeof_entry; lia|lia|lia|done|].
        rewrite <- Hfind. by replace (Z.to_nat (k + 1)) with (S (Z.to_nat k)) by lia.
    + apply zget_None in Hg. assert (k = zlen es) as -> by lia.
      rewrite drop_ge in Hfind by lia. specialize (HQ b2 Hb2). by rewrite <- Hfind in HQ.
  - exists (store s), i. split_and!; try done; [apply same_store_refl, Hd|by destruct s|lia].
  - unfold sizeof_entry. lia.
Qed.

(* ------------------------------------------------------------------ *)
(** ** Searching                                                       *)
(* ------------------------------------------------------------------ *)

(** The open directory [p], whose entries are [es]. *)
Record directory s (p : loc) (dd : dir) (ip : inode) (secs : list Z) (es : list dir_entry) : Prop := {
  dr_dir : dirs s !! p = Some dd;
  dr_file : dir_file s (d_inode dd) ip secs;
  dr_entries : entries_of (store s) (data ip) secs = es;
  dr_ok : entries_ok es
}.

Lemma directory_same s p dd ip secs es b' :
  directory s p dd ip secs es -> same_store (store s) b' -> directory (set_store b' s) p dd ip secs es.
Proof.
  intros [H1 H2 H3 H4] Hb. split; simpl; [done| |by rewrite (entries_of_same (store s)); [|done|apply H2]|done].
  by apply dir_file_same, same_changes_only.
Qed.
Lemma entries_ok_pos es : entries_ok es -> 1 <= zlen es.
Proof. intros [(e0 & tl & -> & _) _ _]. simpl. lia. Qed.

Lemma entries_terminated es k e :
  entries_ok es -> 1 <= k -> zget es k = Some e -> used e = true -> terminated e.
Proof.
  intros [(e0 & tl & -> & _) Ht _] Hk He Hu. simpl in Ht. rewrite Forall_forall in Ht. apply Ht.
  apply list_elem_of_filter. split; [done|]. rewrite zget_lookup in He by lia.
  destruct (Z.to_nat k) as [|n] eqn:E; [lia|]. by eapply list_elem_of_lookup_2.
Qed.

(** The entry of a name, past the parent's. *)
Definition entry_of (nm : string) (es : list dir_entry) : option (Z * dir_entry) :=
  find_slot (named (bytes_of nm)) (drop 1 es) 1.

Lemma entry_of_map nm es :
  entries_ok es -> (fun r => inode_sector (snd r)) <$> entry_of nm es = dir_map es !! bytes_of nm.
Proof. intros [(e0 & tl & -> & _) _ _]. apply find_slot_map. Qed.

Lemma lookup_wp s p dd ip secs es nm (Q : option (dir_entry * Z) -> fs B -> Prop) :
  directory s p dd ip secs es -> 0 ∉ bytes_of nm ->
  (forall b', same_store (store s) b' ->
     Q ((fun r => (snd r, sizeof_entry * fst r)) <$> entry_of nm es) (set_store b' s)) ->
  wp (lookup (Some p) nm) Q s.
Proof.
  intros [Hp Hf He Hok] Hnm HQ. unfold lookup. wp_step. apply wp_assert; [done|]. wp_step. wp_step; [done|].
  wp_step. eapply get_dir_wp; [done|]. pose proof (entries_ok_pos _ Hok) as Hpos.
  eapply (dir_walk_wp s (d_inode dd) ip secs (named (bytes_of nm)) (fun _ => None) (fun e ofs => Some (e, ofs)) _ 1);
    [done| |rewrite He; lia|].
  - rewrite He. intros b1 k Q' Hb1 Hk HQ'. wp_step.
    eapply read_entry_at_wp; [by apply dir_file_same, same_changes_only|lia|]. simpl. intros b2 Hb2.
    rewrite (entries_of_same (store s)), He by (done || apply Hf).
    specialize (HQ' b2 ltac:(by eapply same_store_trans)). revert HQ'.
    destruct (zget es k) as [e|] eqn:Hg; [|by intros; apply wp_ret]. unfold named.
    destruct (used e) eqn:Hu; simpl; [|by intros; apply wp_ret]. intros HQ'.
    wp_step. eapply wp_need; [apply strcmp_eq_spec; [done|]; by eapply (entries_terminated es k)|].
    apply wp_ret. unfold entry_name in HQ'. by case_bool_decide.
  - intros b' Hb'. rewrite He. specialize (HQ b' Hb'). unfold entry_of in HQ. change (Z.to_nat 1) with 1%nat.
    by destruct (find_slot _ _ _) as [[k e]|].
Qed.

(* ------------------------------------------------------------------ *)
(** ** Adding a file                                                   *)
(* ------------------------------------------------------------------ *)

Definition unused (e : dir_entry) : bool := negb (used e).
Definition free_slots (es : list dir_entry) : nat := length (filter (fun e => unused e = true) es).

(** The entry that dir_add writes. *)
Definition new_entry (nm : string) (sec : Z) : dir_entry := mkEntry sec (strncpy (bytes_of nm) 31) 1.

Lemma new_entry_ok nm sec :
  good_name nm -> 0 <= sec < 2 ^ 32 ->
  entry_ok (new_entry nm sec) /\ entry_name (new_entry nm sec) = bytes_of nm /\ terminated (new_entry nm sec).
Proof. intros Hn Hs. destruct (strncpy_name nm Hn) as (H1 & H2 & H3 & H4). done. Qed.

(** A directory with a new entry in the place of an unused one. *)
Lemma filled_slot es nm sec k x :
  entries_ok es -> good_name nm -> 0 <= sec < 2 ^ 32 -> dir_map es !! bytes_of nm = None ->
  find_slot unused es 0 = Some (k, x) ->
  let es' := <[Z.to_nat k := new_entry nm sec]> es in
  0 <= k < zlen es /\ entries_ok es' /\ dir_map es' = <[bytes_of nm := sec]> (dir_map es) /\
  free_slots es = S (free_slots es').
Proof.
  intros Hok Hn Hs Hnew (l1 & l2 & -> & -> & Hx & _)%find_slot_Some es'.
  assert (used x = false) as Hxu by by apply negb_true_iff. destruct (new_entry_ok nm sec Hn Hs) as (_ & H2 & H3).
  assert (es' = l1 ++ new_entry nm sec :: l2) as ->.
  { unfold es'. replace (Z.to_nat (0 + zlen l1)) with (length l1 + 0)%nat by lia. by rewrite insert_app_r. }
  split; [rewrite length_app; simpl; lia|].
  assert (free_slots (l1 ++ x :: l2) = S (free_slots (l1 ++ new_entry nm sec :: l2))) as Hf.
  { unfold free_slots. rewrite !filter_app, !length_app, !filter_cons, Hx. simpl. lia. }
  destruct (en_parent _ Hok) as (e0 & tl & E & Hu0). destruct l1 as [|y l1]; simpl in E.
  { injection E as -> _. congruence. }
  simpl app in Hok, Hnew |- *.
  destruct (entries_ok_fill y l1 x l2 (new_entry nm sec)) as [Ha Hb]; [done..|by rewrite H2|].
  split; [done|]. split; [by rewrite Hb, H2|done].
Qed.

Lemma dir_add_wp s p dd ip secs es junk nm sec (Q : bool -> fs B -> Prop) :
  directory s p dd ip secs es -> deny_write_cnt ip = 0 -> good_name nm -> 0 <= sec < 2 ^ 32 ->
  (forall b', same_store (store s) b' -> is_Some (dir_map es !! bytes_of nm) -> Q false (set_store b' s)) ->
  (dir_map es !! bytes_of nm = None -> (0 < free_slots es)%nat /\
   forall b' es', changes_only (store s) secs b' -> directory (set_store b' s) p dd ip secs es' ->
     dir_map es' = <[bytes_of nm := sec]> (dir_map es) -> free_slots es = S (free_slots es') ->
     Q true (set_store b' s)) ->
  wp (dir_add junk (Some p) nm sec false) Q s.
Proof.
  intros Hd Hdeny Hn Hs Hin Hout. unfold dir_add. wp_step. apply wp_assert; [done|].
  pose proof Hn as [Hnul Hne Hmax]. unfold streq.
  rewrite bool_decide_eq_false_2 by done. rewrite (proj2 (Z.ltb_ge _ _)) by done. simpl.
  wp_step. eapply lookup_wp; [done..|]. intros b1 Hb1.
  pose proof (entry_of_map nm es (dr_ok _ _ _ _ _ _ Hd)) as Hmap.
  destruct (entry_of nm es) as [[k e]|] eqn:Ee; simpl in Hmap |- *.
  { apply wp_ret, Hin; [done|]. by rewrite <- Hmap. }
  destruct Hout as [Hfree HQ]; [done|]. do 4 wp_step. simpl negb. cbv iota.
  pose proof (directory_same _ _ _ _ _ _ _ Hd Hb1) as [Hp Hf He Hok].
  wp_step. eapply get_dir_wp; [done|]. wp_step. change 0 with (sizeof_entry * 0) at 1.
  eapply (dir_walk_wp _ _ ip secs unused (fun ofs => ofs) (fun _ ofs => ofs) _ 0);
    [done| |rewrite He; pose proof (entries_ok_pos _ Hok); lia|].
  - rewrite He. intros b2 k Q' Hb2 Hk HQ'. wp_step.
    eapply read_entry_at_wp; [by apply dir_file_same, same_changes_only|done|]. simpl. intros b3 Hb3. apply wp_ret.
    simpl in He, Hb2.
    rewrite (entries_of_same b1), He by (by apply Hf || done).
    specialize (HQ' b3 ltac:(by eapply same_store_trans)). revert HQ'.
    destruct (zget es k) as [e|]; [|done]. unfold unused. by destruct (used e).
  - rewrite He. change (Z.to_nat 0) with 0%nat. rewrite drop_0.
    destruct (find_slot unused es 0) as [[k x]|] eqn:Ek.
    2:{ exfalso. apply find_slot_None in Ek. unfold free_slots in Hfree.
        destruct (filter _ es) as [|x l] eqn:El; [simpl in Hfree; lia|].
        assert (x ∈ filter (fun e => unused e = true) es) as Hx by (rewrite El; left).
        apply list_elem_of_filter in Hx as [H1 H2]. rewrite Forall_forall in Ek. specialize (Ek x H2). congruence. }
    intros b2 Hb2. simpl in *.
    assert (dir_map es !! bytes_of nm = None) as Hnew by by rewrite <- Hmap.
    destruct (filled_slot es nm sec k x) as (Hk & Hok' & Hm' & Hf'); [done..|].
    assert (dir_file (set_store b2 s) (d_inode dd) ip secs) as Hf2.
    { apply (dir_file_same _ _ _ _ b2) in Hf; [done|]. by apply same_changes_only. }
    assert (entries_of b2 (data ip) secs = es) as He2.
    { by rewrite (entries_of_same b1), He by (by apply Hf || done). }
    destruct (new_entry_ok nm sec) as (Hnew_ok & _); [done..|].
    eapply write_entry_at_wp; [exact Hf2|done|exact Hnew_ok|simpl; rewrite He2; lia|].
    simpl. intros b3 Hb3 He3. rewrite He2 in He3. rewrite set_store_twice.
    apply (HQ b3 (<[Z.to_nat k := new_entry nm sec]> es)); [|split; simpl; try done|done|done].
    + eapply changes_only_trans; [by apply same_changes_only|].
      eapply changes_only_trans; [by apply same_changes_only|done].
    + by apply (dir_file_same _ _ _ _ b3) in Hf2.
Qed.

(* ------------------------------------------------------------------ *)
(** ** The directory as a map                                          *)
(* ------------------------------------------------------------------ *)

(** What programs do with a directory: look a name up, and add a file
    under a name. *)
Inductive dop := Find (nm : string) | Add (nm : string) (sec : Z).
Inductive dres := Found (sec : option Z) | Added (ok : bool).

(** On the map. *)
Definition map_step (o : dop) (m : gmap (list Z) Z) : dres * gmap (list Z) Z :=
  match o with
  | Find nm => (Found (m !! bytes_of nm), m)
  | Add nm sec => match m !! bytes_of nm with
                  | Some _ => (Added false, m)
                  | None => (Added true, <[bytes_of nm := sec]> m)
                  end
  end.
Fixpoint map_run (os : list dop) (m : gmap (list Z) Z) : list dres * gmap (list Z) Z :=
  match os with
  | [] => ([], m)
  | o :: os => let '(r, m) := map_step o m in let '(rs, m) := map_run os m in (r :: rs, m)
  end.

(** By the code, [junk] what is on its stack. *)
Definition dir_step (junk : list Z) (p : loc) (o : dop) : M (fs B) dres :=
  match o with
  | Find nm => let! r := lookup (Some p) nm in ret (Found ((fun r => inode_sector (fst r)) <$> r))
  | Add nm sec => let! ok := dir_add junk (Some p) nm sec false in ret (Added ok)
  end.
Fixpoint dir_run (junk : list Z) (p : loc) (os : list dop) : M (fs B) (list dres) :=
  match os with
  | [] => ret []
  | o :: os => let! r := dir_step junk p o in let! rs := dir_run junk p os in ret (r :: rs)
  end.

Definition dop_ok (o : dop) : Prop :=
  match o with Find nm => 0 ∉ bytes_of nm | Add nm sec => good_name nm /\ 0 <= sec < 2 ^ 32 end.
Definition adds (os : list dop) : nat :=
  length (filter (fun o => (if o is Add _ _ then true else false) = true) os).

Lemma dir_step_wp s p dd ip secs es junk o :
  directory s p dd ip secs es -> deny_write_cnt ip = 0 -> dop_ok o ->
  ((if o is Add _ _ then 1 else 0) <= free_slots es)%nat ->
  wp (dir_step junk p o) (fun r s' => exists b' es', s' = set_store b' s /\ changes_only (store s) secs b' /\
    directory s' p dd ip secs es' /\ map_step o (dir_map es) = (r, dir_map es') /\
    (free_slots es <= (if o is Add _ _ then 1 else 0) + free_slots es')%nat) s.
Proof.
  intros Hd Hdeny Ho Hfree. destruct o as [nm|nm sec]; simpl in *; wp_step.
  - eapply lookup_wp; [done..|]. intros b' Hb'. apply wp_ret. exists b', es. split; [done|].
    split; [by apply same_changes_only|]. split; [by eapply directory_same|]. split; [|lia]. f_equal. f_equal.
    rewrite <- (entry_of_map nm es) by apply Hd. by destruct (entry_of nm es).
  - destruct Ho as [Hn Hs]. eapply dir_add_wp; [done..| |].
    + intros b' Hb' [x Hx]. apply wp_ret. exists b', es. split; [done|].
      split; [by apply same_changes_only|]. split; [by eapply directory_same|]. rewrite Hx. split; [done|lia].
    + intros Hnew. split; [lia|]. intros b' es' Hb' Hd' Hm Hf. apply wp_ret. exists b', es'.
      split_and!; [done..| |lia]. by rewrite Hnew, Hm.
Qed.

(** C6: Refinement: as long as there are unused entries, any sequence of
    searches and additions of files gives exactly what a finite map from
    names to sectors gives: a search returns the sector last added under
    the name, adding a name that is there fails and changes nothing, and
    no other name is disturbed; at the end the directory stands for the
    resulting map, its names distinct and its parent entry in place, and
    no sector outside the directory's file has changed. *)
Theorem directory_refines_map os s p dd ip secs es junk :
  directory s p dd ip secs es -> deny_write_cnt ip = 0 -> Forall dop_ok os -> (adds os <= free_slots es)%nat ->
  wp (dir_run junk p os) (fun rs s' => exists b' es', s' = set_store b' s /\ changes_only (store s) secs b' /\
    directory s' p dd ip secs es' /\ map_run os (dir_map es) = (rs, dir_map es')) s.
Proof.
  intros Hd Hdeny Hos. revert s es Hd. induction Hos as [|o os Ho Hos IH]; intros s es Hd Hfree; simpl.
  { apply wp_ret. exists (store s), es. split_and!; [by destruct s|apply changes_only_refl, Hd|done|done]. }
  assert (adds (o :: os) = (if o is Add _ _ then 1 else 0) + adds os)%nat as E by by destruct o.
  rewrite E in Hfree. wp_step. eapply wp_mono.
  { apply (dir_step_wp s p dd ip secs es junk o); [done..|lia]. }
  intros r s1 (b1 & es1 & -> & Hb1 & Hd1 & Hm1 & Hf1). wp_step. eapply wp_mono.
  { apply (IH _ es1 Hd1). lia. }
  intros rs s2 (b2 & es2 & -> & Hb2 & Hd2 & Hm2). apply wp_ret. exists b2, es2.
  split_and!; [done| |done|by rewrite Hm1, Hm2]. by eapply changes_only_trans.
Qed.
End props.

(* ------------------------------------------------------------------ *)
(** ** Witnesses                                                       *)
(* ------------------------------------------------------------------ *)

#[local] Existing Instance Cache.cache_store.

Lemma dir_entry_roundtrip_witness :
  decode_entry (encode_entry (new_entry "notes.txt" 4000000000)) = new_entry "notes.txt" 4000000000 /\
  encode_entry (decode_entry (replicate 36 200)) = replicate 36 200.
Proof.
  assert (entry_ok (new_entry "notes.txt" 4000000000)) as He.
  { split; [done|done| |done]. apply (bool_decide_unpack (Forall (fun b => 0 <= b < 256) _)). by vm_compute. }
  destruct (dir_entry_roundtrip _ (replicate 36 200) He) as (_ & _ & H1 & _ & H2);
    [by vm_compute|by apply Forall_replicate|done].
Defined.

Lemma root_entries_ok : entries_ok root_entries.
Proof.
  split.
  - by eexists _, _.
  - apply (bool_decide_unpack (Forall (fun e => 0 ∈ name e) _)). by vm_compute.
  - apply (bool_decide_unpack _). by vm_compute.
Qed.
Lemma root_directory : directory session 6 root_dir root_inode [3] root_entries.
Proof.
  split; [done|split; [apply disk_inv|done|apply root_file_ok|done]|by vm_compute|apply root_entries_ok].
Qed.

Definition demo_ops : list dop := [Find "a.txt"; Add "b" 9; Find "b"; Add "b" 7; Find "c"; Add "c" 8; Find "c"].

Lemma demo_ops_ok : Forall dop_ok demo_ops.
Proof.
  repeat constructor; try (apply (bool_decide_unpack _); by vm_compute); done.
Qed.

Lemma directory_refines_map_witness :
  (adds demo_ops <= free_slots root_entries)%nat /\
  wp (dir_run (replicate 31 0) 6 demo_ops) (fun rs s' =>
    rs = [Found (Some 4); Added true; Found (Some 9); Added false; Found None; Added true; Found (Some 8)]) session.
Proof.
  assert (adds demo_ops <= free_slots root_entries)%nat as Hfree by (apply Nat.leb_le; by vm_compute).
  split; [exact Hfree|].
  eapply wp_mono.
  { apply (directory_refines_map demo_ops session 6 root_dir root_inode [3] root_entries (replicate 31 0));
      [apply root_directory|done|apply demo_ops_ok|exact Hfree]. }
  intros rs s' (b' & es' & _ & _ & _ & E). apply (f_equal fst) in E. simpl fst in E. rewrite <- E. by vm_compute.
Defined.
End DirectoryProps.
