(* ===== verification/DirectoryRemove.v ===== *)
(** * DirectoryRemove: removing files and directories (dir_remove,
    dir_is_empty, dir_close of a3/fs/directory.c)

    Removing a file that is not open deletes its name and gives all its
    sectors back.  Removing a directory uses freed memory. *)
From S2P Require Import Prelude Bitmap Block Store Cache FsState Inode FileData FreeMap FileProps Dealloc CString Files Directory DemoDisk DirectoryProps.

Module DirectoryRemove.
Import Bitmap FsState Inode FileData FreeMap FileProps Dealloc Files Directory DemoDisk DirectoryProps.

Section props.
Context {B : Type} `{!BlockStore B}.
Implicit Types (b : B) (s : fs B).

(** The addresses from [brk s] on are free. *)
Definition heap_ok s : Prop :=
  forall q, (brk s <= q)%positive -> inodes s !! q = None /\ files s !! q = None /\ dirs s !! q = None.

(** The state after inode_open of a sector that is not open: a new object
    at [brk s], and a store with the same contents. *)
Definition with_inode s (sec : Z) b : fs B :=
  set_inodes (<[brk s := mkInode sec 1 false 0 (decode_inode (bs_sector (store s) sec))]> (inodes s))
    (set_store b (set_open_inodes (brk s :: open_inodes s) (set_brk (Pos.succ (brk s)) s))).

(** The entry of a name, in the list of entries. *)
Lemma entry_of_split es nm k e :
  entries_ok es -> entry_of nm es = Some (k, e) ->
  used e = true /\ entry_name e = bytes_of nm /\ 1 <= k < zlen es /\ zget es k = Some e /\
  forall e', used e' = false ->
    entries_ok (<[Z.to_nat k := e']> es) /\
    dir_map (<[Z.to_nat k := e']> es) = delete (bytes_of nm) (dir_map es).
Proof.
  intros Hok. destruct (en_parent _ Hok) as (e0 & tl & -> & _). unfold entry_of. change (drop 1 (e0 :: tl)) with tl.
  intros (l1 & l2 & -> & -> & HP & _)%find_slot_Some. apply andb_true_iff in HP as [Hu Hnm%bool_decide_eq_true].
  assert (Z.to_nat (1 + zlen l1) = S (length l1)) as E by lia. split; [done|]. split; [done|]. split.
  { simpl. rewrite length_app. simpl. lia. }
  split.
  { rewrite zget_lookup, E by lia. simpl. by rewrite lookup_app_r, Nat.sub_diag by lia. }
  intros e' He'. rewrite E. simpl. replace (length l1) with (length l1 + 0)%nat by lia. rewrite insert_app_r. simpl.
  rewrite <- Hnm. by apply entries_ok_free.
Qed.

Lemma entries_of_ok b d secs : bs_inv b -> file_ok b d secs -> Forall entry_ok (entries_of b d secs).
Proof.
  intros Hinv Hf. assert (Forall is_u8 (content b d secs)) as Hu.
  { apply Forall_take. unfold sectors_bytes. apply Forall_concat, Forall_map.
    eapply Forall_impl; [apply Hf|]. intros t Ht. by apply (bs_sector_ok b t Hinv). }
  unfold entries_of. rewrite Forall_forall. intros e He. apply elem_zget in He as [i Hi].
  pose proof (zget_range _ _ _ Hi) as Hr. rewrite zget_dir_entries in Hi by lia.
  destruct (_ =? 36) eqn:E; [|done]. injection Hi as <-.
  eapply (dir_entry_roundtrip (mkEntry 0 (replicate 31 0) 0)).
  - split; try done. by apply Forall_replicate.
  - lia.
  - by apply Forall_slice.
Qed.

(** Opening a sector, in a store with the same contents. *)
Lemma open_sector_wp s sec b1 (Q : loc -> fs B -> Prop) :
  bs_inv (store s) -> in_range (store s) sec -> not_open s sec -> same_store (store s) b1 ->
  (forall b2, same_store (store s) b2 -> Q (brk s) (with_inode s sec b2)) ->
  wp (inode_open sec) Q (set_store b1 s).
Proof.
  intros Hinv Hr Hno Hb1 HQ. apply inode_open_wp; [apply Hb1|by eapply in_range_size; [apply Hb1|]|done|].
  intros b2 Hb2. specialize (HQ b2 ltac:(by eapply same_store_trans)). unfold with_inode in HQ.
  simpl. by rewrite (ss_sector _ _ Hb1).
Qed.

(* ------------------------------------------------------------------ *)
(** ** Files                                                           *)
(* ------------------------------------------------------------------ *)

(** The name [nm] of the open directory [p] is the [k]-th entry [e], of a
    file with the inode [d] and the sectors [fsecs] that nothing has open;
    directory, file and free map have no sector in common. *)
Record removable s (p : loc) (dd : dir) (ip : inode) (secs : list Z) (es : list dir_entry)
    (nm : string) (k : Z) (e : dir_entry) (d : inode_disk) (fsecs : list Z)
    (fp : loc) (fl : file) (mip : inode) (msecs : list Z) : Prop := {
  rm_dir : directory s p dd ip secs es;
  rm_writable : deny_write_cnt ip = 0;
  rm_name : 0 ∉ bytes_of nm;
  rm_entry : entry_of nm es = Some (k, e);
  rm_range : in_range (store s) (inode_sector e);
  rm_closed : not_open s (inode_sector e);
  rm_inode : decode_inode (bs_sector (store s) (inode_sector e)) = d;
  rm_fresh : heap_ok s;
  rm_map : free_map_ok s fp fl mip msecs;
  rm_owned : owned msecs s d fsecs;
  rm_distinct : NoDup (inode_sector e :: all_sectors (store s) d fsecs);
  rm_allocated : allocated (free_map s) (inode_sector e :: all_sectors (store s) d fsecs);
  rm_inode_off : inode_sector e ∉ msecs;
  rm_dir_off : forall t, t ∈ secs -> t ∉ inode_sector e :: all_sectors (store s) d fsecs;
  rm_dir_map : apart (store s) (data ip) secs msecs;
  rm_map_dir : apart (store s) (data mip) msecs secs
}.

Lemma not_open_filter s sec q :
  not_open s sec -> inodes s !! q = None -> filter (fun r => r <> q) (open_inodes s) = open_inodes s.
Proof.
  unfold not_open. intros Hno Hq. induction Hno as [|r l (ip & Hr & _) _ IH]; [done|].
  rewrite filter_cons_True, IH; [done|]. congruence.
Qed.

(** An open directory when only other sectors and objects changed. *)
Lemma directory_frame s s' p dd ip secs es other :
  directory s p dd ip secs es -> dirs s' !! p = Some dd -> inodes s' !! d_inode dd = Some ip ->
  changes_only (store s) other (store s') -> apart (store s) (data ip) secs other ->
  directory s' p dd ip secs es.
Proof.
  intros [Hp [] He Hok] Hp' Hi Hb Ha. destruct (file_apart _ _ _ _ _ Hb Ha df_secs0) as (H1 & H2 & _).
  split; [done|split; [apply Hb|done..]| |done]. unfold entries_of in *. by rewrite H2.
Qed.

(** C21: Functional correctness of dir_remove for a file that is not open:
    it succeeds; the directory then stands for the map without the name
    and is otherwise as before; the bits of the file's inode, data and
    indirect sectors, and no others, are cleared, in memory and in the
    free map's file; and no inode stays open. *)
Theorem dir_remove_file s p dd ip secs es nm k e d fsecs fp fl mip msecs :
  removable s p dd ip secs es nm k e d fsecs fp fl mip msecs -> is_dir d = 0 ->
  wp (dir_remove (Some p) nm) (fun ok s' => ok = true /\
    (exists es', directory s' p dd ip secs es' /\ dir_map es' = delete (bytes_of nm) (dir_map es)) /\
    cleared (free_map s) (inode_sector e :: all_sectors (store s) d fsecs) (free_map s') /\
    free_map_ok s' fp fl mip msecs /\ on_disk s' mip msecs /\
    inodes s' = inodes s /\ open_inodes s' = open_inodes s) s.
Proof.
  intros [] Hdir. destruct (rm_fresh0 (brk s)) as (Hfresh & _ & _); [lia|].
  set (sec := inode_sector e) in *. pose proof rm_dir0 as [Hp Hf He Hok].
  destruct (entry_of_split _ _ _ _ Hok rm_entry0) as (Hu & Hnm & Hk & Hek & Hfree).
  assert (entry_ok e) as Heok.
  { eapply Forall_zget; [|exact Hek]. rewrite <- He. apply entries_of_ok; apply Hf. }
  assert (brk s <> d_inode dd) as Hq1 by (intros E; rewrite E, (df_inode _ _ _ _ Hf) in Hfresh; done).
  assert (brk s <> f_inode fl) as Hq2.
  { intros E. rewrite E, (fm_inode _ _ _ _ _ rm_map0) in Hfresh. done. }
  unfold dir_remove. wp_step. apply wp_assert; [done|]. wp_step. eapply lookup_wp; [done..|].
  intros b1 Hb1. rewrite rm_entry0. simpl fmap. cbv iota. fold sec. wp_step.
  apply open_sector_wp; [apply Hf|done..|]. intros b2 Hb2. set (s2 := with_inode s sec b2).
  set (q := brk s) in *. assert (inodes s2 !! q = Some (mkInode sec 1 false 0 d)) as Hq.
  { unfold s2, with_inode. simpl. rewrite lookup_insert_eq. by subst d. }
  wp_step. unfold inode_is_directory. wp_step. eapply get_inode_wp; [done|]. apply wp_ret. simpl data. rewrite Hdir.
  simpl negb. cbv iota. do 3 wp_step. simpl negb. cbv iota. wp_step. eapply wp_need; [done|]. wp_step.
  eapply get_dir_wp; [exact Hp|]. wp_step.
  assert (directory s2 p dd ip secs es) as [Hp2 Hf2 He2 _].
  { eapply (directory_frame s s2 p dd ip secs es []); [done|exact Hp| |by apply same_changes_only|].
    - unfold s2, with_inode. simpl. rewrite lookup_insert_ne by done. apply Hf.
    - split; intros t _; apply not_elem_of_nil. }
  eapply (write_entry_at_wp s2 _ ip secs k (mkEntry sec (name e) 0)); [exact Hf2|done| |rewrite He2; lia|].
  { destruct Heok. split; try done. }
  intros b3 Hb3 He3. rewrite He2 in He3. simpl negb. cbv iota. wp_step. unfold inode_remove, set_inode.
  wp_step. eapply get_inode_wp; [exact Hq|]. do 3 wp_step. set (s4 := set_inodes _ (set_store b3 s2)).
  assert (inodes s4 !! q = Some (mkInode sec 1 true 0 d)) as Hq4 by apply lookup_insert_eq.
  assert (changes_only (store s) secs (store s4)) as Hb4.
  { eapply changes_only_trans; [by apply same_changes_only|exact Hb3]. }
  assert (forall r, r <> q -> inodes s4 !! r = inodes s !! r) as Hother.
  { intros r Hr. unfold s4, s2, with_inode. simpl. by rewrite !lookup_insert_ne by done. }
  destruct (free_map_ok_frame _ _ _ _ s s4 secs rm_map0) as [Hok4 _]; try done.
  { rewrite Hother by done. apply rm_map0. }
  destruct (owned_changes msecs s s4 d fsecs secs) as [Ho4 Eall]; try done.
  { intros t Ht Ht'. eapply rm_dir_off0; [exact Ht'|by right]. }
  { eapply allocated_sub; [done|]. intros t Ht. by right. }
  simpl in Eall. eapply (inode_close_removed_wp fp fl mip msecs s4 q (mkInode sec 1 true 0 d) fsecs); simpl; rewrite ?Eall; try done.
  intros m b5 Hb5 Hc Hok5 Hd5. apply wp_ret. split; [done|]. split.
  { exists (<[Z.to_nat k := mkEntry sec (name e) 0]> es). destruct (Hfree (mkEntry sec (name e) 0) eq_refl) as [H1 H2].
    split; [|done]. eapply (directory_frame s4); [split| | | |].
    - exact Hp.
    - split; [apply Hb4|by rewrite Hother; [apply Hf|done]|by eapply file_ok_changes; [|apply Hf]|apply Hf].
    - exact He3.
    - exact H1.
    - exact Hp.
    - simpl. rewrite lookup_delete_ne, !lookup_insert_ne by done. apply Hf.
    - exact Hb5.
    - eapply apart_changes; [apply Hf| |done]. exact Hb4. }
  split; [exact Hc|]. split; [exact Hok5|]. split; [exact Hd5|]. simpl. split.
  - unfold q. rewrite delete_insert_eq, delete_insert_eq, delete_id; done.
  - rewrite filter_cons_False by naive_solver. by eapply not_open_filter.
Qed.

(* ------------------------------------------------------------------ *)
(** ** Directories                                                     *)
(* ------------------------------------------------------------------ *)

Lemma live_nil es : Forall (fun e => used e = false) es <-> live es = [].
Proof.
  unfold live. induction es as [|e es IH]; [done|]. rewrite Forall_cons, filter_cons, IH.
  destruct (used e); simpl; naive_solver.
Qed.

(** dir_is_empty looks for a used entry past the parent's. *)
Lemma dir_is_empty_wp s p dd ip secs (Q : bool -> fs B -> Prop) :
  dirs s !! p = Some dd -> dir_file s (d_inode dd) ip secs ->
  1 <= zlen (entries_of (store s) (data ip) secs) ->
  (forall b', same_store (store s) b' ->
     Q (bool_decide (live (drop 1 (entries_of (store s) (data ip) secs)) = [])) (set_store b' s)) ->
  wp (dir_is_empty p) Q s.
Proof.
  intros Hp Hf Hpos HQ. unfold dir_is_empty. wp_step. eapply get_dir_wp; [done|].
  set (es := entries_of (store s) (data ip) secs) in *.
  eapply (dir_walk_wp s (d_inode dd) ip secs used (fun _ => true) (fun _ _ => false) _ 1);
    [done| |fold es; lia|]; fold es.
  - intros b1 k Q' Hb1 Hk HQ'. wp_step.
    eapply read_entry_at_wp; [by apply dir_file_same, same_changes_only|lia|]. simpl. intros b2 Hb2. apply wp_ret.
    rewrite (entries_of_same (store s)) by (done || apply Hf). fold es.
    specialize (HQ' b2 ltac:(by eapply same_store_trans)). destruct (zget es k) as [e|]; [|done]. by destruct (used e).
  - intros b' Hb'. specialize (HQ b' Hb'). change (Z.to_nat 1) with 1%nat.
    assert (find_slot used (drop 1 es) 1 = None <-> live (drop 1 es) = []) as E.
    { rewrite find_slot_None. apply live_nil. }
    revert HQ. destruct (find_slot _ _ _) as [[k e]|].
    + rewrite bool_decide_eq_false_2; [done|]. rewrite <- E. done.
    + rewrite bool_decide_eq_true_2; [done|]. by rewrite <- E.
Qed.

(** Closing the last user of a directory that is the only opener of its
    inode frees both, and resets cwd whichever directory it is. *)
Lemma dir_close_wp s p dd ip (Q : unit -> fs B -> Prop) :
  dirs s !! p = Some dd -> d_open_cnt dd = 1 -> inodes s !! d_inode dd = Some ip ->
  open_cnt ip = 1 -> removed ip = false ->
  Q tt (set_cwd None (set_dirs (delete p (dirs s)) (set_inodes (delete (d_inode dd) (inodes s))
         (set_open_inodes (filter (fun q => q <> d_inode dd) (open_inodes s)) s)))) ->
  wp (dir_close (Some p)) Q s.
Proof.
  intros Hp Hc Hi Hcnt Hr HQ. unfold dir_close. wp_step. eapply get_dir_wp; [done|]. rewrite Hc.
  unfold set_dir. do 2 wp_step. apply wp_when; intros E; [|done]. wp_step.
  unfold inode_close. wp_step. eapply get_inode_wp; [done|]. rewrite Hcnt, Hr. unfold set_inode, free_inode.
  wp_step. wp_step. simpl. wp_steps. unfold free_dir. wp_steps.
  revert HQ. unfold set_inodes, set_open_inodes, set_dirs, set_cwd. simpl. by rewrite !delete_insert_eq.
Qed.

(** What dir_remove does to look whether a directory is empty. *)
Lemma closing_frees_inode s p dd ip secs es sec d tsecs b :
  directory s p dd ip secs es -> heap_ok s -> same_store (store s) b ->
  decode_inode (bs_sector (store s) sec) = d -> file_ok (store s) d tsecs -> sizeof_entry <= length_ d < 2 ^ 31 ->
  wp (let! target := dir_open (Some (brk s)) in
      let! t := need target in
      let! is_empty := dir_is_empty t in
      dir_close target ;;
      ret is_empty)
     (fun _ s' => inodes s' !! brk s = None /\ directory s' p dd ip secs es) (with_inode s sec b).
Proof.
  intros Hdr Hheap Hb Hd Ht Hlen. pose proof Hdr as [Hp Hf He Hok].
  destruct (Hheap (brk s)) as (Hfresh & _ & _); [lia|].
  destruct (Hheap (Pos.succ (brk s))) as (_ & _ & Hfresh2); [lia|].
  assert (brk s <> d_inode dd) as Hq1 by (intros E; rewrite E, (df_inode _ _ _ _ Hf) in Hfresh; done).
  assert (Pos.succ (brk s) <> p) as Hp1 by (intros E; rewrite E in Hfresh2; congruence).
  assert (file_ok b d tsecs) as Htb by (eapply file_ok_changes; [by apply same_changes_only|done]).
  unfold dir_open, malloc, set_dir. do 11 wp_step. eapply wp_need; [done|]. wp_step.
  eapply (dir_is_empty_wp _ _ (mkDir (brk s) sizeof_entry 1) (mkInode sec 1 false 0 d) tsecs).
  - simpl. apply lookup_insert_eq.
  - split; simpl; [apply Hb|by rewrite lookup_insert_eq, Hd|done|lia].
  - simpl. unfold entries_of. rewrite zlen_dir_entries, (zlen_content _ _ _ (ss_inv _ _ Hb) Htb) by lia.
    unfold sizeof_entry in *. Z.to_euclidean_division_equations; lia.
  - intros b3 Hb3. wp_step. eapply dir_close_wp; simpl; [apply lookup_insert_eq|done|by rewrite lookup_insert_eq|done|done|].
    wp_step. apply wp_ret. simpl. split; [apply lookup_delete_eq|].
    eapply (directory_frame s _ p dd ip secs es []); simpl; [done| | | |].
    + by rewrite delete_insert_eq, lookup_delete_ne.
    + by rewrite lookup_delete_ne, lookup_insert_ne by done; apply Hf.
    + apply same_changes_only. by eapply same_store_trans.
    + split; intros t _; apply not_elem_of_nil.
Qed.

(** Removing a directory whose inode nothing else has open is
    undefined behaviour, empty or not: dir_remove opens it as a directory
    to look whether it is empty, closing that frees the inode, and
    dir_remove then goes on with the freed inode. *)
Theorem dir_remove_directory_uses_freed_inode s p dd ip secs es nm k e d tsecs :
  directory s p dd ip secs es -> deny_write_cnt ip = 0 -> 0 ∉ bytes_of nm ->
  entry_of nm es = Some (k, e) -> in_range (store s) (inode_sector e) -> not_open s (inode_sector e) ->
  decode_inode (bs_sector (store s) (inode_sector e)) = d -> is_dir d <> 0 ->
  file_ok (store s) d tsecs -> sizeof_entry <= length_ d < 2 ^ 31 -> heap_ok s ->
  dir_remove (Some p) nm s = Stuck.
Proof.
  intros Hdr Hdeny Hnm Hent Hr Hno Hd Hdir Ht Hlen Hheap. pose proof Hdr as [Hp Hf He Hok].
  destruct (Hheap (brk s)) as (Hfresh & _ & _); [lia|].
  destruct (Hheap (Pos.succ (brk s))) as (_ & _ & Hfresh2); [lia|].
  destruct (entry_of_split _ _ _ _ Hok Hent) as (_ & _ & Hk & Hek & _).
  assert (entry_ok e) as Heok.
  { eapply Forall_zget; [|exact Hek]. rewrite <- He. apply entries_of_ok; apply Hf. }
  assert (brk s <> d_inode dd) as Hq1 by (intros E; rewrite E, (df_inode _ _ _ _ Hf) in Hfresh; done).
  assert (Pos.succ (brk s) <> p) as Hp1 by (intros E; rewrite E in Hfresh2; congruence).
  set (q := brk s) in *. set (sec := inode_sector e) in *.
  unfold dir_remove. apply (bind_stuck _ _ (fun _ s' => s' = s)); [by apply wp_assert|]. intros _ ? ->.
  eapply (bind_stuck _ _ (fun r s' => r = Some (e, sizeof_entry * k) /\ exists b, same_store (store s) b /\ s' = set_store b s)).
  { eapply lookup_wp; [done..|]. intros b Hb. rewrite Hent. eauto. }
  intros r s1 (-> & b1 & Hb1 & ->). fold sec.
  eapply (bind_stuck _ _ (fun q' s' => q' = q /\ exists b, same_store (store s) b /\ s' = with_inode s sec b)).
  { apply open_sector_wp; [apply Hf|done..|]. eauto. }
  intros q' s2 (-> & b2 & Hb2 & ->). set (s2 := with_inode s sec b2).
  assert (inodes s2 !! q = Some (mkInode sec 1 false 0 d)) as Hq.
  { unfold s2, with_inode. simpl. rewrite lookup_insert_eq. by subst d. }
  eapply (bind_stuck _ _ (fun r s' => r = true /\ s' = s2)).
  { unfold inode_is_directory. wp_step. eapply get_inode_wp; [done|]. apply wp_ret. simpl data.
    by rewrite (proj2 (Z.eqb_neq _ _)). }
  intros ? ? [-> ->]. cbv iota.
  eapply (bind_stuck _ _ (fun _ s' => inodes s' !! q = None /\ directory s' p dd ip secs es)).
  { by eapply closing_frees_inode. }
  intros emp s3 (Hfreed & Hdr3).
  assert (forall s', inodes s' !! q = None -> get_inode q s' = Stuck) as Hget.
  { intros s' E. unfold get_inode, bind, get. simpl. by rewrite E. }
  destruct emp; simpl negb; cbv iota.
  - (* empty: the entry is erased, and inode_remove follows *)
    apply bind_Stuck. apply (bind_stuck _ _ (fun p' s' => p' = p /\ s' = s3)); [by eapply wp_need|].
    intros ? ? [-> ->]. pose proof Hdr3 as [Hp3 Hf3 He3 _].
    apply (bind_stuck _ _ (fun d' s' => d' = dd /\ s' = s3)); [by eapply get_dir_wp|]. intros ? ? [-> ->].
    apply (bind_stuck _ _ (fun ok s' => ok = true /\ inodes s' !! q = None)).
    { eapply write_entry_at_wp; [done|done| |rewrite He3; lia|done]. by destruct Heok; split. }
    intros ok s4 [-> Hfreed4]. simpl negb. cbv iota. apply bind_Stuck. unfold inode_remove. by apply bind_Stuck, Hget.
  - apply (bind_stuck _ _ (fun _ s' => s' = s3)); [done|]. intros ? ? ->.
    apply bind_Stuck. unfold inode_close. by apply bind_Stuck, Hget.
Qed.
End props.

(* ------------------------------------------------------------------ *)
(** ** Witnesses                                                       *)
(* ------------------------------------------------------------------ *)

#[local] Existing Instance Cache.cache_store.

Lemma session_heap : heap_ok session.
Proof.
  intros q Hq. simpl in Hq. unfold session. simpl.
  by rewrite !lookup_insert_ne, !lookup_singleton_ne by lia.
Qed.
Lemma session_not_open sec : sec ∈ [4; 6] -> not_open session sec.
Proof.
  intros Hsec. apply Forall_cons. split; [exists root_inode|apply Forall_singleton; exists map_inode];
    (split; [done|]); simpl; set_solver.
Qed.

(** ["a.txt"] is entry 1: its inode is in sector 4, its data in 5 and 7. *)
Lemma dir_remove_file_witness :
  wp (dir_remove (Some 6%positive) "a.txt") (fun ok s' => ok = true /\
    (exists es', directory s' 6 root_dir root_inode [3] es' /\ dir_map es' !! bytes_of "a.txt" = None /\
                 dir_map es' !! bytes_of "sub" = Some 6) /\
    map (bit (free_map s')) (seqZ 0 10) = [true; true; true; true; false; false; true; false; true; false]) session.
Proof.
  eapply wp_mono.
  { apply (dir_remove_file session 6 root_dir root_inode [3] root_entries "a.txt" 1 (entry_at 4 "a.txt" 1) a_txt [5; 7]
             1 (mkFile 2 0 false) map_inode [2]); [|done].
    split.
    - apply root_directory.
    - done.
    - apply (bool_decide_unpack _). by vm_compute.
    - by vm_compute.
    - split; by vm_compute.
    - apply session_not_open. by left.
    - by vm_compute.
    - apply session_heap.
    - apply session_map_ok.
    - split; [apply a_txt_file_ok|apply (bool_decide_unpack _); by vm_compute| |].
      + apply (allocated_dec). by vm_compute.
      + intros t Ht ->%list_elem_of_singleton. revert Ht. apply (bool_decide_unpack _). by vm_compute.
    - apply (bool_decide_unpack _). by vm_compute.
    - apply (allocated_dec). by vm_compute.
    - apply (bool_decide_unpack _). by vm_compute.
    - intros t ->%list_elem_of_singleton. apply (bool_decide_unpack _). by vm_compute.
    - split; [by intros t ->%list_elem_of_singleton; apply (bool_decide_unpack _)|].
      intros t [[? _]|[[? _]|(j & ? & ? & _)]]; simpl in *; lia.
    - split; [by intros t ->%list_elem_of_singleton; apply (bool_decide_unpack _)|].
      intros t [[? _]|[[? _]|(j & ? & ? & _)]]; simpl in *; lia. }
  intros ok s' (-> & (es' & Hd & Hm) & (_ & _ & Hb) & _). split; [done|]. split.
  - exists es'. split; [done|]. rewrite Hm. split; by vm_compute.
  - simpl seqZ. simpl map. rewrite !Hb. by vm_compute.
Defined.

Lemma dir_remove_directory_uses_freed_inode_witness : dir_remove (Some 6%positive) "sub" session = Stuck.
Proof.
  apply (dir_remove_directory_uses_freed_inode session 6 root_dir root_inode [3] root_entries "sub" 3
           (entry_at 6 "sub" 1) sub_disk [8]).
  - apply root_directory.
  - done.
  - apply (bool_decide_unpack _). by vm_compute.
  - by vm_compute.
  - split; by vm_compute.
  - apply session_not_open. by right; left.
  - by vm_compute.
  - done.
  - apply sub_file_ok.
  - split; by vm_compute.
  - apply session_heap.
Defined.
End DirectoryRemove.
