(* ===== verification/FileSys.v ===== *)
(** * FileSys: the file system (a3/fs/filesys.c) and the file commands of
    the shell (a3/fs/fsutil.c)

    The start and the end of the sector store are an interface that the
    buffer cache of Cache.v provides. *)
From S2P Require Import Prelude Bitmap Store Cache FsState Inode FileData FreeMap CString Debug Files Directory.

Module FileSys.
Import Bitmap FsState Inode FreeMap Debug Files Directory.

(** buffer_cache_init and buffer_cache_close. *)
Class CacheControl (B : Type) := { cache_init : M B unit; cache_close : M B unit }.
#[export] Instance cache_control : CacheControl Cache.cache := {|
  cache_init := Cache.buffer_cache_init; cache_close := Cache.buffer_cache_close |}.

Definition MAX_FILES_IN_DIRECTORY : Z := 1000.

Section ops.
Context {B : Type} `{!BlockStore B, !CacheControl B}.
(** What the stack holds where dir_add has its entry. *)
Variable junk : list Z.

Definition on_store {A} (m : M B A) : M (fs B) A := zoom store set_store m.

Definition do_format : M (fs B) unit :=
  print "Formatting file system..." ;;
  free_map_create ;;
  let! ok := dir_create ROOT_DIR_SECTOR MAX_FILES_IN_DIRECTORY in
  when (negb ok) (panic "root directory creation failed") ;;
  free_map_close ;;
  print ("done." +:+ nl)%string.

Definition filesys_init (device_size : Z) (format : bool) : M (fs B) unit :=
  inode_init ;;
  free_map_init device_size ;;
  on_store cache_init ;;
  when format do_format ;;
  free_map_open ;;
  let! n := num_free_sectors in
  print ("Num free sectors: " +:+ pretty n +:+ nl)%string ;;
  init_file_table.

Definition filesys_done : M (fs B) unit :=
  free_map_close ;;
  on_store cache_close ;;
  free_file_table.

(** The two buffers of split_path_filename, arrays of [n] characters. *)
Definition split_into (n : Z) (path : string) : M (fs B) (string * string) :=
  let '(dir, nm) := split_path_filename path in
  let! dir := into n dir in
  let! nm := into n nm in
  ret (dir, nm).

Definition filesys_create (path : string) (initial_size : Z) (is_dir : bool) : M (fs B) bool :=
  let! r := split_into (strlen path) path in
  let file_name := snd r in
  let! dir := dir_open_root in
  let! r :=
    (match dir with
     | None => ret (false, 0)
     | Some _ =>
         let! a := allocate 1 in
         match a with
         | None => ret (false, 0)
         | Some inode_sector =>
             let! ok := inode_create inode_sector initial_size is_dir in
             if negb ok then ret (false, inode_sector) else
             let! ok := dir_add junk dir file_name inode_sector is_dir in
             ret (ok, inode_sector)
         end
     end) in
  let '(success, inode_sector) := r in
  when (negb success && negb (inode_sector =? 0)) (release inode_sector 1) ;;
  dir_close dir ;;
  ret success.

(** With an empty file name the directory's own inode is opened, and the
    directory is not closed. *)
Definition filesys_open (nm : string) : M (fs B) ptr :=
  if strlen nm =? 0 then ret None else
  let! r := split_into (strlen nm + 1) nm in
  let file_name := snd r in
  let! dir := dir_open_root in
  match dir with
  | None => ret None
  | Some _ =>
      let! inode :=
        (if 0 <? strlen file_name then
           let! i := dir_lookup dir file_name in
           dir_close dir ;;
           ret i
         else let! i := dir_get_inode dir in ret (Some i)) in
      match inode with
      | None => ret None
      | Some i =>
          let! removed := inode_is_removed i in
          if removed : bool then ret None else file_open inode
      end
  end.

Definition filesys_remove (nm : string) : M (fs B) bool :=
  let! r := split_into (strlen nm) nm in
  let! dir := dir_open_path (fst r) in
  let! success := match dir with None => ret false | Some _ => dir_remove dir (snd r) end in
  dir_close dir ;;
  ret success.

Definition filesys_chdir (nm : string) : M (fs B) bool :=
  let! dir := dir_open_path nm in
  match dir with
  | None => ret false
  | Some _ =>
      let! s := get in
      dir_close (cwd s) ;;
      modify (set_cwd dir) ;;
      ret true
  end.

(* ------------------------------------------------------------------ *)
(** ** fsutil.c                                                        *)
(* ------------------------------------------------------------------ *)

(** A C string from its bytes. *)
Definition string_of (bs : list Z) : string :=
  fold_right (fun b s => String (Ascii.ascii_of_nat (Z.to_nat b)) s) EmptyString (until_nul bs).

Definition fsutil_ls : M (fs B) Z :=
  print ("Files in the root directory:" +:+ nl)%string ;;
  let! dir := dir_open_root in
  match dir with
  | None => ret 1
  | Some p =>
      let! d := get_dir p in
      dir_walk (d_inode d) (fun _ =>
        let! r := dir_readdir p in
        match r with
        | None => ret (inr tt)
        | Some nm => print (string_of nm +:+ nl)%string ;; ret (inl tt)
        end) tt ;;
      dir_close dir ;;
      print ("End of listing." +:+ nl)%string ;;
      ret 0
  end.

(** The file that the table has under the name, or that is then opened and
    added to it: [None] when there is none; [true] when it was opened. *)
Definition table_file (file_name : string) : M (fs B) (option (loc * bool)) :=
  let! p := get_file_by_fname file_name in
  match p with
  | Some f => ret (Some (f, false))
  | None =>
      let! p := filesys_open file_name in
      match p with
      | None => ret None
      | Some f => add_to_file_table f file_name ;; ret (Some (f, true))
      end
  end.

(** The second read of the loop finds the end of the file. *)
Definition fsutil_cat (file_name : string) : M (fs B) Z :=
  print ("Printing <" +:+ file_name +:+ "> to the console..." +:+ nl)%string ;;
  let! r := table_file file_name in
  match r with
  | None => print ("Error" +:+ nl)%string ;; ret (-1)
  | Some (file_s, opened) =>
      let! f := get_file file_s in
      let cur_offset := f_pos f in
      file_seek (Some file_s) 0 ;;
      let! file_size := file_length (Some file_s) in
      while_ 3 (fun _ =>
        let! pos := file_tell (Some file_s) in
        let! bytes := file_read file_s file_size in
        if zlen bytes =? 0 then ret (inr tt)
        else hex_dump pos bytes true ;; ret (inl tt)) tt ;;
      file_seek (Some file_s) cur_offset ;;
      when opened (remove_from_file_table file_name ;; ret tt) ;;
      print ("Done printing" +:+ nl)%string ;;
      ret 0
  end.

Definition fsutil_rm (file_name : string) : M (fs B) bool :=
  remove_from_file_table file_name ;;
  filesys_remove file_name.

Definition fsutil_create (fname : string) (isize : Z) : M (fs B) Z :=
  if (strlen fname =? 0) || (255 <=? strlen fname) then
    print ("Error with filename: " +:+ pretty (strlen fname) +:+ nl)%string ;; ret 0
  else let! b := filesys_create fname (i32 isize) false in ret (if b : bool then 1 else 0).

(** The result, and the buffer as file_write leaves it. *)
Definition fsutil_write (file_name : string) (buffer : list Z) (size : Z) : M (fs B) (Z * list Z) :=
  let! r := table_file file_name in
  match r with
  | None => ret (-1, buffer)
  | Some (file_s, _) => file_write file_s buffer (i32 size)
  end.

(** The bytes read; [None] for the result -1. *)
Definition fsutil_read (file_name : string) (size : Z) : M (fs B) (option (list Z)) :=
  let! r := table_file file_name in
  match r with
  | None => ret None
  | Some (file_s, _) => let! bytes := file_read file_s (i32 size) in ret (Some bytes)
  end.

Definition fsutil_size (file_name : string) : M (fs B) Z :=
  let! r := table_file file_name in
  match r with
  | None => ret (-1)
  | Some (file_s, _) =>
      let! f := get_file file_s in
      let cur_offset := f_pos f in
      let! n := file_length (Some file_s) in
      file_seek (Some file_s) cur_offset ;;
      ret n
  end.

Definition fsutil_seek (file_name : string) (offset : Z) : M (fs B) Z :=
  let! r := table_file file_name in
  match r with
  | None => ret (-1)
  | Some (file_s, _) => file_seek (Some file_s) offset ;; ret 0
  end.

Definition fsutil_close (file_name : string) : M (fs B) unit :=
  remove_from_file_table file_name ;; ret tt.

Definition fsutil_freespace : M (fs B) Z := num_free_sectors.
End ops.
End FileSys.
