(* ===== verification/PathProps.v ===== *)
(** * PathProps: how paths are cut (split_path_filename of
    a3/fs/directory.c), and the buffers that receive the two pieces
    (filesys_create, filesys_open and filesys_remove of filesys.c) *)
From Stdlib Require Import Ascii.
From S2P Require Import Prelude Store Cache FsState CString Directory FileSys DemoDisk.

Module PathProps.
Import FsState Directory FileSys.

(* ------------------------------------------------------------------ *)
(** ** Tokens                                                          *)
(* ------------------------------------------------------------------ *)

Fixpoint slashes (s : string) : Z :=
  match s with
  | EmptyString => 0
  | String c s => (if Ascii.eqb c "/" then 1 else 0) + slashes s
  end.
Definition absolute (s : string) : bool := match s with String "/" _ => true | _ => false end.

(** A piece of a path. *)
Definition piece (t : string) : Prop := t <> EmptyString /\ slashes t = 0.

Definition total_len (ts : list string) : Z := foldr (fun t n => strlen t + n) 0 ts.

Lemma slashes_nonneg s : 0 <= slashes s.
Proof. induction s as [|c s IH]; simpl; [lia|]. destruct (Ascii.eqb c "/"); lia. Qed.
Lemma strlen_String c s : strlen (String c s) = 1 + strlen s.
Proof. unfold strlen. simpl. lia. Qed.
Lemma strlen_0 s : strlen s = 0 <-> s = EmptyString.
Proof. split; [|by intros ->]. destruct s; [done|]. rewrite strlen_String. pose proof (strlen_nonneg s). lia. Qed.
Lemma total_len_nonneg ts : 0 <= total_len ts.
Proof. induction ts as [|t ts IH]; simpl; [lia|]. pose proof (strlen_nonneg t). lia. Qed.
Lemma total_len_app l1 l2 : total_len (l1 ++ l2) = total_len l1 + total_len l2.
Proof. induction l1 as [|t l1 IH]; simpl; lia. Qed.
Lemma slashes_app s t : slashes (s +:+ t) = slashes s + slashes t.
Proof. induction s as [|c s IH]; simpl; [done|]. rewrite IH. lia. Qed.

Definition flush (w : string) (l : list string) : list string :=
  match w with EmptyString => l | _ => w :: l end.
Lemma tokens_from_String w c s :
  tokens_from w (String c s) =
  if Ascii.eqb c "/" then flush w (tokens_from EmptyString s) else tokens_from (snoc w c) s.
Proof. done. Qed.

Lemma slashes_snoc w c : Ascii.eqb c "/" = false -> slashes (snoc w c) = slashes w.
Proof. intros E. unfold snoc. rewrite slashes_app. simpl. rewrite E. lia. Qed.

(** Every character is a slash or in a token; tokens are pieces. *)
Lemma tokens_from_spec w s :
  slashes w = 0 ->
  total_len (tokens_from w s) + slashes s = strlen w + strlen s /\ Forall piece (tokens_from w s).
Proof.
  revert w. induction s as [|c s IH]; intros w Hw.
  - change (strlen EmptyString) with 0. destruct w as [|a w]; simpl; [split; [done|constructor]|].
    split; [lia|]. by repeat constructor.
  - rewrite tokens_from_String, strlen_String. simpl slashes. destruct (Ascii.eqb c "/") eqn:E.
    + destruct (IH EmptyString eq_refl) as [H1 H2]. change (strlen EmptyString) with 0 in H1.
      destruct w as [|a w]; simpl flush; [change (strlen EmptyString) with 0; split; [lia|done]|].
      simpl total_len. split; [lia|]. constructor; [done|done].
    + destruct (IH (snoc w c)) as [H1 H2]; [by rewrite slashes_snoc|]. rewrite strlen_snoc in H1. split; [lia|done].
Qed.

Lemma tokens_spec s : total_len (tokens s) + slashes s = strlen s /\ Forall piece (tokens s).
Proof. exact (tokens_from_spec EmptyString s eq_refl). Qed.

(** There is a slash between two tokens, and none after the last is needed. *)
Lemma tokens_from_count w s : zlen (tokens_from w s) <= slashes s + 1.
Proof.
  revert w. induction s as [|c s IH]; intros w; [destruct w; simpl; lia|].
  rewrite tokens_from_String. simpl slashes. destruct (Ascii.eqb c "/").
  - specialize (IH EmptyString). destruct w; simpl; lia.
  - specialize (IH (snoc w c)). lia.
Qed.
Lemma tokens_absolute s : tokens (String "/" s) = tokens s.
Proof. done. Qed.
Lemma tokens_count s : zlen (tokens s) <= slashes s + 1 - (if absolute s then 1 else 0).
Proof.
  assert (absolute s = true -> exists s', s = String "/" s') as Ha.
  { destruct s as [|c s]; [done|]. simpl. repeat case_match; try done. by eexists. }
  destruct (absolute s).
  - destruct Ha as [s' ->]; [done|]. rewrite tokens_absolute. simpl.
    pose proof (tokens_from_count EmptyString s'). unfold tokens. lia.
  - pose proof (tokens_from_count EmptyString s). unfold tokens. lia.
Qed.

Lemma string_app_nil_r s : (s +:+ "")%string = s.
Proof. induction s as [|c s IH]; [done|]. exact (f_equal (String c) IH). Qed.
Lemma string_app_assoc r s t : (r +:+ (s +:+ t))%string = ((r +:+ s) +:+ t)%string.
Proof. induction r as [|c r IH]; [done|]. exact (f_equal (String c) IH). Qed.

(** Pieces put together are cut again where they were put together. *)
Fixpoint join (ts : list string) : string :=
  match ts with [] => EmptyString | t :: ts => (t +:+ "/" +:+ join ts)%string end.

Lemma tokens_from_piece w t s :
  slashes t = 0 -> tokens_from w (t +:+ s)%string = tokens_from (w +:+ t)%string s.
Proof.
  revert w. induction t as [|c t IH]; intros w Ht; simpl in Ht.
  - by rewrite string_app_nil_r.
  - destruct (Ascii.eqb c "/") eqn:E; [pose proof (slashes_nonneg t); lia|].
    change (String c t +:+ s)%string with (String c (t +:+ s))%string. rewrite tokens_from_String, E, IH by done.
    f_equal. unfold snoc. by rewrite <- string_app_assoc.
Qed.

Lemma tokens_join ts : Forall piece ts -> tokens (join ts) = ts.
Proof.
  induction 1 as [|t ts [Hne Ht] _ IH]; [done|]. unfold tokens in *. simpl join. rewrite tokens_from_piece by done.
  change ("" +:+ t)%string with t. change ("/" +:+ join ts)%string with (String "/" (join ts)).
  rewrite tokens_from_String. simpl. rewrite IH. by destruct t.
Qed.

Lemma join_len ts : strlen (join ts) = total_len ts + zlen ts.
Proof.
  induction ts as [|t ts IH]; [done|]. simpl join. simpl total_len. simpl length.
  rewrite !strlen_app, IH. change (strlen "/") with 1. lia.
Qed.

(* ------------------------------------------------------------------ *)
(** ** split_path_filename                                             *)
(* ------------------------------------------------------------------ *)

Definition root_of (path : string) : string := if absolute path then "/"%string else EmptyString.

(** All tokens but the last, and the last. *)
Lemma split_eq path :
  split_path_filename path =
  match tokens path with
  | [] => (root_of path, EmptyString)
  | t :: ts => ((root_of path +:+ join (removelast (t :: ts)))%string, List.last (t :: ts) EmptyString)
  end.
Proof.
  unfold split_path_filename.
  assert ((match path with String "/" _ => "/"%string | _ => EmptyString end) = root_of path) as ->.
  { unfold root_of. destruct path as [|c s]; [done|]. simpl. by repeat case_match. }
  destruct (tokens_spec path) as [_ Hp]. generalize (root_of path). revert Hp. generalize (tokens path).
  intros ts Hp d. destruct ts as [|t ts]; [done|].
  apply Forall_cons in Hp as [Ht Hp]. simpl fold_left. change (strlen EmptyString) with 0. simpl.
  revert t d Ht. induction Hp as [|u ts Hu Hp IH]; intros t d Ht; simpl fold_left.
  - simpl. by rewrite string_app_nil_r.
  - destruct Ht as [Hne _]. rewrite (proj2 (Z.ltb_lt 0 (strlen t))).
    2:{ pose proof (strlen_nonneg t). destruct (decide (strlen t = 0)) as [E|]; [|lia]. by apply strlen_0 in E. }
    rewrite IH by done. simpl. f_equal. by rewrite <- !string_app_assoc.
Qed.

Lemma split_facts path :
  let '(dir, nm) := split_path_filename path in
  slashes nm = 0 /\ absolute dir = absolute path /\
  tokens path = tokens dir ++ (if decide (nm = EmptyString) then [] else [nm]) /\
  strlen dir + strlen nm <= strlen path.
Proof.
  rewrite split_eq. destruct (tokens_spec path) as [Hlen Hp]. pose proof (tokens_count path) as Hcnt.
  assert (strlen (root_of path) = if absolute path then 1 else 0) as Hroot by (unfold root_of; by destruct (absolute path)).
  assert (forall s, tokens (root_of path +:+ s)%string = tokens s) as Htok.
  { intros s. unfold root_of. by destruct (absolute path). }
  destruct (tokens path) as [|t ts] eqn:Et.
  - simpl in Hlen. split; [done|]. split; [unfold root_of; by destruct (absolute path)|].
    specialize (Htok EmptyString). rewrite string_app_nil_r in Htok. rewrite Htok. split; [done|].
    rewrite Hroot. change (strlen EmptyString) with 0. destruct (absolute path) eqn:E; [|pose proof (strlen_nonneg path); lia].
    destruct path; [done|]. rewrite strlen_String. pose proof (strlen_nonneg path). lia.
  - destruct (exists_last (l := t :: ts)) as (ini & lst & E); [done|]. rewrite E in *.
    rewrite removelast_last, last_last. apply Forall_app in Hp as [Hi Hl]. apply Forall_singleton in Hl as [Hne Hsl].
    split; [done|]. split; [|split].
    + unfold root_of. destruct (absolute path) eqn:Ea; [done|].
      destruct ini as [|u ini]; [done|]. apply Forall_cons in Hi as [[Hu1 Hu2] _]. simpl.
      destruct u as [|c u]; [done|]. simpl in *. destruct (Ascii.eqb c "/") eqn:Ec; [pose proof (slashes_nonneg u); lia|].
      apply Ascii.eqb_neq in Ec. repeat case_match; try done.
    + rewrite Htok, tokens_join by done. by rewrite decide_False.
    + rewrite strlen_app, join_len, Hroot. rewrite length_app in Hcnt. simpl in Hcnt.
      rewrite total_len_app in Hlen. simpl in Hlen.
      destruct (absolute path); lia.
Qed.

(** The components of a path: what is between its slashes, of which there
    may be any number. *)
Inductive components : string -> list string -> Prop :=
| components_end : components "" []
| components_slash s ts : components s ts -> components (String "/" s) ts
| components_piece t s ts :
    piece t -> (s = ""%string \/ absolute s = true) -> components s ts -> components (t +:+ s)%string (t :: ts).

Lemma absolute_inv s : absolute s = true -> exists s', s = String "/" s'.
Proof. destruct s as [|c s]; [done|]. simpl. repeat case_match; try done. by eexists. Qed.

Lemma tokens_components path ts : components path ts -> tokens path = ts.
Proof.
  induction 1 as [|s ts _ IH|t s ts [Hne Ht] Hs _ IH]; [done|by rewrite tokens_absolute|].
  unfold tokens. rewrite tokens_from_piece by done. change ("" +:+ t)%string with t.
  destruct Hs as [->|[s' ->]%absolute_inv].
  - rewrite <- IH. by destruct t.
  - rewrite tokens_from_String, <- IH, tokens_absolute. by destruct t.
Qed.
Lemma components_join ts : Forall piece ts -> components (join ts) ts.
Proof.
  induction 1 as [|t ts Ht _ IH]; [constructor|]. simpl join. constructor; [done|by right|]. by constructor.
Qed.

(** C30: Functional correctness of split_path_filename: on a path with the
    components [ts], with any number of slashes between, before and behind
    them, the file name is the last component, empty when there is none;
    and the directory is the path of the other components, absolute when
    the path is, with one slash behind each; both together are not longer
    than the path. *)
Theorem split_path_filename_spec path ts :
  components path ts ->
  let dir := (root_of path +:+ join (removelast ts))%string in
  let nm := List.last ts EmptyString in
  split_path_filename path = (dir, nm) /\
  components dir (removelast ts) /\ absolute dir = absolute path /\ strlen dir + strlen nm <= strlen path.
Proof.
  intros Hc%tokens_components dir nm. assert (split_path_filename path = (dir, nm)) as E.
  { rewrite split_eq, Hc. destruct ts; [|done]. unfold dir. simpl. by rewrite string_app_nil_r. }
  pose proof (split_facts path) as Hf. rewrite E in Hf. destruct Hf as (_ & Ha & _ & Hl). split_and!; [done| |done|done].
  destruct (tokens_spec path) as [_ Hp]. rewrite Hc in Hp.
  assert (components (join (removelast ts)) (removelast ts)) as Hj.
  { apply components_join. destruct (decide (ts = [])) as [->|Hne]; [constructor|].
    rewrite (app_removelast_last EmptyString Hne) in Hp. by apply Forall_app in Hp as [Hp _]. }
  unfold dir, root_of. destruct (absolute path); [by constructor|done].
Qed.

(* ------------------------------------------------------------------ *)
(** ** The buffers                                                     *)
(* ------------------------------------------------------------------ *)

Lemma tokens_noslash path : slashes path = 0 -> path <> EmptyString -> tokens path = [path].
Proof.
  intros Hs Hne. rewrite <- (string_app_nil_r path) at 1. unfold tokens. rewrite tokens_from_piece by done.
  simpl. by destruct path.
Qed.

Lemma last_piece_ne path t ts :
  tokens path = t :: ts -> List.last (t :: ts) EmptyString <> EmptyString.
Proof.
  intros E. destruct (tokens_spec path) as [_ Hp]. rewrite E in Hp.
  destruct (exists_last (l := t :: ts)) as (ini & lst & E'); [done|]. rewrite E' in *. rewrite last_last.
  apply Forall_app in Hp as [_ Hp]. by apply Forall_singleton in Hp as [? _].
Qed.

Section buffers.
Context {B : Type} `{!BlockStore B, !CacheControl B}.
Implicit Types s : fs B.

Lemma split_into_eq (n : Z) path s :
  split_into n path s =
  if (strlen (fst (split_path_filename path)) <? n) && (strlen (snd (split_path_filename path)) <? n)
  then Ok (split_path_filename path) s [] else Stuck.
Proof.
  unfold split_into. destruct (split_path_filename path) as [dir nm]. unfold into, bind, need. simpl.
  destruct (strlen dir <? n); [|done]. simpl. by destruct (strlen nm <? n).
Qed.

Lemma create_buffers_fit path s :
  0 < slashes path -> path <> "/"%string -> split_into (strlen path) path s = Ok (split_path_filename path) s [].
Proof.
  intros Hs Hne. pose proof (split_facts path) as Hf. destruct (tokens_spec path) as [Hlen _].
  rewrite split_into_eq. destruct (split_path_filename path) as [d nm] eqn:E. simpl.
  destruct Hf as (_ & _ & Ht & Hle). pose proof (strlen_nonneg d). pose proof (strlen_nonneg nm).
  assert (0 < strlen path) by (pose proof (total_len_nonneg (tokens path)); lia).
  assert (strlen nm < strlen path).
  { rewrite Ht, total_len_app in Hlen. pose proof (total_len_nonneg (tokens d)).
    destruct (decide (nm = EmptyString)) as [->|]; simpl total_len in Hlen;
      [change (strlen EmptyString) with 0|]; lia. }
  assert (strlen d < strlen path).
  { destruct (decide (strlen nm = 0)) as [E0%strlen_0|]; [|lia]. subst. rewrite split_eq in E.
    destruct (tokens path) as [|t ts] eqn:Et; [|injection E as _ E; by destruct (last_piece_ne path t ts Et)].
    injection E as <-. unfold root_of. destruct (absolute path) eqn:Ea; [|by change (strlen EmptyString) with 0].
    destruct path as [|c [|c' p]]; [done| |rewrite !strlen_String; pose proof (strlen_nonneg p); change (strlen EmptyString) with 0; lia].
    exfalso. apply Hne. simpl in Ea. by repeat case_match. }
  by rewrite !(proj2 (Z.ltb_lt _ _)).
Qed.
Lemma open_buffers_fit path s : split_into (strlen path + 1) path s = Ok (split_path_filename path) s [].
Proof.
  pose proof (split_facts path) as Hf.
  rewrite split_into_eq. destruct (split_path_filename path) as [d nm]. simpl.
  destruct Hf as (_ & _ & _ & Hle). pose proof (strlen_nonneg d). pose proof (strlen_nonneg nm).
  by rewrite !(proj2 (Z.ltb_lt _ _)) by lia.
Qed.

(** The two buffers of filesys_create and filesys_remove have as many
    bytes as the path has characters, so both write past the end of one of
    them, whatever the state, for every path without a slash (a plain
    file name) and for the path "/"; for all other paths they are large
    enough.  Those of filesys_open, one byte larger, always are. *)
Theorem path_buffers_one_byte_short s junk path size dir :
  (slashes path = 0 \/ path = "/"%string ->
     filesys_create junk path size dir s = Stuck /\ filesys_remove path s = Stuck) /\
  (0 < slashes path -> path <> "/"%string -> split_into (strlen path) path s = Ok (split_path_filename path) s []) /\
  split_into (strlen path + 1) path s = Ok (split_path_filename path) s [].
Proof.
  split_and!; [|apply create_buffers_fit|apply open_buffers_fit].
  intros H. assert (split_into (strlen path) path s = Stuck) as E.
  { rewrite split_into_eq. destruct H as [H| ->]; [|done].
    destruct (decide (path = EmptyString)) as [->|Hne]; [done|].
    rewrite split_eq, (tokens_noslash path) by done. simpl. rewrite (proj2 (Z.ltb_ge (strlen path) _)) by lia.
    by rewrite andb_false_r. }
  by split; apply bind_Stuck.
Qed.
End buffers.

#[local] Existing Instance Cache.cache_store.

Lemma split_path_filename_spec_witness :
  split_path_filename "/usr//lib/a.txt/" = ("/usr/lib/", "a.txt")%string /\ components "/usr/lib/" ["usr"; "lib"]%string.
Proof.
  assert (forall t, negb (bool_decide (t = ""%string)) && (slashes t =? 0) = true -> piece t) as Hp.
  { intros t [?%negb_true_iff%bool_decide_eq_false_1 ?%Z.eqb_eq]%andb_true_iff. by split. }
  destruct (split_path_filename_spec "/usr//lib/a.txt/" ["usr"; "lib"; "a.txt"]) as (E & H & _).
  - constructor. apply (components_piece "usr"); [by apply Hp|by right|]. do 2 constructor.
    apply (components_piece "lib"); [by apply Hp|by right|]. constructor.
    apply (components_piece "a.txt" "/"); [by apply Hp|by right|]. do 2 constructor.
  - by split.
Defined.

Lemma path_buffers_one_byte_short_witness :
  filesys_create [] "notes.txt" 100 false DemoDisk.session = Stuck /\ filesys_remove "/" DemoDisk.session = Stuck /\
  split_into (strlen "/notes.txt") "/notes.txt" DemoDisk.session = Ok ("/", "notes.txt")%string DemoDisk.session [].
Proof.
  split_and!.
  - eapply (path_buffers_one_byte_short DemoDisk.session [] "notes.txt" 100 false). by left.
  - eapply (path_buffers_one_byte_short DemoDisk.session [] "/" 0 false). by right.
  - destruct (path_buffers_one_byte_short DemoDisk.session [] "/notes.txt" 0 false) as (_ & H & _).
    apply H; [by vm_compute|done].
Defined.
End PathProps.
