(* ===== verification/FileSysProps.v ===== *)
(** * FileSysProps: creating and opening files (filesys.c), from the disk
    up

    [mounted] says that the disk holds a sound file system and that no
    directory is open, as between two commands of the shell; filesys_create
    keeps it, and what it creates filesys_open finds. *)
From S2P Require Import Prelude Bitmap Block Store Cache FsState Inode FileData FreeMap FileProps Dealloc CString Files Directory DemoDisk DirectoryProps DirectoryRemove FileSys PathProps.

Module FileSysProps.
Import Bitmap FsState Inode FileData FreeMap FileProps Dealloc Files Directory DirectoryProps DirectoryRemove
  FileSys PathProps.

Section props.
Context {B : Type} `{!BlockStore B, !CacheControl B}.
Implicit Types (b : B) (s : fs B).

(** Open inodes are in marked sectors. *)
Definition open_marked s : Prop :=
  Forall (fun q => exists ip, inodes s !! q = Some ip /\ bit (free_map s) (sector ip) = true) (open_inodes s).

Lemma not_open_free s sec : open_marked s -> bit (free_map s) sec = false -> not_open s sec.
Proof.
  unfold open_marked, not_open. intros Ho Hb. eapply Forall_impl; [exact Ho|]. intros q (ip & Hq & Hm). exists ip.
  split; [done|]. intros E. subst sec. congruence.
Qed.

(** The root directory has the inode [rd], its entries [es] in [secs]; the
    free map's file is [mip], with the data [msecs].  No sector has two
    uses, and all those in use are marked. *)
Record mounted s (rd : inode_disk) (secs : list Z) (es : list dir_entry)
    (fp : loc) (fl : file) (mip : inode) (msecs : list Z) : Prop := {
  mt_cwd : cwd s = None;
  mt_heap : heap_ok s;
  mt_closed : not_open s ROOT_DIR_SECTOR;
  mt_marked : open_marked s;
  mt_range : in_range (store s) ROOT_DIR_SECTOR;
  mt_root : decode_inode (bs_sector (store s) ROOT_DIR_SECTOR) = rd;
  mt_file : file_ok (store s) rd secs;
  mt_length : length_ rd < 2 ^ 31;
  mt_entries : entries_of (store s) rd secs = es;
  mt_ok : entries_ok es;
  mt_map : free_map_ok s fp fl mip msecs;
  mt_bits : bit_cnt (free_map s) <= bs_size (store s);
  mt_used : allocated (free_map s)
    (ROOT_DIR_SECTOR :: all_sectors (store s) rd secs ++ all_sectors (store s) (data mip) msecs);
  mt_root_off : ROOT_DIR_SECTOR ∉ msecs ++ secs;
  mt_root_map : apart (store s) rd secs msecs;
  mt_map_root : apart (store s) (data mip) msecs secs
}.

Lemma all_sectors_uses b d secs t :
  zlen secs <= MAX_SECTORS -> t ∈ all_sectors b d secs <-> t ∈ secs \/ uses_meta b d (zlen secs) t.
Proof. intros H. unfold all_sectors. rewrite elem_of_app, uses_meta_elem by done. done. Qed.

(* ------------------------------------------------------------------ *)
(** ** The steps of filesys_create                                     *)
(* ------------------------------------------------------------------ *)

(** dir_open_root when no directory is open. *)
Definition root_opened s (rd : inode_disk) b : fs B :=
  set_cwd (Some (Pos.succ (brk s)))
    (set_dirs (<[Pos.succ (brk s) := mkDir (brk s) sizeof_entry 1]> (dirs s))
      (set_brk (Pos.succ (Pos.succ (brk s))) (with_inode s ROOT_DIR_SECTOR b))).

Lemma dir_open_root_wp s rd secs es fp fl mip msecs (Q : ptr -> fs B -> Prop) :
  mounted s rd secs es fp fl mip msecs ->
  (forall b, same_store (store s) b -> Q (Some (Pos.succ (brk s))) (root_opened s rd b)) ->
  wp dir_open_root Q s.
Proof.
  intros [] HQ. unfold dir_open_root. wp_step. wp_step. rewrite mt_cwd0. wp_step.
  pose proof (fm_inv _ _ _ _ _ mt_map0) as Hinv.
  assert (s = set_store (store s) s) as Es by by destruct s.
  rewrite Es. apply open_sector_wp; [done..|by apply same_store_refl|]. intros b Hb.
  unfold dir_open, malloc, set_dir. do 13 wp_step. by apply HQ.
Qed.

(** The root directory that was opened. *)
Lemma root_opened_directory s rd secs es fp fl mip msecs b :
  mounted s rd secs es fp fl mip msecs -> same_store (store s) b ->
  directory (root_opened s rd b) (Pos.succ (brk s)) (mkDir (brk s) sizeof_entry 1)
    (mkInode ROOT_DIR_SECTOR 1 false 0 rd) secs es /\
  free_map_ok (root_opened s rd b) fp fl mip msecs.
Proof.
  intros [] Hb. assert (file_ok b rd secs) as Hf by (eapply file_ok_changes; [by apply same_changes_only|done]).
  destruct (mt_heap0 (brk s)) as (Hfresh & _ & _); [lia|]. split.
  - split; simpl; [apply lookup_insert_eq| | |done].
    + split; simpl; [apply Hb|by rewrite lookup_insert_eq, mt_root0|done..].
    + by rewrite (entries_of_same (store s)).
  - eapply free_map_ok_frame; [exact mt_map0|done..| |apply (same_changes_only _ []); exact Hb|].
    + simpl. rewrite lookup_insert_ne; [apply mt_map0|]. intros E.
      rewrite E, (fm_inode _ _ _ _ _ mt_map0) in Hfresh. done.
    + split; intros t _; apply not_elem_of_nil.
Qed.

(** An empty file or directory: nothing to allocate. *)
Definition empty_disk (dir : bool) : inode_disk :=
  mkInodeDisk (replicate 123 0) 0 0 (if dir then 1 else 0) [0; 0; 0] 0 INODE_MAGIC.

Lemma empty_disk_ok dir : inode_disk_ok (empty_disk dir).
Proof. split; try done; [by apply Forall_replicate|by destruct dir|by repeat constructor]. Qed.

Lemma inode_create_empty_wp s sec dir (Q : bool -> fs B -> Prop) :
  bs_inv (store s) -> in_range (store s) sec ->
  (forall b, changes_only (store s) [sec] b -> decode_inode (bs_sector b sec) = empty_disk dir ->
     Q true (set_store b s)) ->
  wp (inode_create sec 0 dir) Q s.
Proof.
  intros Hinv Hr HQ. pose proof (empty_disk_ok dir) as Hd. unfold inode_create. wp_step. apply wp_assert; [done|].
  wp_step. unfold inode_allocate, inode_reserve. simpl. do 2 wp_step. apply wp_ret. simpl. wp_step.
  fold (empty_disk dir). apply cache_write_wp; [done|done|by rewrite length_encode_inode|by apply encode_inode_u8|].
  intros b Hb Hs. apply wp_ret. apply HQ; [done|]. by rewrite Hs, decode_encode_inode.
Qed.

(* ------------------------------------------------------------------ *)
(** ** The invariant                                                   *)
(* ------------------------------------------------------------------ *)

Section invariant.
Context (fp : loc) (fl : file) (mip : inode) (msecs : list Z).

(** The sectors an operation may write: the two files' own data, and
    sectors that were free. *)
Definition writable s (secs other : list Z) : Prop :=
  forall t, t ∈ other -> t ∈ msecs \/ t ∈ secs \/ bit (free_map s) t = false.

Lemma mounted_metas s rd secs es other :
  mounted s rd secs es fp fl mip msecs -> writable s secs other ->
  (forall t, uses_meta (store s) rd (zlen secs) t -> in_range (store s) t /\ t ∉ other) /\
  (forall t, uses_meta (store s) (data mip) (zlen msecs) t -> in_range (store s) t /\ t ∉ other) /\
  ROOT_DIR_SECTOR ∉ other.
Proof.
  intros [] Hw. pose proof (fm_secs _ _ _ _ _ mt_map0) as Hmf.
  assert (forall t, uses_meta (store s) rd (zlen secs) t -> bit (free_map s) t = true) as H1.
  { intros t Ht. apply mt_used0. right. apply elem_of_app. left. apply all_sectors_uses; [apply mt_file0|by right]. }
  assert (forall t, uses_meta (store s) (data mip) (zlen msecs) t -> bit (free_map s) t = true) as H2.
  { intros t Ht. apply mt_used0. right. apply elem_of_app. right. apply all_sectors_uses; [apply Hmf|by right]. }
  split_and!.
  - intros t Ht. destruct (fo_meta _ _ _ mt_file0 t Ht) as [Hr Hn]. split; [done|].
    intros [Ho|[Ho|Ho]]%Hw; [by apply mt_root_map0 in Ht|done|]. rewrite H1 in Ho; done.
  - intros t Ht. destruct (fo_meta _ _ _ Hmf t Ht) as [Hr Hn]. split; [done|].
    intros [Ho|[Ho|Ho]]%Hw; [done|by apply mt_map_root0 in Ht|]. rewrite H2 in Ho; done.
  - apply not_elem_of_app in mt_root_off0 as [Ha Hb]. intros [Ho|[Ho|Ho]]%Hw; [done..|].
    destruct (mt_used0 ROOT_DIR_SECTOR) as [_ Hbit]; [by left|]. congruence.
Qed.

Lemma apart_off b b' d secs other x :
  changes_only b other b' -> (forall t, uses_meta b d (zlen secs) t -> in_range b t /\ t ∉ other) ->
  apart b d secs x -> apart b' d secs x.
Proof.
  intros Hb Hm [H1 H2]. split; [done|]. intros t Ht. apply H2.
  by apply (uses_meta_changes b b' d (zlen secs) other t Hb).
Qed.

Lemma mounted_update s s' rd secs es es' other :
  mounted s rd secs es fp fl mip msecs ->
  cwd s' = None -> heap_ok s' -> not_open s' ROOT_DIR_SECTOR -> open_marked s' ->
  changes_only (store s) other (store s') -> writable s secs other ->
  entries_of (store s') rd secs = es' -> entries_ok es' -> free_map_ok s' fp fl mip msecs ->
  bit_cnt (free_map s') = bit_cnt (free_map s) ->
  (forall j, bit (free_map s) j = true -> bit (free_map s') j = true) ->
  mounted s' rd secs es' fp fl mip msecs.
Proof.
  intros Hm Hcwd Hheap Hno Hmk Hb Hw He Hok Hmap Hcnt Hbits.
  destruct (mounted_metas _ _ _ _ _ Hm Hw) as (M1 & M2 & M3). destruct Hm.
  assert (forall d l, file_ok (store s) d l ->
    (forall t, uses_meta (store s) d (zlen l) t -> in_range (store s) t /\ t ∉ other) ->
    all_sectors (store s') d l = all_sectors (store s) d l) as Hall.
  { intros d l Hf HM. unfold all_sectors. f_equal. eapply meta_sectors_changes; [done|]. intros Hlt.
    apply HM. by right; left. }
  split; try done.
  - eapply in_range_size; [apply Hb|done].
  - by rewrite (co_sector _ _ _ Hb).
  - eapply file_ok_off_meta; [done| |done]. intros t Ht. by apply M1.
  - rewrite Hcnt, (co_size _ _ _ Hb). done.
  - rewrite !Hall; [|apply mt_map0|done..]. intros t Ht. rewrite Hcnt.
    destruct (mt_used0 t Ht). split; [done|by apply Hbits].
  - by eapply apart_off.
  - by eapply apart_off.
Qed.

(* ------------------------------------------------------------------ *)
(** ** filesys_create                                                  *)
(* ------------------------------------------------------------------ *)

(** A free sector exists: the code takes the first. *)
Lemma allocate_one_wp s (Q : option Z -> fs B -> Prop) :
  free_map_ok s fp fl mip msecs -> (exists j, 0 <= j < bit_cnt (free_map s) /\ bit (free_map s) j = false) ->
  (forall r m b, 0 <= r < bit_cnt (free_map s) -> bit (free_map s) r = false ->
     range_set (free_map s) r 1 true m -> changes_only (store s) msecs b ->
     free_map_ok (set_store b (set_free_map m s)) fp fl mip msecs ->
     on_disk (set_store b (set_free_map m s)) mip msecs ->
     Q (Some r) (set_store b (set_free_map m s))) ->
  wp (allocate 1) Q s.
Proof.
  intros Hok (j & Hj & Hbit) HQ. destruct (fm_wf _ _ _ _ _ Hok) as [Hc _ _].
  unfold allocate, inode_write_at, write_fuel. eapply free_map_allocate_wp; [done|lia| |].
  - intros [(_ & Hr & _)|[_ Hno]]; [unfold BITMAP_ERROR in *; lia|]. exfalso.
    apply (Hno j); [lia..|]. intros i Hi. by replace i with j by lia.
  - intros r m b [(H1 & H2 & H3 & _)|[-> _]] Hne Hm Hb Hok' Hd; [|done].
    apply HQ; [lia|apply H3; lia|done..].
Qed.

(** A free sector is none of the file system's. *)
Lemma free_sector_apart s rd secs es r :
  mounted s rd secs es fp fl mip msecs -> bit (free_map s) r = false ->
  writable s secs (r :: msecs ++ secs) /\ r ∉ secs /\
  apart (store s) rd secs (r :: msecs) /\ apart (store s) (data mip) msecs (r :: secs).
Proof.
  intros Hm Hbit.
  assert (writable s secs (r :: msecs ++ secs)) as Hw.
  { intros t [->|[Ht|Ht]%elem_of_app]%elem_of_cons; auto. }
  destruct (mounted_metas _ _ _ _ _ Hm Hw) as (M1 & M2 & _). destruct Hm.
  assert (forall t, t ∈ secs ++ msecs -> t <> r) as Hne.
  { intros t Ht ->. destruct (mt_used0 r) as [_ Hu]; [|congruence]. right. apply elem_of_app.
    apply elem_of_app in Ht as [Ht|Ht]; [left|right]; apply elem_of_app; by left. }
  split; [done|]. split; [|split; split].
  - intros Ht. by apply (Hne r); [apply elem_of_app; left|].
  - intros t Ht. apply not_elem_of_cons. split; [apply Hne, elem_of_app; by left|by apply (proj1 mt_root_map0)].
  - intros t Ht Hin. apply (M1 t Ht). apply elem_of_cons in Hin as [->|Hin]; [by left|right; apply elem_of_app; by left].
  - intros t Ht. apply not_elem_of_cons. split; [apply Hne, elem_of_app; by right|by apply (proj1 mt_map_root0)].
  - intros t Ht Hin. apply (M2 t Ht). apply elem_of_cons in Hin as [->|Hin]; [by left|right; apply elem_of_app; by right].
Qed.

Lemma filesys_create_wp s rd secs es junk path nm (Q : bool -> fs B -> Prop) :
  mounted s rd secs es fp fl mip msecs ->
  0 < slashes path -> path <> "/"%string -> snd (split_path_filename path) = nm -> good_name nm ->
  dir_map es !! bytes_of nm = None -> (0 < free_slots es)%nat ->
  (exists j, 0 <= j < bit_cnt (free_map s) /\ bit (free_map s) j = false) ->
  (forall sec s' es', 0 <= sec < bit_cnt (free_map s) -> bit (free_map s) sec = false ->
     mounted s' rd secs es' fp fl mip msecs -> dir_map es' = <[bytes_of nm := sec]> (dir_map es) ->
     range_set (free_map s) sec 1 true (free_map s') -> on_disk s' mip msecs ->
     changes_only (store s) (sec :: msecs ++ secs) (store s') ->
     decode_inode (bs_sector (store s') sec) = empty_disk false ->
     inodes s' = inodes s -> open_inodes s' = open_inodes s -> files s' = files s ->
     brk s' = Pos.succ (Pos.succ (brk s)) -> Q true s') ->
  wp (filesys_create junk path 0 false) Q s.
Proof.
  intros Hm Hsl Hpath Hnm Hgood Hnew Hfree Hspace HQ. unfold filesys_create.
  apply wp_bind. unfold wp at 1. rewrite create_buffers_fit by done. split; [done|]. rewrite Hnm.
  wp_step. eapply dir_open_root_wp; [done|]. intros b1 Hb1.
  destruct (root_opened_directory _ _ _ _ _ _ _ _ b1 Hm Hb1) as [Hd2 Hok2].
  set (s2 := root_opened s rd b1) in *. set (q := brk s) in *. set (p := Pos.succ q) in *.
  cbv iota. wp_step. wp_step. apply allocate_one_wp; [done|done|].
  change (free_map s2) with (free_map s). intros r m b2 Hr Hbit Hset Hb2 Hok3 Hd3. cbv iota. set (s3 := set_store b2 (set_free_map m s2)) in *.
  assert (changes_only (store s) (r :: msecs ++ secs) b2) as Hc2.
  { eapply changes_only_trans; [by apply same_changes_only|]. eapply changes_only_mono; [exact Hb2|].
    intros t Ht. right. apply elem_of_app. by left. }
  destruct (free_sector_apart _ _ _ _ r Hm Hbit) as (Hw & Hrs & Ha & Ham).
  assert (in_range b2 r) as Hr2.
  { pose proof (mt_bits _ _ _ _ _ _ _ _ Hm). pose proof (co_size _ _ _ Hc2). unfold in_range. lia. }
  wp_step. apply inode_create_empty_wp; [apply Hc2|exact Hr2|]. intros b3 Hb3 Hdec. simpl negb. cbv iota.
  set (s4 := set_store b3 s3) in *.
  assert (changes_only (store s) (r :: msecs ++ secs) b3) as Hc3.
  { eapply changes_only_trans; [exact Hc2|]. eapply changes_only_mono; [exact Hb3|].
    intros t ->%list_elem_of_singleton. by left. }
  destruct (mounted_metas _ _ _ _ _ Hm Hw) as (M1 & M2 & M3).
  assert (directory s4 p (mkDir q sizeof_entry 1) (mkInode ROOT_DIR_SECTOR 1 false 0 rd) secs es) as Hd4.
  { eapply (directory_frame s2 s4 _ _ _ _ _ (r :: msecs)); [exact Hd2|apply Hd2|apply Hd2| |].
    - eapply changes_only_trans; [eapply changes_only_mono; [exact Hb2|]|eapply changes_only_mono; [exact Hb3|]].
      + intros t Ht. by right.
      + intros t ->%list_elem_of_singleton. by left.
    - eapply (apart_off (store s) _ _ _ []); [by apply same_changes_only| |exact Ha].
      intros t Ht. split; [by apply M1|apply not_elem_of_nil]. }
  wp_step. eapply dir_add_wp; [exact Hd4|done|done| | |].
  { destruct (fm_wf _ _ _ _ _ (mt_map _ _ _ _ _ _ _ _ Hm)) as [Hc _ _]. unfold BITMAP_ERROR in Hc. lia. }
  { intros b _ [x Hx]. congruence. }
  intros _. split; [done|]. intros b4 es' Hb4 Hd5 Hm' _. apply wp_ret. cbv iota beta. simpl andb.
  wp_step. wp_step; [done|]. set (s5 := set_store b4 s4) in *.
  wp_step. eapply (dir_close_wp s5 p (mkDir q sizeof_entry 1) (mkInode ROOT_DIR_SECTOR 1 false 0 rd));
    [apply Hd5|done|apply Hd5|done|done|]. apply wp_ret.
  destruct (mt_heap _ _ _ _ _ _ _ _ Hm q) as (Hfresh & _ & _); [lia|].
  destruct (mt_heap _ _ _ _ _ _ _ _ Hm p) as (_ & _ & Hfresh2); [lia|].
  match goal with |- Q true ?s => set (s6 := s) end.
  assert (inodes s6 = inodes s) as Ei by (simpl; by rewrite delete_insert_id).
  assert (dirs s6 = dirs s) as Ed by (simpl; by rewrite delete_insert_id).
  assert (open_inodes s6 = open_inodes s) as Eo.
  { simpl. rewrite filter_cons_False by naive_solver.
    eapply not_open_filter; [apply (mt_closed _ _ _ _ _ _ _ _ Hm)|done]. }
  assert (changes_only (store s) (r :: msecs ++ secs) b4) as Hc4.
  { eapply changes_only_trans; [exact Hc3|]. eapply changes_only_mono; [exact Hb4|].
    intros t Ht. right. apply elem_of_app. by right. }
  assert (apart b2 (data mip) msecs (r :: secs)) as Ham2 by by eapply apart_off.
  destruct (free_map_ok_frame fp fl mip msecs s3 s6 (r :: secs)) as [Hok6 Hd6]; [exact Hok3|done..| |  |exact Ham2|].
  { rewrite Ei. apply (mt_map _ _ _ _ _ _ _ _ Hm). }
  { eapply changes_only_trans; (eapply changes_only_mono; [eassumption|]); [intros t ->%list_elem_of_singleton; by left|].
    intros t Ht. by right. }
  assert (mounted s6 rd secs es' fp fl mip msecs) as Hm6.
  { eapply (mounted_update s s6); [exact Hm|done| | | |exact Hc4|exact Hw|apply Hd5|apply Hd5|exact Hok6|apply Hset|].
    - intros x Hx. rewrite Ei, Ed. apply (mt_heap _ _ _ _ _ _ _ _ Hm). simpl in Hx. lia.
    - unfold not_open. rewrite Ei, Eo. apply (mt_closed _ _ _ _ _ _ _ _ Hm).
    - unfold open_marked. rewrite Ei, Eo. eapply Forall_impl; [apply (mt_marked _ _ _ _ _ _ _ _ Hm)|].
      intros x (ipx & Hx & Hbx). exists ipx. split; [done|]. destruct Hset as (_ & _ & Hset). simpl. rewrite Hset.
      by case_bool_decide.
    - intros j Hj. destruct Hset as (_ & _ & Hset). simpl. rewrite Hset. by case_bool_decide. }
  apply (HQ r s6 es'); try done; [by apply Hd6|]. simpl.
  rewrite (co_sector _ _ _ Hb4); [exact Hdec|by eapply in_range_size; [apply Hb3|]|exact Hrs].
Qed.

(* ------------------------------------------------------------------ *)
(** ** filesys_open                                                    *)
(* ------------------------------------------------------------------ *)

(** The state after a file was opened: its inode and its handle are new. *)
Definition file_opened s (sec : Z) b : fs B :=
  let q := Pos.succ (Pos.succ (brk s)) in
  set_files (<[Pos.succ q := mkFile q 0 false]> (files s))
    (set_inodes (<[q := mkInode sec 1 false 0 (decode_inode (bs_sector (store s) sec))]> (inodes s))
      (set_store b (set_open_inodes (q :: open_inodes s) (set_brk (Pos.succ (Pos.succ q)) s)))).

Lemma filesys_open_wp s rd secs es path nm sec (Q : ptr -> fs B -> Prop) :
  mounted s rd secs es fp fl mip msecs ->
  snd (split_path_filename path) = nm -> good_name nm -> nm <> "."%string -> nm <> ".."%string ->
  dir_map es !! bytes_of nm = Some sec -> in_range (store s) sec -> not_open s sec -> sec <> ROOT_DIR_SECTOR ->
  (forall b, same_store (store s) b -> Q (Some (Pos.succ (Pos.succ (Pos.succ (brk s))))) (file_opened s sec b)) ->
  wp (filesys_open path) Q s.
Proof.
  intros Hm Hnm Hgood Hdot Hdots Hin Hr Hno Hne HQ. unfold filesys_open.
  pose proof Hgood as [Hnul Hnn _].
  assert (0 < strlen nm) as Hlen.
  { pose proof (strlen_nonneg nm). destruct (decide (strlen nm = 0)) as [E%strlen_0|]; [done|lia]. }
  assert (0 < strlen path) as Hplen.
  { pose proof (split_facts path) as Hf. destruct (split_path_filename path) as [d n]. simpl in Hnm. subst n.
    destruct Hf as (_ & _ & _ & Hf). pose proof (strlen_nonneg d). lia. }
  rewrite (proj2 (Z.eqb_neq _ _)) by lia. apply wp_bind. unfold wp at 1. rewrite open_buffers_fit.
  split; [done|]. rewrite Hnm. wp_step. eapply dir_open_root_wp; [done|]. intros b1 Hb1.
  destruct (root_opened_directory _ _ _ _ _ _ _ _ b1 Hm Hb1) as [Hd2 _].
  set (s2 := root_opened s rd b1) in *. set (q := brk s) in *. set (p := Pos.succ q) in *.
  rewrite (proj2 (Z.ltb_lt _ _)) by done. do 2 wp_step. unfold dir_lookup. wp_step. apply wp_assert; [done|].
  wp_step. wp_step; [done|]. wp_step. eapply get_dir_wp; [apply Hd2|].
  unfold streq. rewrite !bool_decide_eq_false_2 by done. wp_step. eapply lookup_wp; [exact Hd2|done|].
  intros b2 Hb2. pose proof (entry_of_map nm es (mt_ok _ _ _ _ _ _ _ _ Hm)) as Hmap. rewrite Hin in Hmap.
  destruct (entry_of nm es) as [[k e]|]; [|done]. injection Hmap as He. simpl in He. simpl fmap. cbv iota.
  destruct (mt_heap _ _ _ _ _ _ _ _ Hm q) as (Hfresh & _ & _); [lia|].
  destruct (mt_heap _ _ _ _ _ _ _ _ Hm p) as (_ & _ & Hfresh2); [lia|].
  set (q2 := Pos.succ p). assert (same_store (store s) b2) as Hb12 by by eapply same_store_trans.
  rewrite He. wp_step. apply inode_open_wp; [apply Hb2|by eapply in_range_size; [apply Hb12|]| |].
  { apply Forall_cons. split.
    - exists (mkInode ROOT_DIR_SECTOR 1 false 0 rd). split; [|done]. simpl.
      by rewrite lookup_insert_eq, (mt_root _ _ _ _ _ _ _ _ Hm).
    - eapply Forall_impl; [exact Hno|]. intros x (ipx & Hx & Hsx). exists ipx. split; [|done]. simpl.
      rewrite lookup_insert_ne; [done|]. fold q. congruence. }
  intros b3 Hb3. apply wp_ret. wp_step.
  eapply (dir_close_wp _ p (mkDir q sizeof_entry 1) (mkInode ROOT_DIR_SECTOR 1 false 0 rd)); simpl;
    [apply lookup_insert_eq|done| |done|done|].
  { rewrite lookup_insert_ne by (subst q2 p; fold q; lia). by rewrite lookup_insert_eq, (mt_root _ _ _ _ _ _ _ _ Hm). }
  apply wp_ret. unfold inode_is_removed. do 2 wp_step. eapply get_inode_wp.
  { simpl. rewrite lookup_delete_ne by (subst q2 p; fold q; lia). apply lookup_insert_eq. }
  apply wp_ret. simpl. unfold file_open, malloc, set_file. wp_steps.
  specialize (HQ b3 ltac:(by eapply same_store_trans)). revert HQ. unfold file_opened. fold q p q2.
  match goal with |- Q ?r ?x -> Q ?r' ?y => assert (x = y) as -> end; [|done].
  assert (q <> q2 /\ q2 <> q) as [Hq2 Hq3] by (subst q2 p; lia).
  rewrite (ss_sector _ _ Hb12 sec Hr), (delete_insert_id (dirs s)) by done.
  rewrite (delete_insert_ne _ q), delete_insert_id by done.
  rewrite filter_cons_True, filter_cons_False by naive_solver.
  rewrite (not_open_filter s ROOT_DIR_SECTOR q (mt_closed _ _ _ _ _ _ _ _ Hm) Hfresh).
  pose proof (mt_cwd _ _ _ _ _ _ _ _ Hm) as Hcwd. destruct s. simpl in *. by subst.
Qed.

Lemma file_opened_mounted s rd secs es sec b :
  mounted s rd secs es fp fl mip msecs -> bit (free_map s) sec = true -> sec <> ROOT_DIR_SECTOR ->
  same_store (store s) b -> mounted (file_opened s sec b) rd secs es fp fl mip msecs.
Proof.
  intros Hm Hbit Hne Hb. set (q := Pos.succ (Pos.succ (brk s))).
  assert (forall x, inodes s !! x <> None -> q <> x) as Hq.
  { intros x Hx <-. destruct (mt_heap _ _ _ _ _ _ _ _ Hm q) as (Hn & _ & _); [subst q; lia|done]. }
  assert (forall P, Forall (fun x => exists ip, inodes s !! x = Some ip /\ P ip) (open_inodes s) ->
    P (mkInode sec 1 false 0 (decode_inode (bs_sector (store s) sec))) ->
    Forall (fun x => exists ip, inodes (file_opened s sec b) !! x = Some ip /\ P ip) (open_inodes (file_opened s sec b)))
    as Hopen.
  { intros P HP Hnew. apply Forall_cons. split; [by eexists; split; [apply lookup_insert_eq|]|].
    eapply Forall_impl; [exact HP|]. intros x (ip & Hx & HPx). exists ip. split; [|done]. simpl.
    rewrite lookup_insert_ne; [done|]. apply Hq. by rewrite Hx. }
  pose proof (mt_map _ _ _ _ _ _ _ _ Hm) as Hok. pose proof (mt_file _ _ _ _ _ _ _ _ Hm) as Hf.
  eapply (mounted_update s _ _ _ _ _ []); try done.
  - apply Hm.
  - intros x Hx. simpl in Hx |- *. rewrite !lookup_insert_ne by (subst q; lia).
    apply (mt_heap _ _ _ _ _ _ _ _ Hm). lia.
  - apply (Hopen (fun ip => sector ip <> ROOT_DIR_SECTOR)); [apply (mt_closed _ _ _ _ _ _ _ _ Hm)|done].
  - apply (Hopen (fun ip => bit (free_map s) (sector ip) = true)); [apply (mt_marked _ _ _ _ _ _ _ _ Hm)|done].
  - by apply same_changes_only.
  - by intros t ?%elem_of_nil.
  - simpl. rewrite (entries_of_same (store s)) by done. apply Hm.
  - apply Hm.
  - destruct Hok. split; simpl; try done; [apply Hb| | |].
    + rewrite lookup_insert_ne; [done|]. intros E. fold q in E.
      destruct (mt_heap _ _ _ _ _ _ _ _ Hm fp) as (_ & Hn & _); [subst q; lia|congruence].
    + rewrite lookup_insert_ne; [done|]. apply Hq. congruence.
    + eapply file_ok_changes; [by apply same_changes_only|done].
Qed.
End invariant.

(** Creating and then opening a file, from the disk up: when the name
    is not in the root directory, which has an unused entry, and a sector
    is free, filesys_create succeeds and filesys_open then gives a handle
    at position 0 on an inode of length 0 in a sector that was free; that
    sector is now marked, and no other; the directory stands for the map
    with the name added; and the file system is sound again, with its free
    map on disk, so that the next command finds it as this one did. *)
Theorem create_then_open s rd secs es fp fl mip msecs junk path nm :
  mounted s rd secs es fp fl mip msecs ->
  0 < slashes path -> path <> "/"%string -> snd (split_path_filename path) = nm ->
  good_name nm -> nm <> "."%string -> nm <> ".."%string ->
  dir_map es !! bytes_of nm = None -> (0 < free_slots es)%nat ->
  (exists j, 0 <= j < bit_cnt (free_map s) /\ bit (free_map s) j = false) ->
  wp (let! ok := filesys_create junk path 0 false in
      let! f := filesys_open path in ret (ok, f))
     (fun '(ok, f) s' => ok = true /\ exists p q sec es',
        f = Some p /\ files s' !! p = Some (mkFile q 0 false) /\
        inodes s' !! q = Some (mkInode sec 1 false 0 (empty_disk false)) /\
        0 <= sec < bit_cnt (free_map s) /\ bit (free_map s) sec = false /\
        range_set (free_map s) sec 1 true (free_map s') /\ mounted s' rd secs es' fp fl mip msecs /\ dir_map es' = <[bytes_of nm := sec]> (dir_map es)) s.
Proof.
  intros Hm Hsl Hpath Hnm Hgood Hdot Hdots Hnew Hfree Hspace. wp_step.
  eapply (filesys_create_wp fp fl mip msecs); [done..|].
  intros sec s1 es1 Hsec Hbit Hm1 Hmap Hset Hd1 _ Hdec Hi Ho Hfs Hbrk.
  assert (bit (free_map s1) sec = true) as Hbit1.
  { destruct Hset as (_ & _ & Hb). by rewrite Hb, bool_decide_eq_true_2 by lia. }
  assert (sec <> ROOT_DIR_SECTOR) as Hne.
  { intros ->. destruct (mt_used _ _ _ _ _ _ _ _ Hm ROOT_DIR_SECTOR) as [_ Hu]; [by left|congruence]. }
  assert (in_range (store s1) sec) as Hr.
  { pose proof (mt_bits _ _ _ _ _ _ _ _ Hm1) as Hb. destruct Hset as (_ & Hc & _). unfold in_range. lia. }
  wp_step. eapply (filesys_open_wp fp fl mip msecs s1 rd secs es1 path nm sec); try done.
  { rewrite Hmap. apply lookup_insert_eq. }
  { unfold not_open. rewrite Ho, Hi. by apply not_open_free; [apply (mt_marked _ _ _ _ _ _ _ _ Hm)|]. }
  intros b Hb. apply wp_ret. split; [done|].
  exists (Pos.succ (Pos.succ (Pos.succ (brk s1)))), (Pos.succ (Pos.succ (brk s1))), sec, es1.
  split_and!; [done|apply lookup_insert_eq| |lia|lia|done|done|by apply file_opened_mounted|done].
  simpl. rewrite lookup_insert_eq. by rewrite Hdec.
Qed.
End props.

(* ------------------------------------------------------------------ *)
(** ** Witness                                                         *)
(* ------------------------------------------------------------------ *)

#[local] Existing Instance Cache.cache_store.

(** The demonstration disk between two commands. *)
Definition idle : fs Cache.cache :=
  mkFs Cache.cache DemoDisk.disk (mkBitmap 10 [511]) (Some 1%positive) [2%positive]
       {[2%positive := DemoDisk.map_inode]} {[1%positive := mkFile 2 0 false]} ∅ None [] 9.

Lemma idle_mounted : mounted idle DemoDisk.root_disk [3] DemoDisk.root_entries 1 (mkFile 2 0 false) DemoDisk.map_inode [2].
Proof.
  assert (forall d l other, Forall (fun t => t ∉ other) l -> zlen l <= 123 -> apart DemoDisk.disk d l other) as Ha.
  { intros d l other Hl Hlen. split; [by apply Forall_forall|].
    intros t [[? _]|[[? _]|(j & ? & ? & _)]]; lia. }
  split; try done.
  - intros q Hq. simpl in Hq. unfold idle. simpl. by rewrite !lookup_singleton_ne by lia.
  - apply Forall_singleton. by exists DemoDisk.map_inode.
  - apply Forall_singleton. by exists DemoDisk.map_inode.
  - apply DemoDisk.root_file_ok.
  - apply root_entries_ok.
  - split; try done; [apply DemoDisk.disk_inv|split; [done|by vm_compute|by repeat constructor]|apply DemoDisk.map_file_ok].
  - apply allocated_dec. by vm_compute.
  - apply (bool_decide_unpack _). by vm_compute.
  - apply Ha; [|done]. apply (bool_decide_unpack _). by vm_compute.
  - apply Ha; [|done]. apply (bool_decide_unpack _). by vm_compute.
Qed.

Lemma create_then_open_witness :
  wp (let! ok := filesys_create (replicate 31 0) "/b" 0 false in
      let! f := filesys_open "/b" in ret (ok, f))
     (fun '(ok, f) s' => ok = true /\ exists p q, f = Some p /\ files s' !! p = Some (mkFile q 0 false) /\
        inodes s' !! q = Some (mkInode 9 1 false 0 (empty_disk false))) idle.
Proof.
  eapply wp_mono.
  { apply (create_then_open idle DemoDisk.root_disk [3] DemoDisk.root_entries 1 (mkFile 2 0 false) DemoDisk.map_inode [2]
             (replicate 31 0) "/b" "b"); try done.
    - apply idle_mounted.
    - split; [apply (bool_decide_unpack _); by vm_compute|done|done].
    - apply Nat.ltb_lt. by vm_compute.
    - exists 9. split; [done|by vm_compute]. }
  intros [ok f] s' (-> & p & q & sec & es' & -> & Hf & Hi & Hr & Hbit & _). split; [done|]. exists p, q.
  split; [done|]. split; [done|]. rewrite Hi. do 2 f_equal.
  assert (sec ∈ seqZ 0 10) as Hin by (apply elem_of_seqZ; simpl in Hr; lia).
  assert (Forall (fun i => bit (free_map idle) i = true \/ i = 9) (seqZ 0 10)) as Hall.
  { repeat constructor; (by left; vm_compute) || by right. }
  rewrite Forall_forall in Hall. destruct (Hall sec Hin) as [E|E]; [congruence|done].
Defined.
End FileSysProps.
