(* ===== verification/Format.v ===== *)
(** * Format: formatting a disk, which makes a file system that is sound

    filesys_init with [format] set, on any disk whose free map fits the
    direct blocks of an inode (246 MB): its result satisfies [mounted],
    the hypothesis of the theorems on commands. *)
From S2P Require Import Prelude Bitmap Block Store Cache FsState Inode FileData FreeMap FileProps Dealloc Grow CString Files FilesProps Directory DemoDisk Extend DirectoryProps DirectoryRemove FileSys PathProps FileSysProps.

Module Format.
Import Bitmap FsState Inode FileData FreeMap FileProps Dealloc Grow Files FilesProps Directory Extend DirectoryProps
  DirectoryRemove FileSys PathProps FileSysProps.

(** Computes the fields of a state that was made by setting fields. *)
Ltac set_fields :=
  cbv beta iota delta [set_store set_free_map set_free_map_file set_open_inodes set_inodes set_files set_dirs set_cwd
    set_file_table set_brk store free_map free_map_file open_inodes inodes files dirs cwd file_table brk].

Lemma filter_others (p : loc) (l : list loc) : p ∉ l -> filter (fun q => q <> p) l = l.
Proof.
  induction l as [|q l IH]; intros Hp; [done|]. apply not_elem_of_cons in Hp as [Hq Hp].
  by rewrite filter_cons, decide_True, IH by done.
Qed.

Section props.
Context {B : Type} `{!BlockStore B, !CacheControl B}.
Implicit Types (b : B) (s : fs B).

(* ------------------------------------------------------------------ *)
(** ** The free map in memory                                          *)
(* ------------------------------------------------------------------ *)

(** A free map of [n] bits of which those of the two fixed inodes are set. *)
Record initial_map (m : bitmap) (n : Z) : Prop := {
  im_wf : Bitmap.wf m;
  im_cnt : bit_cnt m = n;
  im_bits : forall j, 0 <= j < n -> bit m j = bool_decide (j < 2);
  im_free : free_count m = n - 2
}.

Lemma free_map_init_marks n s (Q : unit -> fs B -> Prop) :
  2 < n < BITMAP_ERROR -> (forall m, initial_map m n -> Q tt (set_free_map m s)) ->
  wp (free_map_init (n + 1)) Q s.
Proof.
  intros Hn HQ. unfold free_map_init. wp_step. unfold u32. unfold BITMAP_ERROR in Hn. rewrite Z.add_simpl_r, Z.mod_small by lia.
  apply bitmap_create_wp; [unfold BITMAP_ERROR; lia|]. intros m Hm Hc Hrun.
  do 2 wp_step. unfold on_free_map, FREE_MAP_SECTOR, ROOT_DIR_SECTOR. wp_step. wp_step.
  assert (bit m 0 = false) as B0 by (apply Hrun; lia). assert (bit m 1 = false) as B1 by (apply Hrun; lia).
  apply bitmap_mark_wp; [done|simpl; lia|]. intros m1 Hm1. apply marked_one in Hm1; [|done|simpl; lia|done].
  pose proof (mk_cnt _ _ _ Hm1) as C1. simpl in C1. wp_step. simpl.
  apply bitmap_mark_wp; [apply Hm1|lia|]. intros m2 Hm2.
  apply marked_one in Hm2; [|apply Hm1|lia|rewrite (mk_bits _ _ _ Hm1); exact B1].
  pose proof (marked_trans _ _ _ _ _ Hm1 Hm2) as Hm12. apply HQ. split.
  - apply Hm12.
  - rewrite (mk_cnt _ _ _ Hm12). exact Hc.
  - intros j Hj. rewrite (mk_bits _ _ _ Hm12). simpl. rewrite (Hrun j) by lia. rewrite orb_false_r.
    apply bool_decide_ext. rewrite !elem_of_cons, elem_of_nil. lia.
  - rewrite (mk_count _ _ _ Hm12). simpl. unfold free_count. rewrite count_bits_run; [simpl in Hc; lia|].
    intros j Hj. apply Hrun. simpl in Hc. lia.
Qed.

(* ------------------------------------------------------------------ *)
(** ** The first file, before the free map has one                     *)
(* ------------------------------------------------------------------ *)

(** Nothing is written but the bit in memory. *)
Lemma allocate_unmapped_wp write_at s (Q : option Z -> fs B -> Prop) :
  free_map_file s = None -> Bitmap.wf (free_map s) -> 0 < free_count (free_map s) ->
  (forall t m, marked (free_map s) [t] m -> Q (Some t) (set_free_map m s)) ->
  wp (free_map_allocate write_at 1) Q s.
Proof.
  intros Hf Hw Hc HQ. pose proof (wf_cnt _ Hw) as Hcnt. unfold free_map_allocate, on_free_map. wp_steps.
  apply bitmap_scan_and_flip_wp; [done|lia|done| |].
  - intros r Hr ->. by destruct (first_run_free _ _ Hw Hc Hr).
  - intros r m Hr Hne Hm. destruct (first_run_free _ _ Hw Hc Hr) as (_ & H1 & H2). wp_steps.
    unfold u32. rewrite Z.mod_small by (unfold BITMAP_ERROR in *; lia).
    rewrite (proj2 (Z.eqb_neq r _)) by done. simpl. rewrite Hf. simpl.
    wp_steps. rewrite (proj2 (Z.eqb_neq r _)) by done. by apply HQ, marked_one.
Qed.

(** An inode with the direct blocks [secs]. *)
Definition disk_of (secs : list Z) (len : Z) (dir : bool) : inode_disk :=
  mkInodeDisk (secs ++ replicate (123 - length secs) 0) 0 0 (if dir then 1 else 0) [0; 0; 0] len INODE_MAGIC.

Lemma disk_of_snoc secs t len dir :
  zlen secs < 123 ->
  set_direct (disk_of secs len dir) (<[length secs := t]> (secs ++ replicate (123 - length secs) 0)) = disk_of (secs ++ [t]) len dir.
Proof.
  intros Hl. unfold disk_of, set_direct. simpl. f_equal. rewrite length_app. simpl.
  replace (123 - length secs)%nat with (S (123 - (length secs + 1))) by lia.
  replace (length secs) with (length secs + 0)%nat at 1 by lia. rewrite insert_app_r. simpl. by rewrite <- app_assoc.
Qed.

Lemma reserve_unmapped_wp write_at s len dir (Q : bool * inode_disk -> fs B -> Prop) :
  let n := bytes_to_sectors len in
  bs_inv (store s) -> bit_cnt (free_map s) <= bs_size (store s) ->
  free_map_file s = None -> Bitmap.wf (free_map s) -> 0 <= len -> 0 <= n <= 123 -> n <= free_count (free_map s) ->
  (forall secs m b, marked (free_map s) secs m -> zlen secs = n -> changes_only (store s) secs b ->
     (forall t, t ∈ secs -> bs_sector b t = zeros) -> Q (true, disk_of secs len dir) (set_store b (set_free_map m s))) ->
  wp (inode_reserve write_at (disk_of [] len dir) len) Q s.
Proof.
  intros n Hinv Hsize Hf Hw Hlen Hn Hfree HQ. unfold inode_reserve. rewrite (proj2 (Z.ltb_ge _ _)) by lia. fold n.
  unfold DIRECT_BLOCKS_COUNT. assert (min n 123 = n) as -> by (unfold min; case_match; lia). wp_step.
  eapply (wp_for_ret (fun i d s' => exists secs m b, d = disk_of secs len dir /\ s' = set_store b (set_free_map m s) /\
    zlen secs = i /\ marked (free_map s) secs m /\ changes_only (store s) secs b /\
    forall t, t ∈ secs -> bs_sector b t = zeros)).
  - exists [], (free_map s), (store s). split_and!; [done|by destruct s|done|by apply marked_refl|by apply changes_only_refl|].
    by intros t ?%not_elem_of_nil.
  - intros i d s' Hi (secs & m & b & -> & -> & Hl & Hm & Hb & Hz).
    assert (zget (direct_blocks (disk_of secs len dir)) i = Some 0) as Hx.
    { simpl. rewrite zget_app, bool_decide_eq_false_2 by lia. rewrite zget_lookup by lia. apply lookup_replicate. split; [done|lia]. }
    wp_step. eapply wp_need; [exact Hx|]. simpl. wp_step.
    apply allocate_unmapped_wp; [done|apply Hm|pose proof (mk_count _ _ _ Hm) as E; cbn; rewrite E; lia|]. intros t m' Hm'. simpl in Hm'.
    assert (0 <= t < bit_cnt (free_map s)) as Hr.
    { rewrite <- (mk_cnt _ _ _ Hm). apply (mk_free _ _ _ Hm'). by left. }
    assert (in_range b t) as Hrb by (unfold in_range; rewrite (co_size _ _ _ Hb); lia).
    wp_step. eapply wp_need; [apply zset_Some; pose proof (zget_range _ _ _ Hx); exact H|]. wp_step.
    apply cache_write_wp; [apply Hb|exact Hrb|done|by apply Forall_replicate|]. intros b' Hb' Hz'.
    apply wp_ret. exists (secs ++ [t]), m', b'. split_and!.
    + rewrite <- Hl, Nat2Z.id. apply disk_of_snoc. lia.
    + done.
    + rewrite zlen_app. simpl. lia.
    + by eapply marked_trans.
    + eapply changes_only_trans; (eapply changes_only_mono; [eassumption|]); intros u Hu; apply elem_of_app; auto.
    + intros u [Hu|Hu]%elem_of_app; [|by apply list_elem_of_singleton in Hu as ->].
      rewrite (co_sector _ _ _ Hb'); [by apply Hz| |].
      * destruct (mk_free _ _ _ Hm u Hu). unfold in_range. cbn. rewrite (co_size _ _ _ Hb). lia.
      * rewrite list_elem_of_singleton. intros ->. destruct (mk_free _ _ _ Hm' t) as [_ Hbt]; [by left|].
        rewrite (mk_bits _ _ _ Hm), bool_decide_eq_true_2 in Hbt by done. done.
  - intros d s' (secs & m & b & -> & -> & Hl & Hm & Hb & Hz). rewrite Z.sub_diag. simpl. apply wp_ret.
    apply HQ; [done|lia|done|done].
Qed.

Lemma disk_of_ok secs len dir :
  zlen secs <= 123 -> Forall (fun t => 0 <= t < 2 ^ 32) secs -> 0 <= len < 2 ^ 31 -> inode_disk_ok (disk_of secs len dir).
Proof.
  intros Hl Hs Hlen. split; simpl; try done; [|apply Forall_app; split; [done|by apply Forall_replicate]|by destruct dir| |lia].
  - rewrite length_app, length_replicate. lia.
  - split; [done|by repeat constructor].
Qed.

Lemma few_metas b d n t : n <= 123 -> ~ uses_meta b d n t.
Proof. intros Hn [[? _]|[[? _]|(k & ? & ? & _)]]; lia. Qed.

Lemma disk_of_file_ok b secs len dir :
  zlen secs = bytes_to_sectors len -> 0 <= len -> zlen secs <= 123 -> Forall (in_range b) secs -> NoDup secs ->
  file_ok b (disk_of secs len dir) secs.
Proof.
  intros H1 H2 H3 H4 H5. split; try done; [unfold MAX_SECTORS; lia| |].
  - intros i t Hi. pose proof (zget_range _ _ _ Hi). unfold sector_of. rewrite (proj2 (Z.ltb_lt _ _)) by lia. simpl.
    by rewrite zget_app, bool_decide_eq_true_2 by lia.
  - intros t Ht. by apply few_metas in Ht.
Qed.

Lemma marked_in_range m secs m' b : marked m secs m' -> bit_cnt m <= bs_size b -> Forall (in_range b) secs.
Proof. intros Hm Hb. apply Forall_forall. intros t Ht. destruct (mk_free _ _ _ Hm t Ht). unfold in_range. lia. Qed.
Lemma marked_words m secs m' : Bitmap.wf m -> marked m secs m' -> Forall (fun t => 0 <= t < 2 ^ 32) secs.
Proof.
  intros Hw Hm. apply Forall_forall. intros t Ht. destruct (mk_free _ _ _ Hm t Ht). pose proof (wf_cnt _ Hw).
  unfold BITMAP_ERROR in *. lia.
Qed.
Lemma marked_apart m secs m' t : marked m secs m' -> bit m t = true -> t ∉ secs.
Proof. intros Hm Hb Ht. destruct (mk_free _ _ _ Hm t Ht). congruence. Qed.

Lemma create_unmapped_wp s sec len dir (Q : bool -> fs B -> Prop) :
  let n := bytes_to_sectors len in
  bs_inv (store s) -> bit_cnt (free_map s) <= bs_size (store s) ->
  free_map_file s = None -> Bitmap.wf (free_map s) -> 0 <= len < 2 ^ 31 -> 0 <= n <= 123 -> n <= free_count (free_map s) ->
  in_range (store s) sec -> bit (free_map s) sec = true ->
  (forall secs m b, marked (free_map s) secs m -> zlen secs = n -> changes_only (store s) (sec :: secs) b ->
     bs_sector b sec = encode_inode (disk_of secs len dir) -> Q true (set_store b (set_free_map m s))) ->
  wp (inode_create sec len dir) Q s.
Proof.
  intros n Hinv Hsize Hf Hw Hlen Hn Hfree Hr Hbit HQ. unfold inode_create. wp_step. apply wp_assert; [apply Z.leb_le; lia|].
  wp_step. change (mkInodeDisk (replicate 123 0) 0 0 _ _ _ _) with (disk_of [] len dir). unfold inode_allocate.
  change (length_ (disk_of [] len dir)) with len.
  apply reserve_unmapped_wp; [done..|lia|done|done|]. intros secs m b Hm Hl Hb Hz. wp_step.
  pose proof (marked_words _ _ _ Hw Hm) as Hwords. fold n in Hl.
  pose proof (disk_of_ok secs len dir ltac:(lia) Hwords Hlen) as Hok.
  apply cache_write_wp; [apply Hb|by eapply in_range_size; [apply Hb|]|by rewrite length_encode_inode|by apply encode_inode_u8|].
  intros b' Hb' Hs. apply wp_ret. eapply HQ; [exact Hm|done| |exact Hs].
  eapply changes_only_trans; (eapply changes_only_mono; [eassumption|]); intros t.
  - by right.
  - intros ->%list_elem_of_singleton. by left.
Qed.

(* ------------------------------------------------------------------ *)
(** ** free_map_create                                                 *)
(* ------------------------------------------------------------------ *)

(** The free map's inode and file, opened at [brk s]. *)
Definition map_inode_of (secs : list Z) (cnt : Z) : inode := mkInode FREE_MAP_SECTOR 1 false 0 (disk_of secs (byte_cnt cnt) false).
Definition map_opened s (ip : inode) (m : bitmap) b : fs B :=
  mkFs B b m (Some (Pos.succ (brk s))) [brk s] (<[brk s := ip]> (inodes s))
    (<[Pos.succ (brk s) := mkFile (brk s) 0 false]> (files s)) (dirs s) (cwd s) (file_table s) (Pos.succ (Pos.succ (brk s))).

(** A disk on which nothing is open, whose map fits the direct blocks. *)
Record startable s (n : Z) : Prop := {
  sa_inv : bs_inv (store s);
  sa_size : n <= bs_size (store s);
  sa_map : initial_map (free_map s) n;
  sa_open : open_inodes s = [];
  sa_heap : heap_ok s;
  sa_cnt : 2 < n < BITMAP_ERROR;
  sa_sectors : bytes_to_sectors (byte_cnt n) <= 123
}.

Lemma map_bytes n : 2 < n < BITMAP_ERROR ->
  0 < byte_cnt n < 2 ^ 30 /\ i32 (byte_cnt n) = byte_cnt n /\ 0 <= bytes_to_sectors (byte_cnt n).
Proof.
  intros Hn. destruct (byte_cnt_val n) as [_ Hb]; [lia|]. split; [done|]. split.
  - unfold i32. rewrite Z.mod_small; lia.
  - rewrite bytes_to_sectors_val by lia. apply Z.div_pos; lia.
Qed.

Lemma map_opened_ok s n secs m b :
  2 < n < BITMAP_ERROR -> bit_cnt m = n -> n <= bs_size b -> bs_inv b -> Bitmap.wf m -> zlen secs = bytes_to_sectors (byte_cnt n) ->
  zlen secs <= 123 -> Forall (in_range b) secs -> NoDup secs ->
  let mip := map_inode_of secs n in
  free_map_ok (map_opened s mip m b) (Pos.succ (brk s)) (mkFile (brk s) 0 false) mip secs.
Proof.
  intros Hn Hc Hs Hinv Hw Hl Hl' Hr Hnd mip. destruct (map_bytes n Hn) as (H1 & _ & _).
  split; simpl; try done; [lia|apply lookup_insert_eq..| |by rewrite Hc].
  apply disk_of_file_ok; [done|lia|done|done|done].
Qed.

Lemma free_map_create_wp s n (Q : unit -> fs B -> Prop) :
  startable s n -> free_map_file s = None -> bytes_to_sectors (byte_cnt n) <= n - 2 ->
  (forall secs m b, let mip := map_inode_of secs n in let s' := map_opened s mip m b in
     ground (Pos.succ (brk s)) (mkFile (brk s) 0 false) mip secs s' -> on_disk s' mip secs ->
     marked (free_map s) secs m -> zlen secs = bytes_to_sectors (byte_cnt n) -> bs_size b = bs_size (store s) ->
     bs_sector b FREE_MAP_SECTOR = encode_inode (data mip) -> Q tt s') ->
  wp free_map_create Q s.
Proof.
  intros [Hinv Hsize [Hw Hc Hbits Hfree] Hopen Hheap Hn Hsec] Hf Hspace HQ. destruct (map_bytes n Hn) as (H1 & H2 & H3).
  assert (in_range (store s) FREE_MAP_SECTOR) as Hr0 by (unfold in_range, FREE_MAP_SECTOR; lia).
  assert (bit (free_map s) FREE_MAP_SECTOR = true) as Hb0.
  { unfold FREE_MAP_SECTOR. rewrite Hbits by lia. by apply bool_decide_eq_true_2. }
  unfold free_map_create, on_free_map, bitmap_file_size. wp_steps. rewrite Hc, H2.
  apply create_unmapped_wp; [done|simpl; lia|done|done|lia|lia|simpl; lia|done|done|].
  intros secs m b Hm Hl Hb Hs. simpl in Hm. cbn [negb when]. do 3 wp_step.
  apply inode_open_wp; [apply Hb|by eapply in_range_size; [apply Hb|]|simpl; unfold not_open; simpl; rewrite Hopen; by apply Forall_nil|].
  intros b1 Hb1. unfold file_open, malloc, set_file. wp_steps.
  rewrite Hs, decode_encode_inode by (apply disk_of_ok; [lia|by eapply marked_words|lia]).
  set (mip := map_inode_of secs n). unfold inode_write_at, write_fuel.
  assert (bit_cnt m = n) as Hcm by (by rewrite (mk_cnt _ _ _ Hm)).
  assert (same_store b b1) as Hb1' by exact Hb1.
  assert (bs_size b1 = bs_size (store s)) as Hs1 by (by rewrite (ss_size _ _ Hb1'), (co_size _ _ _ Hb)).
  assert (Forall (in_range b1) secs) as Hr1 by (eapply marked_in_range; [exact Hm|lia]).
  pose proof (mk_nodup _ _ _ Hm) as Hnd.
  match goal with |- wp _ _ ?st => assert (st = set_free_map m (map_opened s mip m b1)) as -> end.
  { unfold map_opened. by rewrite Hopen. }
  change (Some (Pos.succ (brk s))) with (free_map_file (map_opened s mip m b1)).
  eapply bitmap_write_wp; [apply (map_opened_ok s n secs m b1); (done || lia || by apply Hb1' || by apply Hm)|by apply Hm|done|].
  intros b2 Hb2 Hok Hd. cbn [negb when]; apply wp_ret. simpl in Hb2.
  assert (forall t, t ∈ secs -> bit m t = true) as Hbits2.
  { intros t Ht. by rewrite (mk_bits _ _ _ Hm), bool_decide_eq_true_2. }
  apply (HQ secs m b2); [|exact Hd|done|done|by rewrite (co_size _ _ _ Hb2)|].
  - split; simpl; [exact Hok|rewrite (co_size _ _ _ Hb2); lia|by eapply marked_keep|done|].
    intros t Ht. apply few_metas in Ht; [done|lia].
  - rewrite (co_sector _ _ _ Hb2); [|unfold in_range, FREE_MAP_SECTOR; lia|by eapply marked_apart].
    rewrite (ss_sector _ _ Hb1'); [exact Hs|unfold in_range, FREE_MAP_SECTOR]. rewrite (co_size _ _ _ Hb). simpl. lia.
Qed.

(* ------------------------------------------------------------------ *)
(** ** The root directory                                              *)
(* ------------------------------------------------------------------ *)

Definition blank_entry : dir_entry := mkEntry 0 (replicate 31 0) 0.
Definition self_entry : dir_entry := mkEntry ROOT_DIR_SECTOR (replicate 31 0) 1.
Definition blank_root : list dir_entry := self_entry :: replicate 999 blank_entry.

Lemma blank_entries n : dir_entries (replicate (36 * n) 0) = replicate n blank_entry.
Proof.
  apply zlist_eq_range; [rewrite zlen_dir_entries, !length_replicate; Z.to_euclidean_division_equations; lia|].
  intros i Hi. rewrite zlen_dir_entries, length_replicate in Hi. rewrite zget_dir_entries by lia.
  assert (0 <= i < Z.of_nat n) as Hn by (Z.to_euclidean_division_equations; lia).
  assert (slice (replicate (36 * n) 0) (36 * i) 36 = replicate 36 0) as ->.
  { unfold slice. rewrite drop_replicate, take_replicate. f_equal. lia. }
  rewrite zget_lookup, lookup_replicate_2 by lia. done.
Qed.

Lemma blank_root_ok : entries_ok blank_root /\ dir_map blank_root = ∅ /\ free_slots blank_root = 999%nat.
Proof.
  assert (forall n, live (replicate n blank_entry) = []) as Hl by by induction n.
  assert (live (tail blank_root) = []) as Ht by apply Hl.
  split; [split|split].
  - by exists self_entry, (replicate 999 blank_entry).
  - rewrite Ht. by apply Forall_nil.
  - rewrite Ht. by apply NoDup_nil_2.
  - unfold dir_map, bindings. by rewrite Ht.
  - by vm_compute.
Qed.

Section with_map.
Context (fp : loc) (fl : file) (mip : inode) (msecs : list Z).
Notation ground := (ground fp fl mip msecs).
Notation mine := (mine mip msecs).
Notation sound := (sound mip msecs).
Notation grown := (grown fp fl mip msecs).

(** A new inode, with its sectors reserved and cleared, and written to its
    own sector [sec]. *)
Lemma create_wp s sec len dir (Q : bool -> fs B -> Prop) :
  let m := bytes_to_sectors len in
  ground s -> mine s [sec] -> 0 <= len < 2 ^ 31 -> 0 <= m <= 123 ->
  sectors_for m <= free_count (free_map s) ->
  (forall secs news d s', grown s news [sec] s' -> sound s' d secs -> zlen secs = m -> zlen news = sectors_for m ->
     inode_disk_ok d -> same_fields (disk_of [] len dir) d -> bs_sector (store s') sec = encode_inode d ->
     secs ⊆ news -> (forall t, t ∈ secs -> bs_sector (store s') t = zeros) -> Q true s') ->
  wp (inode_create sec len dir) Q s.
Proof.
  intros m Hg Hsec Hlen Hm Hfree HQ. unfold inode_create. wp_step. apply wp_assert; [apply Z.leb_le; lia|].
  wp_step. change (mkInodeDisk (replicate 123 0) 0 0 _ _ _ _) with (disk_of [] len dir). unfold inode_allocate.
  change (length_ (disk_of [] len dir)) with len. unfold inode_write_at, write_fuel.
  assert (mine s []) as Hnil by by eapply mine_sub; [exact Hsec|]; intros t ?%not_elem_of_nil.
  destruct (direct_sound mip msecs s (disk_of [] len dir) []) as [Hs Em]; [done..|exact Hnil|apply NoDup_nil_2|].
  destruct (sound_sectors _ _ _ _ _ Hs) as [Hm0 Hn0].
  apply (inode_reserve_wp fp fl mip msecs 2 s _ [] len); [exact Hg|exact Hs|lia|fold m; simpl; unfold MAX_SECTORS; lia| |].
  { fold m. change (sectors_for (zlen [])) with 0. lia. }
  intros secs news s1 d G1 S1 L1 C1. cbn [app] in S1, L1. change (sectors_for (zlen [])) with 0 in C1. fold m in L1, C1.
  destruct (gained_sectors fp fl mip msecs _ _ _ _ _ _ _ Hg Hm0 Hn0 G1) as [Hm1 Hn1]. cbn [app] in Hm1, Hn1.
  destruct G1 as [G1 F1 P1 Z1]. rewrite Em in P1, G1. cbn [app] in P1.
  pose proof (grown_ground _ _ _ _ _ _ _ _ G1) as Hg1. pose proof (grown_mine _ _ _ _ _ _ _ _ _ G1 Hsec) as Hsec1.
  destruct (sound_entries _ _ _ _ _ _ _ Hg1 S1) as (W1 & W2 & W3).
  assert (inode_disk_ok d) as Hok.
  { destruct F1 as [F1 F2 F3 F4]. split; simpl; try done; [pose proof (sh_direct _ _ _ _ _ _ _ S1); lia|rewrite F1; by destruct dir| |rewrite F3; simpl; lia|by rewrite F4].
    rewrite F2. split; [done|by repeat constructor]. }
  cbn [fst snd]. wp_step.
  eapply write_own_wp; [exact Hg1|exact Hsec1|by rewrite length_encode_inode|by apply encode_inode_u8|].
  intros s2 G2 Hb2. apply wp_ret.
  assert (forall t, t ∈ secs ++ metas (store s1) d -> t <> sec) as Hne.
  { intros t Ht ->. rewrite P1 in Ht. by apply (grown_new_old _ _ _ _ _ _ _ _ [sec] sec G1 Hsec); [|left]. }
  assert (forall t, t ∈ secs ++ metas (store s1) d -> bs_sector (store s2) t = bs_sector (store s1) t) as Hb.
  { intros t Ht. eapply grown_sector; [exact Hg1|exact G2| |].
    - eapply mine_sub; [exact Hm1|]. by intros u ->%list_elem_of_singleton.
    - intros ->%list_elem_of_singleton. by apply (Hne sec). }
  destruct (sound_frame mip msecs s1 s2 d secs) as [S2 _]; [|by eapply grown_mine|exact S1|].
  { intros t Ht. apply Hb, elem_of_app. by right. }
  apply (HQ secs news d s2); try done.
  - rewrite <- (app_nil_r news). eapply grown_trans; [exact G1|exact G2| |]; intros t Ht.
    + by apply not_elem_of_nil in Ht.
    + apply elem_of_app. by right.
  - lia.
  - intros t Ht. rewrite <- P1. apply elem_of_app. by left.
  - intros t Ht. rewrite Hb by (apply elem_of_app; by left). by apply Z1.
Qed.

(** The root directory has the inode [rd] and the sectors [secs]. *)
Record root_made s (rd : inode_disk) (secs news : list Z) s' : Prop := {
  rm_grown : grown s news [ROOT_DIR_SECTOR] s';
  rm_sound : sound s' rd secs;
  rm_secs : zlen secs = 71 /\ secs ⊆ news /\ zlen news = 71;
  rm_length : length_ rd = 36000;
  rm_inode : decode_inode (bs_sector (store s') ROOT_DIR_SECTOR) = rd;
  rm_entries : entries_of (store s') rd secs = blank_root
}.
(** What creating it leaves: it was opened and closed. *)
Definition root_closed s s' : fs B := set_cwd None (set_brk (Pos.succ (Pos.succ (brk s))) s').

(** Writing inside it, once its inode is on the disk, makes it what
    [root_made] says. *)
Lemma root_made_of s secs news d s1 b3 :
  ground s -> mine s [ROOT_DIR_SECTOR] -> grown s news [ROOT_DIR_SECTOR] s1 -> sound s1 d secs -> inode_disk_ok d ->
  length_ d = 36000 -> zlen secs = 71 -> zlen news = 71 -> secs ⊆ news ->
  bs_sector (store s1) ROOT_DIR_SECTOR = encode_inode d -> changes_only (store s1) secs b3 ->
  entries_of b3 d secs = blank_root -> root_made s d secs news (set_store b3 s1).
Proof.
  intros Hg Hsec G1 S1 Hok Hlen Hl Hnl Hsub Hb1 Hb13 He3. pose proof (grown_ground _ _ _ _ _ _ _ _ G1) as Hg1.
  assert (in_range (store s1) ROOT_DIR_SECTOR) as Hr1.
  { eapply mine_range; [exact Hg1|exact (grown_mine _ _ _ _ _ _ _ _ _ G1 Hsec)|by left]. }
  assert (secs ⊆ news ++ [ROOT_DIR_SECTOR]) as Hsub' by (intros t Ht; apply elem_of_app; left; by apply Hsub).
  destruct (sound_sectors _ _ _ _ _ S1) as [Hms Hnd]. pose proof Hms as [Hms1 _]%mine_app.
  pose proof (grown_store _ _ _ _ _ _ _ Hg1 Hms1 Hb13) as G2.
  assert (ROOT_DIR_SECTOR ∉ secs) as Hroot.
  { intros Ht%Hsub. by apply (grown_new_old _ _ _ _ _ _ _ _ [ROOT_DIR_SECTOR] ROOT_DIR_SECTOR G1 Hsec); [|left]. }
  split.
  - rewrite <- (app_nil_r news). eapply grown_trans; [exact G1|exact G2|done|exact Hsub'].
  - eapply (sound_frame mip msecs s1); [|exact (grown_mine _ _ _ _ _ _ _ _ _ G2 Hms)|exact S1].
    intros t Ht. apply NoDup_app in Hnd as (_ & Hnd & _). apply (co_sector _ _ _ Hb13).
    + eapply mine_range; [exact Hg1|exact Hms|]. apply elem_of_app. by right.
    + intros Hin. by apply (Hnd t).
  - done.
  - exact Hlen.
  - change (store (set_store b3 s1)) with b3. by rewrite (co_sector _ _ _ Hb13), Hb1, decode_encode_inode.
  - exact He3.
Qed.

Lemma dir_create_root_wp s (Q : bool -> fs B -> Prop) :
  ground s -> mine s [ROOT_DIR_SECTOR] -> heap_ok s -> not_open s ROOT_DIR_SECTOR -> 71 <= free_count (free_map s) ->
  (forall rd secs news s', root_made s rd secs news s' -> Q true (root_closed s s')) ->
  wp (dir_create ROOT_DIR_SECTOR MAX_FILES_IN_DIRECTORY) Q s.
Proof.
  intros Hg Hsec Hheap Hno Hfree HQ. unfold dir_create. wp_step.
  change (i32 (u64 (MAX_FILES_IN_DIRECTORY * sizeof_entry))) with 36000.
  apply create_wp; [done|done|done|by vm_compute|by vm_compute|].
  intros secs news d s1 G1 S1 Hl Hnl Hok F1 Hb1 Hsub Hz. change (bytes_to_sectors 36000) with 71 in Hl, Hnl. change (sectors_for 71) with 71 in Hnl.
  cbn [negb]. cbv iota. pose proof (grown_ground _ _ _ _ _ _ _ _ G1) as Hg1. pose proof (fm_inv _ _ _ _ _ (gr_map _ _ _ _ _ Hg1)) as Hinv1.
  assert (length_ d = 36000) as Hlen by apply F1.
  pose proof (sound_file_ok _ _ _ _ _ _ _ Hg1 S1 ltac:(lia) ltac:(rewrite Hlen; exact Hl)) as Hf1.
  assert (in_range (store s1) ROOT_DIR_SECTOR) as Hr1 by (eapply mine_range; [exact Hg1|exact (grown_mine _ _ _ _ _ _ _ _ _ G1 Hsec)|by left]).
  assert (open_inodes s1 = open_inodes s /\ inodes s1 = inodes s /\ dirs s1 = dirs s /\ brk s1 = brk s) as (Eo & Ei & Ed & Ek).
  { by destruct G1 as (m & b & -> & _). }
  destruct (Hheap (brk s)) as (Hfi & _ & _); [lia|]. destruct (Hheap (Pos.succ (brk s))) as (_ & _ & Hfd); [lia|].
  wp_step. assert (s1 = set_store (store s1) s1) as Es by by destruct s1. rewrite Es.
  apply open_sector_wp; [done|done|by unfold not_open; rewrite Eo, Ei|by apply same_store_refl|]. intros b2 Hb2.
  unfold dir_open, malloc, set_dir.
  do 11 wp_step. apply wp_assert; [by apply bool_decide_eq_true_2|]. wp_step. eapply wp_need; [done|]. wp_step. eapply get_dir_wp; [apply lookup_insert_eq|]. cbn [d_inode].
  set (ip := mkInode ROOT_DIR_SECTOR 1 false 0 d).
  match goal with |- wp _ _ ?st => set (s3 := st) end.
  assert (inodes s3 !! brk s1 = Some ip) as Hi3.
  { unfold s3, with_inode. simpl. by rewrite lookup_insert_eq, Hb1, decode_encode_inode. }
  assert (content b2 d secs = replicate (36 * 1000) 0) as Hc2.
  { rewrite (content_same (store s1)) by done. unfold content.
    rewrite (sectors_bytes_zeros (store s1) (store s1) [] secs) by (done || by intros t ?%not_elem_of_nil).
    rewrite Hlen. simpl app. rewrite take_replicate. f_equal. lia. }
  assert (entries_of b2 d secs = replicate 1000 blank_entry) as He2.
  { unfold entries_of. by rewrite Hc2, blank_entries. }
  wp_step. eapply (write_entry_at_wp s3 (brk s1) ip secs 0 self_entry).
  { split; [apply Hb2|exact Hi3| |simpl; lia]. eapply file_ok_changes; [by apply same_changes_only|exact Hf1]. }
  { done. }
  { split; [done|done|by apply Forall_replicate|done]. }
  { change (entries_of (store s3) (data ip) secs) with (entries_of b2 d secs). rewrite He2, length_replicate. lia. }
  change (entries_of (store s3) (data ip) secs) with (entries_of b2 d secs). rewrite He2. intros b3 Hb3 He3.
  wp_step. eapply dir_close_wp; [simpl; apply lookup_insert_eq|done|exact Hi3|done|done|]. apply wp_ret. cbn [d_inode].
  match goal with |- Q true ?st => assert (st = root_closed s (set_store b3 s1)) as -> end.
  { unfold root_closed, s3, with_inode. generalize (decode_inode (bs_sector (store s1) ROOT_DIR_SECTOR)). intros x.
    set_fields. fold (open_inodes s1) (inodes s1) (dirs s1) (brk s1) (brk s).
    rewrite filter_cons, decide_False by auto.
    rewrite !delete_insert_id by (rewrite ?Ei, ?Ed, Ek; done). rewrite filter_others, Ek; [reflexivity|].
    rewrite Eo. intros Hq. unfold not_open in Hno. rewrite Forall_forall in Hno. destruct (Hno _ Hq) as (ipq & E & _). congruence. }
  apply (HQ d secs news). apply root_made_of; try assumption.
  eapply changes_only_trans; [by apply same_changes_only|exact Hb3].
Qed.
End with_map.

(* ------------------------------------------------------------------ *)
(** ** do_format                                                       *)
(* ------------------------------------------------------------------ *)

(** A formatted disk on which nothing is open: the free map's file, with
    the inode [disk_of msecs ..], holds the bitmap; the root directory is
    [rd], [rsecs]. *)
Record formatted s0 (n : Z) (msecs : list Z) (rd : inode_disk) (rsecs : list Z) s : Prop := {
  fd_heap : heap_ok s;
  fd_open : open_inodes s = [];
  fd_cwd : cwd s = None;
  fd_inv : bs_inv (store s);
  fd_size : bs_size (store s) = bs_size (store s0);
  fd_wf : Bitmap.wf (free_map s);
  fd_cnt : bit_cnt (free_map s) = n;
  fd_used : allocated (free_map s) (FREE_MAP_SECTOR :: ROOT_DIR_SECTOR :: msecs ++ rsecs);
  fd_nodup : NoDup (ROOT_DIR_SECTOR :: msecs ++ rsecs);
  fd_free : free_count (free_map s) = n - 2 - zlen msecs - 71;
  fd_map : zlen msecs = bytes_to_sectors (byte_cnt n);
  fd_bits : content (store s) (disk_of msecs (byte_cnt n) false) msecs = words_bytes 8 (bits (free_map s));
  fd_map_inode : bs_sector (store s) FREE_MAP_SECTOR = encode_inode (disk_of msecs (byte_cnt n) false);
  fd_root : decode_inode (bs_sector (store s) ROOT_DIR_SECTOR) = rd;
  fd_root_file : file_ok (store s) rd rsecs;
  fd_root_length : length_ rd = 36000;
  fd_entries : entries_of (store s) rd rsecs = blank_root
}.

(** From the first file to the second. *)
Lemma map_opened_ready s n msecs m b :
  startable s n -> marked (free_map s) msecs m -> zlen msecs = bytes_to_sectors (byte_cnt n) ->
  let mip := map_inode_of msecs n in let s1 := map_opened s mip m b in
  heap_ok s1 /\ not_open s1 ROOT_DIR_SECTOR /\ mine mip msecs s1 [ROOT_DIR_SECTOR] /\ FREE_MAP_SECTOR ∉ msecs /\
  ROOT_DIR_SECTOR ∉ msecs /\ free_count m = n - 2 - zlen msecs.
Proof.
  intros [Hinv Hsize [Hw Hc Hbits Hfree] Hopen Hheap Hn Hsec] Hm Hl mip s1.
  assert (bit (free_map s) 0 = true /\ bit (free_map s) 1 = true) as [B0 B1] by by rewrite !Hbits by lia.
  split_and!.
  - intros x Hx. simpl in Hx. destruct (Hheap x) as (H1 & H2 & H3); [lia|]. simpl. rewrite !lookup_insert_ne by lia. done.
  - apply Forall_singleton. exists mip. split; [apply lookup_insert_eq|done].
  - split; intros t ->%list_elem_of_singleton.
    + split; [simpl; rewrite (mk_cnt _ _ _ Hm), Hc; unfold ROOT_DIR_SECTOR; lia|by eapply marked_keep].
    + split; [done|]. split; [by eapply marked_apart|]. intros Ht. by apply few_metas in Ht; [|lia].
  - by eapply marked_apart.
  - by eapply marked_apart.
  - rewrite (mk_count _ _ _ Hm). lia.
Qed.

Lemma root_made_formatted s n msecs m b rd rsecs news s2 q :
  startable s n -> marked (free_map s) msecs m -> zlen msecs = bytes_to_sectors (byte_cnt n) ->
  bs_size b = bs_size (store s) -> bs_sector b FREE_MAP_SECTOR = encode_inode (disk_of msecs (byte_cnt n) false) ->
  let mip := map_inode_of msecs n in let s1 := map_opened s mip m b in
  ground (Pos.succ (brk s)) (mkFile (brk s) 0 false) mip msecs s1 ->
  root_made (Pos.succ (brk s)) (mkFile (brk s) 0 false) mip msecs s1 rd rsecs news s2 ->
  (brk s <= q)%positive ->
  formatted s n msecs rd rsecs
    (mkFs B (store s2) (free_map s2) (Some (Pos.succ (brk s))) [] (inodes s) (files s) (dirs s) None (file_table s2) q).
Proof.
  intros Hsa Hm Hl Hsb Hb0 mip s1 Hg [G S (L1 & L2 & L3) Hlen Hdec He] Hq.
  destruct (map_opened_ready s n msecs m b Hsa Hm Hl) as (_ & _ & Hroot & Hz & Hr1 & Hcnt).
  destruct Hsa as [Hinv Hsize [Hw Hc Hbits Hfree] Hopen Hheap Hn Hsec].
  pose proof (grown_ground _ _ _ _ _ _ _ _ G) as Hg2. pose proof (gr_map _ _ _ _ _ Hg2) as Hok2.
  destruct (grown_bits _ _ _ _ _ _ _ _ G) as [C2 K2]. change (free_map s1) with m in C2, K2.
  pose proof (mk_cnt _ _ _ Hm) as C1. destruct (sound_sectors _ _ _ _ _ S) as [Hms Hnd].
  pose proof Hms as [[Ha Hap] _]%mine_app.
  assert (forall t, t ∈ news -> bit m t = false) as Hnews by (intros t Ht; by eapply (grown_news _ _ _ _ _ _ _ _ _ G)).
  assert (bit m FREE_MAP_SECTOR = true) as B0.
  { apply (gr_zero _ _ _ _ _ Hg). }
  assert (on_disk s2 mip msecs) as Hd.
  { destruct G as (m2 & b2 & -> & _ & _ & _ & _ & Hd). apply Hd. left. intros ->. simpl in L3. lia. }
  assert (NoDup (ROOT_DIR_SECTOR :: msecs ++ rsecs)) as Hdis.
  { apply NoDup_cons. split; [|apply NoDup_app; split_and!].
    - intros [Ht|Ht]%elem_of_app; [by apply Hr1|]. apply L2 in Ht.
      apply (grown_new_old _ _ _ _ _ _ _ _ [ROOT_DIR_SECTOR] _ G Hroot Ht). by left.
    - exact (mk_nodup _ _ _ Hm).
    - intros t Ht Hin. destruct (Hap t Hin) as (_ & Hn' & _). by apply Hn'.
    - by apply NoDup_app in Hnd as [? _]. }
  split.
  - intros x Hx. destruct (Hheap x) as (H1 & H2 & H3); [simpl in Hx; lia|]. split_and!; assumption.
  - reflexivity.
  - reflexivity.
  - apply (fm_inv _ _ _ _ _ Hok2).
  - change (bs_size (store s2) = bs_size (store s)). rewrite (grown_size _ _ _ _ _ _ _ _ G). exact Hsb.
  - apply (fm_wf _ _ _ _ _ Hok2).
  - change (bit_cnt (free_map s2) = n). rewrite C2. lia.
  - change (allocated (free_map s2) (FREE_MAP_SECTOR :: ROOT_DIR_SECTOR :: msecs ++ rsecs)).
    intros t Ht. rewrite !elem_of_cons, elem_of_app in Ht. destruct Ht as [->|[->|[Ht|Ht]]]; [..|exact (Ha t Ht)].
    + split; [rewrite C2, C1; unfold FREE_MAP_SECTOR; lia|by apply K2].
    + destruct Hroot as [Hroot _]. destruct (Hroot ROOT_DIR_SECTOR) as [Hrr Hrb]; [by left|]. split; [rewrite C2; exact Hrr|by apply K2].
    + split; [rewrite C2, C1; apply (mk_free _ _ _ Hm t Ht)|]. apply K2. by rewrite (mk_bits _ _ _ Hm), bool_decide_eq_true_2.
  - exact Hdis.
  - change (free_count (free_map s2) = n - 2 - zlen msecs - 71). rewrite (grown_count _ _ _ _ _ _ _ _ G).
    change (free_map s1) with m. lia.
  - exact Hl.
  - exact Hd.
  - change (bs_sector (store s2) FREE_MAP_SECTOR = encode_inode (disk_of msecs (byte_cnt n) false)).
    rewrite <- Hb0. destruct G as (m2 & b2 & -> & Hb2 & _). apply (co_sector _ _ _ Hb2).
    + change (store s1) with b. unfold in_range, FREE_MAP_SECTOR. lia.
    + rewrite !elem_of_app. intros [Ht|[Ht|Ht%list_elem_of_singleton]]; [by apply Hz| |done].
      apply Hnews in Ht. congruence.
  - exact Hdec.
  - apply (sound_file_ok _ _ _ _ _ _ _ Hg2 S); [lia|]. rewrite Hlen. exact L1.
  - exact Hlen.
  - exact He.
Qed.

Lemma wpt_print {S} x (Q : unit -> S -> list event -> Prop) (s : S) : Q tt s [Print x] -> wpt (print x) Q s.
Proof. done. Qed.

Definition format_output : list event := [Print "Formatting file system..."; Print ("done." +:+ nl)].

Lemma do_format_wpt s n (Q : unit -> fs B -> list event -> Prop) :
  startable s n -> free_map_file s = None -> bytes_to_sectors (byte_cnt n) + 73 <= n ->
  (forall msecs rd rsecs s', formatted s n msecs rd rsecs s' -> zlen rsecs = 71 -> Q tt s' format_output) ->
  wpt do_format Q s.
Proof.
  intros Hsa Hf Hspace HQ. unfold do_format. apply wpt_bind, wpt_print, wpt_seq.
  apply (free_map_create_wp s n); [exact Hsa|exact Hf|lia|]. intros msecs m b mip s1 Hg Hd Hm Hl Hsb Hb0.
  destruct (map_opened_ready s n msecs m b Hsa Hm Hl) as (R1 & R2 & R3 & _ & _ & Hcnt).
  apply wpt_seq. eapply dir_create_root_wp; [exact Hg|exact R3|exact R1|exact R2| |].
  { change (71 <= free_count m). lia. }
  intros rd rsecs news s2 Hrm. pose proof (rm_grown _ _ _ _ _ _ _ _ _ Hrm) as G. apply wpt_seq. cbn [negb when]. apply wp_ret.
  apply wpt_seq. unfold free_map_close. wp_step.
  assert (exists m2 b2, s2 = set_store b2 (set_free_map m2 s1)) as (m2 & b2 & Es2).
  { destruct G as (m2 & b2 & E & _). by exists m2, b2. }
  assert (free_map_file (root_closed s1 s2) = Some (Pos.succ (brk s))) as Efp by by rewrite Es2.
  wp_step. rewrite Efp. eapply (file_close_wp _ _ (mkFile (brk s) 0 false) mip).
  { rewrite Es2. apply lookup_insert_eq. }
  { reflexivity. }
  { rewrite Es2. apply lookup_insert_eq. }
  { reflexivity. }
  apply wpt_print.
  pose proof (root_made_formatted s n msecs m b rd rsecs news s2 (brk (root_closed s1 s2)) Hsa Hm Hl Hsb Hb0 Hg Hrm) as Hfd.
  match goal with |- Q tt ?st _ => assert (st = mkFs B (store s2) (free_map s2) (Some (Pos.succ (brk s))) [] (inodes s)
    (files s) (dirs s) None (file_table s2) (brk (root_closed s1 s2))) as -> end.
  { destruct (sa_heap _ _ Hsa (brk s)) as (H1 & _); [lia|]. destruct (sa_heap _ _ Hsa (Pos.succ (brk s))) as (_ & H2 & _); [lia|].
    subst s2. unfold one_less, root_closed. change (open_cnt mip =? 1) with true. cbv iota. subst s1. unfold map_opened. cbn [f_inode].
    set_fields. fold (inodes s) (files s) (dirs s) (file_table s) (brk s).
    rewrite !delete_insert_id by assumption. rewrite filter_cons, decide_False by auto. reflexivity. }
  apply (HQ msecs rd rsecs); [|apply (rm_secs _ _ _ _ _ _ _ _ _ Hrm)].
  apply Hfd. rewrite Es2. simpl. lia.
Qed.

(* ------------------------------------------------------------------ *)
(** ** Mounting                                                        *)
(* ------------------------------------------------------------------ *)

Lemma mounted_map s0 n msecs rd rsecs s m b t :
  formatted s0 n msecs rd rsecs s -> 2 < n < BITMAP_ERROR -> n <= bs_size (store s0) -> zlen msecs <= 123 -> zlen rsecs <= 123 ->
  same_store (store s) b -> Bitmap.wf m -> bit_cnt m = n -> (forall j, 0 <= j < n -> bit m j = bit (free_map s) j) ->
  mounted (set_file_table t (map_opened s (map_inode_of msecs n) m b)) rd rsecs blank_root
    (Pos.succ (brk s)) (mkFile (brk s) 0 false) (map_inode_of msecs n) msecs.
Proof.
  intros [] Hn Hsize Hl1 Hl2 Hb Hw Hc Hbits. destruct blank_root_ok as (Hes & _).
  apply NoDup_cons in fd_nodup0 as [Hroot Hdis]. apply NoDup_app in Hdis as (Hnd1 & Hap & Hnd2).
  assert (forall u, u ∈ FREE_MAP_SECTOR :: ROOT_DIR_SECTOR :: msecs ++ rsecs -> 0 <= u < n /\ bit m u = true) as Hused.
  { intros u Hu. destruct (fd_used0 u Hu) as [Hr Hbu]. rewrite fd_cnt0 in Hr. split; [exact Hr|]. by rewrite Hbits. }
  assert (in_range b ROOT_DIR_SECTOR /\ in_range (store s) ROOT_DIR_SECTOR) as [Hr Hr'].
  { unfold in_range, ROOT_DIR_SECTOR. rewrite (ss_size _ _ Hb). lia. }
  split.
  - exact fd_cwd0.
  - intros x Hx. simpl in Hx. destruct (fd_heap0 x) as (H1 & H2 & H3); [lia|]. simpl. rewrite !lookup_insert_ne by lia. done.
  - apply Forall_singleton. eexists. split; [apply lookup_insert_eq|done].
  - apply Forall_singleton. eexists. split; [apply lookup_insert_eq|]. apply Hused. by left.
  - exact Hr.
  - change (decode_inode (bs_sector b ROOT_DIR_SECTOR) = rd). rewrite (ss_sector _ _ Hb) by exact Hr'. exact fd_root0.
  - eapply file_ok_changes; [by apply same_changes_only|exact fd_root_file0].
  - rewrite fd_root_length0. lia.
  - rewrite <- fd_entries0. exact (entries_of_same _ _ _ _ Hb fd_root_file0).
  - exact Hes.
  - pose proof (map_opened_ok s n msecs m b Hn Hc) as Hok. destruct Hok as [].
    + rewrite (ss_size _ _ Hb). lia.
    + apply Hb.
    + exact Hw.
    + exact fd_map0.
    + exact Hl1.
    + apply Forall_forall. intros u Hu. destruct (Hused u) as [Hru _]; [by rewrite !elem_of_cons, elem_of_app; auto|].
      unfold in_range. rewrite (ss_size _ _ Hb). lia.
    + exact Hnd1.
    + split; assumption.
  - change (bit_cnt m <= bs_size b). rewrite (ss_size _ _ Hb). lia.
  - change (allocated m (ROOT_DIR_SECTOR :: all_sectors b rd rsecs ++ all_sectors b (data (map_inode_of msecs n)) msecs)).
    intros u Hu. rewrite Hc. apply Hused. apply elem_of_cons in Hu as [->|Hu]; [by right; left|].
    do 2 (apply elem_of_cons; right). apply elem_of_app in Hu as [Hu|Hu].
    + apply all_sectors_uses in Hu as [Hu|Hu]; [by apply elem_of_app; right|by apply few_metas in Hu|unfold MAX_SECTORS; lia].
    + apply all_sectors_uses in Hu as [Hu|Hu]; [by apply elem_of_app; left|by apply few_metas in Hu|unfold MAX_SECTORS; lia].
  - exact Hroot.
  - split; [intros u Hu Hin; by apply (Hap u)|]. intros u Hu. by apply few_metas in Hu.
  - split; [exact Hap|]. intros u Hu. by apply few_metas in Hu.
Qed.

Lemma free_map_open_mounts s0 n msecs rd rsecs s (Q : unit -> fs B -> Prop) :
  formatted s0 n msecs rd rsecs s -> 2 < n < BITMAP_ERROR -> n <= bs_size (store s0) -> zlen msecs <= 123 -> zlen rsecs <= 123 ->
  (forall s', Bitmap.wf (free_map s') -> free_count (free_map s') = free_count (free_map s) ->
     bit (free_map s') FREE_MAP_SECTOR = true -> free_map_file s' = Some (Pos.succ (brk s)) ->
     (forall t, mounted (set_file_table t s') rd rsecs blank_root
        (Pos.succ (brk s)) (mkFile (brk s) 0 false) (map_inode_of msecs n) msecs) -> Q tt s') ->
  wp free_map_open Q s.
Proof.
  intros Hfd Hn Hsize Hl1 Hl2 HQ. pose proof Hfd as []. destruct (map_bytes n Hn) as (M1 & _ & _).
  assert (in_range (store s) FREE_MAP_SECTOR) as Hr by (unfold in_range, FREE_MAP_SECTOR; lia).
  assert (forall u, u ∈ msecs -> 0 <= u < n) as Hmr.
  { intros u Hu. rewrite <- fd_cnt0. apply fd_used0. rewrite !elem_of_cons, elem_of_app. auto. }
  unfold free_map_open. wp_step.
  apply inode_open_wp; [done|done|unfold not_open; rewrite fd_open0; by apply Forall_nil|]. intros b1 Hb1.
  rewrite fd_map_inode0, decode_encode_inode.
  2:{ apply disk_of_ok; [lia| |lia]. apply Forall_forall. intros u Hu. specialize (Hmr u Hu). unfold BITMAP_ERROR in *. lia. }
  unfold file_open, malloc, set_file. wp_steps.
  set (mip := map_inode_of msecs n).
  match goal with |- wp _ _ ?st => assert (st = map_opened s mip (free_map s) b1) as -> end.
  { unfold map_opened. by rewrite fd_open0. }
  pose proof fd_wf0 as [Hcw _ _].
  eapply (bitmap_read_wp _ (Pos.succ (brk s)) (mkFile (brk s) 0 false) mip msecs (bits (free_map s))).
  - split; [apply Hb1|apply lookup_insert_eq|apply lookup_insert_eq| |simpl; lia|done].
    eapply file_ok_changes; [by apply same_changes_only|]. apply disk_of_file_ok; [exact fd_map0|lia|exact Hl1| |].
    + apply Forall_forall. intros u Hu. specialize (Hmr u Hu). unfold in_range. lia.
    + apply NoDup_cons in fd_nodup0 as [_ Hnd]. by apply NoDup_app in Hnd as [? _].
  - exact fd_wf0.
  - simpl. lia.
  - simpl. by destruct (free_map s).
  - unfold text. change (content b1 (disk_of msecs (byte_cnt n) false) msecs = words_bytes 8 (bits (free_map s))).
    rewrite <- fd_bits0. apply (content_same (store s)); [done|]. apply disk_of_file_ok; [exact fd_map0|lia|exact Hl1| |].
    + apply Forall_forall. intros u Hu. specialize (Hmr u Hu). unfold in_range. lia.
    + apply NoDup_cons in fd_nodup0 as [_ Hnd]. by apply NoDup_app in Hnd as [? _].
  - intros b2 m Hb2 Hm Hcm Hbits. cbn [negb when]. apply wp_ret. simpl in Hcm, Hb2.
    assert (forall j, 0 <= j < n -> bit m j = bit (free_map s) j) as Hbits'.
    { intros j Hj. rewrite Hbits by lia. rewrite Hcm. by destruct (free_map s). }
    assert (same_store (store s) b2) as Hb02 by by eapply same_store_trans.
    apply HQ; [exact Hm| | |done|].
    + change (free_count m = free_count (free_map s)). unfold free_count. rewrite Hcm. apply count_bits_ext.
      intros j Hj. apply Hbits'. lia.
    + change (bit m FREE_MAP_SECTOR = true). rewrite Hbits' by (unfold FREE_MAP_SECTOR; lia). apply fd_used0. by left.
    + intros t. by apply (mounted_map s0 n msecs rd rsecs s m b2 t); [| | | | | | |congruence|].
Qed.

(* ------------------------------------------------------------------ *)
(** ** filesys_init                                                    *)
(* ------------------------------------------------------------------ *)

(** Sectors of the free map's file, for a map of [n] bits. *)
Definition map_sectors (n : Z) : Z := (n + 4095) / 4096.
Lemma map_sectors_val n : 2 < n < BITMAP_ERROR -> bytes_to_sectors (byte_cnt n) = map_sectors n.
Proof.
  intros Hn. destruct (byte_cnt_val n) as [E Hb]; [lia|]. rewrite bytes_to_sectors_val by lia. unfold map_sectors. rewrite E.
  Z.to_euclidean_division_equations; lia.
Qed.

(** C3: Formatting establishes the invariant of the file system: on a
    device of [n + 1] sectors, of any contents, with room for the two first
    files and at most 123 sectors of free map (246 MB), filesys_init with
    the format option ends, prints what it should, and leaves a sound file
    system: the root directory is empty, with 999 unused entries, and free
    are exactly the sectors that are neither an inode of the two files nor
    one of their [map_sectors n] and 71. *)
Theorem format_mounts s n :
  heap_ok s -> free_map_file s = None -> map_sectors n + 73 <= n <= 123 * 4096 ->
  wp cache_init (fun _ b => bs_inv b /\ bs_size b = n + 1) (store s) ->
  wpt (filesys_init (n + 1) true)
    (fun _ s' tr =>
       tr = [Print "Formatting file system..."; Print ("done." +:+ nl);
             Print ("Num free sectors: " +:+ pretty (n - 73 - map_sectors n) +:+ nl)] /\
       free_count (free_map s') = n - 73 - map_sectors n /\ bit (free_map s') FREE_MAP_SECTOR = true /\
       exists rd secs es fp fl mip msecs, mounted s' rd secs es fp fl mip msecs /\
         dir_map es = ∅ /\ free_slots es = 999%nat) s.
Proof.
  intros Hheap Hf Hn Hinit. assert (2 < n < BITMAP_ERROR) as Hn'.
  { unfold map_sectors, BITMAP_ERROR in *. Z.to_euclidean_division_equations; lia. }
  pose proof (map_sectors_val n Hn') as Hms.
  assert (map_sectors n <= 123) as Hmax by (unfold map_sectors; Z.to_euclidean_division_equations; lia).
  unfold filesys_init, inode_init. apply wpt_seq. apply wp_modify. apply wpt_seq.
  apply free_map_init_marks; [exact Hn'|]. intros m Hm. apply wpt_seq. unfold on_store. apply wp_zoom.
  eapply wp_mono; [exact Hinit|]. intros u b [Hinv Hsize]. simpl.
  set (s1 := set_store b _). assert (startable s1 n) as Hsa.
  { split; [exact Hinv|change (n <= bs_size b); lia|exact Hm|reflexivity|exact Hheap|exact Hn'|lia]. }
  apply wpt_bind. cbn [when]. apply (do_format_wpt s1 n); [exact Hsa|exact Hf|lia|].
  intros msecs rd rsecs s2 Hfd Hl. pose proof (fd_map _ _ _ _ _ _ Hfd) as Hlm. rewrite Hms in Hlm.
  apply wpt_seq. apply (free_map_open_mounts s1 n msecs rd rsecs s2); [exact Hfd|exact Hn'|change (n <= bs_size b); lia|lia|lia|].
  intros s3 Hw3 Hc3 Hz3 _ Hm3. apply wpt_seq. apply num_free_sectors_wp; [exact Hw3|].
  change (count_bits (free_map s3) (Z.to_nat (bit_cnt (free_map s3))) 0 false) with (free_count (free_map s3)).
  apply wpt_bind, wpt_print. unfold init_file_table. apply wpt_silent, wp_modify.
  rewrite Hc3, (fd_free _ _ _ _ _ _ Hfd), Hlm. replace (n - 2 - map_sectors n - 71) with (n - 73 - map_sectors n) by lia.
  destruct blank_root_ok as (_ & E1 & E2).
  split; [reflexivity|]. split; [change (free_count (free_map s3) = n - 73 - map_sectors n); rewrite Hc3, (fd_free _ _ _ _ _ _ Hfd); lia|].
  split; [exact Hz3|]. do 7 eexists. split; [apply Hm3|]. split; [exact E1|exact E2].
Qed.
End props.

(* ------------------------------------------------------------------ *)
(** ** Witness                                                         *)
(* ------------------------------------------------------------------ *)

#[local] Existing Instance Cache.cache_store.

(** A blank disk of 100 sectors, and the state a program starts in. *)
Definition blank_device : Block.block := Block.identify_ata_device (replicate (100 * 512) 0).
Definition power_on : fs Cache.cache :=
  mkFs Cache.cache (Cache.static_cache blank_device) (mkBitmap 0 []) None [] ∅ ∅ ∅ None [] 1.

Lemma blank_device_wf : Block.wf blank_device.
Proof. split; [vm_compute; split; congruence|by vm_compute|by apply Forall_replicate]. Qed.

Lemma format_mounts_witness :
  wpt (filesys_init 100 true)
    (fun _ s' tr =>
       tr = [Print "Formatting file system..."; Print ("done." +:+ nl); Print ("Num free sectors: 25" +:+ nl)] /\
       free_count (free_map s') = 25 /\ bit (free_map s') FREE_MAP_SECTOR = true /\
       exists rd secs es fp fl mip msecs, mounted s' rd secs es fp fl mip msecs /\
         dir_map es = ∅ /\ free_slots es = 999%nat) power_on.
Proof.
  apply (format_mounts power_on 99).
  - intros q Hq. split_and!; apply lookup_empty.
  - reflexivity.
  - vm_compute. split; discriminate.
  - apply (Cache.buffer_cache_init_wp (Cache.static_cache blank_device)).
    + apply Cache.static_cache_startable, blank_device_wf.
    + intros c Hc Hd _. split; [exact Hc|]. change (Block.size (Cache.device c) = 99 + 1). rewrite Hd. by vm_compute.
Defined.
End Format.
