(* ===== verification/NewFile.v ===== *)
(** * NewFile: creating a file, writing it and reading it back, through the
    layers of the file system *)
From S2P Require Import Prelude Bitmap Block Store Cache FsState Inode FileData FreeMap FileProps Dealloc Grow CString Files Directory DemoDisk Extend DirectoryProps DirectoryRemove FileSys PathProps FileSysProps.

Module NewFile.
Import Bitmap FsState Inode FileData FreeMap FileProps Dealloc Grow Files Directory Extend DirectoryProps
  DirectoryRemove FileSys PathProps FileSysProps.

Section props.
Context {B : Type} `{!BlockStore B, !CacheControl B}.
Implicit Types (b : B) (s : fs B).

Section invariant.
Context (fp : loc) (fl : file) (mip : inode) (msecs : list Z).
Notation ground := (ground fp fl mip msecs).
Notation mine := (mine mip msecs).
Notation growable := (growable fp fl mip msecs).

(** The sector of the free map's inode is marked, too. *)
Lemma mounted_ground s rd secs es :
  mounted s rd secs es fp fl mip msecs -> bit (free_map s) FREE_MAP_SECTOR = true -> ground s.
Proof.
  intros Hm Hz. pose proof (mt_map _ _ _ _ _ _ _ _ Hm) as Hok. pose proof (mt_used _ _ _ _ _ _ _ _ Hm) as Hu.
  pose proof (fm_secs _ _ _ _ _ Hok) as Hf.
  assert (forall t, t ∈ all_sectors (store s) (data mip) msecs -> bit (free_map s) t = true) as Hb.
  { intros t Ht. apply Hu. right. apply elem_of_app. by right. }
  split; [done|apply (mt_bits _ _ _ _ _ _ _ _ Hm)|done|..]; intros t Ht; apply Hb, all_sectors_uses;
    [apply Hf|by left|apply Hf|by right].
Qed.

(** A device that was only read. *)
Lemma mounted_read s rd secs es b :
  mounted s rd secs es fp fl mip msecs -> same_store (store s) b -> mounted (set_store b s) rd secs es fp fl mip msecs.
Proof.
  intros Hm Hb. pose proof (mt_map _ _ _ _ _ _ _ _ Hm) as Hok.
  apply (mounted_update fp fl mip msecs s _ rd secs es es []); [exact Hm|by apply Hm..|by apply same_changes_only| | |by apply Hm| |done|done].
  - by intros t ?%not_elem_of_nil.
  - simpl. rewrite (entries_of_same (store s)); [apply Hm|done|apply Hm].
  - eapply free_map_ok_frame; [exact Hok|done..|apply Hok|by apply same_changes_only|].
    split; intros t _; apply not_elem_of_nil.
Qed.

(** A handle other than the free map's, moved to another position. *)
Lemma mounted_file_pos s rd secs es p f :
  mounted s rd secs es fp fl mip msecs -> (forall x, (brk s <= x)%positive -> x <> p) -> fp <> p ->
  mounted (set_files (<[p := f]> (files s)) s) rd secs es fp fl mip msecs.
Proof.
  intros Hm Hp Hfp. destruct (mt_map _ _ _ _ _ _ _ _ Hm).
  apply (mounted_update fp fl mip msecs s _ rd secs es es []); [exact Hm|by apply Hm| |by apply Hm|by apply Hm| | |by apply Hm|by apply Hm| |done|done].
  - intros x Hx. destruct (mt_heap _ _ _ _ _ _ _ _ Hm x Hx) as (E1 & E2 & E3). split_and!; [done| |done].
    simpl. rewrite lookup_insert_ne; [exact E2|]. intros <-. by apply (Hp p).
  - by apply same_changes_only.
  - by intros t ?%not_elem_of_nil.
  - split; try done. simpl. rewrite lookup_insert_ne by done. done.
Qed.

(** Sector [sec] was free in [s], and has become the inode of an empty
    file in [s1]. *)
Record created s rd secs es (sec : Z) s1 es1 : Prop := {
  cr_before : mounted s rd secs es fp fl mip msecs;
  cr_zero : bit (free_map s) FREE_MAP_SECTOR = true;
  cr_range : 0 <= sec < bit_cnt (free_map s);
  cr_free : bit (free_map s) sec = false;
  cr_mounted : mounted s1 rd secs es1 fp fl mip msecs;
  cr_set : range_set (free_map s) sec 1 true (free_map s1);
  cr_changes : changes_only (store s) (sec :: msecs ++ secs) (store s1);
  cr_inode : decode_inode (bs_sector (store s1) sec) = empty_disk false
}.

Lemma created_bits s rd secs es sec s1 es1 : created s rd secs es sec s1 es1 ->
  bit_cnt (free_map s1) = bit_cnt (free_map s) /\
  (forall j, bit (free_map s1) j = bool_decide (j = sec) || bit (free_map s) j).
Proof.
  intros []. destruct cr_set0 as (_ & Hc & Hb). split; [done|]. intros j. rewrite Hb.
  rewrite (bool_decide_ext (sec <= j < sec + 1) (j = sec)) by lia. by case_bool_decide.
Qed.
Lemma created_apart s rd secs es sec s1 es1 : created s rd secs es sec s1 es1 ->
  sec <> 0 /\ sec <> ROOT_DIR_SECTOR /\ sec ∉ msecs /\ sec ∉ secs /\ ~ map_meta mip msecs s1 sec /\
  ~ uses_meta (store s1) rd (zlen secs) sec /\ bit (free_map s1) FREE_MAP_SECTOR = true.
Proof.
  intros Hc. destruct (created_bits _ _ _ _ _ _ _ Hc) as [_ Hbits]. destruct Hc.
  pose proof (mounted_ground _ _ _ _ cr_before0 cr_zero0) as Hg.
  destruct (free_sector_apart fp fl mip msecs s rd secs es sec cr_before0 cr_free0) as (Hw & Hs & _ & [_ Hma]).
  destruct (mounted_metas fp fl mip msecs s rd secs es _ cr_before0 Hw) as (M1 & M2 & Hroot).
  split_and!; [| | |done| | |by rewrite Hbits, cr_zero0, orb_true_r].
  - intros ->. unfold FREE_MAP_SECTOR in *. congruence.
  - intros ->. apply Hroot. by left.
  - intros Hin. pose proof (gr_secs _ _ _ _ _ Hg _ Hin). congruence.
  - unfold map_meta. rewrite (uses_meta_changes (store s) (store s1) _ _ _ _ cr_changes0 M2). intros Hu.
    pose proof (gr_metas _ _ _ _ _ Hg _ Hu). congruence.
  - rewrite (uses_meta_changes (store s) (store s1) _ _ _ _ cr_changes0 M1). intros Hu.
    destruct (M1 _ Hu) as [_ Hn]. apply Hn. by left.
Qed.

(** The file, once opened, can grow. *)
Definition new_inode (sec : Z) : inode := mkInode sec 1 false 0 (empty_disk false).
Lemma new_growable s rd secs es sec s1 es1 b :
  created s rd secs es sec s1 es1 -> same_store (store s1) b ->
  let s2 := file_opened s1 sec b in
  mounted s2 rd secs es1 fp fl mip msecs /\ growable s2 (Pos.succ (Pos.succ (brk s1))) (new_inode sec) [].
Proof.
  intros Hc Hb s2. destruct (created_apart _ _ _ _ _ _ _ Hc) as (H0 & Hroot & Hms & Hse & Hmeta & _ & Hz).
  destruct (created_bits _ _ _ _ _ _ _ Hc) as [Hcnt Hbits]. destruct Hc.
  assert (bit (free_map s1) sec = true) as Hbit by by rewrite Hbits, bool_decide_eq_true_2.
  assert (mounted s2 rd secs es1 fp fl mip msecs) as Hm2 by by apply file_opened_mounted.
  split; [done|]. pose proof (mounted_ground _ _ _ _ Hm2 Hz) as Hg2.
  assert (in_range (store s1) sec) as Hr.
  { pose proof (mt_bits _ _ _ _ _ _ _ _ cr_mounted0) as Hbs. unfold in_range. lia. }
  assert (mine s2 [sec]) as Hmine.
  { split; intros t ->%list_elem_of_singleton; [split; [simpl; lia|done]|]. split_and!; [done|done|]. intros Hu. apply Hmeta.
    unfold map_meta in *. simpl in Hu. eapply (uses_meta_changes (store s1) b); [by apply (same_changes_only _ [])| |exact Hu].
    intros u Hu'. split; [|apply not_elem_of_nil].
    by apply (fo_meta _ _ _ (fm_secs _ _ _ _ _ (mt_map _ _ _ _ _ _ _ _ cr_mounted0))). }
  destruct (direct_sound mip msecs s2 (empty_disk false) []) as [Hs Em];
    [by vm_compute|by vm_compute|done|done|done|split; by intros t ?%not_elem_of_nil|apply NoDup_nil_2|].
  split; [exact Hg2| | |done|apply empty_disk_ok|done|by vm_compute|exact Hs|exact Hmine| | |by vm_compute].
  - simpl. rewrite lookup_insert_eq. by rewrite cr_inode0.
  - intros E. pose proof (fm_inode _ _ _ _ _ (mt_map _ _ _ _ _ _ _ _ cr_mounted0)) as Hi.
    destruct (mt_heap _ _ _ _ _ _ _ _ cr_mounted0 (f_inode fl)) as (Hn & _); [lia|congruence].
  - change (data (new_inode sec)) with (empty_disk false). rewrite Em. apply not_elem_of_nil.
  - simpl. by rewrite (ss_sector _ _ Hb).
Qed.

(** Sectors a write to the new file may change. *)
Definition spare s (sec : Z) : list Z :=
  sec :: msecs ++ filter (fun t => bit (free_map s) t = false) (seqZ 0 (bs_size (store s))).

Lemma written_changes s2 sec q buf size s3 ip' secs' :
  written fp fl mip msecs s2 q (new_inode sec) [] buf size 0 s3 ip' secs' ->
  changes_only (store s2) (spare s2 sec) (store s3).
Proof.
  intros Hw. destruct (growable_inv _ _ _ _ _ _ _ _ (wr_growable _ _ _ _ _ _ _ _ _ _ _ _ _ _ Hw)) as [Hinv _].
  split; [done|apply (wr_size _ _ _ _ _ _ _ _ _ _ _ _ _ _ Hw)|]. intros t Hr Hn. unfold spare in Hn.
  rewrite not_elem_of_cons, not_elem_of_app in Hn. destruct Hn as (H1 & H2 & H3).
  apply (wr_sectors _ _ _ _ _ _ _ _ _ _ _ _ _ _ Hw); try done.
  - destruct (bit (free_map s2) t) eqn:E; [done|]. exfalso. apply H3, list_elem_of_filter. split; [done|].
    apply elem_of_seqZ. unfold in_range in Hr. lia.
  - unfold metas. simpl. rewrite !inner_zero. apply not_elem_of_nil.
Qed.

(** The file system is sound after the write, so that the next command
    finds it so. *)
Lemma mounted_written s rd secs es sec s1 es1 b buf size s3 ip' secs' :
  created s rd secs es sec s1 es1 -> same_store (store s1) b ->
  let s2 := file_opened s1 sec b in let q := Pos.succ (Pos.succ (brk s1)) in
  written fp fl mip msecs s2 q (new_inode sec) [] buf size 0 s3 ip' secs' ->
  mounted s3 rd secs es1 fp fl mip msecs.
Proof.
  intros Hc Hb s2 q Hw. destruct (created_apart _ _ _ _ _ _ _ Hc) as (H0 & Hroot & Hms & Hse & Hmeta & Hmeta' & Hz).
  destruct (created_bits _ _ _ _ _ _ _ Hc) as [Hcnt Hbits]. destruct (new_growable _ _ _ _ _ _ _ _ Hc Hb) as [Hm2 Hgb]. fold s2 in Hm2, Hgb.
  pose proof (gb_inode _ _ _ _ _ _ _ _ Hgb : inodes s2 !! q = _) as Hq.
  destruct Hc. pose proof (written_changes _ _ _ _ _ _ _ _ Hw) as Hb3.
  destruct (mounted_metas fp fl mip msecs s rd secs es (sec :: msecs ++ secs) cr_before0) as (M1 & _).
  { intros t [->|[Ht|Ht]%elem_of_app]%elem_of_cons; auto. }
  assert (changes_only (store s) (spare s2 sec ++ secs) (store s3)) as Hb13.
  { eapply changes_only_trans; [eapply changes_only_mono; [exact cr_changes0|]|].
    - intros t. unfold spare. rewrite !elem_of_app, !elem_of_cons, !elem_of_app. tauto.
    - eapply changes_only_trans; [by apply same_changes_only|]. eapply changes_only_mono; [exact Hb3|].
      intros t Ht. apply elem_of_app. by left. }
  assert (forall t, t ∈ all_sectors (store s2) rd secs -> t ∉ spare s2 sec) as Hoff.
  { intros t Ht. pose proof (mt_file _ _ _ _ _ _ _ _ Hm2) as Hf2.
    assert (bit (free_map s2) t = true) as Hbt.
    { apply (mt_used _ _ _ _ _ _ _ _ Hm2). right. apply elem_of_app. by left. }
    apply all_sectors_uses in Ht; [|apply Hf2]. unfold spare. rewrite not_elem_of_cons, not_elem_of_app, list_elem_of_filter.
    destruct (mt_root_map _ _ _ _ _ _ _ _ Hm2) as [A1 A2]. split_and!; [|naive_solver|intros [? _]; congruence].
    intros ->. destruct Ht as [Ht|Ht]; [done|]. apply Hmeta'. simpl in Ht.
    eapply (uses_meta_changes (store s1) b); [by apply (same_changes_only _ [])| |exact Ht].
    intros u Hu. split; [|apply not_elem_of_nil]. by apply (fo_meta _ _ _ (mt_file _ _ _ _ _ _ _ _ cr_mounted0)). }
  destruct (wr_state _ _ _ _ _ _ _ _ _ _ _ _ _ _ Hw) as (m & b3 & Es). destruct (wr_bits _ _ _ _ _ _ _ _ _ _ _ _ _ _ Hw) as [Hc3 Hk3].
  destruct (wr_inode _ _ _ _ _ _ _ _ _ _ _ _ _ _ Hw) as (Hsec & _).
  assert (forall P, Forall (fun x => exists ip, inodes s2 !! x = Some ip /\ P (sector ip)) (open_inodes s2) ->
    Forall (fun x => exists ip, inodes s3 !! x = Some ip /\ P (sector ip)) (open_inodes s3)) as Hopen.
  { intros P HP. rewrite Es. change (open_inodes (set_inodes _ _)) with (open_inodes s2).
    change (inodes (set_inodes (<[q:=ip']> (inodes s2)) _)) with (<[q:=ip']> (inodes s2)).
    eapply Forall_impl; [exact HP|]. intros x (ipx & Hx & HPx).
    destruct (decide (x = q)) as [->|Hne]; [|exists ipx; by rewrite lookup_insert_ne].
    exists ip'. rewrite lookup_insert_eq. split; [done|]. rewrite Hsec.
    rewrite Hq in Hx. by injection Hx as <-. }
  eapply (mounted_update fp fl mip msecs s s3 rd secs es es1 (spare s2 sec ++ secs)); [done| | | | |exact Hb13| | |apply Hm2| | |].
  - rewrite Es. apply Hm2.
  - rewrite Es. intros x Hx. simpl in Hx |- *. destruct (mt_heap _ _ _ _ _ _ _ _ Hm2 x Hx) as (E1 & E2 & E3). split_and!; [|done|done].
    rewrite lookup_insert_ne; [exact E1|]. intros <-. rewrite Hq in E1. done.
  - apply (Hopen (fun t => t <> ROOT_DIR_SECTOR)), Hm2.
  - apply (Hopen (fun t => bit (free_map s3) t = true)). eapply Forall_impl; [apply (mt_marked _ _ _ _ _ _ _ _ Hm2)|].
    intros x (ipx & Hx & Hbx). exists ipx. split; [done|]. by apply Hk3.
  - intros t [Ht|Ht]%elem_of_app; [|auto]. unfold spare in Ht. rewrite elem_of_cons, elem_of_app, list_elem_of_filter in Ht.
    destruct Ht as [->|[Ht|[Ht _]]]; [by right; right|by left|]. right; right. simpl in Ht. rewrite Hbits in Ht.
    by destruct (bit (free_map s) t); [rewrite orb_true_r in Ht|].
  - unfold entries_of. destruct (file_apart (store s2) (store s3) rd secs _ Hb3) as (_ & -> & _); [|apply Hm2|apply (mt_entries _ _ _ _ _ _ _ _ Hm2)].
    split; intros t Ht; apply Hoff, all_sectors_uses; [apply Hm2|by left|apply Hm2|by right].
  - apply (gr_map _ _ _ _ _ (gb_ground _ _ _ _ _ _ _ _ (wr_growable _ _ _ _ _ _ _ _ _ _ _ _ _ _ Hw))).
  - rewrite Hc3. exact Hcnt.
  - intros j Hj. apply Hk3. simpl. by rewrite Hbits, Hj, orb_true_r.
Qed.

(** Creating a file and opening it. *)
Lemma create_open_wp s rd secs es junk path nm {A} (K : ptr -> M (fs B) A) (Q : A -> fs B -> Prop) :
  mounted s rd secs es fp fl mip msecs -> bit (free_map s) FREE_MAP_SECTOR = true ->
  0 < slashes path -> path <> "/"%string -> snd (split_path_filename path) = nm ->
  good_name nm -> nm <> "."%string -> nm <> ".."%string ->
  dir_map es !! bytes_of nm = None -> (0 < free_slots es)%nat -> 0 < free_count (free_map s) ->
  (forall sec s1 es1 b, created s rd secs es sec s1 es1 -> same_store (store s1) b ->
     dir_map es1 = <[bytes_of nm := sec]> (dir_map es) -> free_count (free_map s1) = free_count (free_map s) - 1 ->
     wp (K (Some (Pos.succ (Pos.succ (Pos.succ (brk s1)))))) Q (file_opened s1 sec b)) ->
  wp (filesys_create junk path 0 false ;; let! f := filesys_open path in K f) Q s.
Proof.
  intros Hm Hz Hsl Hpath Hnm Hgood Hdot Hdots Hnew Hfree Hspace HQ. wp_step.
  eapply (filesys_create_wp fp fl mip msecs); [done..|by apply free_exists|].
  intros sec s1 es1 Hsec Hbit Hm1 Hmap Hset Hd1 Hch Hdec Hi Ho Hfs Hbrk.
  assert (created s rd secs es sec s1 es1) as Hc by by split.
  destruct (created_apart _ _ _ _ _ _ _ Hc) as (_ & Hroot & _).
  assert (in_range (store s1) sec) as Hr.
  { pose proof (mt_bits _ _ _ _ _ _ _ _ Hm1) as Hb. destruct Hset as (_ & Hcnt & _). unfold in_range. lia. }
  wp_step. eapply (filesys_open_wp fp fl mip msecs s1 rd secs es1 path nm sec); try done.
  { rewrite Hmap. apply lookup_insert_eq. }
  { unfold not_open. rewrite Ho, Hi. by apply not_open_free; [apply (mt_marked _ _ _ _ _ _ _ _ Hm)|]. }
  intros b Hb. eapply HQ; [exact Hc|done|done|]. unfold free_count.
  destruct (fm_wf _ _ _ _ _ (mt_map _ _ _ _ _ _ _ _ Hm)) as [Hcnt _ _].
  erewrite (count_bits_range_set (free_map s) (free_map s1) sec 1 false); [done|lia..| |exact Hset].
  intros j Hj. by replace j with sec by lia.
Qed.

Lemma written_text q s2 sec buf size s3 ip' secs' :
  written fp fl mip msecs s2 q (new_inode sec) [] (<[Z.to_nat (size - 1) := 0]> buf) size 0 s3 ip' secs' ->
  0 < size <= zlen buf ->
  content (store s3) (data ip') secs' = slice buf 0 (size - 1) ++ [0] /\ length_ (data ip') = size.
Proof.
  intros Hw Hs. split.
  - rewrite (wr_content _ _ _ _ _ _ _ _ _ _ _ _ _ _ Hw). unfold padded.
    assert (content (store s2) (data (new_inode sec)) [] = []) as -> by done.
    rewrite splice_all.
    + apply zlist_eq_range; [rewrite zlen_app, !zlen_slice by (rewrite ?length_insert; lia); simpl; lia|].
      intros j Hj. rewrite zlen_slice in Hj by (rewrite ?length_insert; lia).
      rewrite zget_slice, zget_app, zlen_slice by lia. rewrite zget_lookup by lia. case_bool_decide.
      * rewrite zget_slice, zget_lookup by lia. by rewrite list_lookup_insert_ne by lia.
      * assert (j = size - 1) as -> by lia. rewrite Z.add_0_l, list_lookup_insert_eq by lia. by rewrite Z.sub_diag.
    + rewrite zlen_slice by (rewrite ?length_insert; lia). simpl. rewrite length_replicate. lia.
  - rewrite (wr_length _ _ _ _ _ _ _ _ _ _ _ _ _ _ Hw). simpl. lia.
Qed.

(** C4: From the disk up: creating an empty file, opening it, writing [size]
    bytes and reading them back gives the bytes, the last of which
    file_write replaces by a NUL; the file is [size] bytes long; it took
    from the free map one sector for its inode and those that [size] bytes
    need; and the file system is sound again, the new name in its
    directory. The file system is one after its mount, with the free map's
    inode marked as used. The path has a slash and is not just that: for a
    plain name filesys_create is undefined (path_buffers_one_byte_short).
    Its file name is one that the root directory, which has a free entry,
    does not have yet, of 1 to 30 characters as dir_add requires, and
    neither of the two names for directories. There are 0 < [size] bytes to
    write, no more than in the buffer or in the largest file, and the disk
    has the sectors for them. *)
Theorem new_file_written s rd secs es junk path nm buf size :
  mounted s rd secs es fp fl mip msecs -> bit (free_map s) FREE_MAP_SECTOR = true ->
  0 < slashes path -> path <> "/"%string -> snd (split_path_filename path) = nm ->
  good_name nm -> nm <> "."%string -> nm <> ".."%string ->
  dir_map es !! bytes_of nm = None -> (0 < free_slots es)%nat ->
  0 < size <= zlen buf -> size <= 512 * MAX_SECTORS -> Forall is_u8 buf ->
  1 + sectors_for (bytes_to_sectors size) <= free_count (free_map s) ->
  wp (filesys_create junk path 0 false ;;
      let! f := filesys_open path in
      let! p := need f in
      let! r := file_write p buf size in
      let! text := file_read_at p size 0 in
      let! len := file_length (Some p) in
      ret (fst r, text, len))
     (fun '(n, text, len) s' => n = size /\ text = slice buf 0 (size - 1) ++ [0] /\ len = size /\
        free_count (free_map s') = free_count (free_map s) - 1 - sectors_for (bytes_to_sectors size) /\
        exists es' sec, mounted s' rd secs es' fp fl mip msecs /\
          dir_map es' = <[bytes_of nm := sec]> (dir_map es)) s.
Proof.
  intros Hm Hz Hsl Hpath Hnm Hgood Hdot Hdots Hnew Hfree Hsize Hmax Hu Hspace. unfold MAX_SECTORS in Hmax.
  assert (0 <= bytes_to_sectors size) as Hb0 by (rewrite bytes_to_sectors_val by lia; apply Z.div_pos; lia).
  pose proof (sectors_for_ge _ Hb0).
  eapply (create_open_wp s rd secs es junk path nm (fun f => _)); [done..|lia|]. intros sec s1 es1 b Hc Hb Hmap Hcnt.
  destruct (new_growable _ _ _ _ _ _ _ _ Hc Hb) as [Hm2 Hgb].
  set (s2 := file_opened s1 sec b) in *. set (q := Pos.succ (Pos.succ (brk s1))) in *.
  assert (files s2 !! Pos.succ q = Some (mkFile q 0 false)) as Hf by apply lookup_insert_eq.
  wp_step. eapply wp_need; [done|]. wp_step. unfold file_write. wp_step. eapply wp_need; [apply zset_Some; lia|].
  wp_step. eapply get_file_wp; [exact Hf|]. wp_step. unfold inode_write_at at 1, write_fuel.
  eapply growable_write_at_wp; [exact Hgb|simpl; lia|lia|simpl; unfold MAX_SECTORS; lia|rewrite length_insert; lia| | |].
  { by apply Forall_insert. }
  { simpl. change (free_map s2) with (free_map s1). rewrite Z.max_r; [|exact Hb0].
    change (sectors_for (Z.of_nat 0)) with 0. rewrite Z.add_0_l. lia. }
  intros s3 ip secs' Hw. simpl in Hw.
  pose proof (mounted_written _ _ _ _ _ _ _ _ _ _ _ _ _ Hc Hb Hw) as Hm3.
  destruct (written_text _ _ _ _ _ _ _ _ Hw Hsize) as [Htext Hlen].
  pose proof (wr_growable _ _ _ _ _ _ _ _ _ _ _ _ _ _ Hw) as Hg3.
  destruct (wr_state _ _ _ _ _ _ _ _ _ _ _ _ _ _ Hw) as (m & b3 & Es).
  assert (files s3 !! Pos.succ q = Some (mkFile q 0 false)) as Hf3 by by rewrite Es.
  wp_step. eapply get_file_wp; [exact Hf3|]. unfold set_file. do 3 wp_step. cbn [fst].
  set (s4 := set_files _ s3).
  pose proof (growable_file _ _ _ _ _ _ _ _ Hg3) as Hfo. destruct (growable_inv _ _ _ _ _ _ _ _ Hg3) as [Hinv Hlt].
  pose proof (gb_inode _ _ _ _ _ _ _ _ Hg3) as Hi3.
  wp_step. unfold file_read_at. wp_step. eapply get_file_wp; [apply lookup_insert_eq|].
  eapply inode_read_at_wp; [exact Hinv|exact Hi3|exact Hfo|exact Hlt|lia|lia|]. intros b4 Hb4.
  wp_step. unfold file_length. wp_step. apply wp_assert; [done|]. wp_step. eapply wp_need; [done|].
  wp_step. eapply get_file_wp; [apply lookup_insert_eq|]. unfold inode_length. wp_step.
  eapply get_inode_wp; [exact Hi3|]. do 2 apply wp_ret.
  split; [done|]. change (content (store s4)) with (content (store s3)). rewrite Htext, Hlen.
  split; [|split; [done|split]].
  - unfold slice at 1. rewrite drop_0. apply take_ge.
    assert (zlen (slice buf 0 (size - 1) ++ [0]) = size) by (rewrite zlen_app, zlen_slice by lia; simpl; lia). lia.
  - change (free_map (set_store b4 s4)) with (free_map s3). rewrite (wr_count _ _ _ _ _ _ _ _ _ _ _ _ _ _ Hw), Hlen.
    change (free_map s2) with (free_map s1). change (sectors_for (zlen [])) with 0. lia.
  - exists es1, sec. split; [|done]. apply (mounted_read s4); [|exact Hb4].
    apply mounted_file_pos; [exact Hm3| |].
    + intros x Hx E. destruct (mt_heap _ _ _ _ _ _ _ _ Hm3 x) as (_ & Hn & _); [exact Hx|]. rewrite E in Hn. rewrite Hf3 in Hn. discriminate.
    + intros E. destruct (mt_heap _ _ _ _ _ _ _ _ (cr_mounted _ _ _ _ _ _ _ Hc) (Pos.succ q)) as (_ & Hn & _); [subst q; lia|].
      pose proof (fm_f _ _ _ _ _ (mt_map _ _ _ _ _ _ _ _ (cr_mounted _ _ _ _ _ _ _ Hc))) as Hfm. rewrite <- E in Hn. rewrite Hfm in Hn. discriminate.
Qed.
End invariant.
End props.

(* ------------------------------------------------------------------ *)
(** ** Witness                                                         *)
(* ------------------------------------------------------------------ *)

#[local] Existing Instance Cache.cache_store.

(** The demonstration disk with two more sectors, between two commands. *)
Definition roomy_disk : Cache.cache :=
  Cache.static_cache (Block.identify_ata_device (DemoDisk.image ++ replicate 1024 0)).
Definition roomy : fs Cache.cache :=
  mkFs Cache.cache roomy_disk (mkBitmap 12 [511]) (Some 1%positive) [2%positive]
       {[2%positive := DemoDisk.map_inode]} {[1%positive := mkFile 2 0 false]} ∅ None [] 9.

Lemma roomy_inv : bs_inv roomy_disk.
Proof.
  apply Cache.static_cache_inv. split; [vm_compute; split; congruence|by vm_compute|].
  apply (bool_decide_unpack (Forall (fun b => 0 <= b < 256) _)). by vm_compute.
Qed.

Lemma roomy_mounted : mounted roomy DemoDisk.root_disk [3] DemoDisk.root_entries 1 (mkFile 2 0 false) DemoDisk.map_inode [2].
Proof.
  assert (forall d l other, Forall (fun t => t ∉ other) l -> zlen l <= 123 -> apart roomy_disk d l other) as Ha.
  { intros d l other Hl Hlen. split; [by apply Forall_forall|].
    intros t [[? _]|[[? _]|(j & ? & ? & _)]]; lia. }
  split; try done.
  - intros q Hq. simpl in Hq. unfold roomy. simpl. by rewrite !lookup_singleton_ne by lia.
  - apply Forall_singleton. by exists DemoDisk.map_inode.
  - apply Forall_singleton. by exists DemoDisk.map_inode.
  - DemoDisk.disk_file.
  - apply root_entries_ok.
  - split; try done; [apply roomy_inv|split; [done|by vm_compute|by repeat constructor]|DemoDisk.disk_file].
  - apply allocated_dec. by vm_compute.
  - apply (bool_decide_unpack _). by vm_compute.
  - apply Ha; [|done]. apply (bool_decide_unpack _). by vm_compute.
  - apply Ha; [|done]. apply (bool_decide_unpack _). by vm_compute.
Qed.

Lemma new_file_written_witness :
  wp (filesys_create (replicate 31 0) "/b" 0 false ;;
      let! f := filesys_open "/b" in
      let! p := need f in
      let! r := file_write p (bytes_of "hello") 5 in
      let! text := file_read_at p 5 0 in
      let! len := file_length (Some p) in
      ret (fst r, text, len))
     (fun '(n, text, len) s' => n = 5 /\ text = bytes_of "hell" ++ [0] /\ len = 5 /\ free_count (free_map s') = 1) roomy.
Proof.
  eapply wp_mono.
  { apply (new_file_written 1 (mkFile 2 0 false) DemoDisk.map_inode [2] roomy DemoDisk.root_disk [3] DemoDisk.root_entries
             (replicate 31 0) "/b" "b" (bytes_of "hello") 5).
    - apply roomy_mounted.
    - reflexivity.
    - reflexivity.
    - discriminate.
    - reflexivity.
    - split; [apply (bool_decide_unpack _); by vm_compute|done|done].
    - discriminate.
    - discriminate.
    - by vm_compute.
    - apply Nat.ltb_lt. by vm_compute.
    - split; [lia|]. vm_compute. discriminate.
    - vm_compute. discriminate.
    - apply (bool_decide_unpack _). by vm_compute.
    - vm_compute. discriminate. }
  intros [[n text] len] s' (-> & -> & -> & Hc & _). split_and!; [done|by vm_compute|done|]. rewrite Hc. by vm_compute.
Defined.
End NewFile.
