(* ===== verification/VarSpec.v ===== *)
(** * VarSpec: what the variable memory of the three shells promises

    Each shell keeps its variables in an array of (name, value) slots in
    which the name "none" marks a free slot.  The functions here are the
    specification; A1Memory.v, FrameStore.v and A3Memory.v show that each
    implementation does exactly this to the slots it reserves for
    variables. *)
From S2P Require Import Prelude.

Module VarSpec.
Open Scope string_scope. Open Scope Z_scope.

Abbreviation slots := (list (string * string)).

(** The first slot of the name. *)
Fixpoint find_key (l : slots) (k : string) : option nat :=
  match l with
  | [] => None
  | (k', _) :: l' => if bool_decide (k' = k) then Some O else S <$> find_key l' k
  end.

Definition vset (l : slots) (k v : string) : slots :=
  match find_key l k with
  | Some i => <[i := (k, v)]> l
  | None =>
      match find_key l "none" with
      | Some i => <[i := (k, v)]> l
      | None => l
      end
  end.

Definition vget (l : slots) (k : string) : option string :=
  i ← find_key l k; snd <$> l !! i.

Lemma find_key_Some l k i :
  find_key l k = Some i <->
  (exists v, l !! i = Some (k, v)) /\ forall j kv, (j < i)%nat -> l !! j = Some kv -> fst kv <> k.
Proof.
  revert i. induction l as [|[k' v'] l IH]; intros i; simpl.
  { split; [done|]. intros [[v Hv] _]. done. }
  case_bool_decide as E; [subst k'|].
  - split.
    + intros [= <-]. split; [by exists v'|]. intros j kv Hj. lia.
    + intros [[v Hv] Hno]. destruct i as [|i]; [done|].
      exfalso. by apply (Hno O (k, v')); [lia| |].
  - rewrite fmap_Some. setoid_rewrite IH. split.
    + intros (j & [[v Hv] Hno] & ->). split; [by exists v|].
      intros [|m] kv Hm; simpl; [by intros [= <-]|]. apply Hno. lia.
    + intros [[v Hv] Hno]. destruct i as [|i]; [by injection Hv as -> _|].
      exists i. split; [|done]. split; [by exists v|]. intros j kv Hj Hl. apply (Hno (S j)); [lia|done].
Qed.

Lemma find_key_None l k : find_key l k = None <-> forall kv, kv ∈ l -> fst kv <> k.
Proof.
  induction l as [|[k' v'] l IH]; simpl; [set_solver|].
  case_bool_decide as E; [subst|].
  - split; [done|]. intros H. exfalso. by apply (H (k, v')); [left|].
  - rewrite fmap_None, IH. split.
    + intros H kv [->|Hkv]%elem_of_cons; [done|auto].
    + intros H kv Hkv. apply H. by right.
Qed.

Lemma find_key_insert_ne l i k v k' :
  fst <$> l !! i <> Some k' -> k <> k' -> find_key (<[i := (k, v)]> l) k' = find_key l k'.
Proof.
  revert i. induction l as [|[a b] l IH]; intros i Hi Hk; [done|].
  destruct i as [|i]; simpl in *.
  - rewrite bool_decide_eq_false_2 by done. rewrite bool_decide_eq_false_2; [done|]. by intros ->.
  - by rewrite IH.
Qed.

Lemma find_key_insert_eq l i k v :
  (i < length l)%nat -> (forall j kv, (j < i)%nat -> l !! j = Some kv -> fst kv <> k) ->
  find_key (<[i := (k, v)]> l) k = Some i.
Proof.
  intros Hi Hno. apply find_key_Some. split.
  - exists v. by apply list_lookup_insert_eq.
  - intros j kv Hj. rewrite list_lookup_insert_ne by lia. by apply Hno.
Qed.

Lemma length_vset l k v : length (vset l k v) = length l.
Proof. unfold vset. repeat case_match; by rewrite ?length_insert. Qed.

(** There is a slot for [k]. *)
Definition has_room (l : slots) (k : string) : Prop :=
  is_Some (find_key l k) \/ is_Some (find_key l "none").

Lemma vget_vset l k v : has_room l k -> vget (vset l k v) k = Some v.
Proof.
  intros Hr. unfold vset. destruct (find_key l k) as [i|] eqn:E.
  - pose proof E as E'. apply find_key_Some in E as [[w Hw] Hno].
    pose proof (lookup_lt_Some _ _ _ Hw). unfold vget.
    rewrite find_key_insert_eq by done. simpl. by rewrite list_lookup_insert_eq.
  - destruct (find_key l "none") as [i|] eqn:E2; [|destruct Hr as [[? ?]|[? ?]]; congruence].
    apply find_key_Some in E2 as [[w Hw] _]. pose proof (lookup_lt_Some _ _ _ Hw). unfold vget.
    rewrite find_key_None in E. rewrite find_key_insert_eq.
    + simpl. by rewrite list_lookup_insert_eq.
    + done.
    + intros j kv Hj Hl. apply E. by eapply list_elem_of_lookup_2.
Qed.

Lemma vget_vset_other l k v k' : k' <> k -> k' <> "none" -> vget (vset l k v) k' = vget l k'.
Proof.
  intros Hk Hn. unfold vset.
  assert (forall i w q, l !! i = Some (q, w) -> q <> k' -> vget (<[i := (k, v)]> l) k' = vget l k') as H.
  { intros i w q Hi Hq. unfold vget. rewrite find_key_insert_ne by (rewrite ?Hi; simpl; congruence).
    destruct (find_key l k') as [j|] eqn:E; simpl; [|done].
    apply find_key_Some in E as [[u Hu] _]. rewrite list_lookup_insert_ne; [done|]. intros ->. congruence. }
  destruct (find_key l k) as [i|] eqn:E; [|destruct (find_key l "none") as [i|] eqn:E2; [|done]].
  - apply find_key_Some in E as [[w Hw] _]. eapply H; [done|congruence].
  - apply find_key_Some in E2 as [[w Hw] _]. eapply H; [done|congruence].
Qed.

Lemma vset_full l k v : ~ has_room l k -> vset l k v = l.
Proof.
  unfold has_room, vset. intros H. destruct (find_key l k); [destruct H; left; eauto|].
  destruct (find_key l "none"); [destruct H; right; eauto|done].
Qed.

(* ------------------------------------------------------------------ *)
(** ** The search loop                                                 *)
(* ------------------------------------------------------------------ *)

(** The loop the implementations share: the slots from [lo] are read in
    order until one has the name, then [found] runs. *)
Definition search {St R} (slot : Z -> M St (string * string)) (n : nat) (lo : Z) (k : string)
    (found : Z -> string * string -> M St R) : M St (option R) :=
  for_find n lo (fun i =>
    let! kv := slot i in
    if bool_decide (fst kv = k) then let! r := found i kv in ret (Some r) else ret None).

Lemma search_wp {St R} slot lo k (found : Z -> string * string -> M St R) (l : slots) s (Q : option R -> St -> Prop) :
  (forall i kv, l !! i = Some kv -> slot (lo + Z.of_nat i) s = Ok kv s []) ->
  (forall i v, find_key l k = Some i -> l !! i = Some (k, v) ->
     wp (found (lo + Z.of_nat i) (k, v)) (fun r => Q (Some r)) s) ->
  (find_key l k = None -> Q None s) ->
  wp (search slot (length l) lo k found) Q s.
Proof.
  unfold search. revert lo. induction l as [|[a v] l IH]; intros lo Hs HF HN; simpl.
  { by apply wp_ret, HN. }
  wp_step. wp_step. apply wp_Ok. exists (a, v), s. pose proof (Hs O (a, v) eq_refl) as H0.
  rewrite Z.add_0_r in H0. split; [done|]. simpl in *. case_bool_decide as E.
  - subst a. wp_step. specialize (HF O v eq_refl eq_refl). rewrite Z.add_0_r in HF.
    eapply wp_mono; [done|]. intros r s' H. by apply wp_ret, wp_ret.
  - apply wp_ret. apply IH.
    + intros i kv Hi. specialize (Hs (S i) kv Hi). rewrite <- Hs. f_equal. lia.
    + intros i w Hi Hw. rewrite Hi in HF. simpl in HF. specialize (HF (S i) w eq_refl Hw).
      by replace (lo + 1 + Z.of_nat i) with (lo + Z.of_nat (S i)) by lia.
    + intros Hn. apply HN. by rewrite Hn.
Qed.
End VarSpec.
