(* ===== verification/Words.v ===== *)
(** * Words: the word-copying loop that the three parsers share

    Each parseInput copies the characters of a word into a local array
    [tmp], in the same loop with its own set of terminators, bound on the
    index and array size. *)
From S2P Require Import Prelude CString.
From Stdlib Require Import Ascii.

(** [for (b = 0; !stop(ui[a]) && a < limit; a++, b++) tmp[b] = ui[a];
    tmp[b] = '\0'] with an array of [cap] characters; the index reached
    and the word. *)
Definition copy_word {S} (stop : ascii -> bool) (limit cap : Z) (ui : string) (a : Z)
  : M S (Z * string) :=
  let! r := while_ (Datatypes.S (Datatypes.S (String.length ui)))
    (fun '(a, tmp) =>
       let! c := read ui a in
       if stop c || negb (a <? limit) then ret (inr (a, tmp))
       else if strlen tmp <? cap then ret (inl (a + 1, snoc tmp c))
       else undef) (a, EmptyString) in
  let! tmp := into cap (snd r) in
  ret (fst r, tmp).

(** [for (; ui[a] == ' ' && a < limit; a++)]. *)
Definition skip_spaces {S} (limit : Z) (ui : string) (a : Z) : M S Z :=
  while_ (Datatypes.S (Datatypes.S (String.length ui)))
    (fun a =>
       let! c := read ui a in
       ret (if Ascii.eqb c " " && (a <? limit) then inl (a + 1) else inr a)) a.

(** No character of [s] satisfies [stop]. *)
Fixpoint free_of (stop : ascii -> bool) (s : string) : bool :=
  match s with
  | EmptyString => true
  | String c s' => negb (stop c) && free_of stop s'
  end.

(** ["w1 w2 ... wn"]. *)
Fixpoint unwords (ws : list string) : string :=
  match ws with
  | [] => EmptyString
  | [w] => w
  | w :: ws' => (w +:+ String " " (unwords ws'))%string
  end.

(* ------------------------------------------------------------------ *)
(** ** Facts                                                           *)
(* ------------------------------------------------------------------ *)

Lemma app_assoc_s (a b c : string) : ((a +:+ b) +:+ c = a +:+ (b +:+ c))%string.
Proof.
  induction a as [|x a IH]; [done|].
  change (String x ((a +:+ b) +:+ c)%string = String x (a +:+ (b +:+ c))%string). by rewrite IH.
Qed.
Lemma app_nil_s (a : string) : (a +:+ EmptyString)%string = a.
Proof. induction a as [|x a IH]; [done|]. change (String x (a +:+ EmptyString)%string = String x a). by rewrite IH. Qed.

Lemma get_app p s n : String.get (String.length p + n) (p +:+ s)%string = String.get n s.
Proof. induction p as [|c p IH]; [done|apply IH]. Qed.

Lemma char_at_app p s i : 0 <= i -> char_at (p +:+ s)%string (strlen p + i) = char_at s i.
Proof.
  intros Hi. unfold char_at. pose proof (strlen_nonneg p).
  rewrite (bool_decide_eq_true_2 (0 <= i)), (bool_decide_eq_true_2 (0 <= strlen p + i)) by lia.
  unfold strlen at 1. rewrite Z2Nat.inj_add, Nat2Z.id by lia.
  rewrite get_app. destruct (String.get (Z.to_nat i) s); [done|]. rewrite strlen_app.
  erewrite bool_decide_ext; [done|]. lia.
Qed.

(** The character after a known prefix. *)
Lemma read_at {S} ui p c r (Q : ascii -> S -> Prop) s a :
  ui = (p +:+ String c r)%string -> a = strlen p -> Q c s -> wp (read ui a) Q s.
Proof.
  intros -> -> HQ. unfold read. eapply wp_need; [|done].
  pose proof (char_at_app p (String c r) 0) as H. rewrite Z.add_0_r in H. by rewrite H.
Qed.

Lemma read_end {S} p (Q : ascii -> S -> Prop) s a :
  a = strlen p -> Q NUL s -> wp (read p a) Q s.
Proof.
  intros -> HQ. unfold read. eapply wp_need; [|done]. unfold char_at.
  rewrite bool_decide_eq_true_2 by apply strlen_nonneg. unfold strlen. rewrite Nat2Z.id.
  assert (String.get (String.length p) p = None) as ->.
  { induction p as [|c p IH]; [done|]. apply IH. }
  by rewrite bool_decide_eq_true_2.
Qed.

Lemma snoc_app t c s : (snoc t c +:+ s)%string = (t +:+ String c s)%string.
Proof. unfold snoc. by rewrite app_assoc_s. Qed.

(** The copy loop stops at the first terminator, the end of the string
    included. *)
Lemma copy_word_wp {S} stop limit cap p w r (Q : Z * string -> S -> Prop) s ui a :
  free_of stop w = true -> (exists c, stop c = true /\ (r = EmptyString /\ c = NUL \/ exists r', r = String c r')) ->
  ui = (p +:+ (w +:+ r))%string -> a = strlen p ->
  strlen p + strlen w < limit -> strlen w < cap ->
  Q (strlen p + strlen w, w) s -> wp (copy_word stop limit cap ui a) Q s.
Proof.
  intros Hf (c & Hc & Hr) Eui -> Hlim Hcap HQ. unfold copy_word. wp_step.
  set (post := fun x : Z * string => wp (let! tmp := into cap (snd x) in ret (fst x, tmp)) Q).
  assert (post (strlen p + strlen w, w) s) as Hpost.
  { unfold post, into. wp_step. simpl. rewrite (proj2 (Z.ltb_lt _ _)) by done. by apply wp_need with w. }
  clearbody post. clear HQ.
  assert (forall tmp w' fuel, w = (tmp +:+ w')%string -> free_of stop w' = true -> (String.length w' < fuel)%nat ->
    wp (while_ fuel (fun '(a, tmp) =>
       let! c := read ui a in
       if stop c || negb (a <? limit) then ret (inr (a, tmp))
       else if strlen tmp <? cap then ret (inl (a + 1, snoc tmp c)) else undef)
    (strlen p + strlen tmp, tmp)) post s) as Hloop.
  2:{ pose proof (Hloop EmptyString w (Datatypes.S (Datatypes.S (String.length ui))) eq_refl Hf) as H.
      rewrite Z.add_0_r in H. apply H. pose proof (strlen_app p (w +:+ r)).
      pose proof (strlen_app w r). pose proof (strlen_nonneg p). rewrite <- Eui in *.
      unfold strlen in *. lia. }
  clear Hf. intros tmp w'. revert tmp. induction w' as [|d w' IH]; intros tmp fuel Ew Hf Hfuel;
    (destruct fuel as [|f]; [simpl in Hfuel; lia|]); cbn [while_]; wp_step; wp_step.
  - rewrite app_nil_s in Ew. subst tmp. rewrite <- app_assoc_s in Eui.
    assert (wp (read ui (strlen p + strlen w)) (fun c' s' => c' = c /\ s' = s) s) as H.
    { destruct Hr as [[-> ->]|[r' ->]].
      - apply read_end; [|done]. by rewrite Eui, app_nil_s, strlen_app.
      - eapply read_at; [done|by rewrite strlen_app|done]. }
    eapply wp_mono; [done|]. intros c' s' [-> ->]. rewrite Hc. by apply wp_ret, wp_ret.
  - eapply (read_at _ (p +:+ tmp)%string d (w' +:+ r)).
    { rewrite Eui, Ew. by rewrite !app_assoc_s. }
    { by rewrite strlen_app. }
    simpl in Hf. apply andb_true_iff in Hf as [Hd Hf]. apply negb_true_iff in Hd. rewrite Hd.
    assert (strlen w = strlen tmp + 1 + strlen w') as Hlw.
    { rewrite Ew, strlen_app. unfold strlen. simpl. lia. }
    pose proof (strlen_nonneg w').
    rewrite (proj2 (Z.ltb_lt _ limit)) by lia. simpl.
    rewrite (proj2 (Z.ltb_lt _ cap)) by lia. apply wp_ret.
    replace (strlen p + strlen tmp + 1) with (strlen p + strlen (snoc tmp d)) by (rewrite strlen_snoc; lia).
    apply (IH (snoc tmp d) f); [by rewrite snoc_app|done|simpl in Hfuel; lia].
Qed.

(** No leading space: nothing is skipped. *)
Lemma skip_none_wp {S} limit p c r (Q : Z -> S -> Prop) s ui a :
  ui = (p +:+ String c r)%string -> a = strlen p -> Ascii.eqb c " " = false ->
  Q a s -> wp (skip_spaces limit ui a) Q s.
Proof.
  intros E Ea Hc HQ. unfold skip_spaces. cbn [while_]. wp_step. wp_step.
  eapply read_at; [done..|]. rewrite Hc. by apply wp_ret, wp_ret.
Qed.

(** [n] spaces. *)
Fixpoint spaces (n : nat) : string :=
  match n with O => EmptyString | Datatypes.S n => String " " (spaces n) end.
Lemma length_spaces n : String.length (spaces n) = n.
Proof. induction n as [|n IH]; simpl; by rewrite ?IH. Qed.

Lemma not_space d r : Ascii.eqb d " " = false -> forall r', String d r <> String " " r'.
Proof. intros H r' [= -> _]. by vm_compute in H. Qed.

(** The index moves over [n] spaces and stops at the rest [s]. *)
Lemma skip_spaces_Ok {S} n p s ui (k : S) :
  ui = (p +:+ (spaces n +:+ s))%string -> (forall r, s <> String " " r) -> strlen ui < 1000 ->
  skip_spaces 1000 ui (strlen p) k = Ok (strlen p + Z.of_nat n) k [].
Proof.
  intros Eui Hs Hlen. unfold skip_spaces.
  assert (forall m p f, ui = (p +:+ (spaces m +:+ s))%string -> (m < f)%nat ->
    while_ f (fun a => let! c := read ui a in ret (if Ascii.eqb c " " && (a <? 1000) then inl (a + 1) else inr a))
      (strlen p) k = Ok (strlen p + Z.of_nat m) k []) as H.
  { clear p Eui. induction m as [|m IH]; intros p f Eui Hf; (destruct f as [|f]; [lia|]).
    - rewrite Z.add_0_r. apply while_exit, silent_Ok. wp_step. destruct s as [|c s].
      + apply read_end; [rewrite Eui; change (spaces 0 +:+ ""%string)%string with EmptyString; by rewrite app_nil_s|].
        by apply wp_ret.
      + eapply (read_at _ p c s); [done..|]. destruct (Ascii.eqb_spec c " ") as [->|_]; [by destruct (Hs s)|].
        by apply wp_ret.
    - rewrite (while_turn _ _ _ _ (strlen p + 1) k).
      + replace (strlen p + 1) with (strlen (p +:+ String " " EmptyString)%string)
          by (rewrite strlen_app; unfold strlen; simpl; lia).
        rewrite IH; [|by rewrite Eui, app_assoc_s|lia]. f_equal. rewrite strlen_app. unfold strlen. simpl. lia.
      + apply silent_Ok. wp_step. eapply (read_at _ p " " (spaces m +:+ s)%string); [done..|].
        rewrite (proj2 (Z.ltb_lt (strlen p) 1000)); [by apply wp_ret|].
        rewrite Eui, strlen_app in Hlen. pose proof (strlen_nonneg (spaces m +:+ s)%string).
        unfold strlen in *. simpl in *. lia. }
  apply H; [done|]. assert (strlen ui = strlen p + Z.of_nat n + strlen s) as Hl.
  { rewrite Eui, !strlen_app. unfold strlen at 2. rewrite length_spaces. lia. }
  pose proof (strlen_nonneg s). pose proof (strlen_nonneg p). unfold strlen in *. lia.
Qed.

Lemma cut_id stop w : free_of stop w = true -> cut stop w = w.
Proof.
  induction w as [|c w IH]; simpl; [done|]. intros [H1%negb_true_iff H2]%andb_true_iff.
  by rewrite H1, IH.
Qed.

(** Comparing literal words. *)
Ltac decide_words :=
  repeat match goal with
  | |- context [streq ?a ?b] =>
      let v := eval vm_compute in (streq a b) in
      match v with true => idtac | false => idtac end; change (streq a b) with v
  end.
