(* ===== verification/Console.v ===== *)
(** * Console: the main loops of the three shells (main of a1/shell.c,
    a2/shell.c and a3/shell.c)

    Each reads a line of at most 998 characters from stdin and executes it,
    for ever.  At the end of stdin, which may be a file, the shell goes on
    with the terminal. *)
From S2P Require Import Prelude CString Words.
From Stdlib Require Import Ascii.

Module Console.
Open Scope string_scope. Open Scope Z_scope.

Definition MAX_USER_INPUT : Z := 1000.

(** stdin ([None] when freopen failed, which closes it), whether it is a
    terminal, and what opening /dev/tty once more will give to read; there
    is no terminal when that is empty. *)
Record console := mkConsole { stdin : option FILE; tty : bool; terminals : list string }.

(** The line, in an array that is all zeros before: fgets leaves it so
    when there is nothing to read. *)
Definition read_line {S} (c : console) : M S (string * console) :=
  when (tty c) (print "$ ") ;;
  let! f := need (stdin c) in
  let '(l, f) := fgets (MAX_USER_INPUT - 1) f in
  let userInput := default EmptyString l in
  if feof f then
    ret (userInput, match terminals c with
                    | [] => mkConsole None false []
                    | t :: ts => mkConsole (Some (mkFILE t false)) true ts
                    end)
  else ret (userInput, mkConsole (Some f) (tty c) (terminals c)).

Section loop.
Context {S : Type}.
Variable parse : string -> M S Z.

Definition command (userInput : string) : M S unit :=
  let! errorCode := parse userInput in
  when (errorCode =? -1) (exit_with 99).

(** [turns] of the loop, which has no end but that of the shell. *)
Fixpoint shell_loop (turns : nat) (c : console) : M S console :=
  match turns with
  | O => ret c
  | Datatypes.S turns =>
      let! r := read_line c in
      command (fst r) ;;
      shell_loop turns (snd r)
  end.

Fixpoint run_lines (ls : list string) : M S unit :=
  match ls with
  | [] => ret tt
  | l :: ls => command l ;; run_lines ls
  end.

(* ------------------------------------------------------------------ *)
(** ** A script on stdin                                               *)
(* ------------------------------------------------------------------ *)

(** A line that is read in one piece. *)
Definition whole (l : string) : Prop := has_lf l = false /\ strlen l < 998.

Lemma fgets_lf n l r e :
  has_lf l = false -> strlen l < n - 1 ->
  fgets n (mkFILE (l +:+ String LF r) e) = (Some (l +:+ nl), mkFILE r e).
Proof.
  intros Hl Hn. unfold fgets. cbn [rest feof]. rewrite take_line_lf by (unfold strlen in Hn; (done || lia)).
  rewrite has_lf_snoc. cbn [negb andb]. rewrite orb_false_r. by destruct l.
Qed.

Lemma take_line_all l n : has_lf l = false -> (String.length l <= n)%nat -> take_line n l = (l, EmptyString).
Proof.
  revert n. induction l as [|c l IH]; intros n Hl Hn; [by destruct n|].
  simpl in Hl. apply orb_false_iff in Hl as [Hc Hl]. simpl in Hn.
  destruct n as [|n]; [lia|]. simpl. by rewrite Hc, IH by (done || lia).
Qed.

Lemma fgets_rest n l :
  has_lf l = false -> strlen l < n - 1 ->
  default EmptyString (fst (fgets n (mkFILE l false))) = l /\ snd (fgets n (mkFILE l false)) = mkFILE EmptyString true.
Proof.
  intros Hl Hn. unfold fgets. cbn [rest feof]. rewrite take_line_all by (unfold strlen in Hn; (done || lia)).
  destruct l as [|c l]; [done|]. rewrite Hl, (proj2 (Z.ltb_lt _ _)) by done. done.
Qed.

Lemma bind_ext {A B} (m : M S A) (f g : A -> M S B) s :
  (forall a s', f a s' = g a s') -> bind m f s = bind m g s.
Proof. intros H. unfold bind. destruct (m s); [|done..]. by rewrite H. Qed.

Lemma read_line_more l r ts (s : S) :
  whole l ->
  read_line (mkConsole (Some (mkFILE (l +:+ String LF r) false)) false ts) s
  = Ok (l +:+ nl, mkConsole (Some (mkFILE r false)) false ts) s [].
Proof.
  intros [Hl Hn]. unfold read_line. cbn [tty stdin terminals when need]. rewrite !bind_ret.
  by rewrite fgets_lf by (done || unfold MAX_USER_INPUT; lia).
Qed.
Lemma read_line_last l t ts (s : S) :
  whole l ->
  read_line (mkConsole (Some (mkFILE l false)) false (t :: ts)) s
  = Ok (l, mkConsole (Some (mkFILE t false)) true ts) s [].
Proof.
  intros [Hl Hn]. unfold read_line. cbn [tty stdin terminals when need]. rewrite !bind_ret.
  destruct (fgets_rest (MAX_USER_INPUT - 1) l) as [E1 E2]; [done|unfold MAX_USER_INPUT; lia|].
  destruct (fgets _ _) as [o f]. simpl in E1, E2. by subst.
Qed.

(** The lines of stdin are executed one after the other, whatever follows
    them. *)
Lemma first_lines ls n rest ts s :
  Forall whole ls ->
  shell_loop (length ls + n)
    (mkConsole (Some (mkFILE (foldr (fun l r => l +:+ String LF r) rest ls) false)) false ts) s
  = (run_lines (map (fun l => l +:+ nl) ls) ;; shell_loop n (mkConsole (Some (mkFILE rest false)) false ts)) s.
Proof.
  intros Hls. revert s. induction Hls as [|l ls Hl Hls IH]; intros s; [by cbn [map run_lines]; rewrite bind_ret|].
  cbn [length foldr map run_lines Nat.add]. cbn [shell_loop].
  rewrite (bind_Ok_nil _ _ _ _ _ (read_line_more _ _ _ _ Hl)), bind_assoc. cbn [fst snd].
  apply bind_ext. intros a s'. apply IH.
Qed.
Lemma run_lines_app ls ls' s : run_lines (ls ++ ls')%list s = (run_lines ls ;; run_lines ls') s.
Proof.
  revert s. induction ls as [|l ls IH]; intros s; cbn [app run_lines]; [by rewrite bind_ret|].
  rewrite bind_assoc. apply bind_ext. intros a s'. apply IH.
Qed.

(** What the three shells make of a script on stdin: every line is
    executed, newline included, in its order, no line is lost, repeated or
    cut, until one of them ends the shell; then what follows the last
    newline is executed, an empty line when nothing does; and the shell is
    at the terminal. *)
Theorem script_on_stdin ls last t ts s :
  Forall whole ls -> whole last ->
  shell_loop (Datatypes.S (length ls))
    (mkConsole (Some (mkFILE (foldr (fun l r => l +:+ String LF r) last ls) false)) false (t :: ts)) s
  = (run_lines (map (fun l => l +:+ nl) ls ++ [last])%list ;; ret (mkConsole (Some (mkFILE t false)) true ts)) s.
Proof.
  intros Hls Hlast. replace (Datatypes.S (length ls)) with (length ls + 1)%nat by lia. rewrite first_lines by done.
  transitivity ((run_lines (map (fun l => l +:+ nl) ls) ;; run_lines [last] ;;
    ret (mkConsole (Some (mkFILE t false)) true ts)) s).
  - apply bind_ext. intros _ s'. cbn [shell_loop run_lines].
    rewrite (bind_Ok_nil _ _ _ _ _ (read_line_last _ _ _ _ Hlast)). cbn [fst snd]. by rewrite bind_assoc.
  - rewrite <- bind_assoc. unfold bind at 1 3. by rewrite run_lines_app.
Qed.
End loop.

(** Without a terminal, the turn after the end of stdin reads a stream
    that is closed. *)
Lemma no_terminal_is_undefined {S} (parse : string -> M S Z) s :
  shell_loop parse 2 (mkConsole (Some (mkFILE EmptyString false)) false []) s
  = (command parse EmptyString ;; undef) s.
Proof.
  cbn [shell_loop]. erewrite bind_Ok_nil by reflexivity. by apply bind_ext.
Qed.

Definition demo_parse (ui : string) : M unit Z :=
  print ui ;; ret (if streq ui ("quit" +:+ nl) then -1 else 0).

Lemma script_on_stdin_witness :
  shell_loop demo_parse 3
    (mkConsole (Some (mkFILE ("echo a" +:+ nl +:+ "quit" +:+ nl +:+ "echo b") false)) false [""]) tt
  = Exit 99 tt [Print ("echo a" +:+ nl); Print ("quit" +:+ nl)].
Proof.
  etransitivity; [apply (script_on_stdin demo_parse ["echo a"; "quit"] "echo b" "" [] tt)|reflexivity].
  - repeat constructor.
  - by split.
Defined.
End Console.
