(* ===== verification/A1Memory.v ===== *)
(** * A1Memory: the variable memory of the first shell
    (a1/shellmemory.c) *)
From S2P Require Import Prelude CString VarSpec.
From Stdlib Require Import Ascii.

Module A1Memory.
Import VarSpec.
Open Scope string_scope. Open Scope Z_scope.

(** [shellmemory], an array of 1000 (var, value) slots.  No slot is ever
    freed, so a [char *] is the string it points to. *)
Definition MEM_SIZE : nat := 1000.

Definition slot (i : Z) : M slots (string * string) :=
  let! m := get in need (zget m i).
Definition set_slot (i : Z) (kv : string * string) : M slots unit :=
  let! m := get in let! m' := need (zset m i kv) in put m'.

(** The helper [match]: it reads [model] up to the length of [var], past
    the end of a shorter [model]. *)
Definition match_ {St} (model var : string) : M St Z :=
  let len := strlen var in
  let! matchCount := for_acc (Z.to_nat len) 0
    (fun i n =>
       let! x := read model i in
       let! y := read var i in
       ret (if Ascii.eqb x y then n + 1 else n)) 0 in
  ret (if matchCount =? len then 1 else 0).

(** The helper [extract]: what follows the first '=' sign, through a
    buffer of 1000 characters. *)
Definition extract {St} (model : string) : M St string :=
  let len := strlen model in
  let! i := while_ (S (String.length model))
    (fun i =>
       if negb (i <? len) then ret (inr i) else
       let! c := read model i in
       ret (if negb (Ascii.eqb c "="%char) then inl (i + 1) else inr i)) 0 in
  let! value := for_acc (Z.to_nat (len - (i + 1))) (i + 1)
    (fun i v =>
       let! c := read model i in
       need (if strlen v <? 1000 then Some (snoc v c) else None)) EmptyString in
  into 1000 value.

Definition mem_init : M slots unit :=
  for_ MEM_SIZE 0 (fun i => set_slot i ("none", "none")).

Definition mem_set_value (var_in value_in : string) : M slots unit :=
  let! r := search slot MEM_SIZE 0 var_in (fun i kv => set_slot i (fst kv, value_in)) in
  match r with
  | Some _ => ret tt
  | None =>
      search slot MEM_SIZE 0 "none" (fun i _ => set_slot i (var_in, value_in)) ;;
      ret tt
  end.

(** [None] is NULL. *)
Definition mem_get_value (var_in : string) : M slots (option string) :=
  search slot MEM_SIZE 0 var_in (fun i _ => let! kv := slot i in ret (snd kv)).

(* ------------------------------------------------------------------ *)
(** ** Facts                                                           *)
(* ------------------------------------------------------------------ *)

Lemma a1_slot_ok m i kv : m !! i = Some kv -> slot (0 + Z.of_nat i) m = Ok kv m [].
Proof.
  intros H. unfold slot, bind, get, need. simpl.
  rewrite zget_lookup by lia. rewrite Z.add_0_l, Nat2Z.id. by rewrite H.
Qed.

Lemma a1_set_slot_wp m i kv (Q : unit -> slots -> Prop) :
  (i < length m)%nat -> Q tt (<[i := kv]> m) -> wp (set_slot (0 + Z.of_nat i) kv) Q m.
Proof.
  intros Hi HQ. unfold set_slot. do 2 wp_step. wp_step. eapply wp_need.
  - apply zset_Some. lia.
  - apply wp_put. by rewrite Z.add_0_l, Nat2Z.id.
Qed.

Lemma a1_mem_set_value_wp m k v (Q : unit -> slots -> Prop) :
  length m = MEM_SIZE -> Q tt (vset m k v) -> wp (mem_set_value k v) Q m.
Proof.
  intros Hm HQ. unfold mem_set_value, vset in *. rewrite <- Hm. wp_step.
  apply search_wp; [apply a1_slot_ok| |].
  - intros i w Hi Hw. simpl. rewrite Hi in HQ. apply a1_set_slot_wp; [by eapply lookup_lt_Some|].
    by apply wp_ret.
  - intros Hn. rewrite Hn in HQ. wp_step. apply search_wp; [apply a1_slot_ok| |].
    + intros i w Hi Hw. rewrite Hi in HQ. apply a1_set_slot_wp; [by eapply lookup_lt_Some|].
      by apply wp_ret.
    + intros Hn2. rewrite Hn2 in HQ. by apply wp_ret.
Qed.

Lemma a1_mem_get_value_wp m k (Q : option string -> slots -> Prop) :
  length m = MEM_SIZE -> Q (vget m k) m -> wp (mem_get_value k) Q m.
Proof.
  intros Hm HQ. unfold mem_get_value, vget in *. rewrite <- Hm. apply search_wp; [apply a1_slot_ok| |].
  - intros i v Hi Hv. rewrite Hi in HQ. simpl in HQ. rewrite Hv in HQ. wp_step. apply wp_Ok.
    exists (k, v), m. split; [by apply a1_slot_ok|]. by apply wp_ret.
  - intros Hn. by rewrite Hn in HQ.
Qed.

Lemma mem_init_wp m (Q : unit -> slots -> Prop) :
  length m = MEM_SIZE -> Q tt (replicate MEM_SIZE ("none", "none")) -> wp mem_init Q m.
Proof.
  intros Hm HQ. unfold mem_init.
  apply (wp_for (fun i m' => length m' = MEM_SIZE /\
     forall j, (Z.of_nat j < i) -> m' !! j = Some ("none", "none"))).
  - split; [done|]. lia.
  - intros i m' Hi [Hl Hj]. rewrite <- (Z2Nat.id i), <- (Z.add_0_l (Z.of_nat _)) by lia.
    apply a1_set_slot_wp; [lia|]. split; [by rewrite length_insert|]. intros j Hji.
    destruct (decide (j = Z.to_nat i)) as [->|Hne]; [apply list_lookup_insert_eq; lia|].
    rewrite list_lookup_insert_ne by done. apply Hj. lia.
  - intros m' [Hl Hj]. assert (m' = replicate MEM_SIZE ("none", "none")) as ->; [|done].
    apply list_eq_same_length with MEM_SIZE; [by rewrite length_replicate|done|].
    intros j x y Hlt Hx Hy. rewrite Hj in Hx by lia. apply lookup_replicate in Hy as [-> _]. congruence.
Qed.
End A1Memory.
