(* ===== verification/A1Shell.v ===== *)
(** * A1Shell: the parser and the interpreter of the first shell
    (a1/shell.c, a1/interpreter.c)

    parseInput and interpreter call each other (run and if parse lines of
    their own); the interpreter is written over the [parse] it calls, and
    [parseInput] ties the knot with fuel for the nesting.  The operating
    system is a parameter: the contents of files, and the calls that
    change the host. *)
From S2P Require Import Prelude CString VarSpec Words Console A1Memory.
From Stdlib Require Import Ascii.

Module A1Shell.
Import VarSpec Console A1Memory.
Open Scope string_scope. Open Scope Z_scope.

Definition MAX_ARGS_SIZE : Z := 3.

Section shell.
(** The host, the contents of a file that fopen can open for reading,
    system, mkdir(., 0700), chdir, and fopen(., "w") (NULL on failure). *)
Context {Host : Type}.
Variable file_content : Host -> string -> option string.
Variables system mkdir chdir : string -> Host -> Z * Host.
Variable fopen_w : string -> Host -> option Host.
(** What a caller reads as the result of the if command, whose branch of
    interpreter ends without a return statement. *)
Variable garbage : Z.

Record st := mkSt { shellmemory : slots; host : Host }.

Definition on_memory {A} (m : M slots A) : M st A :=
  zoom shellmemory (fun x s => mkSt x (host s)) m.
Definition on_host (f : Host -> Z * Host) : M st Z :=
  fun s => let '(r, h) := f (host s) in Ok r (mkSt (shellmemory s) h) [].

Definition puts (s : string) : M st unit := print (s +:+ nl).

Definition badcommand : M st Z := puts "Unknown Command" ;; ret 1.
Definition badcommandFileDoesNotExist : M st Z := puts "Bad command: File not found" ;; ret 3.
Definition badcommandSet : M st Z := puts "Bad command: set" ;; ret 4.
Definition badcommandCD : M st Z := puts "Bad command: my_cd" ;; ret 5.
Definition badcommandCat : M st Z := puts "Bad command: my_cat" ;; ret 6.
Definition badcommandWC : M st Z := puts "Bad command: my_wc" ;; ret 7.
Definition badcommandEmptyif : M st Z := puts "Empty if clause" ;; ret 6.
Definition badcommandIf : M st Z := puts "Bad command: if" ;; ret 6.

(* ------------------------------------------------------------------ *)
(** ** Commands                                                        *)
(* ------------------------------------------------------------------ *)

Definition help_string : string :=
  "COMMAND" +:+ tab +:+ tab +:+ tab +:+ "DESCRIPTION" +:+ nl +:+
  " help" +:+ tab +:+ tab +:+ tab +:+ "Displays all the commands" +:+ nl +:+
  " quit" +:+ tab +:+ tab +:+ tab +:+ "Exits / terminates the shell with “Bye!”" +:+ nl +:+
  " set VAR STRING" +:+ tab +:+ tab +:+ "Assigns a value to shell memory" +:+ nl +:+
  " print VAR" +:+ tab +:+ tab +:+ "Displays the STRING assigned to VAR" +:+ nl +:+
  " run SCRIPT.TXT" +:+ tab +:+ tab +:+ "Executes the file SCRIPT.TXT" +:+ nl +:+ " ".

Definition help : M st Z := puts help_string ;; ret 0.
Definition quit : M st Z := puts "Bye!" ;; exit_with 0.

Definition set_ (var value : string) : M st Z :=
  let! buffer := into 1000 var in
  let! buffer := into 1000 (buffer +:+ "=") in
  let! buffer := into 1000 (buffer +:+ value) in
  on_memory (mem_set_value var value) ;;
  ret 0.

Definition print_ (var : string) : M st Z :=
  let! value := on_memory (mem_get_value var) in
  puts (default nl value) ;;
  ret 0.

Definition echo (var : string) : M st Z :=
  match var with
  | String "$" v => print_ v ;; ret 0
  | _ => puts var ;; ret 0
  end.

Definition my_ls : M st Z := on_host (system "ls").
Definition my_mkdir (dirname : string) : M st Z := on_host (mkdir dirname).
(** fclose(NULL) when the file cannot be created. *)
Definition my_touch (filename : string) : M st Z :=
  let! s := get in
  let! h := need (fopen_w filename (host s)) in
  put (mkSt (shellmemory s) h) ;; ret 0.
Definition my_cd (dirname : string) : M st Z :=
  let! r := on_host (chdir dirname) in
  if r =? 0 then ret 0 else badcommandCD.

Fixpoint putchars (cs : list ascii) : M st unit :=
  match cs with
  | [] => ret tt
  | c :: cs' => print (String c EmptyString) ;; putchars cs'
  end.
Definition my_cat (filename : string) : M st Z :=
  let! s := get in
  match file_content (host s) filename with
  | Some content => putchars (chars content) ;; ret 0
  | None => badcommandCat
  end.

(** The loop of my_wc over what getc returns: lines, words, characters
    and [inWord]. *)
Record wc := mkWc { lines : Z; words : Z; characters : Z; inWord : bool }.
Definition is_white (c : ascii) : bool :=
  Ascii.eqb c " " || Ascii.eqb c TAB || Ascii.eqb c LF.
Definition wc_step (x : wc) (character : ascii) : wc :=
  let n := characters x + 1 in
  let l := if Ascii.eqb character LF then lines x + 1 else lines x in
  if is_white character then mkWc l (words x) n false
  else if negb (inWord x) then mkWc l (words x + 1) n true
  else mkWc l (words x) n true.
Definition wc_count (content : string) : wc :=
  foldl wc_step (mkWc 0 0 0 false) (chars content).
Definition my_wc (filename : string) : M st Z :=
  let! s := get in
  match file_content (host s) filename with
  | None => badcommandWC
  | Some content =>
      let r := wc_count content in
      print ("Lines: " +:+ pretty (lines r) +:+ nl +:+ "Words: " +:+ pretty (words r) +:+ nl
             +:+ "Characters: " +:+ pretty (characters r) +:+ nl) ;;
      ret 0
  end.

Section over_parse.
Variable parse : string -> M st Z.

(** One turn of the loop of run, with the contents of [line]. *)
Definition run_step (x : string * FILE * Z) : M st (string * FILE * Z + Z) :=
  let '(line, p, _) := x in
  let! errCode := parse line in
  if feof p then ret (inr errCode)
  else let '(l, p') := fgets 999 p in ret (inl (default EmptyString l, p', errCode)).

(** [line] is not initialised when the first fgets reads nothing. The
    script is read as it was when it was opened: what its own commands
    write to it is not seen. *)
Definition run (script : string) : M st Z :=
  let! s := get in
  match file_content (host s) script with
  | None => badcommandFileDoesNotExist
  | Some content =>
      let '(l, p) := fgets 999 (mkFILE content false) in
      let! line := need l in
      while_ (S (S (String.length content))) run_step (line, p, 0)
  end.

(** [command_args[i]]: the entries past [args_size] are not initialised. *)
Definition arg (command_args : list string) (i : Z) : M st string := need (zget command_args i).

(** strcpy of word [from], then strcat of a space and a word for each of
    the words up to [to], excluded. *)
Definition join_args (command_args : list string) (from to : Z) : M st string :=
  let! w := arg command_args from in
  let! command := into 800 w in
  for_acc (Z.to_nat (to - (from + 1))) (from + 1)
    (fun i command =>
       let! command := into 800 (command +:+ " ") in
       let! w := arg command_args i in
       into 800 (command +:+ w)) command.

(** The value of an operand of if: the variable's when it starts with $,
    [None] for the NULL of an unknown variable. *)
Definition operand (identifier : string) : M st (option string) :=
  match identifier with
  | String "$" v => on_memory (mem_get_value v)
  | _ => ret (Some identifier)
  end.

Definition if_ (args : list string) : M st Z :=
  let args_size := zlen args in
  let! a5 := arg args 5 in
  if streq a5 "fi" then badcommandEmptyif else
  let! op := arg args 2 in
  if negb (streq op "==") && negb (streq op "!=") then badcommandIf else
  let! a1 := arg args 1 in
  let! v1 := operand a1 in
  match v1 with
  | None => badcommandIf
  | Some identifier1 =>
  let! a3 := arg args 3 in
  let! v2 := operand a3 in
  match v2 with
  | None => badcommandIf
  | Some identifier2 =>
  let condition := (streq identifier1 identifier2 && streq op "==")
                   || (negb (streq identifier1 identifier2) && streq op "!=") in
  let! else_index := for_find (Z.to_nat (args_size - 5)) 5
    (fun i => let! w := arg args i in ret (if streq w "else" then Some i else None)) in
  match else_index with
  | None => badcommandIf
  | Some else_index =>
      let! command :=
        (if condition : bool then join_args args 5 else_index
         else join_args args (else_index + 1) (args_size - 1)) in
      parse command ;;
      ret garbage
  end
  end
  end.

Definition is_crlf (c : ascii) : bool := Ascii.eqb c CR || Ascii.eqb c LF.

Definition interpreter (command_args : list string) : M st Z :=
  let args_size := zlen command_args in
  if args_size <? 1 then badcommand else
  let! a0 := arg command_args 0 in
  if (MAX_ARGS_SIZE <? args_size) && negb (streq a0 "set") && negb (streq a0 "if") then badcommand
  else
  let args := map (cut is_crlf) command_args in
  let! a0 := arg args 0 in
  if streq a0 "help" then (if negb (args_size =? 1) then badcommand else help)
  else if streq a0 "quit" then (if negb (args_size =? 1) then badcommand else quit)
  else if streq a0 "set" then
    if (args_size <? 3) || (7 <? args_size) then badcommandSet else
    let! value := join_args args 2 args_size in
    let! var := arg args 1 in
    set_ var value
  else if streq a0 "print" then
    if negb (args_size =? 2) then badcommand else let! a := arg args 1 in print_ a
  else if streq a0 "run" then
    if negb (args_size =? 2) then badcommand else let! a := arg args 1 in run a
  else if streq a0 "echo" then
    if 2 <? args_size then badcommand else let! a := arg args 1 in echo a
  else if streq a0 "my_ls" then (if 1 <? args_size then badcommand else my_ls)
  else if streq a0 "my_mkdir" then
    if negb (args_size =? 2) then badcommand else let! a := arg args 1 in my_mkdir a
  else if streq a0 "my_touch" then
    if negb (args_size =? 2) then badcommand else let! a := arg args 1 in my_touch a
  else if streq a0 "my_cd" then
    if negb (args_size =? 2) then badcommandCD else let! a := arg args 1 in my_cd a
  else if streq a0 "my_cat" then
    if negb (args_size =? 2) then badcommandCat else let! a := arg args 1 in my_cat a
  else if streq a0 "if" then if_ args
  else if streq a0 "my_wc" then
    if negb (args_size =? 2) then badcommand else let! a := arg args 1 in my_wc a
  else badcommand.
End over_parse.

(* ------------------------------------------------------------------ *)
(** ** parseInput                                                      *)
(* ------------------------------------------------------------------ *)

Definition word_end (c : ascii) : bool :=
  Ascii.eqb c ";" || Ascii.eqb c NUL || Ascii.eqb c LF || Ascii.eqb c " ".

(** One turn of the outer loop: [words] are those found so far. *)
Definition parse_step (ui : string) (x : Z * list string) : M st (Z * list string + list string) :=
  let '(a, words) := x in
  let! c := read ui a in
  if Ascii.eqb c LF || Ascii.eqb c NUL || negb (a <? 1000) then ret (inr words) else
  let! r := copy_word word_end 1000 200 ui a in
  let '(a, tmp) := r in
  let! words := need (if zlen words <? 100 then Some (app words [tmp]) else None) in
  let! c := read ui a in
  if Ascii.eqb c NUL then ret (inr words) else ret (inl (a + 1, words)).

(** The words of a line. *)
Definition parse_words (ui : string) : M st (list string) :=
  let! a := skip_spaces 1000 ui 0 in
  while_ (S (S (String.length ui))) (parse_step ui) (a, []).

Fixpoint parseInput (fuel : nat) (ui : string) : M st Z :=
  match fuel with
  | O => out_of_fuel
  | S f => let! ws := parse_words ui in interpreter (parseInput f) ws
  end.

(** main, for [turns] of its loop; [fuel] is that of parseInput. *)
Definition main (fuel turns : nat) (c : console) : M st console :=
  puts "Shell v1.0" ;;
  help ;;
  on_memory mem_init ;;
  shell_loop (parseInput fuel) turns c.

(* ------------------------------------------------------------------ *)
(** ** Facts about the parser                                          *)
(* ------------------------------------------------------------------ *)

(** A word that the parser keeps whole. *)
Definition plain (w : string) : Prop :=
  w <> EmptyString /\ free_of word_end w = true /\ strlen w < 200.

Lemma free_of_head stop c w : free_of stop (String c w) = true -> stop c = false.
Proof. simpl. intros [H%negb_true_iff _]%andb_true_iff. done. Qed.

Lemma parse_loop_wp ui ws p acc fuel (Q : list string -> st -> Prop) s :
  ws <> [] -> Forall plain ws ->
  ui = (p +:+ (unwords ws +:+ nl)) -> strlen ui < 1000 ->
  zlen acc + zlen ws <= 100 -> (length ws < fuel)%nat -> Q (acc ++ ws)%list s ->
  wp (while_ fuel (parse_step ui) (strlen p, acc)) Q s.
Proof.
  revert p acc fuel. induction ws as [|w ws IH]; intros p acc fuel Hne Hp Eui Hlen Hcnt Hfuel HQ; [done|].
  apply Forall_cons in Hp as [(Hw & Hfree & Hw200) Hp'].
  destruct fuel as [|f]; [simpl in Hfuel; lia|]. cbn [while_]. wp_step. unfold parse_step. wp_step.
  set (r := match ws with [] => nl | _ => String " " (unwords ws +:+ nl) end).
  assert (unwords (w :: ws) +:+ nl = w +:+ r) as Er.
  { subst r. destruct ws as [|w2 ws]; [done|].
    change (unwords (w :: w2 :: ws)) with (w +:+ String " " (unwords (w2 :: ws))). by rewrite app_assoc_s. }
  rewrite Er in Eui. destruct w as [|c w]; [done|]. pose proof (free_of_head _ _ _ Hfree) as Hc.
  pose proof (strlen_nonneg r). pose proof (strlen_nonneg p).
  assert (strlen ui = strlen p + strlen (String c w) + strlen r) as Hui by (rewrite Eui, !strlen_app; lia).
  eapply (read_at _ p c (w +:+ r)); [by rewrite Eui|done|].
  unfold word_end in Hc. rewrite !orb_false_iff in Hc. destruct Hc as [[[_ ->] ->] _].
  rewrite (proj2 (Z.ltb_lt _ 1000)) by (pose proof (strlen_nonneg (String c w)); lia). simpl.
  assert (exists d r', r = String d r' /\ word_end d = true /\ Ascii.eqb d NUL = false) as (d & r' & Erd & Hd & Hd0).
  { subst r. destruct ws; do 2 eexists; split; [done|by vm_compute|done|by vm_compute]. }
  wp_step. eapply (copy_word_wp word_end 1000 200 p (String c w) r); [done| |done|done| |done|].
  { exists d. split; [done|]. right. by exists r'. }
  { assert (0 < strlen r) by (rewrite Erd; unfold strlen; simpl; lia). lia. }
  wp_step. rewrite (proj2 (Z.ltb_lt _ 100)) by (simpl in Hcnt; lia). apply wp_ret.
  wp_step. eapply (read_at _ (p +:+ String c w) d r'); [by rewrite Eui, Erd, app_assoc_s|by rewrite strlen_app|].
  rewrite Hd0. apply wp_ret. replace (strlen p + strlen (String c w) + 1)
    with (strlen (p +:+ (String c w +:+ String d EmptyString))) by (rewrite !strlen_app; unfold strlen; simpl; lia).
  destruct ws as [|w2 ws].
  - destruct f as [|f]; [simpl in Hfuel; lia|]. cbn [while_]. wp_step. unfold parse_step. wp_step.
    injection Erd as <- <-. apply read_end; [by rewrite Eui|]. by apply wp_ret, wp_ret.
  - injection Erd as <- <-. apply IH; [done|done| |done|rewrite zlen_app; simpl in *; lia|simpl in *; lia|].
    + by rewrite Eui, !app_assoc_s.
    + by rewrite <- app_assoc.
Qed.

Lemma parse_words_wp ws (Q : list string -> st -> Prop) s :
  ws <> [] -> Forall plain ws -> strlen (unwords ws +:+ nl) < 1000 -> zlen ws <= 100 ->
  Q ws s -> wp (parse_words (unwords ws +:+ nl)) Q s.
Proof.
  intros Hne Hp Hlen Hcnt HQ. unfold parse_words. wp_step.
  destruct ws as [|w ws]; [done|]. inversion Hp as [|? ? (Hw & Hfree & _) _]; subst.
  destruct w as [|c w]; [done|]. pose proof (free_of_head _ _ _ Hfree) as Hc.
  unfold word_end in Hc. rewrite !orb_false_iff in Hc. destruct Hc as [_ Hc].
  assert (exists r, unwords (String c w :: ws) +:+ nl = String c r) as [r Er].
  { destruct ws; [by exists (w +:+ nl)|]. by eexists. }
  eapply (skip_none_wp 1000 EmptyString c r); [by rewrite Er|done|done|].
  apply (parse_loop_wp _ (String c w :: ws) EmptyString []); [done|done|done|done|simpl in *; lia| |done].
  pose proof Hp as Hlen2. clear -Hp. revert Hp. generalize (String c w :: ws) as l. intros l Hp.
  assert (Z.of_nat (length l) <= strlen (unwords l)) as Hl.
  { induction Hp as [|w1 l (Hw1 & _ & _) Hp IH]; [done|].
    assert (0 < strlen w1) by (destruct w1; [done|]; unfold strlen; simpl; lia).
    destruct l as [|w2 l]; [simpl; lia|].
    change (unwords (w1 :: w2 :: l)) with (w1 +:+ String " " (unwords (w2 :: l))).
    rewrite strlen_app. assert (strlen (String " " (unwords (w2 :: l))) = 1 + strlen (unwords (w2 :: l))) as ->
      by (unfold strlen; simpl; lia). simpl length in *. lia. }
  pose proof (strlen_app (unwords l) nl). unfold strlen in *. simpl in *. lia.
Qed.

Lemma parseInput_words f ws s :
  ws <> [] -> Forall plain ws -> strlen (unwords ws +:+ nl) < 1000 -> zlen ws <= 100 ->
  parseInput (S f) (unwords ws +:+ nl) s = interpreter (parseInput f) ws s.
Proof.
  intros H1 H2 H3 H4. cbn [parseInput].
  assert (wp (parse_words (unwords ws +:+ nl)) (fun r s' => r = ws /\ s' = s) s) as Hw
    by by apply parse_words_wp.
  apply wp_Ok in Hw as (r & s' & E & -> & ->). by apply bind_Ok_nil.
Qed.

Lemma on_memory_Ok {A} (m : M slots A) s (Q : A -> slots -> Prop) :
  wp m Q (shellmemory s) ->
  exists a t, on_memory m s = Ok a (mkSt t (host s)) [] /\ Q a t.
Proof.
  intros (a & t & E & HQ)%wp_Ok. exists a, t. split; [|done]. unfold on_memory, zoom. by rewrite E.
Qed.
End shell.

Ltac literal_words :=
  unfold interpreter, MAX_ARGS_SIZE, arg; cbn [map]; simpl; decide_words; simpl;
  rewrite !bind_ret; decide_words; cbv iota; rewrite ?bind_ret.

Section commands.
Context {Host : Type} (file_content : Host -> string -> option string).
Context (system mkdir chdir : string -> Host -> Z * Host) (fopen_w : string -> Host -> option Host).
Context (garbage : Z).
Abbreviation parseInput' := (parseInput file_content system mkdir chdir fopen_w garbage).
Abbreviation interpreter' := (interpreter file_content system mkdir chdir fopen_w garbage).

Definition no_crlf (w : string) : Prop := free_of is_crlf w = true.

Lemma interpreter_set parse x v (s : @st Host) :
  length (shellmemory s) = MEM_SIZE -> no_crlf x -> no_crlf v -> strlen x < 200 -> strlen v < 200 ->
  interpreter' parse ["set"; x; v] s
  = Ok 0 (mkSt (vset (shellmemory s) x v) (host s)) [].
Proof.
  intros Hm Hx Hv Hx2 Hv2. literal_words. rewrite !cut_id by done.
  assert (wp (join_args ["set"; x; v] 2 (Z.of_nat 3)) (fun r s' => r = v /\ s' = s) s) as Hj.
  { unfold join_args, arg, into. wp_step. apply wp_ret. wp_step. eapply wp_need.
    - by rewrite (proj2 (Z.ltb_lt _ 800)) by lia.
    - by apply wp_ret. }
  apply wp_Ok in Hj as (r & s' & E & -> & ->). rewrite (bind_Ok_nil _ _ _ _ _ E).
  rewrite bind_ret. unfold set_, into. pose proof (strlen_nonneg x).
  do 3 (match goal with |- context [strlen ?e <? 1000] =>
    rewrite (proj2 (Z.ltb_lt (strlen e) 1000))
      by (rewrite ?strlen_app; change (strlen "=") with 1; lia) end; cbn [need]; rewrite bind_ret).
  assert (wp (mem_set_value x v) (fun _ t => t = vset (shellmemory s) x v) (shellmemory s)) as Hset
    by by apply a1_mem_set_value_wp.
  apply (on_memory_Ok _ s) in Hset as ([] & t & E2 & ->). by rewrite (bind_Ok_nil _ _ _ _ _ E2).
Qed.

Lemma print_value x (s : @st Host) :
  length (shellmemory s) = MEM_SIZE ->
  print_ x s = Ok 0 s [Print (default nl (vget (shellmemory s) x) +:+ nl)].
Proof.
  intros Hm. unfold print_.
  assert (wp (mem_get_value x) (fun r t => r = vget (shellmemory s) x /\ t = shellmemory s) (shellmemory s)) as Hg
    by by apply a1_mem_get_value_wp.
  apply (on_memory_Ok _ s) in Hg as (r & t & E & -> & ->). rewrite (bind_Ok_nil _ _ _ _ _ E). by destruct s.
Qed.

Lemma interpreter_print parse x (s : @st Host) :
  length (shellmemory s) = MEM_SIZE -> no_crlf x ->
  interpreter' parse ["print"; x] s
  = Ok 0 s [Print (default nl (vget (shellmemory s) x) +:+ nl)].
Proof.
  intros Hm Hx. literal_words. rewrite cut_id by done. by apply print_value.
Qed.

(* ------------------------------------------------------------------ *)
(** ** my_wc against a reference                                       *)
(* ------------------------------------------------------------------ *)

(** Words counted by their first characters: those that follow a white
    character or start the file ([prev]: is the previous one white). *)
Fixpoint word_starts (prev : bool) (cs : list ascii) : Z :=
  match cs with
  | [] => 0
  | c :: cs' => (if prev && negb (is_white c) then 1 else 0) + word_starts (is_white c) cs'
  end.

Lemma wc_fold cs x :
  foldl wc_step x cs =
  mkWc (lines x + zlen (filter (fun c => c = LF) cs)) (words x + word_starts (negb (inWord x)) cs)
       (characters x + zlen cs)
       (match last cs with Some c => negb (is_white c) | None => inWord x end).
Proof.
  revert x. induction cs as [|c cs IH]; intros x; cbn [foldl].
  { simpl. destruct x; simpl. by rewrite !Z.add_0_r. }
  rewrite IH. simpl. rewrite filter_cons.
  assert (lines (wc_step x c) = lines x + if decide (c = LF) then 1 else 0) as ->.
  { unfold wc_step. destruct (decide (c = LF)) as [->|Hc].
    - rewrite Ascii.eqb_refl. by destruct (is_white LF), (inWord x).
    - assert (Ascii.eqb c LF = false) as -> by by apply Ascii.eqb_neq.
      destruct (is_white c), (inWord x); simpl; lia. }
  assert (characters (wc_step x c) = characters x + 1) as ->.
  { unfold wc_step. by destruct (is_white c), (inWord x). }
  assert (inWord (wc_step x c) = negb (is_white c)) as ->.
  { unfold wc_step. by destruct (is_white c), (inWord x). }
  assert (words (wc_step x c) = words x + if negb (inWord x) && negb (is_white c) then 1 else 0) as ->.
  { unfold wc_step. destruct (is_white c), (inWord x); simpl; lia. }
  rewrite negb_involutive. f_equal.
  - destruct (decide (c = LF)); simpl; lia.
  - lia.
  - lia.
  - destruct cs as [|d cs]; [done|]. change (last (c :: d :: cs)) with (last (d :: cs)).
    destruct (last (d :: cs)) eqn:E; [done|]. by apply last_None in E.
Qed.

(* ------------------------------------------------------------------ *)
(** ** Properties                                                      *)
(* ------------------------------------------------------------------ *)

(** C26: ParseInput hands exactly the words of a line to the interpreter:
    for words without separators, of less than 200 characters, at most
    100 of them in a line of less than 1000 characters, splitting the
    line made of them gives them back. *)
Theorem a1_parse_roundtrip f ws (s : @st Host) :
  ws <> [] -> Forall plain ws -> strlen (unwords ws +:+ nl) < 1000 -> zlen ws <= 100 ->
  parse_words (unwords ws +:+ nl) s = Ok ws s [] /\
  parseInput' (S f) (unwords ws +:+ nl) s = interpreter' (parseInput' f) ws s.
Proof.
  intros H1 H2 H3 H4. split; [|by apply parseInput_words].
  assert (wp (parse_words (unwords ws +:+ nl)) (fun r s' => r = ws /\ s' = s) s) as Hw
    by by apply parse_words_wp.
  by apply wp_Ok in Hw as (r & s' & E & -> & ->).
Qed.

(** A variable that the memory has room for is printed back: the line
    "set x v" stores it and returns 0, the line "print x" then prints v,
    and every other variable keeps its value. *)
Theorem a1_set_then_print f x v (s : @st Host) :
  length (shellmemory s) = MEM_SIZE -> has_room (shellmemory s) x ->
  plain x -> plain v -> no_crlf x -> no_crlf v ->
  exists s',
    parseInput' (S f) (unwords ["set"; x; v] +:+ nl) s = Ok 0 s' [] /\
    parseInput' (S f) (unwords ["print"; x] +:+ nl) s' = Ok 0 s' [Print (v +:+ nl)] /\
    length (shellmemory s') = MEM_SIZE /\
    forall y, y <> x -> y <> "none" -> vget (shellmemory s') y = vget (shellmemory s) y.
Proof.
  intros Hm Hr Hx Hv Hxc Hvc. exists (mkSt (vset (shellmemory s) x v) (host s)).
  assert (plain "set" /\ plain "print") as [Hset Hprint] by by repeat split.
  destruct (Hx) as (_ & _ & Hx2). destruct (Hv) as (_ & _ & Hv2).
  split_and!.
  - rewrite parseInput_words; [by apply interpreter_set|done|by repeat apply Forall_cons_2| |simpl; lia].
    cbn [unwords]. rewrite !strlen_app. change (strlen (String " " (x +:+ String " " v))) with
      (strlen (" " +:+ (x +:+ (" " +:+ v)))). rewrite !strlen_app.
    change (strlen "set") with 3. change (strlen " ") with 1. change (strlen nl) with 1. lia.
  - rewrite parseInput_words; [|done|by repeat apply Forall_cons_2| |simpl; lia].
    + rewrite interpreter_print by (simpl; rewrite ?length_vset; done). simpl.
      by rewrite vget_vset.
    + cbn [unwords]. rewrite !strlen_app. change (strlen (String " " x)) with (strlen (" " +:+ x)).
      rewrite strlen_app. change (strlen "print") with 5. change (strlen " ") with 1.
      change (strlen nl) with 1. lia.
  - simpl. by rewrite length_vset.
  - intros y Hy Hn. by apply vget_vset_other.
Qed.

(** When all 1000 slots hold other variables, "set" changes nothing,
    prints nothing and still returns 0. *)
Theorem a1_set_when_full parse x v (s : @st Host) :
  length (shellmemory s) = MEM_SIZE -> ~ has_room (shellmemory s) x ->
  no_crlf x -> no_crlf v -> strlen x < 200 -> strlen v < 200 ->
  interpreter' parse ["set"; x; v] s = Ok 0 s [].
Proof.
  intros Hm Hr Hx Hv Hx2 Hv2. rewrite interpreter_set by done. rewrite vset_full by done. by destruct s.
Qed.

(** My_wc counts the newline characters, the words by their first
    characters, and all characters. *)
Theorem a1_wc_counts content :
  wc_count content =
  mkWc (zlen (filter (fun c => c = LF) (chars content))) (word_starts true (chars content))
       (zlen (chars content))
       (match last (chars content) with Some c => negb (is_white c) | None => false end).
Proof. unfold wc_count. by rewrite wc_fold. Qed.
End commands.

(** A host with one script and no other file, on which nothing fails. *)
Definition demo_files (_ : unit) (name : string) : option string :=
  if bool_decide (name = "script") then Some ("echo hi" +:+ nl) else None.
Definition demo_call (_ : string) (h : unit) : Z * unit := (0, h).
Definition demo_parse : nat -> string -> M (@st unit) Z :=
  parseInput demo_files demo_call demo_call demo_call (fun _ h => Some h) 77.
Definition demo_st : @st unit := mkSt (replicate MEM_SIZE ("none", "none")) tt.

Lemma demo_room x : has_room (shellmemory demo_st) x.
Proof. right. by exists O. Qed.

Lemma a1_parse_roundtrip_witness :
  parse_words (unwords ["set"; "x"; "hello"] +:+ nl) demo_st = Ok ["set"; "x"; "hello"] demo_st [] /\
  demo_parse 3 (unwords ["set"; "x"; "hello"] +:+ nl) demo_st
  = interpreter demo_files demo_call demo_call demo_call (fun _ h => Some h) 77 (demo_parse 2)
      ["set"; "x"; "hello"] demo_st.
Proof.
  apply (a1_parse_roundtrip demo_files demo_call demo_call demo_call (fun _ h => Some h) 77 2
    ["set"; "x"; "hello"]); [done| |by vm_compute|by vm_compute].
  repeat apply Forall_cons_2; [..|done]; repeat split; by vm_compute.
Defined.

Lemma a1_set_then_print_witness :
  exists s', demo_parse 1 (unwords ["set"; "x"; "hello"] +:+ nl) demo_st = Ok 0 s' [] /\
    demo_parse 1 (unwords ["print"; "x"] +:+ nl) s' = Ok 0 s' [Print ("hello" +:+ nl)] /\
    length (shellmemory s') = MEM_SIZE /\
    forall y, y <> "x" -> y <> "none" -> vget (shellmemory s') y = vget (shellmemory demo_st) y.
Proof.
  apply (a1_set_then_print demo_files demo_call demo_call demo_call (fun _ h => Some h) 77 0);
    [done|apply demo_room|repeat split; by vm_compute|repeat split; by vm_compute|done|done].
Defined.

Lemma a1_set_when_full_witness :
  interpreter demo_files demo_call demo_call demo_call (fun _ h => Some h) 77 (demo_parse 1)
    ["set"; "x"; "1"] (mkSt (replicate MEM_SIZE ("y", "2")) tt)
  = Ok 0 (mkSt (replicate MEM_SIZE ("y", "2")) tt) [].
Proof.
  apply a1_set_when_full; [done| |done|done|by vm_compute|by vm_compute].
  intros [[i Hi]|[i Hi]]; by vm_compute in Hi.
Defined.

(** Running a script whose last line ends with a newline interprets
    an empty line at the end: "Unknown Command" is printed after the
    output of the script, and run returns 1. *)
Theorem a1_run_spurious_command :
  demo_parse 3 "run script" demo_st = Ok 1 demo_st [Print ("hi" +:+ nl); Print ("Unknown Command" +:+ nl)].
Proof. by vm_compute. Qed.

(** The command "echo" without an argument reads an entry of [words]
    that was never written. *)
Theorem a1_echo_without_argument :
  forall f, demo_parse (S f) ("echo" +:+ nl) demo_st = Stuck.
Proof. intros f. by vm_compute. Qed.

(** Whatever its branch does, the if command returns the value that
    happens to be in the result register. *)
Theorem a1_if_returns_garbage g :
  parseInput demo_files demo_call demo_call demo_call (fun _ h => Some h) g 2
    "if a == a then echo yes else echo no fi" demo_st
  = Ok g demo_st [Print ("yes" +:+ nl)].
Proof. by vm_compute. Qed.
End A1Shell.
