(* ===== verification/A1ShellProps.v ===== *)
(** * A1ShellProps: what a script of set and print commands does, through
    the whole first shell

    The main loop, the parser, the commands and the array of variables
    together implement a finite map from names to values. *)
From S2P Require Import Prelude CString VarSpec Words Console A1Memory A1Shell.
From Stdlib Require Import Ascii.

Module A1ShellProps.
Import VarSpec Console A1Memory A1Shell.
Open Scope string_scope. Open Scope Z_scope.

(** The commands, their lines, and what they print on the variables [m]:
    a newline for a name without a value. *)
Inductive cmd := CSet (x v : string) | CPrint (x : string).

Definition words_of (c : cmd) : list string :=
  match c with CSet x v => ["set"; x; v] | CPrint x => ["print"; x] end.
Definition line_of (c : cmd) : string := unwords (words_of c).

Fixpoint expected (m : gmap string string) (cs : list cmd) : list event :=
  match cs with
  | [] => []
  | CSet x v :: cs => expected (<[x := v]> m) cs
  | CPrint x :: cs => Print (default nl (m !! x) +:+ nl) :: expected m cs
  end.

(** A name that can stand for itself in a command. *)
Definition good_word (w : string) : Prop := plain w /\ no_crlf w.
Definition good_cmd (c : cmd) : Prop :=
  match c with
  | CSet x v => good_word x /\ good_word v /\ x <> "none"
  | CPrint x => good_word x /\ x <> "none"
  end.

(* ------------------------------------------------------------------ *)
(** ** The slots and the map                                           *)
(* ------------------------------------------------------------------ *)

Definition holds (l : slots) (m : gmap string string) : Prop :=
  forall y, y <> "none" -> vget l y = m !! y.
Definition unused (l : slots) : nat := length (filter (fun kv => kv.1 = "none") l).

Lemma unused_room l k : (0 < unused l)%nat -> has_room l k.
Proof.
  intros H. right. destruct (find_key l "none") eqn:E; [by eexists|]. exfalso. rewrite find_key_None in E.
  unfold unused in H. destruct (filter _ l) as [|kv r] eqn:F; [simpl in H; lia|].
  assert (kv ∈ filter (fun kv => kv.1 = "none") l) as [Hk Hin]%list_elem_of_filter by (rewrite F; left).
  by apply (E kv).
Qed.

Lemma unused_insert l i kv : (unused l <= unused (<[i := kv]> l) + 1)%nat.
Proof.
  unfold unused. revert i. induction l as [|a l IH]; intros i; [simpl; lia|].
  destruct i as [|i]; simpl; rewrite !filter_cons; [|specialize (IH i)];
    repeat case_decide; simpl; lia.
Qed.

Lemma unused_vset l k v : (unused l <= unused (vset l k v) + 1)%nat.
Proof. unfold vset. repeat case_match; try apply unused_insert. lia. Qed.

Lemma holds_vset l m x v :
  holds l m -> has_room l x -> holds (vset l x v) (<[x := v]> m).
Proof.
  intros Hm Hr y Hy. destruct (decide (y = x)) as [->|Hne].
  - by rewrite vget_vset, lookup_insert_eq.
  - by rewrite vget_vset_other, lookup_insert_ne, Hm.
Qed.

(* ------------------------------------------------------------------ *)
(** ** The commands                                                    *)
(* ------------------------------------------------------------------ *)

Section commands.
Context {Host : Type} (file_content : Host -> string -> option string).
Context (system mkdir chdir : string -> Host -> Z * Host) (fopen_w : string -> Host -> option Host).
Context (garbage : Z).
Abbreviation parseInput' := (parseInput file_content system mkdir chdir fopen_w garbage).
Abbreviation main' := (main file_content system mkdir chdir fopen_w garbage).

Lemma line_length c : good_cmd c -> strlen (line_of c) < 998.
Proof.
  unfold line_of. destruct c as [x v|x]; cbn [words_of unwords].
  - intros (((_ & _ & Hx) & _) & ((_ & _ & Hv) & _) & _). rewrite !strlen_app.
    change (strlen (String " " (x +:+ String " " v))) with (strlen (" " +:+ (x +:+ (" " +:+ v)))).
    rewrite !strlen_app. change (strlen "set") with 3. change (strlen " ") with 1. lia.
  - intros (((_ & _ & Hx) & _) & _). rewrite strlen_app. change (strlen (String " " x)) with (strlen (" " +:+ x)).
    rewrite strlen_app. change (strlen "print") with 5. change (strlen " ") with 1. lia.
Qed.

Lemma line_runs f c (s : @st Host) :
  good_cmd c -> parseInput' (S f) (line_of c +:+ nl) s = interpreter file_content system mkdir chdir fopen_w garbage (parseInput' f) (words_of c) s.
Proof.
  intros Hc. pose proof (line_length c Hc) as Hl. unfold line_of in *.
  assert (plain "set" /\ plain "print") as [Hset Hprint] by by repeat split.
  apply parseInput_words; [by destruct c| |rewrite strlen_app; change (strlen nl) with 1; lia|destruct c; simpl; lia].
  destruct c as [x v|x]; simpl in *.
  - destruct Hc as ((? & _) & (? & _) & _). by repeat apply Forall_cons_2.
  - destruct Hc as ((? & _) & _). by repeat apply Forall_cons_2.
Qed.

Lemma has_lf_free w : no_crlf w -> has_lf w = false.
Proof.
  unfold no_crlf. induction w as [|c w IH]; simpl; [done|].
  intros [Hc%negb_true_iff Hw]%andb_true_iff. unfold is_crlf in Hc. apply orb_false_iff in Hc as [_ ->]. by apply IH.
Qed.
Lemma has_lf_app a b : has_lf (a +:+ b) = has_lf a || has_lf b.
Proof. induction a as [|c a IH]; simpl; [done|]. rewrite <- orb_assoc. f_equal. exact IH. Qed.

Lemma line_whole c : good_cmd c -> whole (line_of c).
Proof.
  intros Hc. split; [|by apply line_length]. unfold line_of. destruct c as [x v|x]; cbn [words_of unwords].
  - destruct Hc as ((_ & Hx) & (_ & Hv) & _). rewrite has_lf_app. simpl. rewrite has_lf_app. simpl.
    by rewrite !has_lf_free.
  - destruct Hc as ((_ & Hx) & _). rewrite has_lf_app. simpl. by rewrite has_lf_free.
Qed.

Lemma command_runs f c l m (h : Host) :
  good_cmd c -> length l = MEM_SIZE -> holds l m -> (0 < unused l)%nat ->
  exists l', length l' = MEM_SIZE /\ (unused l <= unused l' + 1)%nat /\
    command (parseInput' (S f)) (line_of c +:+ nl) (mkSt l h) = Ok tt (mkSt l' h) (expected m [c]) /\
    holds l' (match c with CSet x v => <[x := v]> m | CPrint _ => m end).
Proof.
  intros Hc Hl Hm Hu. pose proof (line_runs f c (mkSt l h) Hc) as E. destruct c as [x v|x]; simpl in Hc.
  - destruct Hc as (((_ & _ & Hx2) & Hx) & ((_ & _ & Hv2) & Hv) & Hn).
    exists (vset l x v). split_and!; [by rewrite length_vset|apply unused_vset| |by apply holds_vset, unused_room].
    unfold command. rewrite (bind_Ok_nil _ _ _ 0 (mkSt (vset l x v) h)); [done|].
    rewrite E. by apply interpreter_set.
  - destruct Hc as ((_ & Hx) & Hn). exists l. split_and!; [done|lia| |done].
    unfold command. rewrite (bind_Ok _ _ _ 0 (mkSt l h) [Print (default nl (m !! x) +:+ nl)]); [done|].
    rewrite E, <- (Hm x Hn). by apply interpreter_print.
Qed.

Lemma run_commands f cs l m (h : Host) :
  Forall good_cmd cs -> length l = MEM_SIZE -> holds l m -> (length cs <= unused l)%nat ->
  exists l', run_lines (parseInput' (S f)) (map (fun c => line_of c +:+ nl) cs) (mkSt l h) = Ok tt (mkSt l' h) (expected m cs).
Proof.
  intros Hcs. revert l m. induction Hcs as [|c cs Hc Hcs IH]; intros l m Hl Hm Hu; [by exists l|]. simpl in Hu.
  destruct (command_runs f c l m h Hc Hl Hm) as (l1 & Hl1 & Hu1 & E1 & Hm1); [lia|].
  destruct (IH l1 _ Hl1 Hm1) as (l2 & E2); [lia|]. exists l2. cbn [map run_lines].
  rewrite (bind_Ok _ _ _ _ _ _ E1), E2. destruct c; done.
Qed.

Lemma holds_initial : holds (replicate MEM_SIZE ("none", "none")) ∅.
Proof.
  intros y Hy. unfold vget. rewrite lookup_empty.
  assert (find_key (replicate MEM_SIZE ("none", "none")) y = None) as ->; [|done].
  apply find_key_None. intros kv [-> _]%elem_of_replicate. simpl. congruence.
Qed.
Lemma unused_initial n : unused (replicate n ("none", "none")) = n.
Proof. unfold unused. induction n as [|n IH]; [done|]. cbn [replicate]. rewrite filter_cons, decide_True by done. cbn [length]. by rewrite IH. Qed.

Lemma quit_runs f (s : @st Host) :
  command (parseInput' (S f)) ("quit" +:+ nl) s = Exit 0 s [Print ("Bye!" +:+ nl)].
Proof.
  assert (plain "quit") as Hq by by repeat split.
  unfold command. unfold bind at 1. change ("quit" +:+ nl) with (unwords ["quit"] +:+ nl).
  rewrite parseInput_words; [|done|by apply Forall_cons_2|done|done]. done.
Qed.

(** The text of a script. *)
Definition script (cs : list cmd) (after : string) : string :=
  foldr (fun l r => l +:+ String LF r) after (map line_of cs ++ ["quit"])%list.

(** C11: The first shell as a whole, on a script of set and print commands
    that ends with quit, given on stdin: it prints its banner and its help,
    then for each print the value that the last set before it gave to the
    variable, or a newline when there is none, then Bye!, and exits with
    code 0. What follows the line of quit is never read: it may be any text,
    of any number of lines. The commands are at most 1000, the number of
    variables there is room for; their words are nonempty, of less than 200
    characters, without a space, a semicolon, a NUL or an end of line; and
    no variable is called none, the name that marks a free slot. *)
Theorem a1_script_of_commands f turns cs after ts (s : @st Host) :
  Forall good_cmd cs -> (length cs <= MEM_SIZE)%nat -> length (shellmemory s) = MEM_SIZE ->
  exists s',
    main' (S f) (length cs + S turns) (mkConsole (Some (mkFILE (script cs after) false)) false ts) s
    = Exit 0 s' ([Print ("Shell v1.0" +:+ nl); Print (help_string +:+ nl)] ++ expected ∅ cs ++ [Print ("Bye!" +:+ nl)])%list /\
    host s' = host s.
Proof.
  intros Hcs Hlen Hm. destruct s as [l h]. simpl in Hm.
  destruct (on_memory_Ok mem_init (mkSt l h) (fun _ t => t = replicate MEM_SIZE ("none", "none"))) as (u & l0 & Ei & ->).
  { apply mem_init_wp; [exact Hm|reflexivity]. }
  destruct (run_commands f cs _ ∅ h Hcs (length_replicate MEM_SIZE _) holds_initial) as (l' & Er).
  { rewrite unused_initial. exact Hlen. }
  exists (mkSt l' h). split; [|reflexivity]. unfold main.
  rewrite (bind_Ok _ _ _ tt (mkSt l h) [Print ("Shell v1.0" +:+ nl)]) by reflexivity.
  rewrite (bind_Ok _ _ _ 0 (mkSt l h) [Print (help_string +:+ nl)]) by reflexivity.
  destruct u. rewrite (bind_Ok_nil _ _ _ _ _ Ei).
  replace (length cs + S turns)%nat with (length (map line_of cs ++ ["quit"])%list + turns)%nat
    by (rewrite length_app, length_map; simpl; lia).
  unfold script. rewrite first_lines; [|apply Forall_app; split; [|by repeat constructor]].
  2:{ apply Forall_map. eapply Forall_impl; [exact Hcs|]. intros c. apply line_whole. }
  unfold bind at 1. rewrite map_app, map_map, run_lines_app.
  rewrite (bind_Ok _ _ _ _ _ _ Er). cbn [map run_lines]. unfold bind at 1. rewrite quit_runs. reflexivity.
Qed.
End commands.

Lemma a1_script_of_commands_witness :
  exists s', main demo_files demo_call demo_call demo_call (fun _ h => Some h) 77 1 9
      (mkConsole (Some (mkFILE ("set x 5" +:+ nl +:+ "print y" +:+ nl +:+ "print x" +:+ nl +:+ "quit" +:+ nl +:+
         "print x" +:+ nl +:+ "nonsense") false)) false []) demo_st
    = Exit 0 s' [Print ("Shell v1.0" +:+ nl); Print (help_string +:+ nl); Print (nl +:+ nl); Print ("5" +:+ nl); Print ("Bye!" +:+ nl)]
    /\ host s' = tt.
Proof.
  apply (a1_script_of_commands demo_files demo_call demo_call demo_call (fun _ h => Some h) 77 0 5
           [CSet "x" "5"; CPrint "y"; CPrint "x"] ("print x" +:+ nl +:+ "nonsense") [] demo_st).
  - repeat apply Forall_cons_2; [..|apply Forall_nil_2]; repeat split; try discriminate; reflexivity.
  - apply Nat.leb_le. reflexivity.
  - reflexivity.
Defined.
End A1ShellProps.
