(* ===== verification/ReadyQueue.v ===== *)
(** * ReadyQueue: the process control blocks and the ready queue of the
    second shell (a2/pcb.c, a2/ready_queue.c)

    The queue is a singly linked list in memory.  [queue s l] relates a
    memory to the sequence [l] of the addresses of its nodes; the theorems
    say what each function does to that sequence. *)
From S2P Require Import Prelude.

Module ReadyQueue.

Abbreviation loc := positive.

Definition MAX_PAGES : Z := 10.
Definition MAX_INT : Z := 2147483646.

(** pcb.h *)
Record PCB := mkPCB {
  priority : bool;
  currentPage : Z;
  pid : Z;
  PC : Z;
  start : Z;
  end_ : Z;
  job_length_score : Z;
  pageCounter : Z;
  currentLine : Z;
  filename : option string;
  pagetable : list bool;
  file : option loc
}.

(** ready_queue.h *)
Record QueueNode := mkNode { pcb : loc; next : option loc }.

(** [pid_counter] of pcb.c, [head] of ready_queue.c, and the heap. *)
Record rq := mkRq {
  pid_counter : Z;
  head : option loc;
  nodes : gmap loc QueueNode;
  pcbs : gmap loc PCB;
  brk : loc
}.

Definition set_head (h : option loc) (s : rq) : rq :=
  mkRq (pid_counter s) h (nodes s) (pcbs s) (brk s).
Definition set_nodes (m : gmap loc QueueNode) (s : rq) : rq :=
  mkRq (pid_counter s) (head s) m (pcbs s) (brk s).
Definition set_pcbs (m : gmap loc PCB) (s : rq) : rq :=
  mkRq (pid_counter s) (head s) (nodes s) m (brk s).

Definition malloc : M rq loc :=
  let! s := get in
  put (mkRq (pid_counter s) (head s) (nodes s) (pcbs s) (Pos.succ (brk s))) ;;
  ret (brk s).

(** [*p], [p->next = n], [free(p)] for a pointer [p] to a node. *)
Definition get_node (p : loc) : M rq QueueNode :=
  let! s := get in need (nodes s !! p).
Definition set_next (p : loc) (n : option loc) : M rq unit :=
  let! nd := get_node p in
  modify (fun s => set_nodes (<[p := mkNode (pcb nd) n]> (nodes s)) s).
Definition free_node (p : loc) : M rq unit :=
  get_node p ;; modify (fun s => set_nodes (delete p (nodes s)) s).
Definition get_pcb (p : loc) : M rq PCB :=
  let! s := get in need (pcbs s !! p).
Definition set_pcb (p : loc) (x : PCB) : M rq unit :=
  get_pcb p ;; modify (fun s => set_pcbs (<[p := x]> (pcbs s)) s).
(** [cur->pcb]. *)
Definition job (p : loc) : M rq PCB :=
  let! nd := get_node p in get_pcb (pcb nd).

(** A walk visits each node at most once: one turn per node of the heap,
    and the last test. *)
Definition walk {X R} (body : X -> M rq (X + R)) (x : X) : M rq R :=
  let! s := get in while_ (S (S (size (nodes s)))) body x.

(* ------------------------------------------------------------------ *)
(** ** pcb.c                                                           *)
(* ------------------------------------------------------------------ *)

Definition generatePID : M rq Z :=
  let! s := get in
  put (mkRq (i32 (pid_counter s + 1)) (head s) (nodes s) (pcbs s) (brk s)) ;;
  ret (pid_counter s).

Definition makePCB : M rq loc :=
  let! p := malloc in
  let! id := generatePID in
  modify (fun s => set_pcbs (<[p := mkPCB false 1 id 0 0 0 (1 + 0 - 0) 0 0 None
                                          (replicate (Z.to_nat MAX_PAGES) false) None]> (pcbs s)) s) ;;
  ret p.

(* ------------------------------------------------------------------ *)
(** ** ready_queue.c                                                   *)
(* ------------------------------------------------------------------ *)

Definition ready_queue_destroy : M rq unit :=
  let! s := get in
  match head s with
  | None => ret tt
  | Some h =>
      let! cur := walk (fun cur =>
        let! nd := get_node cur in
        match next nd with
        | None => ret (inr cur)
        | Some tmp => free_node cur ;; ret (inl tmp)
        end) h in
      free_node cur
  end.

Definition ready_queue_add_to_tail (node : loc) : M rq unit :=
  let! s := get in
  match head s with
  | None => modify (set_head (Some node)) ;; set_next node None
  | Some h =>
      let! cur := walk (fun cur =>
        let! nd := get_node cur in
        match next nd with None => ret (inr cur) | Some n => ret (inl n) end) h in
      set_next cur (Some node) ;;
      set_next node None
  end.

Definition ready_queue_add_to_head (node : loc) : M rq unit :=
  let! s := get in
  match head s with
  | None => modify (set_head (Some node)) ;; set_next node None
  | Some h => set_next node (Some h) ;; modify (set_head (Some node))
  end.

Definition job_line (x : PCB) : string :=
  (tab +:+ "PID: " +:+ pretty (pid x) +:+ ", length: " +:+ pretty (job_length_score x)
   +:+ ", priority: " +:+ (if priority x then "1" else "0") +:+ nl)%string.

Definition print_ready_queue : M rq unit :=
  let! s := get in
  match head s with
  | None => print ("ready queue is empty" +:+ nl)
  | Some h =>
      print ("Ready queue: " +:+ nl) ;;
      walk (fun cur =>
        match cur with
        | None => ret (inr tt)
        | Some c =>
            let! x := job c in
            print (job_line x) ;;
            let! nd := get_node c in
            ret (inl (next nd))
        end) (Some h)
  end.

Definition terminate_process (node : loc) : M rq unit := free_node node.

Definition is_ready_empty : M rq bool :=
  let! s := get in ret (bool_decide (head s = None)).

Definition ready_queue_pop_head : M rq (option loc) :=
  let! s := get in
  match head s with
  | None => ret None
  | Some h =>
      let! nd := get_node h in
      modify (set_head (next nd)) ;;
      ret (Some h)
  end.

Definition decremented (x : PCB) : PCB :=
  mkPCB (priority x) (currentPage x) (pid x) (PC x) (start x) (end_ x)
        (job_length_score x - 1) (pageCounter x) (currentLine x) (filename x)
        (pagetable x) (file x).

Definition ready_queue_decrement_job_length_score : M rq unit :=
  let! s := get in
  walk (fun cur =>
    match cur with
    | None => ret (inr tt)
    | Some c =>
        let! nd := get_node c in
        let! x := get_pcb (pcb nd) in
        when (0 <? job_length_score x) (set_pcb (pcb nd) (decremented x)) ;;
        ret (inl (next nd))
    end) (head s).

Definition ready_queue_swap_with_next (toSwap : loc) : M rq unit :=
  let! s := get in
  let cur := head s in
  when (bool_decide (head s = Some toSwap))
    (let! hd := get_node toSwap in
     let! nx := need (next hd) in
     let! nnd := get_node nx in
     set_next toSwap (next nnd) ;;
     set_next nx (Some toSwap) ;;
     modify (set_head (Some nx))) ;;
  let! cur := walk (fun cur =>
    match cur with
    | None => ret (inr None)
    | Some c =>
        let! nd := get_node c in
        if bool_decide (next nd = Some toSwap) then ret (inr (Some c)) else ret (inl (next nd))
    end) cur in
  match cur with
  | None => ret tt
  | Some c =>
      let! tnd := get_node toSwap in
      let! nx := need (next tnd) in
      let! nnd := get_node nx in
      set_next c (Some nx) ;;
      set_next nx (Some toSwap) ;;
      set_next toSwap (next nnd)
  end.

Definition swap_needed (cur : loc) : M rq bool :=
  let! nd := get_node cur in
  match next nd with
  | None => ret false
  | Some nx =>
      let! c := get_pcb (pcb nd) in
      let! n := job nx in
      ret (if priority c && priority n then
             if job_length_score c >? job_length_score n then true else false
           else if priority c && negb (priority n) then false
           else if negb (priority c) && priority n then true
           else if job_length_score c >? job_length_score n then true else false)
  end.

(** The two loops share the variable [cur]. *)
Definition sort_inner (cur : loc) (sorted : bool) : M rq (loc * bool) :=
  walk (fun '(cur, sorted) =>
    let! nd := get_node cur in
    match next nd with
    | None => ret (inr (cur, sorted))
    | Some n =>
        let! b := swap_needed cur in
        if b : bool then ready_queue_swap_with_next cur ;; ret (inl (cur, false))
        else
          let! nd := get_node cur in
          let! n := need (next nd) in
          ret (inl (n, sorted))
    end) (cur, sorted).

Definition sort_ready_queue : M rq unit :=
  let! s := get in
  match head s with
  | None => ret tt
  | Some h =>
      walk (fun '(cur, sorted) =>
        if sorted : bool then ret (inr tt)
        else let! x := sort_inner cur true in ret (inl x)) (h, false)
  end.

Definition ready_queue_pop_shortest_job : M rq (option loc) :=
  sort_ready_queue ;; ready_queue_pop_head.

Definition ready_queue_get_shortest_job_score : M rq Z :=
  let! s := get in
  walk (fun '(cur, shortest) =>
    match cur with
    | None => ret (inr shortest)
    | Some c =>
        let! nd := get_node c in
        let! x := get_pcb (pcb nd) in
        ret (inl (next nd, if job_length_score x <? shortest then job_length_score x else shortest))
    end) (head s, MAX_INT).

Definition ready_queue_promote (score : Z) : M rq unit :=
  let! s := get in
  let! h := need (head s) in
  let! x := job h in
  if job_length_score x =? score then ret tt else
  let! cur := walk (fun cur =>
    let! nd := get_node cur in
    match next nd with
    | None => ret (inr cur)
    | Some n =>
        let! x := job n in
        if job_length_score x =? score then ret (inr cur) else ret (inl n)
    end) h in
  let! nd := get_node cur in
  match next nd with
  | None => ret tt
  | Some n =>
      let! x := job n in
      if negb (job_length_score x =? score) then ret tt else
      let! nnd := get_node n in
      set_next cur (next nnd) ;;
      set_next n (head s) ;;
      modify (set_head (Some n))
  end.

(* ------------------------------------------------------------------ *)
(** ** The sequence a queue holds                                      *)
(* ------------------------------------------------------------------ *)

(** The nodes [l], in order, lead from [o] to [e]. *)
Fixpoint seg (m : gmap loc QueueNode) (o : option loc) (l : list loc) (e : option loc) : Prop :=
  match l with
  | [] => o = e
  | p :: l' => o = Some p /\ exists c n, m !! p = Some (mkNode c n) /\ seg m n l' e
  end.

(** The job a node stands for. *)
Definition job_at (s : rq) (p : loc) : option PCB :=
  nd ← nodes s !! p; pcbs s !! pcb nd.

Record queue (s : rq) (l : list loc) : Prop := {
  q_nodup : NoDup l;
  q_seg : seg (nodes s) (head s) l None;
  q_jobs : Forall (fun p => is_Some (job_at s p)) l
}.

Definition same_jobs (s s' : rq) : Prop :=
  pcbs s' = pcbs s /\ forall p, job_at s' p = job_at s p.

(** The order swap_needed puts jobs in. *)
Definition out_of_order (c n : PCB) : bool :=
  if priority c && priority n then job_length_score c >? job_length_score n
  else if priority c && negb (priority n) then false
  else if negb (priority c) && priority n then true
  else job_length_score c >? job_length_score n.

Definition needed (s : rq) (p q : loc) : bool :=
  match job_at s p, job_at s q with
  | Some c, Some n => out_of_order c n
  | _, _ => false
  end.

(** One pass of a bubble sort. *)
Fixpoint bubble {A} (need_swap : A -> A -> bool) (x : A) (l : list A) : list A :=
  match l with
  | [] => [x]
  | y :: l' => if need_swap x y then y :: bubble need_swap x l' else x :: bubble need_swap y l'
  end.
Definition bubble_pass {A} (need_swap : A -> A -> bool) (l : list A) : list A :=
  match l with [] => [] | x :: l' => bubble need_swap x l' end.

Lemma seg_app m o l1 l2 e :
  seg m o (l1 ++ l2) e <-> exists i, seg m o l1 i /\ seg m i l2 e.
Proof.
  revert o. induction l1 as [|p l1 IH]; intros o; simpl; [naive_solver|].
  setoid_rewrite IH. naive_solver.
Qed.

Lemma seg_insert m o l e p x : p ∉ l -> seg m o l e -> seg (<[p := x]> m) o l e.
Proof.
  revert o. induction l as [|q l IH]; intros o Hp; simpl; [done|].
  intros (-> & c & n & Hq & Hs). split; [done|]. exists c, n.
  rewrite lookup_insert_ne by set_solver. split; [done|]. apply IH; set_solver.
Qed.

Lemma seg_length m o l e : NoDup l -> seg m o l e -> (length l <= size m)%nat.
Proof.
  intros Hn Hs. rewrite <- size_dom, <- (size_list_to_set (C := gset loc) l Hn).
  apply subseteq_size. intros p. rewrite elem_of_list_to_set, elem_of_dom.
  intros Hp%list_elem_of_split. destruct Hp as (l1 & l2 & ->).
  apply seg_app in Hs as (i & _ & _ & c & n & Hq & _). eauto.
Qed.

Lemma same_jobs_refl s : same_jobs s s.
Proof. done. Qed.
Lemma same_jobs_trans s1 s2 s3 : same_jobs s1 s2 -> same_jobs s2 s3 -> same_jobs s1 s3.
Proof. intros [H1 H2] [H3 H4]. split; [congruence|]. intros p. by rewrite H4. Qed.

Lemma job_at_set_next s p c n n' q :
  nodes s !! p = Some (mkNode c n) ->
  job_at (set_nodes (<[p := mkNode c n']> (nodes s)) s) q = job_at s q.
Proof.
  intros Hp. unfold job_at. simpl. destruct (decide (q = p)) as [->|Hne].
  - by rewrite lookup_insert_eq, Hp.
  - by rewrite lookup_insert_ne.
Qed.

Lemma get_node_wp s p nd (Q : QueueNode -> rq -> Prop) :
  nodes s !! p = Some nd -> Q nd s -> wp (get_node p) Q s.
Proof. intros Hp HQ. unfold get_node. by wp_steps. Qed.

Lemma set_next_wp s p c n n' (Q : unit -> rq -> Prop) :
  nodes s !! p = Some (mkNode c n) ->
  (forall s', s' = set_nodes (<[p := mkNode c n']> (nodes s)) s -> same_jobs s s' -> Q tt s') ->
  wp (set_next p n') Q s.
Proof.
  intros Hp HQ. unfold set_next. wp_step. eapply get_node_wp; [done|]. wp_steps.
  apply HQ; [done|]. split; [done|]. intros q. by eapply job_at_set_next.
Qed.

Lemma get_job_wp s p x (Q : PCB -> rq -> Prop) :
  pcbs s !! p = Some x -> Q x s -> wp (get_pcb p) Q s.
Proof. intros Hp HQ. unfold get_pcb. by wp_steps. Qed.

Lemma job_wp s p x (Q : PCB -> rq -> Prop) :
  job_at s p = Some x -> Q x s -> wp (job p) Q s.
Proof.
  unfold job_at. intros Hp HQ. apply bind_Some in Hp as (nd & Hn & Hp). unfold job. wp_step.
  eapply get_node_wp; [done|]. by eapply get_job_wp.
Qed.

Lemma walk_wp {X R} (body : X -> M rq (X + R)) x s Q :
  wp (while_ (S (S (size (nodes s)))) body x) Q s -> wp (walk body x) Q s.
Proof. intros H. unfold walk. by apply wp_bind, wp_get. Qed.

Lemma queue_length s l : queue s l -> (length l <= size (nodes s))%nat.
Proof. intros [H1 H2 _]. by eapply seg_length. Qed.

(** ** Walks *)

(** To the last node. *)
Lemma last_node_wp s p l2 (Q : loc -> rq -> Prop) fuel :
  seg (nodes s) (Some p) (p :: l2) None -> (length l2 < fuel)%nat ->
  (forall l1 q c, p :: l2 = l1 ++ [q] -> nodes s !! q = Some (mkNode c None) -> Q q s) ->
  wp (while_ fuel (fun cur =>
        let! nd := get_node cur in
        match next nd with None => ret (inr cur) | Some n => ret (inl n) end) p) Q s.
Proof.
  revert p fuel. induction l2 as [|q l2 IH]; intros p fuel (_ & c & n & Hp & Hs) Hf HQ;
    (destruct fuel as [|f]; [simpl in Hf; lia|]); simpl; wp_step; wp_step;
    (eapply get_node_wp; [done|]); simpl in Hs.
  - subst n. apply wp_ret, wp_ret. by eapply (HQ []).
  - destruct Hs as [-> Hs]. apply wp_ret, IH; [done|simpl in Hf; lia|].
    intros l1 r d E Hr. eapply (HQ (p :: l1)); [|done]. by rewrite E.
Qed.

(** To the node before [t]. *)
Lemma find_pred_wp s t l cur (Q : option loc -> rq -> Prop) fuel :
  seg (nodes s) cur l None -> (length l < fuel)%nat ->
  (t ∉ tail l -> Q None s) ->
  (forall l1 c l2, l = l1 ++ c :: t :: l2 -> Q (Some c) s) ->
  wp (while_ fuel (fun cur =>
        match cur with
        | None => ret (inr None)
        | Some c =>
            let! nd := get_node c in
            if bool_decide (next nd = Some t) then ret (inr (Some c)) else ret (inl (next nd))
        end) cur) Q s.
Proof.
  revert cur fuel. induction l as [|p l IH]; intros cur fuel Hs Hf HN HQ;
    (destruct fuel as [|f]; [simpl in Hf; lia|]); simpl in *; wp_step.
  - subst cur. apply wp_ret, wp_ret, HN. set_solver.
  - destruct Hs as (-> & c & n & Hp & Hs). wp_step. eapply get_node_wp; [done|]. simpl.
    case_bool_decide as E; apply wp_ret.
    + apply wp_ret. subst n. destruct l as [|q l]; simpl in Hs; [done|]. destruct Hs as [[= <-] _].
      by eapply (HQ []).
    + apply IH; [done|lia| |].
      * intros Ht. apply HN. destruct l as [|q l]; [set_solver|]. simpl in *.
        destruct Hs as [-> _]. set_solver.
      * intros l1 d l2 ->. by eapply (HQ (p :: l1)).
Qed.

(* ------------------------------------------------------------------ *)
(** ** Adding and removing                                             *)
(* ------------------------------------------------------------------ *)

Lemma queue_intro s s0 l :
  NoDup l -> seg (nodes s) (head s) l None ->
  Forall (fun p => is_Some (job_at s0 p)) l -> same_jobs s0 s -> queue s l.
Proof.
  intros H1 H2 H3 [_ H4]. split; [done..|]. eapply Forall_impl; [done|].
  intros p Hp. by rewrite H4.
Qed.

Lemma same_jobs_head h s : same_jobs s (set_head h s).
Proof. done. Qed.

Lemma job_at_node s p : is_Some (job_at s p) -> exists c n, nodes s !! p = Some (mkNode c n).
Proof. intros [x Hx]. unfold job_at in Hx. apply bind_Some in Hx as ([c n] & ? & _). eauto. Qed.

Lemma ready_queue_add_to_tail_wp s l node (Q : unit -> rq -> Prop) :
  queue s l -> node ∉ l -> is_Some (job_at s node) ->
  (forall s', queue s' (l ++ [node]) -> same_jobs s s' -> Q tt s') ->
  wp (ready_queue_add_to_tail node) Q s.
Proof.
  intros Hq Hn Hj HQ. pose proof (queue_length _ _ Hq) as Hlen. destruct Hq as [H1 H2 H3].
  destruct (job_at_node _ _ Hj) as (c & n & Hc).
  assert (NoDup (l ++ [node])) as Hnd by (apply NoDup_app; split_and!; [done|set_solver|apply NoDup_singleton]).
  assert (Forall (fun p => is_Some (job_at s p)) (l ++ [node])) as Hall
    by (apply Forall_app; split; [done|by constructor]).
  unfold ready_queue_add_to_tail. wp_step. apply wp_get.
  destruct l as [|h l2]; simpl in H2; [rewrite H2|destruct H2 as [H2 Hs]; rewrite H2].
  - wp_step. apply wp_modify. eapply set_next_wp; [done|]. intros s' -> Hs'. apply HQ; [|done].
    eapply queue_intro; [done| |done|done]. simpl. split; [done|]. exists c, None.
    by rewrite lookup_insert_eq.
  - wp_step. apply walk_wp. eapply (last_node_wp _ h l2); [by split|simpl in Hlen; lia|].
    intros l1 q cq E Hq. wp_step. eapply set_next_wp; [done|]. intros s1 -> Hs1.
    assert (q <> node) as Hqn by (intros ->; apply Hn; rewrite E; set_solver).
    eapply set_next_wp; [simpl; by rewrite lookup_insert_ne|]. intros s2 -> Hs2.
    pose proof (same_jobs_trans _ _ _ Hs1 Hs2) as Hss.
    apply HQ; [|done]. eapply queue_intro; [done| |done|done].
    change (seg (<[node := mkNode c None]> (<[q := mkNode cq (Some node)]> (nodes s))) (head s)
      ((h :: l2) ++ [node]) None). rewrite H2.
    assert (seg (nodes s) (Some h) (l1 ++ [q]) None) as Hseg by (rewrite <- E; by split).
    apply seg_app in Hseg as (i & Ha & -> & c' & n' & Hq' & Hn').
    rewrite E. rewrite E in Hn, H1. apply NoDup_app in H1 as (_ & Hd & _).
    rewrite <- app_assoc. apply seg_app. exists (Some q). split.
    + do 2 (apply seg_insert; [set_solver|]). done.
    + simpl. split; [done|]. exists cq, (Some node).
      rewrite lookup_insert_ne, lookup_insert_eq by done. split; [done|]. split; [done|].
      exists c, None. by rewrite lookup_insert_eq.
Qed.

Lemma ready_queue_add_to_head_wp s l node (Q : unit -> rq -> Prop) :
  queue s l -> node ∉ l -> is_Some (job_at s node) ->
  (forall s', queue s' (node :: l) -> same_jobs s s' -> Q tt s') ->
  wp (ready_queue_add_to_head node) Q s.
Proof.
  intros [H1 H2 H3] Hn Hj HQ. destruct (job_at_node _ _ Hj) as (c & n & Hc).
  assert (forall h, seg (nodes s) h l None ->
    queue (set_head (Some node) (set_nodes (<[node := mkNode c h]> (nodes s)) s)) (node :: l)) as Hfin.
  { intros h Hh. eapply (queue_intro _ s); [by constructor| |by constructor|].
    - simpl. split; [done|]. exists c, h. rewrite lookup_insert_eq. split; [done|].
      by apply seg_insert.
    - split; [done|]. intros q. change (job_at (set_nodes (<[node := mkNode c h]> (nodes s)) s) q = job_at s q).
      by eapply job_at_set_next. }
  unfold ready_queue_add_to_head. wp_step. apply wp_get. destruct (head s) as [h|] eqn:E; wp_step.
  - eapply set_next_wp; [done|]. intros s' -> Hs'. apply wp_modify. apply HQ; [by apply Hfin|done].
  - destruct l; [|by destruct H2]. apply wp_modify. eapply set_next_wp; [done|].
    intros s' -> Hs'. apply HQ; [by apply Hfin|done].
Qed.

Lemma ready_queue_pop_head_wp s l (Q : option loc -> rq -> Prop) :
  queue s l ->
  (l = [] -> Q None s) ->
  (forall p l', l = p :: l' -> forall s', queue s' l' -> same_jobs s s' -> nodes s' = nodes s -> Q (Some p) s') ->
  wp ready_queue_pop_head Q s.
Proof.
  intros [H1 H2 H3] HN HQ. unfold ready_queue_pop_head. wp_step. apply wp_get.
  destruct l as [|p l]; simpl in H2.
  - rewrite H2. by apply wp_ret, HN.
  - destruct H2 as (H2 & c & n & Hp & Hs). rewrite H2. wp_step. eapply get_node_wp; [done|].
    wp_steps. apply (HQ p l); [done| |done|done]. inversion H1; inversion H3; subst.
    by eapply (queue_intro _ s).
Qed.

Lemma is_ready_empty_wp s l (Q : bool -> rq -> Prop) :
  queue s l -> Q (bool_decide (l = [])) s -> wp is_ready_empty Q s.
Proof.
  intros [H1 H2 H3] HQ. unfold is_ready_empty. wp_steps.
  destruct l; simpl in H2; [by rewrite H2|]. by destruct H2 as [-> _].
Qed.

(* ------------------------------------------------------------------ *)
(** ** Sorting                                                         *)
(* ------------------------------------------------------------------ *)

Lemma needed_same s s' p q : same_jobs s s' -> needed s' p q = needed s p q.
Proof. intros [_ H]. unfold needed. by rewrite !H. Qed.

Lemma swap_needed_wp s cur q l c (Q : bool -> rq -> Prop) :
  nodes s !! cur = Some (mkNode c (Some q)) ->
  Forall (fun p => is_Some (job_at s p)) (cur :: q :: l) ->
  Q (needed s cur q) s -> wp (swap_needed cur) Q s.
Proof.
  intros Hc Hj HQ. inversion Hj as [|? ? [x Hx] Hj']; subst. inversion Hj' as [|? ? [y Hy] _]; subst.
  unfold swap_needed. wp_step. eapply get_node_wp; [done|]. simpl. wp_step.
  unfold needed in HQ. rewrite Hx, Hy in HQ.
  unfold job_at in Hx. rewrite Hc in Hx. simpl in Hx. eapply get_job_wp; [done|]. wp_step.
  eapply job_wp; [done|]. apply wp_ret. unfold out_of_order in HQ. by repeat case_match.
Qed.

Lemma ready_queue_swap_with_next_wp s l1 a b l2 (Q : unit -> rq -> Prop) :
  queue s (l1 ++ a :: b :: l2) ->
  (forall s', queue s' (l1 ++ b :: a :: l2) -> same_jobs s s' -> Q tt s') ->
  wp (ready_queue_swap_with_next a) Q s.
Proof.
  intros Hq HQ. pose proof (queue_length _ _ Hq) as Hlen. rewrite length_app in Hlen. simpl in Hlen.
  destruct Hq as [H1 H2 H3].
  assert (l1 ++ b :: a :: l2 ≡ₚ l1 ++ a :: b :: l2) as Hperm by (f_equiv; by constructor).
  assert (NoDup (l1 ++ b :: a :: l2)) as H1' by by rewrite Hperm.
  assert (Forall (fun p => is_Some (job_at s p)) (l1 ++ b :: a :: l2)) as H3' by by rewrite Hperm.
  pose proof H2 as Hseg.
  apply seg_app in H2 as (i & Hl1 & -> & ca & na & Ha & -> & cb & nb & Hb & Hl2).
  pose proof H1 as Hnd. apply NoDup_app in Hnd as (Hnd1 & Hdis & Hnd2). apply NoDup_cons in Hnd2 as [Ha2 Hnd2].
  apply NoDup_cons in Hnd2 as [Hb2 Hnd2]. assert (a <> b) as Hab by set_solver.
  unfold ready_queue_swap_with_next. wp_step. apply wp_get. wp_step.
  destruct l1 as [|p l1].
  - simpl in Hl1. rewrite Hl1, bool_decide_eq_true_2 by done. simpl.
    wp_step. eapply get_node_wp; [done|]. simpl. wp_step. apply wp_ret. wp_step.
    eapply get_node_wp; [done|]. simpl. wp_step. eapply set_next_wp; [done|].
    intros s1 -> Hs1. wp_step. eapply set_next_wp; [simpl; by rewrite lookup_insert_ne|].
    intros s2 -> Hs2. apply wp_modify. wp_step. apply walk_wp.
    pose proof (same_jobs_trans _ _ _ Hs1 Hs2) as Hss.
    assert (seg (<[b := mkNode cb (Some a)]> (<[a := mkNode ca nb]> (nodes s))) (Some a) (a :: l2) None) as Hwalk.
    { split; [done|]. exists ca, nb. rewrite lookup_insert_ne, lookup_insert_eq by done. split; [done|].
      apply seg_insert; [done|]. apply seg_insert; set_solver. }
    eapply find_pred_wp; [exact Hwalk| | |].
    + assert (NoDup (a :: l2)) as Hal by (constructor; set_solver).
      pose proof (seg_length _ _ _ _ Hal Hwalk). simpl in *. lia.
    + intros _. apply wp_ret. apply HQ; [|done]. eapply (queue_intro _ s); [done| |done|done].
      simpl. split; [done|]. exists cb, (Some a). by rewrite lookup_insert_eq.
    + intros l1 c l3 E. exfalso. destruct l1; simpl in E; injection E as ->; set_solver.
  - rewrite bool_decide_eq_false_2 by (simpl in Hl1; destruct Hl1 as [-> _]; intros [= ->]; set_solver).
    simpl. apply wp_ret. wp_step. apply walk_wp.
    eapply find_pred_wp; [exact Hseg|rewrite length_app; simpl in *; lia| |].
    { intros Hcon. exfalso. apply Hcon. simpl. set_solver. }
    intros l1' c l3 E.
    destruct (app_cons_unique (p :: l1) (b :: l2) (l1' ++ [c]) l3 a) as [E1 <-]; [done|by rewrite <- app_assoc|].
    rewrite E1 in *. clear E E1 p l1.
    apply seg_app in Hl1 as (i & Hl1 & -> & cc & nc & Hc & ->).
    apply NoDup_app in Hnd1 as (Hnd1 & Hdc & _).
    assert (c ∉ a :: b :: l2) as Hcl by (apply Hdis; set_solver).
    assert (c <> a /\ c <> b) as [Hca Hcb] by set_solver.
    wp_step. eapply get_node_wp; [done|]. simpl. wp_step. apply wp_ret. wp_step.
    eapply get_node_wp; [done|]. simpl. wp_step. eapply set_next_wp; [done|]. intros s1 -> Hs1.
    wp_step. eapply set_next_wp; [simpl; by rewrite lookup_insert_ne|]. intros s2 -> Hs2.
    eapply set_next_wp; [simpl; by rewrite !lookup_insert_ne|]. intros s3 -> Hs3.
    assert (same_jobs s (set_nodes (<[a:=mkNode ca nb]> (<[b:=mkNode cb (Some a)]>
      (<[c:=mkNode cc (Some b)]> (nodes s)))) s)) as Hss by (do 2 (eapply same_jobs_trans; [done|]); done).
    apply HQ; [|done]. eapply (queue_intro _ s); [done| |done|done]. simpl.
    apply seg_app. exists (Some b). split.
    + apply seg_app. exists (Some c). split; [by do 3 (apply seg_insert; [set_solver|])|].
      simpl. split; [done|]. exists cc, (Some b). by simplify_map_eq.
    + simpl. split; [done|]. exists cb, (Some a). simplify_map_eq. split; [done|]. split; [done|].
      exists ca, nb. simplify_map_eq. split; [done|]. by do 3 (apply seg_insert; [set_solver|]).
Qed.

(** Whether a pass from [x] over [l] swaps anything. *)
Fixpoint in_order {A} (need_swap : A -> A -> bool) (x : A) (l : list A) : bool :=
  match l with
  | [] => true
  | y :: l' => negb (need_swap x y) && in_order need_swap y l'
  end.

Lemma bubble_ext {A} (f g : A -> A -> bool) x l :
  (forall a b, f a b = g a b) -> bubble f x l = bubble g x l.
Proof. intros H. revert x. induction l as [|y l IH]; intros x; simpl; [done|]. rewrite H. by rewrite !IH. Qed.

Lemma bubble_perm {A} (f : A -> A -> bool) x l : bubble f x l ≡ₚ x :: l.
Proof.
  revert x. induction l as [|y l IH]; intros x; simpl; [done|].
  destruct (f x y); rewrite IH; [by constructor|done].
Qed.

(** One call of the inner loop from [cur] is one pass. *)
Lemma sort_inner_loop_wp s l1 cur l2 sorted (Q : loc * bool -> rq -> Prop) fuel :
  queue s (l1 ++ cur :: l2) -> (length l2 < fuel)%nat ->
  (forall s' l0 last, queue s' (l1 ++ bubble (needed s) cur l2) -> same_jobs s s' ->
     l1 ++ bubble (needed s) cur l2 = l0 ++ [last] ->
     Q (last, sorted && in_order (needed s) cur l2) s') ->
  wp (while_ fuel (fun '(cur, sorted) =>
        let! nd := get_node cur in
        match next nd with
        | None => ret (inr (cur, sorted))
        | Some n =>
            let! b := swap_needed cur in
            if b : bool then ready_queue_swap_with_next cur ;; ret (inl (cur, false))
            else
              let! nd := get_node cur in
              let! n := need (next nd) in
              ret (inl (n, sorted))
        end) (cur, sorted)) Q s.
Proof.
  revert s l1 cur sorted fuel. induction l2 as [|y l2 IH]; intros s l1 cur sorted fuel Hq Hf HQ;
    (destruct fuel as [|f]; [simpl in Hf; lia|]); simpl; wp_step; wp_step;
    pose proof (q_seg _ _ Hq) as Hs; apply seg_app in Hs as (i & Hl1 & -> & c & n & Hc & Hl2);
    (eapply get_node_wp; [done|]); simpl in Hl2.
  - subst n. apply wp_ret, wp_ret. pose proof (HQ s l1 cur Hq (same_jobs_refl s) eq_refl) as H.
    simpl in H. by rewrite andb_true_r in H.
  - destruct Hl2 as [-> Hl2]. cbn [next]. wp_step.
    assert (Forall (fun p => is_Some (job_at s p)) (cur :: y :: l2)) as Hj.
    { pose proof (q_jobs _ _ Hq) as Hj. by apply Forall_app in Hj as [_ ?]. }
    eapply swap_needed_wp; [done|done|]. simpl in HQ.
    destruct (needed s cur y) eqn:E.
    + wp_step. eapply ready_queue_swap_with_next_wp; [done|]. intros s1 Hq1 Hs1.
      apply wp_ret. apply (IH s1 (l1 ++ [y])); [by rewrite <- app_assoc|simpl in Hf; lia|].
      intros s2 l0 last Hq2 Hs2 El. rewrite andb_false_l.
      rewrite (bubble_ext (needed s1) (needed s)) in Hq2, El by (intros; by apply needed_same).
      rewrite <- app_assoc in Hq2, El. pose proof (HQ s2 l0 last) as H.
      rewrite andb_false_r in H. apply H; [done|by eapply same_jobs_trans|done].
    + wp_step. eapply get_node_wp; [done|]. simpl. wp_step. apply wp_ret, wp_ret.
      apply (IH s (l1 ++ [cur])); [by rewrite <- app_assoc|simpl in Hf; lia|].
      intros s2 l0 last Hq2 Hs2 El. rewrite <- app_assoc in Hq2, El. by apply (HQ s2 l0 last).
Qed.

Lemma sort_inner_wp s l1 cur l2 (Q : loc * bool -> rq -> Prop) :
  queue s (l1 ++ cur :: l2) ->
  (forall s' l0 last, queue s' (l1 ++ bubble (needed s) cur l2) -> same_jobs s s' ->
     l1 ++ bubble (needed s) cur l2 = l0 ++ [last] ->
     Q (last, in_order (needed s) cur l2) s') ->
  wp (sort_inner cur true) Q s.
Proof.
  intros Hq HQ. unfold sort_inner. apply walk_wp. eapply sort_inner_loop_wp; [done| |done].
  pose proof (queue_length _ _ Hq) as Hl. rewrite length_app in Hl. simpl in *. lia.
Qed.

(** sort_ready_queue makes one pass and stops. *)
Lemma sort_ready_queue_wp s l (Q : unit -> rq -> Prop) :
  queue s l ->
  (forall s', queue s' (bubble_pass (needed s) l) -> same_jobs s s' -> Q tt s') ->
  wp sort_ready_queue Q s.
Proof.
  intros Hq HQ. pose proof (q_seg _ _ Hq) as Hs. pose proof (queue_length _ _ Hq) as Hlen.
  unfold sort_ready_queue. wp_step. apply wp_get.
  destruct l as [|h l]; simpl in Hs; [rewrite Hs|destruct Hs as [-> _]].
  { by apply wp_ret, HQ. }
  apply walk_wp. remember (size (nodes s)) as sz. destruct sz as [|sz]; [simpl in Hlen; lia|].
  cbn [while_]. wp_step. wp_step. eapply (sort_inner_wp s []); [done|].
  intros s1 l0 last Hq1 Hs1 El. apply wp_ret. simpl in *. destruct (in_order (needed s) h l).
  { wp_step. apply wp_ret, wp_ret. by apply HQ. }
  wp_step. wp_step. eapply (sort_inner_wp s1 l0); [by rewrite <- El|].
  intros s2 l0' last' Hq2 Hs2 El'. apply wp_ret. simpl in *. wp_step. apply wp_ret, wp_ret.
  apply HQ; [by rewrite El|by eapply same_jobs_trans].
Qed.

Lemma ready_queue_pop_shortest_job_wp s l (Q : option loc -> rq -> Prop) :
  queue s l ->
  (l = [] -> forall s', queue s' [] -> same_jobs s s' -> Q None s') ->
  (forall p l', bubble_pass (needed s) l = p :: l' ->
     forall s', queue s' l' -> same_jobs s s' -> Q (Some p) s') ->
  wp ready_queue_pop_shortest_job Q s.
Proof.
  intros Hq HN HQ. unfold ready_queue_pop_shortest_job. wp_step.
  eapply sort_ready_queue_wp; [done|]. intros s1 Hq1 Hs1.
  eapply ready_queue_pop_head_wp; [done| |].
  - intros E. rewrite E in Hq1. apply HN; [|done..]. destruct l as [|x l]; [done|]. simpl in E.
    pose proof (bubble_perm (needed s) x l) as Hp. rewrite E in Hp.
    by apply Permutation_nil_cons in Hp.
  - intros p l' E s2 Hq2 Hs2 _. eapply HQ; [done|done|]. by eapply same_jobs_trans.
Qed.

(* ------------------------------------------------------------------ *)
(** ** Scores                                                          *)
(* ------------------------------------------------------------------ *)

Definition score (s : rq) (p : loc) : Z :=
  match job_at s p with Some x => job_length_score x | None => 0 end.

Lemma shortest_score_wp s l (Q : Z -> rq -> Prop) :
  queue s l -> Q (foldl Z.min MAX_INT (map (score s) l)) s ->
  wp ready_queue_get_shortest_job_score Q s.
Proof.
  intros Hq HQ. pose proof (queue_length _ _ Hq) as Hlen. destruct Hq as [_ Hs Hj].
  unfold ready_queue_get_shortest_job_score. wp_step. apply wp_get. apply walk_wp.
  assert (length l < S (S (size (nodes s))))%nat as Hf by lia. revert Hf HQ.
  generalize (S (S (size (nodes s)))) as fuel. generalize MAX_INT as m. clear Hlen.
  revert Hs. generalize (head s) as cur. induction Hj as [|p l [x Hx] Hj IH]; intros cur Hs m fuel Hf HQ;
    (destruct fuel as [|f]; [simpl in Hf; lia|]); simpl in *; wp_step.
  - subst cur. by apply wp_ret, wp_ret.
  - destruct Hs as (-> & c & n & Hp & Hs). wp_step. eapply get_node_wp; [done|]. wp_step.
    unfold job_at in Hx. rewrite Hp in Hx. simpl in Hx. eapply get_job_wp; [done|]. apply wp_ret.
    apply IH; [done|lia|].
    assert ((if job_length_score x <? m then job_length_score x else m) = Z.min m (score s p)) as ->; [|done].
    unfold score, job_at. rewrite Hp. simpl. rewrite Hx. destruct (Z.ltb_spec (job_length_score x) m); lia.
Qed.

(** The addresses of the jobs of a queue. *)
Definition job_locs (m : gmap loc QueueNode) (l : list loc) : list loc :=
  omap (fun p => pcb <$> m !! p) l.

Definition aged (x : PCB) : PCB := if 0 <? job_length_score x then decremented x else x.

Lemma set_pcb_wp s p x y (Q : unit -> rq -> Prop) :
  pcbs s !! p = Some x -> Q tt (set_pcbs (<[p := y]> (pcbs s)) s) -> wp (set_pcb p y) Q s.
Proof.
  intros Hp HQ. unfold set_pcb. wp_step. eapply get_job_wp; [done|]. by apply wp_modify.
Qed.

(** Every job of the queue ages by one, no other changes. *)
Lemma decrement_wp s l (Q : unit -> rq -> Prop) :
  queue s l -> NoDup (job_locs (nodes s) l) ->
  (forall s', nodes s' = nodes s -> head s' = head s ->
     (forall p, p ∈ l -> job_at s' p = aged <$> job_at s p) ->
     (forall a, a ∉ job_locs (nodes s) l -> pcbs s' !! a = pcbs s !! a) -> Q tt s') ->
  wp ready_queue_decrement_job_length_score Q s.
Proof.
  intros Hq Hnd HQ. pose proof (queue_length _ _ Hq) as Hlen. destruct Hq as [_ Hs Hj].
  unfold ready_queue_decrement_job_length_score. wp_step. apply wp_get. apply walk_wp.
  assert (length l < S (S (size (nodes s))))%nat as Hf by lia. revert Hf.
  generalize (S (S (size (nodes s)))) as fuel. clear Hlen.
  revert Hs HQ. generalize (head s) at 1 3 as cur. revert s Hnd Hj.
  induction l as [|p l IH]; intros s Hnd Hj cur Hs HQ fuel Hf;
    (destruct fuel as [|f]; [simpl in Hf; lia|]); simpl in *; wp_step.
  { subst cur. apply wp_ret, wp_ret, HQ; [done..|set_solver|done]. }
  destruct Hs as (-> & c & n & Hp & Hs). inversion Hj as [|? ? [x Hx] Hj']; subst.
  wp_step. eapply get_node_wp; [done|]. simpl.
  assert (pcbs s !! c = Some x) as Hc by (unfold job_at in Hx; by rewrite Hp in Hx).
  unfold job_locs in *. simpl in Hnd. rewrite Hp in Hnd. simpl in Hnd.
  apply NoDup_cons in Hnd as [Hcn Hnd].
  wp_step. eapply get_job_wp; [done|]. wp_step.
  set (s1 := set_pcbs (<[c := aged x]> (pcbs s)) s).
  assert (forall q, q ∈ l -> job_at s1 q = job_at s q) as Hsame.
  { intros q Hqq. rewrite Forall_forall in Hj'. destruct (job_at_node _ _ (Hj' q Hqq)) as (d & k & Hd).
    unfold job_at. simpl. rewrite Hd. simpl. rewrite lookup_insert_ne; [done|]. intros ->. apply Hcn.
    apply list_elem_of_omap. exists q. split; [done|]. by rewrite Hd. }
  assert (wp (while_ f (fun cur =>
    match cur with
    | None => ret (inr tt)
    | Some c =>
        let! nd := get_node c in
        let! x := get_pcb (pcb nd) in
        when (0 <? job_length_score x) (set_pcb (pcb nd) (decremented x)) ;;
        ret (inl (next nd))
    end) n) Q s1) as Hrest.
  { apply (IH s1); [done| |done| |lia].
    - rewrite Forall_forall in Hj' |- *. intros q Hqq. rewrite Hsame by done. auto.
    - intros s2 Hn Hh Hjobs Hother. apply HQ; [done..| |].
      + intros q [->|Hqq]%elem_of_cons; [|by rewrite Hjobs, Hsame].
        unfold job_at. rewrite Hn. simpl. rewrite Hp. simpl. rewrite Hother by done. simpl.
        by rewrite lookup_insert_eq, Hc.
      + intros a Ha. simpl in Ha. rewrite Hp in Ha. simpl in Ha. rewrite Hother by set_solver.
        simpl. apply lookup_insert_ne. set_solver. }
  unfold aged in s1. apply wp_when; intros E.
  - eapply set_pcb_wp; [done|]. apply wp_ret. subst s1. by rewrite E in Hrest.
  - apply wp_ret. subst s1. rewrite E in Hrest. rewrite insert_id in Hrest by done. by destruct s.
Qed.

Lemma job_score s p : is_Some (job_at s p) -> exists x, job_at s p = Some x /\ job_length_score x = score s p.
Proof. intros [x Hx]. exists x. unfold score. by rewrite Hx. Qed.

(** The node before the first job of score [z] after [cur], or the last. *)
Lemma find_score_wp s z cur l (Q : loc -> rq -> Prop) fuel :
  seg (nodes s) (Some cur) (cur :: l) None -> Forall (fun p => is_Some (job_at s p)) l ->
  (length l < fuel)%nat ->
  (forall l1 c d, Forall (fun p => score s p <> z) l -> cur :: l = l1 ++ [c] ->
     nodes s !! c = Some (mkNode d None) -> Q c s) ->
  (forall l1 c q l2, cur :: l = l1 ++ c :: q :: l2 -> Forall (fun p => score s p <> z) (tail (l1 ++ [c])) ->
     score s q = z -> Q c s) ->
  wp (while_ fuel (fun cur =>
      let! nd := get_node cur in
      match next nd with
      | None => ret (inr cur)
      | Some n => let! x := job n in if job_length_score x =? z then ret (inr cur) else ret (inl n)
      end) cur) Q s.
Proof.
  revert cur fuel. induction l as [|q l IH]; intros cur fuel (_ & c & n & Hc & Hs) Hj Hf HN HQ;
    (destruct fuel as [|f]; [simpl in Hf; lia|]); simpl; wp_step; wp_step;
    (eapply get_node_wp; [done|]); simpl in Hs; cbn [next].
  - subst n. apply wp_ret, wp_ret. by eapply (HN []).
  - destruct Hs as [-> Hs]. inversion Hj as [|? ? Hq Hj']; subst.
    destruct (job_score _ _ Hq) as (x & Hx & Ex). wp_step. eapply job_wp; [done|]. rewrite Ex.
    apply wp_if; intros E; apply wp_ret.
    + apply wp_ret. apply (HQ [] cur q l); [done|constructor|lia].
    + apply IH; [done|done|simpl in Hf; lia| |].
      * intros l1 c' d Hall E' Hc'. apply (HN (cur :: l1) c' d); [constructor; [lia|done]|by rewrite E'|done].
      * intros l1 c' q' l2 E' Hall Hz. apply (HQ (cur :: l1) c' q' l2); [by rewrite E'| |done]. simpl.
        destruct l1 as [|r l1]; simpl in *; injection E' as -> _; constructor; (lia || done).
Qed.

(** The first job of the score moves to the front. *)
Lemma promote_wp s h l z (Q : unit -> rq -> Prop) :
  queue s (h :: l) ->
  (score s h = z \/ Forall (fun p => score s p <> z) (h :: l) -> Q tt s) ->
  (forall l1 q l2 s', l = l1 ++ q :: l2 -> score s q = z ->
     Forall (fun p => score s p <> z) (h :: l1) ->
     queue s' (q :: h :: l1 ++ l2) -> same_jobs s s' -> Q tt s') ->
  wp (ready_queue_promote z) Q s.
Proof.
  intros Hq HN HQ. pose proof (queue_length _ _ Hq) as Hlen. destruct Hq as [Hnd Hs Hj].
  pose proof Hs as [Hh _]. inversion Hj as [|? ? Hjh Hjl]; subst.
  destruct (job_score _ _ Hjh) as (x & Hx & Ex).
  unfold ready_queue_promote. wp_step. apply wp_get. wp_step. eapply wp_need; [done|].
  wp_step. eapply job_wp; [done|]. rewrite Ex. apply wp_if; intros E; [apply wp_ret, HN; lia|].
  wp_step. apply walk_wp. apply (find_score_wp s z h l); [by rewrite <- Hh|done|simpl in Hlen; lia| |].
  { intros l1 c d Hall El Hc. wp_step. eapply get_node_wp; [done|]. apply wp_ret, HN. right.
    constructor; [lia|done]. }
  intros l1 c q l2 El Hall Hz. rewrite cons_middle, app_assoc in El. rewrite El in Hs, Hnd, Hj.
  assert (exists k, l1 ++ [c] = h :: k /\ l = k ++ q :: l2) as (k & Ek & El2).
  { destruct l1 as [|r l1]; injection El as -> ->; eauto. }
  assert (is_Some (job_at s q)) as Hjq by (rewrite Forall_forall in Hj; apply Hj; set_solver).
  destruct (job_score _ _ Hjq) as (y & Hy & Ey).
  apply seg_app in Hs as (i & Hs1 & Hiq & cq & nq & Hcq & Hs2). subst i.
  apply seg_app in Hs1 as (i & Hs1 & -> & cc & nc & Hcc & ->).
  pose proof Hnd as Hnd0.
  apply NoDup_app in Hnd as (Hnda & Hdis & Hndq). apply NoDup_cons in Hndq as [Hq2 Hndq].
  apply NoDup_app in Hnda as (Hnda & Hdc & _).
  assert (q <> c) as Hqc by (intros ->; apply (Hdis c); set_solver).
  assert (c ∉ l2) as Hc2 by (specialize (Hdis c); set_solver).
  assert (q ∉ l1) as Hq1 by (intros Hcon; apply (Hdis q); set_solver).
  assert (c ∉ l1) as Hc1 by (intros Hcon; apply (Hdc c); set_solver).
  wp_step. eapply get_node_wp; [done|]. cbn [next]. wp_step. eapply job_wp; [done|].
  rewrite Ey, Hz, Z.eqb_refl. cbn [negb]. wp_step. eapply get_node_wp; [done|]. cbn [next].
  wp_step. eapply set_next_wp; [done|]. intros s1 -> Hss1.
  wp_step. eapply set_next_wp; [simpl; by rewrite lookup_insert_ne|]. intros s2 -> Hss2. apply wp_modify.
  pose proof (same_jobs_trans _ _ _ Hss1 Hss2) as Hss.
  apply (HQ k q l2); [done|done| | |done].
  { rewrite <- Ek. rewrite Ek in Hall |- *. simpl in Hall. constructor; [lia|done]. }
  rewrite app_comm_cons, <- Ek.
  assert (q :: (l1 ++ [c]) ++ l2 ≡ₚ (l1 ++ [c]) ++ q :: l2) as Hperm by apply Permutation_middle.
  eapply (queue_intro _ s); [| |by rewrite Hperm|done].
  { by rewrite Hperm. }
  simpl. split; [done|]. exists cq, (head s). rewrite lookup_insert_eq. split; [done|].
  apply seg_app. exists nq. split; [|by do 2 (apply seg_insert; [done|])].
  apply seg_app. exists (Some c). split; [by do 2 (apply seg_insert; [done|])|].
  simpl. split; [done|]. exists cc, nq. by simplify_map_eq.
Qed.

(** Every node of the queue is freed; [head] keeps the address of the
    first one. *)
Lemma destroy_wp s h l (Q : unit -> rq -> Prop) :
  queue s (h :: l) ->
  (forall s', head s' = Some h -> pcbs s' = pcbs s ->
     (forall p, nodes s' !! p = if bool_decide (p ∈ h :: l) then None else nodes s !! p) -> Q tt s') ->
  wp ready_queue_destroy Q s.
Proof.
  intros Hq HQ. pose proof (queue_length _ _ Hq) as Hlen. destruct Hq as [Hnd Hs _].
  pose proof Hs as [Hh _]. unfold ready_queue_destroy. wp_step. apply wp_get. rewrite Hh.
  wp_step. apply walk_wp. assert (length l < S (S (size (nodes s))))%nat as Hf by (simpl in Hlen; lia).
  revert Hf. generalize (S (S (size (nodes s)))) as fuel. rewrite Hh in Hs. clear Hlen.
  assert (forall cur l s', seg (nodes s') (Some cur) (cur :: l) None -> NoDup (cur :: l) ->
    (forall s'', head s'' = head s' -> pcbs s'' = pcbs s' ->
     (forall p, nodes s'' !! p = if bool_decide (p ∈ cur :: l) then None else nodes s' !! p) -> Q tt s'') ->
    forall fuel, (length l < fuel)%nat ->
    wp (while_ fuel (fun cur =>
        let! nd := get_node cur in
        match next nd with
        | None => ret (inr cur)
        | Some tmp => free_node cur ;; ret (inl tmp)
        end) cur) (fun cur => wp (free_node cur) Q) s') as Hloop.
  2:{ apply Hloop; [done|done|]. intros s'' H1 H2 H3. apply HQ; [by rewrite H1|done|done]. }
  clear. intros cur l. revert cur. induction l as [|q l IH]; intros cur s' (_ & c & n & Hc & Hs) Hnd HQ fuel Hf;
    (destruct fuel as [|f]; [simpl in Hf; lia|]); simpl; wp_step; wp_step;
    (eapply get_node_wp; [done|]); simpl in Hs; cbn [next].
  - subst n. do 2 apply wp_ret. unfold free_node. wp_step. eapply get_node_wp; [done|].
    apply wp_modify, HQ; [done..|]. intros p. simpl.
    case_bool_decide as E; [|apply lookup_delete_ne; set_solver].
    apply list_elem_of_singleton in E as ->. apply lookup_delete_eq.
  - destruct Hs as [-> Hs]. wp_step. unfold free_node at 1. wp_step. eapply get_node_wp; [done|].
    apply wp_modify, wp_ret. apply NoDup_cons in Hnd as [Hcn Hnd].
    apply IH; [|done| |simpl in Hf; lia].
    + simpl. split; [done|]. destruct Hs as (d & k & Hq & Hs). exists d, k. split.
      * rewrite lookup_delete_ne; [done|set_solver].
      * assert (cur ∉ l) as Hcl by set_solver. revert Hs. clear -Hcl. revert k Hcl.
        induction l as [|r l IH]; intros k Hcl; simpl; [done|]. intros (-> & c' & n' & Hr & Hs).
        split; [done|]. exists c', n'. split; [rewrite lookup_delete_ne; [done|set_solver]|].
        apply IH; [set_solver|done].
    + intros s'' H1 H2 H3. apply HQ; [done..|]. intros p. rewrite H3. simpl.
      destruct (decide (p = cur)) as [->|Hne].
      * rewrite (bool_decide_eq_true_2 (cur ∈ cur :: _)) by set_solver.
        case_bool_decide; [done|]. apply lookup_delete_eq.
      * rewrite lookup_delete_ne by done. do 2 case_bool_decide; set_solver.
Qed.

#[export] Hint Resolve ready_queue_add_to_tail_wp ready_queue_add_to_head_wp
  ready_queue_pop_head_wp is_ready_empty_wp sort_ready_queue_wp
  ready_queue_pop_shortest_job_wp shortest_score_wp promote_wp decrement_wp : wp.

(* ------------------------------------------------------------------ *)
(** ** Properties                                                      *)
(* ------------------------------------------------------------------ *)

(** A queue of three jobs with scores 3, 2, 1. *)
Definition demo_pcb (id score : Z) : PCB :=
  mkPCB false 1 id 0 0 0 score 0 0 None (replicate 10 false) None.
Definition demo : rq :=
  mkRq 4 (Some 1%positive)
    (list_to_map [(1%positive, mkNode 4 (Some 2%positive));
                  (2%positive, mkNode 5 (Some 3%positive));
                  (3%positive, mkNode 6 None);
                  (7%positive, mkNode 8 None)])
    (list_to_map [(4%positive, demo_pcb 1 3); (5%positive, demo_pcb 2 2);
                  (6%positive, demo_pcb 3 1); (8%positive, demo_pcb 4 9)]) 9.

Lemma demo_queue : queue demo [1; 2; 3]%positive.
Proof.
  split.
  - apply (bool_decide_unpack _). by vm_compute.
  - simpl. split; [done|]. do 2 eexists. split; [done|]. split; [done|].
    do 2 eexists. split; [done|]. split; [done|]. do 2 eexists. by split.
  - repeat constructor; vm_compute; eauto.
Qed.

(** Sort_ready_queue terminates without touching freed or missing
    memory, and leaves the queue as ONE pass of bubble sort leaves it
    (priority jobs first, then by score): the variable [cur] of the inner
    loop is never reset, so the outer loop does no second pass. *)
Theorem sort_is_one_pass s l :
  queue s l ->
  exists s', sort_ready_queue s = Ok tt s' [] /\ same_jobs s s' /\
    queue s' (bubble_pass (needed s) l).
Proof.
  intros Hq.
  assert (wp sort_ready_queue (fun _ s' => same_jobs s s' /\ queue s' (bubble_pass (needed s) l)) s) as H
    by by eapply sort_ready_queue_wp.
  apply wp_Ok in H as ([] & s' & H1 & H2). by exists s'.
Qed.

Lemma sort_is_one_pass_witness :
  exists s', sort_ready_queue demo = Ok tt s' [] /\ same_jobs demo s' /\
    queue s' (bubble_pass (needed demo) [1; 2; 3]%positive).
Proof. apply sort_is_one_pass, demo_queue. Defined.

(** Ready_queue_pop_shortest_job compares two jobs only: from a queue
    [p; q; ...] it takes [q] if [q] must come before [p] (by priority, then
    score) and [p] otherwise, whatever the scores of the others, so the
    shortest job may stay in the queue.  The others stay queued. *)
Theorem pop_shortest_job_compares_two s p q l :
  queue s (p :: q :: l) ->
  exists s' l', ready_queue_pop_shortest_job s = Ok (Some (if needed s p q then q else p)) s' [] /\
    queue s' l' /\ (if needed s p q then q else p) :: l' ≡ₚ p :: q :: l /\ same_jobs s s'.
Proof.
  intros Hq.
  assert (wp ready_queue_pop_shortest_job (fun r s' => r = Some (if needed s p q then q else p) /\
    exists l', queue s' l' /\ (if needed s p q then q else p) :: l' ≡ₚ p :: q :: l /\ same_jobs s s') s) as H.
  { eapply ready_queue_pop_shortest_job_wp; [done|done|]. intros x l' E s' Hq' Hs'. simpl in E.
    pose proof (bubble_perm (needed s) p (q :: l)) as Hp. simpl in Hp. rewrite E in Hp.
    destruct (needed s p q); injection E as <- _; (split; [done|by exists l']). }
  apply wp_Ok in H as (r & s' & E & -> & l' & H). by exists s', l'.
Qed.

Lemma pop_shortest_job_compares_two_witness :
  score demo 1 = 3 /\ score demo 2 = 2 /\ score demo 3 = 1 /\
  exists s' l', ready_queue_pop_shortest_job demo = Ok (Some 2%positive) s' [] /\
    queue s' l' /\ 2%positive :: l' ≡ₚ [1; 2; 3]%positive /\ same_jobs demo s'.
Proof.
  do 3 (split; [done|]). apply (pop_shortest_job_compares_two demo 1 2 [3%positive] demo_queue).
Defined.

(** Adding nodes at the tail one after the other, and popping [n]. *)
Fixpoint add_all (ns : list loc) : M rq unit :=
  match ns with [] => ret tt | p :: ns' => ready_queue_add_to_tail p ;; add_all ns' end.
Fixpoint pop_all (n : nat) : M rq (list (option loc)) :=
  match n with
  | O => ret []
  | S n' => let! r := ready_queue_pop_head in let! rs := pop_all n' in ret (r :: rs)
  end.

Lemma add_all_wp s l ns (Q : unit -> rq -> Prop) :
  queue s l -> NoDup (l ++ ns) -> Forall (fun p => is_Some (job_at s p)) ns ->
  (forall s', queue s' (l ++ ns) -> same_jobs s s' -> Q tt s') -> wp (add_all ns) Q s.
Proof.
  revert s l. induction ns as [|p ns IH]; intros s l Hq Hnd Hj HQ; simpl.
  - apply wp_ret. rewrite app_nil_r in HQ. by apply HQ.
  - inversion Hj as [|? ? Hp Hj']; subst. wp_step.
    apply NoDup_app in Hnd as Hd. destruct Hd as (_ & Hd & _).
    eapply ready_queue_add_to_tail_wp; [done|set_solver|done|]. intros s1 Hq1 Hs1.
    eapply IH; [done|by rewrite <- app_assoc| |].
    + destruct Hs1 as [_ Hs1]. eapply Forall_impl; [done|]. intros q Hqq. by rewrite Hs1.
    + intros s2 Hq2 Hs2. rewrite <- app_assoc in Hq2. apply HQ; [done|by eapply same_jobs_trans].
Qed.

Lemma pop_all_wp s l (Q : list (option loc) -> rq -> Prop) :
  queue s l -> (forall s', queue s' [] -> same_jobs s s' -> Q (map Some l) s') ->
  wp (pop_all (length l)) Q s.
Proof.
  revert s Q. induction l as [|p l IH]; intros s Q Hq HQ; simpl.
  - by apply wp_ret, HQ.
  - wp_step. eapply ready_queue_pop_head_wp; [done|done|]. intros p' l' [= <- <-] s1 Hq1 Hs1 _.
    wp_step. apply IH; [done|]. intros s2 Hq2 Hs2. apply wp_ret, HQ; [done|by eapply same_jobs_trans].
Qed.

(** The queue is first-in first-out: jobs appended in some order to
    any queue come out, after those already there, in that order, and no
    process control block is changed. *)
Theorem ready_queue_fifo s l ns :
  queue s l -> NoDup (l ++ ns) -> Forall (fun p => is_Some (job_at s p)) ns ->
  exists s', (add_all ns ;; pop_all (length (l ++ ns))) s = Ok (map Some (l ++ ns)) s' [] /\
    queue s' [] /\ same_jobs s s'.
Proof.
  intros Hq Hnd Hj.
  assert (wp (add_all ns ;; pop_all (length (l ++ ns)))
    (fun r s' => r = map Some (l ++ ns) /\ queue s' [] /\ same_jobs s s') s) as H.
  { wp_step. eapply add_all_wp; [done..|]. intros s1 Hq1 Hs1. eapply pop_all_wp; [done|].
    intros s2 Hq2 Hs2. split_and!; [done|done|by eapply same_jobs_trans]. }
  apply wp_Ok in H as (r & s' & H1 & -> & H2 & H3). by exists s'.
Qed.

Lemma ready_queue_fifo_witness :
  exists s', (add_all [7%positive] ;; pop_all 4) demo
    = Ok [Some 1; Some 2; Some 3; Some 7]%positive s' [] /\
    queue s' [] /\ same_jobs demo s'.
Proof.
  apply (ready_queue_fifo demo [1; 2; 3]%positive [7%positive]); [apply demo_queue| |].
  - apply (bool_decide_unpack _). by vm_compute.
  - repeat constructor. vm_compute. eauto.
Defined.

(** After ready_queue_destroy every node of the queue is freed but
    [head] still holds the address of the first one: the queue does not
    test empty, and the next ready_queue_pop_head reads freed memory. *)
Theorem destroy_leaves_head_dangling s h l :
  queue s (h :: l) ->
  exists s', ready_queue_destroy s = Ok tt s' [] /\
    (forall p, p ∈ h :: l -> nodes s' !! p = None) /\
    is_ready_empty s' = Ok false s' [] /\ ready_queue_pop_head s' = Stuck.
Proof.
  intros Hq.
  assert (wp ready_queue_destroy (fun _ s' => head s' = Some h /\
    forall p, p ∈ h :: l -> nodes s' !! p = None) s) as H.
  { eapply destroy_wp; [done|]. intros s' H1 _ H3. split; [done|]. intros p Hp.
    rewrite H3. by rewrite bool_decide_eq_true_2. }
  apply wp_Ok in H as ([] & s' & H1 & H2 & H3). exists s'. split; [done|]. split; [done|].
  unfold is_ready_empty, ready_queue_pop_head, get_node, bind, get, ret, need. simpl.
  rewrite H2. simpl. split; [done|]. by rewrite H3 by set_solver.
Qed.

Lemma destroy_leaves_head_dangling_witness :
  exists s', ready_queue_destroy demo = Ok tt s' [] /\
    (forall p, p ∈ [1; 2; 3]%positive -> nodes s' !! p = None) /\
    is_ready_empty s' = Ok false s' [] /\ ready_queue_pop_head s' = Stuck.
Proof. apply destroy_leaves_head_dangling, demo_queue. Defined.

(** When the job at the head does not have the score,
    ready_queue_promote moves the first job that has it to the front and
    keeps the order of the others; no such job, no change. *)
Theorem promote_moves_first s h l z :
  queue s (h :: l) -> score s h <> z ->
  exists s', ready_queue_promote z s = Ok tt s' [] /\ same_jobs s s' /\
    ((queue s' (h :: l) /\ Forall (fun p => score s p <> z) l) \/
     exists l1 q l2, l = l1 ++ q :: l2 /\ score s q = z /\
       Forall (fun p => score s p <> z) l1 /\ queue s' (q :: h :: l1 ++ l2)).
Proof.
  intros Hq Hh.
  assert (wp (ready_queue_promote z) (fun _ s' => same_jobs s s' /\
    ((queue s' (h :: l) /\ Forall (fun p => score s p <> z) l) \/
     exists l1 q l2, l = l1 ++ q :: l2 /\ score s q = z /\
       Forall (fun p => score s p <> z) l1 /\ queue s' (q :: h :: l1 ++ l2))) s) as H.
  { eapply promote_wp; [done| |].
    - intros [?|Hall]; [done|]. split; [done|]. left. by inversion Hall.
    - intros l1 q l2 s' -> Hz Hall Hq' Hs'. split; [done|]. right. exists l1, q, l2.
      by inversion Hall. }
  apply wp_Ok in H as ([] & s' & H1 & H2 & H3). by exists s'.
Qed.

Lemma promote_moves_first_witness :
  exists s', ready_queue_promote 1 demo = Ok tt s' [] /\ same_jobs demo s' /\
    ((queue s' [1; 2; 3]%positive /\ Forall (fun p => score demo p <> 1) [2; 3]%positive) \/
     exists l1 q l2, [2; 3]%positive = l1 ++ q :: l2 /\ score demo q = 1 /\
       Forall (fun p => score demo p <> 1) l1 /\ queue s' (q :: 1%positive :: l1 ++ l2)).
Proof. apply promote_moves_first; [apply demo_queue|by vm_compute]. Defined.
End ReadyQueue.
