(* ===== verification/FrameStore.v ===== *)
(** * FrameStore: the memory of the second shell (a2/shellmemory.c)

    One array holds the frame store, where scripts are loaded page by
    page, and the variable store after it. *)
From S2P Require Import Prelude CString VarSpec A1Memory ReadyQueue.
From Stdlib Require Import Ascii.

Module FrameStore.
Import VarSpec ReadyQueue.
Open Scope string_scope. Open Scope Z_scope.

(** A [char *] that is only assigned literals and results of strdup: free
    is undefined on a literal. *)
Inductive cstr := Null | Lit (s : string) | Dup (s : string).
Definition text (p : cstr) : option string :=
  match p with Null => None | Lit s => Some s | Dup s => Some s end.

Record memory_struct := mkMem { var : cstr; value : cstr; age : Z; accessed : Z }.

Inductive PagePolicy := FIFO | LRU.

Record store := mkStore {
  shellmemory : list memory_struct;
  current_policy : PagePolicy;
  global_access_time : Z
}.

(** [match] and [extract], which nothing calls, are to the letter those of
    the first shell. *)
Definition match_ {S} : string -> string -> M S Z := A1Memory.match_.
Definition extract {S} : string -> M S string := A1Memory.extract.

Section sizes.
Variables FRAME_STORE_SIZE VAR_STORE_SIZE : Z.

Definition SHELL_MEM_LENGTH : Z := FRAME_STORE_SIZE + VAR_STORE_SIZE.
Definition FRAME_SIZE : Z := 3.
Definition THRESHOLD : Z := FRAME_STORE_SIZE.

Definition none_slot : memory_struct := mkMem (Lit "none") (Lit "none") 0 0.

Definition slot (i : Z) : M store memory_struct :=
  let! s := get in need (zget (shellmemory s) i).
Definition set_slot (i : Z) (m : memory_struct) : M store unit :=
  let! s := get in
  let! l := need (zset (shellmemory s) i m) in
  put (mkStore l (current_policy s) (global_access_time s)).
Definition set_var (i : Z) (p : cstr) : M store unit :=
  let! m := slot i in set_slot i (mkMem p (value m) (age m) (accessed m)).
Definition set_value (i : Z) (p : cstr) : M store unit :=
  let! m := slot i in set_slot i (mkMem (var m) p (age m) (accessed m)).
Definition set_age (i : Z) (t : Z) : M store unit :=
  let! m := slot i in set_slot i (mkMem (var m) (value m) t (accessed m)).
Definition set_accessed (i : Z) (t : Z) : M store unit :=
  let! m := slot i in set_slot i (mkMem (var m) (value m) (age m) t).
(** [++global_access_time]. *)
Definition tick : M store Z :=
  let! s := get in
  put (mkStore (shellmemory s) (current_policy s) (global_access_time s + 1)) ;;
  ret (global_access_time s + 1).
(** free(p), skipped on NULL by the callers. *)
Definition free_ (p : cstr) : M store unit :=
  match p with Dup _ => ret tt | Null => ret tt | Lit _ => undef end.

Definition set_memory_policy (policy : PagePolicy) : M store unit :=
  let! s := get in put (mkStore (shellmemory s) policy (global_access_time s)).

Definition mem_init : M store unit :=
  for_ (Z.to_nat SHELL_MEM_LENGTH) 0 (fun i =>
    set_var i (Lit "none") ;; set_value i (Lit "none") ;; set_accessed i 0 ;; set_age i 0).

Definition mem_init_variable : M store unit :=
  for_ (Z.to_nat (SHELL_MEM_LENGTH - THRESHOLD)) THRESHOLD (fun i =>
    set_var i (Lit "none") ;; set_value i (Lit "none")).

(** The name and value of a slot, for strcmp and strdup. *)
Definition slot_text (i : Z) : M store (string * string) :=
  let! m := slot i in
  let! k := need (text (var m)) in
  let! v := need (text (value m)) in
  ret (k, v).

Definition mem_set_value (var_in value_in : string) : M store unit :=
  let n := Z.to_nat (SHELL_MEM_LENGTH - THRESHOLD) in
  let! r := search slot_text n THRESHOLD var_in (fun i _ => set_value i (Dup value_in)) in
  match r with
  | Some _ => ret tt
  | None =>
      search slot_text n THRESHOLD "none"
        (fun i _ => set_var i (Dup var_in) ;; set_value i (Dup value_in)) ;;
      ret tt
  end.

Definition mem_get_value (var_in : string) : M store (option string) :=
  search slot_text (Z.to_nat (SHELL_MEM_LENGTH - THRESHOLD)) THRESHOLD var_in
    (fun i kv => let! t := tick in set_accessed i t ;; ret (snd kv)).

Definition mem_free_lines_between (start end_ : Z) : M store unit :=
  for_ (Z.to_nat (Z.min (end_ + 1) SHELL_MEM_LENGTH - start)) start (fun i =>
    let! m := slot i in
    free_ (var m) ;;
    free_ (value m) ;;
    set_var i (Lit "none") ;;
    set_value i (Lit "none") ;;
    let! t := tick in
    set_accessed i t ;;
    set_age i t).

Definition printShellMemory : M store unit :=
  let! count_empty := for_acc (Z.to_nat SHELL_MEM_LENGTH) 0 (fun i n =>
    let! m := slot i in
    let! k := need (text (var m)) in
    if streq k "none" then ret (n + 1)
    else
      let! v := need (text (value m)) in
      print (nl +:+ "line " +:+ pretty i +:+ ": key: " +:+ k +:+ tab +:+ tab +:+ "value: " +:+ v +:+ nl) ;;
      ret n) 0 in
  print (nl +:+ tab +:+ pretty SHELL_MEM_LENGTH +:+ " lines in total, " +:+
         pretty (SHELL_MEM_LENGTH - count_empty) +:+ " lines in use, " +:+
         pretty count_empty +:+ " lines free" +:+ nl +:+ nl).

(* ------------------------------------------------------------------ *)
(** ** Choosing a frame                                                *)
(* ------------------------------------------------------------------ *)

Definition is_none (i : Z) : M store bool :=
  let! m := slot i in let! k := need (text (var m)) in ret (streq k "none").

(** The three comparisons of the condition stop at the first that fails. *)
Definition frame_free (i : Z) : M store bool :=
  let! a := is_none i in
  if a : bool then
    let! b := is_none (i + 1) in
    if b : bool then is_none (i + 2) else ret false
  else ret false.

Definition find_available_slot : M store Z :=
  while_ (Z.to_nat (Z.max 0 THRESHOLD / FRAME_SIZE + 2)) (fun start_index =>
    if negb (start_index <? THRESHOLD) then ret (inr (-1))
    else
      let! free := frame_free start_index in
      ret (if free : bool then inr start_index else inl (start_index + FRAME_SIZE))) 0.

(** The frame with the least key, the first of several; keys from 9999
    are not considered. *)
Definition find_least (key : memory_struct -> Z) : M store Z :=
  let! r := for_acc (Z.to_nat ((THRESHOLD + 2) / FRAME_SIZE)) 0 (fun k '(index, least) =>
    let! m := slot (k * FRAME_SIZE) in
    ret (if key m <? least then (k * FRAME_SIZE, key m) else (index, least))) (-1, 9999) in
  ret (fst r).
Definition find_lru_slot : M store Z := find_least accessed.
Definition find_fifo_slot : M store Z := find_least age.

Definition find_replacement_slot : M store Z :=
  let! s := get in
  match current_policy s with LRU => find_lru_slot | FIFO => find_fifo_slot end.

(* ------------------------------------------------------------------ *)
(** ** Loading and evicting                                            *)
(* ------------------------------------------------------------------ *)

(** Fields of the PCB that the functions below assign. *)
Definition pcb_start (n : Z) (p : PCB) : PCB :=
  mkPCB (priority p) (currentPage p) (pid p) (PC p) n (end_ p) (job_length_score p)
        (pageCounter p) (currentLine p) (filename p) (pagetable p) (file p).
Definition pcb_PC (n : Z) (p : PCB) : PCB :=
  mkPCB (priority p) (currentPage p) (pid p) n (start p) (end_ p) (job_length_score p)
        (pageCounter p) (currentLine p) (filename p) (pagetable p) (file p).
Definition pcb_end (n : Z) (p : PCB) : PCB :=
  mkPCB (priority p) (currentPage p) (pid p) (PC p) (start p) n (job_length_score p)
        (pageCounter p) (currentLine p) (filename p) (pagetable p) (file p).
Definition pcb_filename (f : string) (h : option loc) (p : PCB) : PCB :=
  mkPCB (priority p) (currentPage p) (pid p) (PC p) (start p) (end_ p) (job_length_score p)
        (pageCounter p) (currentLine p) (Some f) (pagetable p) h.
Definition pcb_pages (t : list bool) (n : Z) (p : PCB) : PCB :=
  mkPCB (priority p) (currentPage p) (pid p) (PC p) (start p) (end_ p) (job_length_score p)
        n (currentLine p) (filename p) t (file p).

(** Storing one line of a script. *)
Definition store_line (frame_index : Z) (filename line : string) : M store unit :=
  set_var frame_index (Dup filename) ;;
  set_value frame_index (Dup line) ;;
  let! t := tick in
  set_accessed frame_index t ;;
  set_age frame_index t.

(** [pagetable[pageCounter] = true; pageCounter++]. *)
Definition mark_page (p : PCB) : M store PCB :=
  let! t := need (zset (pagetable p) (pageCounter p) true) in
  ret (pcb_pages t (pageCounter p + 1) p).

(** The variables of load_file: the file, the PCB, [frame_index],
    [lines_loaded] and [load_next_page]. *)
Record loading := mkLoading {
  l_fp : FILE; l_pcb : PCB; l_frame : Z; l_lines : Z; l_next : bool
}.

(** One turn of the inner loop; [inr] is its break. *)
Definition load_line (filename : string) (i : Z) (x : loading) : M store (loading + loading) :=
  if negb (l_lines x <? FRAME_SIZE * 2) then ret (inr x)
  else if feof (l_fp x) then
    ret (inr (mkLoading (l_fp x) (pcb_end (l_frame x - 1) (l_pcb x)) (l_frame x) (l_lines x) (l_next x)))
  else
    let '(line, fp) := fgets 100 (l_fp x) in
    match line with
    | None => ret (inl (mkLoading fp (l_pcb x) (l_frame x) (l_lines x) (l_next x)))
    | Some line =>
        store_line (l_frame x) filename line ;;
        let frame := l_frame x + 1 in
        let lines := l_lines x + 1 in
        if (Z.rem lines FRAME_SIZE =? 0) || feof fp then
          let! pcb := mark_page (l_pcb x) in
          ret (inl (mkLoading fp pcb frame lines (if pageCounter pcb =? 2 then false else l_next x)))
        else ret (inl (mkLoading fp (l_pcb x) frame lines (l_next x)))
    end.

(** One turn of the outer loop; [inr] ends it with the error code. *)
Definition load_page (filename : string) (x : loading) : M store (loading + loading * Z) :=
  if negb (negb (feof (l_fp x)) && l_next x && (l_frame x <? u64 (THRESHOLD - 2))) then ret (inr (x, 0))
  else
    let! r := for_ret (Z.to_nat FRAME_SIZE) 0 (load_line filename) x in
    let x := match r with inl x => x | inr x => x end in
    if THRESHOLD <? l_frame x then ret (inr (x, 21)) else ret (inl x).

(** The loop loads at most two pages: three turns and the last test. *)
Definition load_fuel : nat := 4.

(** The error code, the PCB and the file that load_file leaves; [h] is
    the handle of the file. *)
Definition load_file (fp : FILE) (h : option loc) (p : PCB) (filename : string)
  : M store (Z * PCB * FILE) :=
  let! frame_index := find_available_slot in
  if frame_index =? -1 then ret (21, p, fp) else
  let p := pcb_filename filename h (pcb_PC frame_index (pcb_start frame_index p)) in
  let! r := while_ load_fuel (load_page filename) (mkLoading fp p frame_index 0 true) in
  let '(x, error_code) := r in
  ret (error_code, pcb_end (l_frame x - 1) (l_pcb x), l_fp x).

Section files.
(** The files that fopen can open for reading. *)
Variable fopen_r : string -> option string.

(** One turn of the loop of load_frame; [inr] is its break. *)
Definition load_frame_line (filename : string) (i : Z) (x : FILE * PCB * Z)
  : M store (FILE * PCB * Z + FILE * PCB * Z) :=
  let '(fp, p, frame_index) := x in
  if feof fp then ret (inr (fp, pcb_end (frame_index - 1) p, frame_index))
  else
    let '(line, fp) := fgets 100 fp in
    match line with
    | None => ret (inl (fp, p, frame_index))
    | Some line => store_line frame_index filename line ;; ret (inl (fp, p, frame_index + 1))
    end.

Definition load_frame (p : PCB) : M store (Z * PCB) :=
  let! filename := need (filename p) in
  let! content := need (fopen_r filename) in
  (* skip the lines already loaded *)
  let! r := for_ret (Z.to_nat (pageCounter p * FRAME_SIZE)) 0 (fun _ fp =>
    let '(_, fp) := fgets 100 fp in
    ret (if feof fp then inr tt else inl fp)) (mkFILE content false) in
  match r with
  | inr _ => ret (-2, p)
  | inl fp =>
  if feof fp then ret (-2, p) else
  let! frame_index := find_available_slot in
  if frame_index =? -1 then ret (-1, p) else
  let p := pcb_PC frame_index (pcb_start frame_index p) in
  let! r := for_ret (Z.to_nat FRAME_SIZE) 0 (load_frame_line filename) (fp, p, frame_index) in
  let '(_, p, frame_index) := match r with inl x => x | inr x => x end in
  let! p := mark_page p in
  ret (0, pcb_end (frame_index - 1) p)
  end.

Definition remove_frame (p : PCB) : M store (Z * PCB) :=
  let! filename := need (filename p) in
  match fopen_r filename with
  | None => ret (-1, p)
  | Some _ =>
      let! frame_index := find_replacement_slot in
      let p := pcb_PC frame_index (pcb_start frame_index p) in
      print ("Page fault! Victim page contents:" +:+ nl) ;;
      for_ (Z.to_nat FRAME_SIZE) 0 (fun i =>
        let! m := slot (frame_index + i) in
        match var m with
        | Null => ret tt
        | _ => let! v := need (text (value m)) in print v
        end) ;;
      mem_free_lines_between frame_index (frame_index + FRAME_SIZE - 1) ;;
      print ("End of victim page contents." +:+ nl) ;;
      let! t := need (zset (pagetable p) 0 false) in
      ret (0, pcb_pages t (pageCounter p) p)
  end.

End files.

Definition mem_get_value_at_line (index : Z) : M store cstr :=
  if (index <? 0) || (SHELL_MEM_LENGTH <? index) then ret Null
  else
    let! t := tick in
    set_accessed index t ;;
    let! m := slot index in
    ret (value m).

Definition free_shell_memory : M store unit :=
  for_ (Z.to_nat SHELL_MEM_LENGTH) 0 (fun i =>
    let! m := slot i in
    (match text (var m) with
     | Some k => if negb (streq k "none") then free_ (var m) else ret tt
     | None => ret tt
     end) ;;
    (match text (value m) with
     | Some v => if negb (streq v "none") then free_ (value m) else ret tt
     | None => ret tt
     end) ;;
    set_var i (Lit "none") ;;
    set_value i (Lit "none")).

(* ------------------------------------------------------------------ *)
(** ** Slots                                                           *)
(* ------------------------------------------------------------------ *)

(** The memory with slot [i] replaced. *)
Definition upd (i : Z) (m : memory_struct) (s : store) : store :=
  mkStore (<[Z.to_nat i := m]> (shellmemory s)) (current_policy s) (global_access_time s).

Lemma slot_wp s i m (Q : memory_struct -> store -> Prop) :
  zget (shellmemory s) i = Some m -> Q m s -> wp (slot i) Q s.
Proof. intros Hm HQ. unfold slot. by wp_steps. Qed.

Lemma set_slot_wp s i m (Q : unit -> store -> Prop) :
  0 <= i < zlen (shellmemory s) -> Q tt (upd i m s) -> wp (set_slot i m) Q s.
Proof.
  intros Hi HQ. unfold set_slot. do 2 wp_step. wp_step. eapply wp_need; [by apply zset_Some|].
  by apply wp_put.
Qed.

Lemma set_var_wp s i m p (Q : unit -> store -> Prop) :
  zget (shellmemory s) i = Some m -> Q tt (upd i (mkMem p (value m) (age m) (accessed m)) s) ->
  wp (set_var i p) Q s.
Proof.
  intros Hm HQ. unfold set_var. wp_step. eapply slot_wp; [done|].
  apply set_slot_wp; [by eapply zget_range|done].
Qed.
Lemma set_value_wp s i m p (Q : unit -> store -> Prop) :
  zget (shellmemory s) i = Some m -> Q tt (upd i (mkMem (var m) p (age m) (accessed m)) s) ->
  wp (set_value i p) Q s.
Proof.
  intros Hm HQ. unfold set_value. wp_step. eapply slot_wp; [done|].
  apply set_slot_wp; [by eapply zget_range|done].
Qed.
Lemma set_accessed_wp s i m t (Q : unit -> store -> Prop) :
  zget (shellmemory s) i = Some m -> Q tt (upd i (mkMem (var m) (value m) (age m) t) s) ->
  wp (set_accessed i t) Q s.
Proof.
  intros Hm HQ. unfold set_accessed. wp_step. eapply slot_wp; [done|].
  apply set_slot_wp; [by eapply zget_range|done].
Qed.

Lemma zget_upd s i m j :
  0 <= i < zlen (shellmemory s) ->
  zget (shellmemory (upd i m s)) j = if bool_decide (j = i) then Some m else zget (shellmemory s) j.
Proof.
  intros Hi. pose proof (zset_Some (shellmemory s) i m Hi) as Hz. by apply zset_inv in Hz as (_ & _ & ->).
Qed.

(* ------------------------------------------------------------------ *)
(** ** Variables                                                       *)
(* ------------------------------------------------------------------ *)

(** The variable store holds the slots [l]. *)
Record vars_are (s : store) (l : slots) : Prop := {
  va_length : zlen (shellmemory s) = SHELL_MEM_LENGTH;
  va_count : zlen l = VAR_STORE_SIZE;
  va_slot : forall i kv, l !! i = Some kv -> exists m,
    zget (shellmemory s) (THRESHOLD + Z.of_nat i) = Some m /\
    text (var m) = Some (fst kv) /\ text (value m) = Some (snd kv)
}.

Lemma slot_text_ok s l i kv :
  vars_are s l -> l !! i = Some kv -> slot_text (THRESHOLD + Z.of_nat i) s = Ok kv s [].
Proof.
  intros [_ _ Hs] Hl. destruct (Hs _ _ Hl) as (m & Hm & Hk & Hv). destruct kv as [k v].
  assert (wp (slot_text (THRESHOLD + Z.of_nat i)) (fun r s' => r = (k, v) /\ s' = s) s) as H.
  { unfold slot_text. wp_step. eapply slot_wp; [done|]. wp_step. eapply wp_need; [done|].
    wp_step. eapply wp_need; [done|]. by apply wp_ret. }
  by apply wp_Ok in H as (r & s' & E & -> & ->).
Qed.

Lemma vars_in_range s l i kv : vars_are s l -> l !! i = Some kv ->
  0 <= THRESHOLD + Z.of_nat i < zlen (shellmemory s).
Proof. intros [_ _ Hs] Hl. destruct (Hs _ _ Hl) as (m & Hm & _). by eapply zget_range. Qed.

(** Replacing a variable slot replaces the variable. *)
Lemma vars_upd s l i m kv kv' :
  vars_are s l -> l !! i = Some kv ->
  text (var m) = Some (fst kv') -> text (value m) = Some (snd kv') ->
  vars_are (upd (THRESHOLD + Z.of_nat i) m s) (<[i := kv']> l).
Proof.
  intros Hv Hl Hk Hw. pose proof (vars_in_range _ _ _ _ Hv Hl) as Hr. destruct Hv as [H1 H2 H3]. split.
  - simpl. by rewrite length_insert.
  - by rewrite length_insert.
  - intros j kvj Hj. rewrite zget_upd by done. destruct (decide (j = i)) as [->|Hne].
    + rewrite list_lookup_insert_eq in Hj by (by eapply lookup_lt_Some). injection Hj as <-.
      exists m. by rewrite bool_decide_eq_true_2.
    + rewrite list_lookup_insert_ne in Hj by done. destruct (H3 _ _ Hj) as (m' & Hm' & ?). exists m'.
      rewrite bool_decide_eq_false_2; [done|]. lia.
Qed.

Lemma vars_upd_same s l i m kv :
  vars_are s l -> l !! i = Some kv ->
  text (var m) = Some (fst kv) -> text (value m) = Some (snd kv) ->
  vars_are (upd (THRESHOLD + Z.of_nat i) m s) l.
Proof.
  intros Hv Hl Hk Hw. rewrite <- (list_insert_id l i kv) by done. by eapply vars_upd.
Qed.

(** The frames, outside the variable store. *)
Definition same_frames (s s' : store) : Prop :=
  forall j, j < THRESHOLD -> zget (shellmemory s') j = zget (shellmemory s) j.

Lemma upd_same_frames s l i m kv :
  vars_are s l -> l !! i = Some kv -> same_frames s (upd (THRESHOLD + Z.of_nat i) m s).
Proof.
  intros Hv Hl j Hj. rewrite zget_upd by by eapply vars_in_range. rewrite bool_decide_eq_false_2; [done|lia].
Qed.

Lemma vars_nat s l : vars_are s l -> Z.to_nat (SHELL_MEM_LENGTH - THRESHOLD) = length l.
Proof. intros [_ H _]. unfold SHELL_MEM_LENGTH, THRESHOLD. lia. Qed.

Lemma mem_set_value_wp s l k v (Q : unit -> store -> Prop) :
  vars_are s l ->
  (forall s', vars_are s' (vset l k v) -> same_frames s s' -> Q tt s') ->
  wp (mem_set_value k v) Q s.
Proof.
  intros Hv HQ. unfold mem_set_value, vset in *. rewrite (vars_nat _ _ Hv). wp_step.
  apply search_wp; [intros i kv Hi; by eapply slot_text_ok| |].
  - intros i w Hi Hl. rewrite Hi in HQ. destruct (va_slot _ _ Hv _ _ Hl) as (m & Hm & Hk & Hw).
    eapply set_value_wp; [done|]. apply wp_ret. apply HQ; [by eapply vars_upd|by eapply upd_same_frames].
  - intros Hn. rewrite Hn in HQ. wp_step.
    apply search_wp; [intros i kv Hi; by eapply slot_text_ok| |].
    + intros i w Hi Hl. rewrite Hi in HQ. destruct (va_slot _ _ Hv _ _ Hl) as (m & Hm & Hk & Hw).
      wp_step. eapply set_var_wp; [done|].
      pose proof (vars_in_range _ _ _ _ Hv Hl) as Hr.
      eapply set_value_wp; [rewrite zget_upd by done; by rewrite bool_decide_eq_true_2|].
      apply wp_ret. apply HQ.
      * assert (upd (THRESHOLD + Z.of_nat i) (mkMem (Dup k) (Dup v) (age m) (accessed m))
          (upd (THRESHOLD + Z.of_nat i) (mkMem (Dup k) (value m) (age m) (accessed m)) s)
          = upd (THRESHOLD + Z.of_nat i) (mkMem (Dup k) (Dup v) (age m) (accessed m)) s) as E.
        { unfold upd. simpl. by rewrite list_insert_insert_eq. }
        simpl. rewrite E. by eapply vars_upd.
      * intros j Hj. rewrite !zget_upd by (simpl; rewrite ?length_insert; done).
        by rewrite !bool_decide_eq_false_2 by lia.
    + intros Hn2. rewrite Hn2 in HQ. apply wp_ret. by apply HQ.
Qed.

Lemma mem_get_value_wp s l k (Q : option string -> store -> Prop) :
  vars_are s l ->
  (forall s', vars_are s' l -> same_frames s s' -> Q (vget l k) s') ->
  wp (mem_get_value k) Q s.
Proof.
  intros Hv HQ. unfold mem_get_value, vget in *. rewrite (vars_nat _ _ Hv).
  apply search_wp; [intros i kv Hi; by eapply slot_text_ok| |].
  - intros i w Hi Hl. rewrite Hi in HQ. simpl in HQ. rewrite Hl in HQ.
    destruct (va_slot _ _ Hv _ _ Hl) as (m & Hm & Hk & Hw). unfold tick. wp_steps.
    set (s1 := mkStore _ _ _). assert (vars_are s1 l) as Hv1 by by destruct Hv.
    eapply set_accessed_wp; [done|]. apply wp_ret. apply HQ.
    + by eapply (vars_upd_same s1).
    + exact (upd_same_frames s1 l i _ _ Hv1 Hl).
  - intros Hn. rewrite Hn in HQ. by apply HQ.
Qed.

(* ------------------------------------------------------------------ *)
(** ** Frames                                                          *)
(* ------------------------------------------------------------------ *)

(** The name in a slot is "none". *)
Definition none_at (s : store) (i : Z) : bool :=
  match zget (shellmemory s) i with
  | Some m => bool_decide (text (var m) = Some "none")
  | None => false
  end.
Definition free_at (s : store) (i : Z) : bool :=
  none_at s i && none_at s (i + 1) && none_at s (i + 2).

(** A memory of [n] whole frames without NULL names. *)
Record frames_ok (s : store) (n : Z) : Prop := {
  fr_size : FRAME_STORE_SIZE = 3 * n;
  fr_count : 0 <= n;
  fr_length : zlen (shellmemory s) = SHELL_MEM_LENGTH;
  fr_vars : 0 <= VAR_STORE_SIZE;
  fr_text : forall i m, zget (shellmemory s) i = Some m -> is_Some (text (var m))
}.

Lemma is_none_wp s n i (Q : bool -> store -> Prop) :
  frames_ok s n -> 0 <= i < SHELL_MEM_LENGTH -> Q (none_at s i) s -> wp (is_none i) Q s.
Proof.
  intros [H1 H0 H2 H3 H4] Hi HQ. destruct (zget_ex (shellmemory s) i) as [m Hm]; [lia|].
  destruct (H4 _ _ Hm) as [k Hk]. unfold is_none. wp_step. eapply slot_wp; [done|].
  wp_step. eapply wp_need; [done|]. apply wp_ret. unfold none_at in HQ. rewrite Hm, Hk in HQ.
  unfold streq. erewrite bool_decide_ext; [done|]. naive_solver.
Qed.

Lemma frame_free_wp s n i (Q : bool -> store -> Prop) :
  frames_ok s n -> 0 <= i -> i + 2 < SHELL_MEM_LENGTH -> Q (free_at s i) s -> wp (frame_free i) Q s.
Proof.
  intros Hs Hi Hl HQ. unfold frame_free, free_at in *. wp_step. eapply is_none_wp; [done|lia|].
  destruct (none_at s i); simpl in HQ; [|by apply wp_ret].
  wp_step. eapply is_none_wp; [done|lia|]. destruct (none_at s (i + 1)); simpl in HQ; [|by apply wp_ret].
  by eapply is_none_wp; [done|lia|].
Qed.

(** The first free frame. *)
Definition first_free (s : store) (n r : Z) : Prop :=
  (exists k, 0 <= k < n /\ r = 3 * k /\ free_at s r = true /\
     forall j, 0 <= j < k -> free_at s (3 * j) = false) \/
  (r = -1 /\ forall j, 0 <= j < n -> free_at s (3 * j) = false).

Lemma find_available_slot_wp s n (Q : Z -> store -> Prop) :
  frames_ok s n -> (forall r, first_free s n r -> Q r s) -> wp find_available_slot Q s.
Proof.
  intros Hs HQ. destruct (Hs) as [H1 H0 H2 H3 _]. unfold find_available_slot, THRESHOLD, SHELL_MEM_LENGTH, FRAME_SIZE in *.
  eapply (wp_while (fun i s' => s' = s /\ exists k, i = 3 * k /\ 0 <= k <= n /\
      forall j, 0 <= j < k -> free_at s (3 * j) = false)
    (fun i _ => Z.to_nat (n - i / 3))).
  - split; [done|]. exists 0. split; [lia|]. split; [lia|]. intros j Hj. lia.
  - rewrite Z.max_r by lia. rewrite H1. Z.to_euclidean_division_equations; lia.
  - intros i s' [-> (k & -> & Hk & Hno)]. apply wp_if; intros E.
    + apply wp_ret, HQ. right. split; [done|]. intros j Hj. apply Hno. lia.
    + wp_step. eapply frame_free_wp; [done|lia|unfold SHELL_MEM_LENGTH; lia|]. apply wp_ret.
      destruct (free_at s (3 * k)) eqn:F.
      * apply HQ. left. exists k. split_and!; (done || lia).
      * split; [split; [done|]|].
        -- exists (k + 1). split; [lia|]. split; [lia|]. intros j Hj.
           destruct (decide (j = k)) as [->|]; [done|]. apply Hno. lia.
        -- Z.to_euclidean_division_equations; lia.
Qed.

(** The first frame with the least key below 9999. *)
Definition key_at (key : memory_struct -> Z) (s : store) (k : Z) : Z :=
  match zget (shellmemory s) (3 * k) with Some m => key m | None => 0 end.
Definition least_frame (key : memory_struct -> Z) (s : store) (n r : Z) : Prop :=
  (exists k, 0 <= k < n /\ r = 3 * k /\ key_at key s k < 9999 /\
     (forall j, 0 <= j < n -> key_at key s k <= key_at key s j) /\
     forall j, 0 <= j < k -> key_at key s k < key_at key s j) \/
  (r = -1 /\ forall j, 0 <= j < n -> 9999 <= key_at key s j).

Lemma find_least_wp key s n (Q : Z -> store -> Prop) :
  frames_ok s n -> (forall r, least_frame key s n r -> Q r s) -> wp (find_least key) Q s.
Proof.
  intros [H1 H0 H2 H3 _] HQ. unfold find_least, THRESHOLD, SHELL_MEM_LENGTH, FRAME_SIZE in *. wp_step.
  assert (Z.of_nat (Z.to_nat ((FRAME_STORE_SIZE + 2) / 3)) = n) as Hn.
  { rewrite H1. Z.to_euclidean_division_equations; lia. }
  apply (wp_for_acc (fun m x s' => s' = s /\ least_frame key s m (fst x) /\ snd x <= 9999 /\
    (fst x = -1 -> snd x = 9999) /\ (forall k, fst x = 3 * k -> 0 <= k -> snd x = key_at key s k))).
  - split; [done|]. split; [right; split; [done|intros j Hj; lia]|]. simpl.
    split; [lia|]. split; [done|]. intros k Ek Hk. lia.
  - intros m [idx least] s' Hm (-> & Hl & Hle & Hneg & Hpos). simpl in *.
    destruct (zget_ex (shellmemory s) (m * 3)) as [x Hx]; [lia|]. wp_step. eapply slot_wp; [done|].
    apply wp_ret. assert (key_at key s m = key x) as Hkx.
    { unfold key_at. by rewrite Z.mul_comm, Hx. }
    split; [done|]. destruct (Z.ltb_spec (key x) least); simpl.
    + split; [|split; [lia|split; [lia|]]].
      * left. exists m. rewrite Hkx. split; [lia|]. split; [lia|]. split; [lia|].
        assert (forall j, 0 <= j < m -> key x < key_at key s j) as Hlt.
        { intros j Hj. destruct Hl as [(k & Hk & E & _ & Hmin & _)|[E Hall]].
          - specialize (Hpos k E ltac:(lia)). specialize (Hmin j Hj). lia.
          - specialize (Hneg E). specialize (Hall j Hj). lia. }
        split; [|done]. intros j Hj. destruct (decide (j = m)) as [->|]; [lia|].
        specialize (Hlt j ltac:(lia)). lia.
      * intros k Ek Hk. assert (k = m) as -> by lia. done.
    + split; [|split; [lia|done]].
      destruct Hl as [(k & Hk & E & Hlt & Hmin & Hfirst)|[E Hall]].
      * left. exists k. specialize (Hpos k E ltac:(lia)). split; [lia|]. split; [done|]. split; [done|].
        split; [|done]. intros j Hj. destruct (decide (j = m)) as [->|]; [lia|]. apply Hmin. lia.
      * right. split; [done|]. specialize (Hneg E). intros j Hj.
        destruct (decide (j = m)) as [->|]; [lia|]. apply Hall. lia.
  - rewrite Hn, Z.add_0_l. intros [idx least] s' (-> & Hl & _). by apply wp_ret, HQ.
Qed.

(* ------------------------------------------------------------------ *)
(** ** Loading a page                                                  *)
(* ------------------------------------------------------------------ *)

Lemma store_line_wp s i m f line (Q : unit -> store -> Prop) :
  zget (shellmemory s) i = Some m ->
  Q tt (mkStore (<[Z.to_nat i := mkMem (Dup f) (Dup line) (global_access_time s + 1) (global_access_time s + 1)]>
                 (shellmemory s)) (current_policy s) (global_access_time s + 1)) ->
  wp (store_line i f line) Q s.
Proof.
  intros Hm HQ. pose proof (zget_range _ _ _ Hm) as Hr. unfold store_line.
  wp_step. eapply set_var_wp; [done|]. wp_step.
  eapply set_value_wp; [rewrite zget_upd by done; by rewrite bool_decide_eq_true_2|].
  wp_step. unfold tick. wp_steps.
  eapply set_accessed_wp.
  { simpl. rewrite zget_lookup by lia. apply list_lookup_insert_eq. rewrite length_insert. lia. }
  unfold set_age. wp_step. eapply slot_wp.
  { simpl. rewrite zget_lookup by lia. apply list_lookup_insert_eq. rewrite !length_insert. lia. }
  apply set_slot_wp; [simpl; rewrite !length_insert; lia|]. unfold upd. simpl.
  by rewrite !list_insert_insert_eq.
Qed.

(** The slots from [f] hold the lines [ls] of the script [name]. *)
Definition lines_at (s : store) (f : Z) (name : string) (ls : list string) : Prop :=
  forall j l, ls !! j = Some l -> exists t,
    zget (shellmemory s) (f + Z.of_nat j)
    = Some (mkMem (Dup name) (Dup (l +:+ String LF EmptyString)) t t).

Definition others_same (s s' : store) (f n : Z) : Prop :=
  zlen (shellmemory s') = zlen (shellmemory s) /\
  forall j, ~ (f <= j < f + n) -> zget (shellmemory s') j = zget (shellmemory s) j.

(** Reading [n] lines past the first [i]. *)
Lemma drop_line (ls : list string) i : (i < length ls)%nat -> exists l, drop i ls = l :: drop (S i) ls /\ ls !! i = Some l.
Proof.
  intros H. apply lookup_lt_is_Some in H as [l Hl]. exists l. split; [by apply drop_S|done].
Qed.

Lemma skip_lines_wp ls n (Q : FILE + unit -> store -> Prop) s :
  Forall short_line ls -> (n <= length ls)%nat ->
  Q (inl (mkFILE (unlines (drop n ls)) false)) s ->
  wp (for_ret n 0 (fun _ fp => let '(_, fp) := fgets 100 fp in
            ret (if feof fp then inr tt else inl fp)) (mkFILE (unlines ls) false)) Q s.
Proof.
  intros Hs Hn HQ.
  apply (wp_for_ret (fun i fp s' => s' = s /\ fp = mkFILE (unlines (drop (Z.to_nat i) ls)) false)).
  - done.
  - intros i fp s' Hi [-> ->]. destruct (drop_line ls (Z.to_nat i)) as (l & -> & Hl); [lia|].
    rewrite fgets_line by by eapply Forall_lookup_1. apply wp_ret. simpl.
    by replace (Z.to_nat (i + 1)) with (S (Z.to_nat i)) by lia.
  - intros fp s' [-> ->]. by rewrite Z.add_0_l, Nat2Z.id.
Qed.

Lemma load_lines_wp name ls i f p s (Q : FILE * PCB * Z + FILE * PCB * Z -> store -> Prop) :
  Forall short_line ls -> (i + 3 <= length ls)%nat -> 0 <= f -> f + 3 <= zlen (shellmemory s) ->
  (forall s', lines_at s' f name (take 3 (drop i ls)) -> others_same s s' f 3 ->
     Q (inl (mkFILE (unlines (drop (i + 3) ls)) false, p, f + 3)) s') ->
  wp (for_ret 3 0 (load_frame_line name) (mkFILE (unlines (drop i ls)) false, p, f)) Q s.
Proof.
  intros Hs Hi Hf Hlen HQ.
  apply (wp_for_ret (fun j x s' => x = (mkFILE (unlines (drop (i + Z.to_nat j) ls)) false, p, f + j) /\
    lines_at s' f name (take (Z.to_nat j) (drop i ls)) /\ others_same s s' f j)).
  - rewrite Nat.add_0_r, Z.add_0_r. split; [done|]. split; [|done]. intros j l Hj. done.
  - intros j x s' Hj (-> & Hl & [Hz Ho]). simpl in Hj. unfold load_frame_line. cbn [feof].
    destruct (drop_line ls (i + Z.to_nat j)) as (l & -> & Hlk); [lia|].
    rewrite fgets_line by by eapply Forall_lookup_1.
    destruct (zget_ex (shellmemory s') (f + j)) as [m Hm]; [lia|].
    wp_step. eapply store_line_wp; [done|]. apply wp_ret.
    replace (i + Z.to_nat (j + 1))%nat with (S (i + Z.to_nat j)) by lia.
    split; [f_equal; lia|]. split.
    + intros q lq Hq. replace (Z.to_nat (j + 1)) with (S (Z.to_nat j)) in Hq by lia.
      apply lookup_take_Some in Hq as [Hq Hqj].
      simpl. rewrite zget_lookup by lia. destruct (decide (q = Z.to_nat j)) as [->|Hne].
      * rewrite lookup_drop, Hlk in Hq. injection Hq as <-. exists (global_access_time s' + 1).
        replace (Z.to_nat (f + Z.of_nat (Z.to_nat j))) with (Z.to_nat (f + j)) by lia.
        apply list_lookup_insert_eq. apply zget_range in Hm. lia.
      * destruct (Hl q lq) as [t Ht]; [by apply lookup_take_Some; split; [done|lia]|]. exists t.
        rewrite zget_lookup in Ht by lia. rewrite list_lookup_insert_ne by lia. done.
    + split; [simpl; by rewrite length_insert|]. intros q Hq. rewrite <- Ho by lia. simpl.
      destruct (decide (q < 0)); [by rewrite !zget_neg|]. rewrite !zget_lookup by lia.
      apply list_lookup_insert_ne. lia.
  - intros x s' (-> & Hl & Ho). by apply HQ.
Qed.

Lemma load_frame_wp fopen_r s n p name ls f (Q : Z * PCB -> store -> Prop) :
  frames_ok s n -> filename p = Some name -> fopen_r name = Some (unlines ls) -> Forall short_line ls ->
  0 <= pageCounter p < zlen (pagetable p) -> 3 * pageCounter p + 3 <= zlen ls ->
  first_free s n f -> f <> -1 ->
  (forall s' p', 
     lines_at s' f name (take 3 (drop (Z.to_nat (3 * pageCounter p)) ls)) -> others_same s s' f 3 ->
     PC p' = f -> start p' = f -> end_ p' = f + 2 -> pageCounter p' = pageCounter p + 1 ->
     zget (pagetable p') (pageCounter p) = Some true -> Q (0, p') s') ->
  wp (load_frame fopen_r p) Q s.
Proof.
  intros Hs Hname Hopen Hshort Hpage Hls Hfree Hf HQ. unfold load_frame.
  wp_step. eapply wp_need; [done|]. wp_step. eapply wp_need; [done|]. wp_step.
  replace (Z.to_nat (pageCounter p * FRAME_SIZE)) with (Z.to_nat (3 * pageCounter p))
    by (unfold FRAME_SIZE; lia).
  apply skip_lines_wp; [done|lia|]. cbn [feof]. wp_step. eapply find_available_slot_wp; [done|].
  intros r Hr. assert (r = f) as ->.
  { destruct Hr as [(k & Hk & -> & Hk1 & Hk2)|[-> Hall]], Hfree as [(k' & Hk' & -> & Hk1' & Hk2')|[-> Hall']]; [|done| |done].
    - destruct (decide (k < k')) as [Hlt|]; [rewrite Hk2' in Hk1 by lia; done|].
      destruct (decide (k' < k)) as [Hlt|]; [rewrite Hk2 in Hk1' by lia; done|]. lia.
    - rewrite Hall in Hk1' by lia. done. }
  rewrite (proj2 (Z.eqb_neq f (-1))) by done.
  assert (0 <= f /\ f + 3 <= zlen (shellmemory s)) as [Hf0 Hf3].
  { destruct Hs as [H1 H2 H3 H4 _]. unfold SHELL_MEM_LENGTH in *.
    destruct Hfree as [(k & Hk & -> & _)|[? _]]; [lia|done]. }
  wp_step. change (Z.to_nat FRAME_SIZE) with 3%nat.
  apply load_lines_wp; [done|lia|done|done|]. intros s' Hl Ho. wp_step. unfold mark_page.
  wp_step. eapply wp_need; [apply zset_Some; simpl; lia|]. apply wp_ret, wp_ret. apply HQ; try done.
  - simpl. lia.
  - simpl. rewrite zget_lookup by lia. apply list_lookup_insert_eq. simpl. lia.
Qed.
End sizes.

(* ------------------------------------------------------------------ *)
(** ** Properties                                                      *)
(* ------------------------------------------------------------------ *)

(** C31: A page fault with a free frame loads the next page: for a script
    of short lines of which at least three are left, load_frame puts them
    in the first free frame, under the name of the script, points the
    PCB at them, marks the page as loaded and changes no other slot. The
    page is one that the page table has an entry for, and a line has fewer
    than 98 characters. *)
Theorem load_frame_next_page fsize vsize fopen_r s n p name ls f :
  frames_ok fsize vsize s n -> filename p = Some name -> fopen_r name = Some (unlines ls) ->
  Forall short_line ls -> 0 <= pageCounter p < zlen (pagetable p) -> 3 * pageCounter p + 3 <= zlen ls ->
  first_free s n f -> f <> -1 ->
  exists s' p', load_frame fsize fopen_r p s = Ok (0, p') s' [] /\
    lines_at s' f name (take 3 (drop (Z.to_nat (3 * pageCounter p)) ls)) /\ others_same s s' f 3 /\
    PC p' = f /\ start p' = f /\ end_ p' = f + 2 /\ pageCounter p' = pageCounter p + 1 /\
    zget (pagetable p') (pageCounter p) = Some true.
Proof.
  intros. assert (wp (load_frame fsize fopen_r p) (fun r s' => exists p', r = (0, p') /\
    lines_at s' f name (take 3 (drop (Z.to_nat (3 * pageCounter p)) ls)) /\ others_same s s' f 3 /\
    PC p' = f /\ start p' = f /\ end_ p' = f + 2 /\ pageCounter p' = pageCounter p + 1 /\
    zget (pagetable p') (pageCounter p) = Some true) s) as Hw.
  { eapply load_frame_wp; [done..|]. intros s' p' ? ? ? ? ? ? ?. by exists p'. }
  apply wp_Ok in Hw as (r & s' & E & p' & -> & Hrest). by exists s', p'.
Qed.

(** A memory of two frames and two variables, empty, and a script. *)
Definition demo_mem : list memory_struct := replicate 8 none_slot.
Definition demo : store := mkStore demo_mem LRU 0.
Definition demo_script : list string := ["echo 1"; "echo 2"; "echo 3"; "echo 4"; "echo 5"; "echo 6"; "echo 7"].
Definition demo_fopen (name : string) : option string :=
  if bool_decide (name = "prog0") then Some (unlines demo_script)
  else if bool_decide (name = "short") then Some ("quit" +:+ nl) else None.
Definition demo_pcb (name : string) (pages : Z) : PCB :=
  mkPCB false 1 7 0 0 0 1 pages 0 (Some name) (replicate 10 false) None.

Lemma demo_frames : frames_ok 6 2 demo 2.
Proof.
  split; [done..|]. intros i m Hm. apply zget_elem in Hm.
  apply elem_of_replicate in Hm as [-> _]. by eexists.
Qed.

Lemma load_frame_next_page_witness :
  exists s' p', load_frame 6 demo_fopen (demo_pcb "prog0" 1) demo = Ok (0, p') s' [] /\
    lines_at s' 0 "prog0" ["echo 4"; "echo 5"; "echo 6"] /\ others_same demo s' 0 3 /\
    PC p' = 0 /\ start p' = 0 /\ end_ p' = 0 + 2 /\ pageCounter p' = 1 + 1 /\
    zget (pagetable p') 1 = Some true.
Proof.
  apply (load_frame_next_page 6 2 demo_fopen demo 2 (demo_pcb "prog0" 1) "prog0" demo_script 0);
    [apply demo_frames|done|done| |done|done| |done].
  - repeat apply Forall_cons_2; [..|done]; by split.
  - left. exists 0. split; [done|]. split; [done|]. split; [done|]. intros j Hj. lia.
Defined.

(** The variables of the second shell are those of the specification:
    mem_set_value and mem_get_value act on the variable store as [vset]
    and [vget], and never touch a frame. *)
Theorem a2_variables fsize vsize s l k v :
  vars_are fsize vsize s l ->
  (exists s', mem_set_value fsize vsize k v s = Ok tt s' [] /\
     vars_are fsize vsize s' (vset l k v) /\ same_frames fsize s s') /\
  (exists s', mem_get_value fsize vsize k s = Ok (vget l k) s' [] /\
     vars_are fsize vsize s' l /\ same_frames fsize s s').
Proof.
  intros Hv. split.
  - assert (wp (mem_set_value fsize vsize k v)
      (fun _ s' => vars_are fsize vsize s' (vset l k v) /\ same_frames fsize s s') s) as H
      by by eapply mem_set_value_wp.
    apply wp_Ok in H as ([] & s' & E & H). by exists s'.
  - assert (wp (mem_get_value fsize vsize k)
      (fun r s' => r = vget l k /\ vars_are fsize vsize s' l /\ same_frames fsize s s') s) as H
      by by eapply mem_get_value_wp.
    apply wp_Ok in H as (r & s' & E & -> & H). by exists s'.
Qed.

Lemma a2_variables_witness :
  (exists s', mem_set_value 6 2 "x" "5" demo = Ok tt s' [] /\
     vars_are 6 2 s' (vset [("none", "none"); ("none", "none")] "x" "5") /\ same_frames 6 demo s') /\
  (exists s', mem_get_value 6 2 "x" demo = Ok (vget [("none", "none"); ("none", "none")] "x") s' [] /\
     vars_are 6 2 s' [("none", "none"); ("none", "none")] /\ same_frames 6 demo s').
Proof.
  apply a2_variables. split; [done|done|]. intros [|[|i]] kv [= <-]; by eexists.
Defined.

(** The replacement policies: with LRU the frame whose first slot was
    accessed least recently, with FIFO the oldest, the first of several;
    but no frame at all (-1) once every key has reached 9999. *)
Theorem replacement_slot_least fsize vsize s n :
  frames_ok fsize vsize s n ->
  exists r, find_replacement_slot fsize s = Ok r s [] /\
    least_frame (match current_policy s with LRU => accessed | FIFO => age end) s n r.
Proof.
  intros Hs. assert (wp (find_replacement_slot fsize) (fun r s' => s' = s /\
    least_frame (match current_policy s with LRU => accessed | FIFO => age end) s n r) s) as H.
  { unfold find_replacement_slot. wp_step. apply wp_get.
    destruct (current_policy s); (eapply find_least_wp; [done|]); by intros. }
  apply wp_Ok in H as (r & s' & E & -> & H). by exists r.
Qed.

Lemma replacement_slot_least_witness :
  exists r, find_replacement_slot 6 demo = Ok r demo [] /\ least_frame accessed demo 2 r.
Proof. apply (replacement_slot_least 6 2 demo 2), demo_frames. Defined.

(** When every frame's key has reached 9999, which happens by itself
    after enough accesses, the next eviction indexes the memory with the
    -1 of "no frame". *)
Theorem evict_after_9999_is_undefined fsize vsize fopen_r s n p name content :
  frames_ok fsize vsize s n -> filename p = Some name -> fopen_r name = Some content ->
  (forall k, 0 <= k < n ->
     9999 <= key_at (match current_policy s with LRU => accessed | FIFO => age end) s k) ->
  remove_frame fsize vsize fopen_r p s = Stuck.
Proof.
  intros Hs Hn Hopen Hall. unfold remove_frame. rewrite Hn. cbn [need]. rewrite bind_ret, Hopen.
  assert (wp (find_replacement_slot fsize) (fun r s' => s' = s /\
    least_frame (match current_policy s with LRU => accessed | FIFO => age end) s n r) s) as H.
  { unfold find_replacement_slot. wp_step. apply wp_get.
    destruct (current_policy s); (eapply find_least_wp; [done|]); by intros. }
  apply wp_Ok in H as (r & s' & E & -> & Hr). rewrite (bind_Ok_nil _ _ _ _ _ E).
  assert (r = -1) as ->.
  { destruct Hr as [(k & Hk & _ & Hlt & _)|[? _]]; [|done]. specialize (Hall k Hk). lia. }
  unfold bind at 1, print at 1. done.
Qed.

Lemma evict_after_9999_is_undefined_witness :
  remove_frame 6 2 demo_fopen (demo_pcb "prog0" 1)
    (mkStore (replicate 8 (mkMem (Dup "a") (Dup "b") 1 9999)) LRU 10000) = Stuck.
Proof.
  apply (evict_after_9999_is_undefined 6 2 demo_fopen _ 2 _ "prog0" (unlines demo_script)); [|done|done|].
  - split; [done..|]. intros i m Hm. apply zget_elem in Hm.
    apply elem_of_replicate in Hm as [-> _]. by eexists.
  - intros k Hk. assert (k = 0 \/ k = 1) as [->| ->] by lia; done.
Defined.

(** Evicting a page that does not fill its frame frees the literal
    "none" of its unused slots: load a one-line script, then evict. *)
Theorem evict_partial_page_is_undefined :
  (let! _ := mem_init 3 1 in
   let! r := load_file 3 (mkFILE ("quit" +:+ nl) false) None (demo_pcb "x" 0) "short" in
   remove_frame 3 1 demo_fopen (snd (fst r))) (mkStore (replicate 4 (mkMem Null Null 0 0)) LRU 0)
  = Stuck.
Proof. by vm_compute. Qed.

(** Load_file looks for one free frame but fills two: with frame 0
    free and frame 1 in use by another script, loading six lines
    overwrites the other script's page. *)
Theorem load_file_overwrites_other_page :
  let other := mkMem (Dup "other") (Dup "print x") 5 5 in
  let s := mkStore (replicate 3 none_slot ++ replicate 3 other ++ replicate 2 none_slot) LRU 5 in
  exists s' p fp, load_file 6 (mkFILE (unlines demo_script) false) None (demo_pcb "x" 0) "prog0" s
      = Ok (0, p, fp) s' [] /\
    zget (shellmemory s) 3 = Some other /\
    exists m, zget (shellmemory s') 3 = Some m /\ var m = Dup "prog0" /\ value m = Dup ("echo 4" +:+ nl).
Proof.
  do 3 eexists. split; [by vm_compute|]. split; [by vm_compute|].
  eexists. split; [by vm_compute|]. by split.
Qed.

(** Mem_get_value_at_line accepts the index one past the end. *)
Theorem value_at_line_off_by_one fsize vsize s :
  0 <= SHELL_MEM_LENGTH fsize vsize -> zlen (shellmemory s) = SHELL_MEM_LENGTH fsize vsize ->
  mem_get_value_at_line fsize vsize (SHELL_MEM_LENGTH fsize vsize) s = Stuck.
Proof.
  intros H0 Hl. unfold mem_get_value_at_line.
  rewrite (proj2 (Z.ltb_ge _ 0)), (proj2 (Z.ltb_ge _ _)) by lia.
  unfold bind, tick, set_accessed, slot, bind, get, need, ret. simpl.
  assert (zget (shellmemory s) (SHELL_MEM_LENGTH fsize vsize) = None) as ->; [|done].
  apply zget_None. lia.
Qed.

Lemma value_at_line_off_by_one_witness : mem_get_value_at_line 6 2 8 demo = Stuck.
Proof. apply (value_at_line_off_by_one 6 2 demo); by vm_compute. Defined.

(** The page table has ten entries: the eleventh page of a script of
    more than thirty lines is written past its end. *)
Theorem eleventh_page_overflows :
  let script := unlines (replicate 33 "echo 1") in
  load_frame 6 (fun _ => Some script) (demo_pcb "long" 10) demo = Stuck.
Proof. by vm_compute. Qed.
End FrameStore.
