(* ===== verification/Kernel2.v ===== *)
(** * Kernel2: processes and schedulers of the second shell
    (a2/kernel.c, and count_files_backing and copyScript of a2/shell.c)

    The kernel works on the ready queue (ReadyQueue.v) and the frame store
    (FrameStore.v).  Executing a line calls parseInput, which is the
    argument [parse] here: it may do anything to the state. *)
From S2P Require Import Prelude CString VarSpec Words ReadyQueue FrameStore.
From Stdlib Require Import Ascii.

Module Kernel2.
Import ReadyQueue FrameStore.
Open Scope string_scope. Open Scope Z_scope.

Definition FILE_DOES_NOT_EXIST : Z := 1.
Definition FILE_ERROR : Z := 2.
Definition SCHEDULING_ERROR : Z := 5.
Definition BACKING_STORE_DIR : string := "backing_store/".

(** The globals of kernel.c, the two components, and the files of the
    host: their contents by path, and whether the directory of the
    backing store exists. *)
Record kernel := mkKernel {
  rqueue : rq;
  memory : store;
  active : bool;
  in_background : bool;
  files : gmap string string;
  backing_dir : bool
}.

Definition on_queue {A} (m : M rq A) : M kernel A :=
  zoom rqueue (fun q k => mkKernel q (memory k) (active k) (in_background k) (files k) (backing_dir k)) m.
Definition on_memory {A} (m : M store A) : M kernel A :=
  zoom memory (fun x k => mkKernel (rqueue k) x (active k) (in_background k) (files k) (backing_dir k)) m.
Definition set_background (b : bool) : M kernel unit :=
  modify (fun k => mkKernel (rqueue k) (memory k) (active k) b (files k) (backing_dir k)).
Definition set_files (f : gmap string string) : M kernel unit :=
  modify (fun k => mkKernel (rqueue k) (memory k) (active k) (in_background k) f (backing_dir k)).

(* ------------------------------------------------------------------ *)
(** ** Backing store (shell.c)                                         *)
(* ------------------------------------------------------------------ *)

(** readdir gives one entry per file, and "." and "..". *)
Definition backing_files (k : kernel) : gmap string string :=
  filter (fun kv => String.prefix BACKING_STORE_DIR (fst kv) = true) (files k).

Definition count_files_backing : M kernel Z :=
  let! k := get in
  if negb (backing_dir k) then print "Error opening current directory" ;; ret (-1)
  else ret (Z.of_nat (size (backing_files k)) + 2 - 2).

(** The loop copies characters through a [char]: it takes the byte 255
    for EOF. *)
Definition copyScript (filename : string) : M kernel Z :=
  let! k := get in
  match files k !! filename with
  | None => ret 1
  | Some content =>
      let! count := count_files_backing in
      let newFilename := BACKING_STORE_DIR +:+ "prog" +:+ pretty count in
      if negb (backing_dir k) then ret 1
      else
        set_files (<[newFilename := cut (fun c => Ascii.eqb c (ch 255)) content]> (files k)) ;;
        ret 0
  end.

Section kernel.
Variables FRAME_STORE_SIZE VAR_STORE_SIZE : Z.
Variable parse : string -> M kernel Z.

(* ------------------------------------------------------------------ *)
(** ** kernel.c                                                        *)
(* ------------------------------------------------------------------ *)

Definition process_initialize (filename : string) : M kernel Z :=
  let! k := get in
  match files k !! filename with
  | None => ret FILE_DOES_NOT_EXIST
  | Some _ =>
      let! count := count_files_backing in
      let! copy_to_backing := copyScript filename in
      if negb (copy_to_backing =? 0) then ret FILE_ERROR else
      (* the array is sized by the name of the script *)
      let! backingstore_filename :=
        into (strlen filename + strlen BACKING_STORE_DIR + 1)
             (BACKING_STORE_DIR +:+ "prog" +:+ pretty count) in
      let! k := get in
      let fp2 := files k !! backingstore_filename in
      let! newPCB := on_queue makePCB in
      let! content := need fp2 in
      let! p := on_queue (get_pcb newPCB) in
      let! r := on_memory (load_file FRAME_STORE_SIZE (mkFILE content false) None p backingstore_filename) in
      let '(error_code, p, _) := r in
      on_queue (set_pcb newPCB p) ;;
      if negb (error_code =? 0) then ret FILE_ERROR else
      let! node := on_queue malloc in
      on_queue (modify (fun q => set_nodes (<[node := mkNode newPCB None]> (nodes q)) q)) ;;
      on_queue (ready_queue_add_to_tail node) ;;
      ret 0
  end.

Definition pcb_priority (b : bool) (p : PCB) : PCB :=
  mkPCB b (currentPage p) (pid p) (PC p) (start p) (end_ p) (job_length_score p)
        (pageCounter p) (currentLine p) (filename p) (pagetable p) (file p).
Definition pcb_place (page line : Z) (p : PCB) : PCB :=
  mkPCB (priority p) page (pid p) (PC p) (start p) (end_ p) (job_length_score p)
        (pageCounter p) line (filename p) (pagetable p) (file p).

Definition pcb_op (pcb : loc) (f : PCB -> PCB) : M kernel unit :=
  on_queue (let! p := get_pcb pcb in set_pcb pcb (f p)).

(** One turn of the loop of execute_process; [inr] is its result. *)
Definition execute_line (node pcb : loc) : M kernel (unit + bool) :=
  let! k := get in
  let! p := on_queue (get_pcb pcb) in
  if pageCounter p <? currentPage p then
    (* page fault *)
    let! r := on_memory (load_frame FRAME_STORE_SIZE (fun f => files k !! f) p) in
    on_queue (set_pcb pcb (snd r)) ;;
    if fst r =? -2 then
      set_background false ;;
      on_queue (terminate_process node) ;;
      ret (inr true)
    else
      when (fst r =? -1)
        (let! r := on_memory (remove_frame FRAME_STORE_SIZE VAR_STORE_SIZE (fun f => files k !! f) (snd r)) in
         on_queue (set_pcb pcb (snd r)) ;;
         let! r := on_memory (load_frame FRAME_STORE_SIZE (fun f => files k !! f) (snd r)) in
         on_queue (set_pcb pcb (snd r))) ;;
      ret (inr false)
  else
    pcb_op pcb (fun p => pcb_PC (PC p + 1) p) ;;
    let! line := on_memory (mem_get_value_at_line FRAME_STORE_SIZE VAR_STORE_SIZE (PC p)) in
    set_background true ;;
    when (priority p) (pcb_op pcb (pcb_priority false)) ;;
    let! line := need (text line) in
    if negb (streq line "none") then
      parse line ;;
      set_background false ;;
      pcb_op pcb (fun p => if currentLine p =? 2 then pcb_place (currentPage p + 1) 0 p
                           else pcb_place (currentPage p) (currentLine p + 1) p) ;;
      ret (inl tt)
    else
      set_background false ;;
      on_queue (terminate_process node) ;;
      ret (inr true).

(** [fuel] bounds the lines executed in one call. *)
Definition execute_process (fuel : nat) (node : loc) (quanta : Z) : M kernel bool :=
  let! nd := on_queue (get_node node) in
  while_ fuel (fun i =>
    if negb (i <? quanta) then ret (inr false)
    else
      let! r := execute_line node (pcb nd) in
      ret (match r with inl _ => inl (i + 1) | inr b => inr b end)) 0.

(** The loop of the schedulers: [turn] runs until the queue is empty;
    an [active] kernel then waits forever. *)
Definition schedule (fuel : nat) (turn : M kernel unit) : M kernel unit :=
  while_ fuel (fun _ =>
    let! e := on_queue is_ready_empty in
    let! k := get in
    if e : bool then (if active k then ret (inl tt) else ret (inr tt))
    else turn ;; ret (inl tt)) tt.

(** [ready_queue_pop_head()] on a queue that is not empty. *)
Definition pop_node (m : M rq (option loc)) : M kernel loc :=
  let! r := on_queue m in need r.

Definition scheduler_FCFS (fuel : nat) : M kernel unit :=
  schedule fuel
    (let! cur := pop_node ready_queue_pop_head in
     let! r := execute_process fuel cur MAX_INT in
     when (negb r) (on_queue (ready_queue_add_to_tail cur))).

Definition scheduler_SJF (fuel : nat) : M kernel unit :=
  schedule fuel
    (let! cur := pop_node ready_queue_pop_shortest_job in
     execute_process fuel cur MAX_INT ;; ret tt).

Definition scheduler_AGING_alternative (fuel : nat) : M kernel unit :=
  schedule fuel
    (let! cur := pop_node ready_queue_pop_shortest_job in
     on_queue ready_queue_decrement_job_length_score ;;
     let! r := execute_process fuel cur 1 in
     when (negb r) (on_queue (ready_queue_add_to_head cur))).

Definition scheduler_AGING (fuel : nat) : M kernel unit :=
  on_queue sort_ready_queue ;;
  schedule fuel
    (let! cur := pop_node ready_queue_pop_head in
     let! shortest := on_queue ready_queue_get_shortest_job_score in
     let! x := on_queue (job cur) in
     let! cur :=
       (if shortest <? job_length_score x then
          on_queue (ready_queue_promote shortest) ;;
          on_queue (ready_queue_add_to_tail cur) ;;
          pop_node ready_queue_pop_head
        else ret cur) in
     on_queue ready_queue_decrement_job_length_score ;;
     let! r := execute_process fuel cur 1 in
     when (negb r) (on_queue (ready_queue_add_to_head cur))).

Definition scheduler_RR (fuel : nat) (quanta : Z) : M kernel unit :=
  schedule fuel
    (let! cur := pop_node ready_queue_pop_head in
     let! r := execute_process fuel cur quanta in
     when (negb r) (on_queue (ready_queue_add_to_tail cur))).

Definition schedule_by_policy (fuel : nat) (policy : string) : M kernel Z :=
  if negb (streq policy "FCFS") && negb (streq policy "SJF") && negb (streq policy "RR")
     && negb (streq policy "AGING") && negb (streq policy "RR30") then ret SCHEDULING_ERROR
  else
    let! k := get in
    if active k then ret 0 else
    if in_background k then ret 0 else
    (if streq "FCFS" policy then scheduler_FCFS fuel
     else if streq "SJF" policy then scheduler_SJF fuel
     else if streq "RR" policy then scheduler_RR fuel 2
     else if streq "AGING" policy then scheduler_AGING fuel
     else if streq "RR30" policy then scheduler_RR fuel 30
     else ret tt) ;;
    ret 0.
End kernel.

(* ------------------------------------------------------------------ *)
(** ** Properties                                                      *)
(* ------------------------------------------------------------------ *)

(** A fresh kernel with three frames and four variables, in which
    executing a line prints it. *)
Definition script (name : string) (n : nat) : string :=
  unlines (map (fun i => name +:+ pretty (Z.of_nat i)) (seq 1 n)).
Definition demo : kernel :=
  mkKernel (mkRq 1 None ∅ ∅ 1) (mkStore (replicate 22 none_slot) LRU 0) false false
    (list_to_map [("prog_a", script "a" 7); ("prog_b", script "b" 2); ("x", script "x" 1)]) true.
Definition show (line : string) : M kernel Z := print line ;; ret 0.
Definition run_demo (names : list string) (policy : string) : M kernel Z :=
  foldr (fun n m => process_initialize 18 n ;; m) (schedule_by_policy 18 4 show 100 policy) names.
Definition line_event (s : string) : event := Print (s +:+ nl).

(** The events of a run, when it returns. *)
Definition events {A} (r : outcome kernel A) : option (list event) :=
  match r with Ok _ _ tr => Some tr | _ => None end.

(** An unknown policy is refused with SCHEDULING_ERROR and changes
    nothing; a known one does nothing while a process is running in the
    background. *)
Theorem schedule_by_policy_guards fs vs parse fuel policy k :
  (policy ∉ ["FCFS"; "SJF"; "RR"; "AGING"; "RR30"] ->
     schedule_by_policy fs vs parse fuel policy k = Ok SCHEDULING_ERROR k []) /\
  (policy ∈ ["FCFS"; "SJF"; "RR"; "AGING"; "RR30"] -> in_background k = true ->
     schedule_by_policy fs vs parse fuel policy k = Ok 0 k []).
Proof.
  unfold schedule_by_policy, streq. split.
  - intros Hn. rewrite !bool_decide_eq_false_2 by (intros ->; apply Hn; set_solver). done.
  - intros Hin Hb.
    assert (negb (bool_decide (policy = "FCFS")) && negb (bool_decide (policy = "SJF"))
      && negb (bool_decide (policy = "RR")) && negb (bool_decide (policy = "AGING"))
      && negb (bool_decide (policy = "RR30")) = false) as ->.
    { rewrite !elem_of_cons in Hin. destruct Hin as [->|[->|[->|[->|[->|Hin]]]]]; [done..|].
      by apply not_elem_of_nil in Hin. }
    unfold bind, get. simpl. rewrite Hb. by destruct (active k).
Qed.

(** First come first served: scripts of seven and of two lines both
    run to their end, page faults included.  (The second script faults
    before its first line, since a partial page is not counted as loaded,
    and waits behind the first.) *)
Theorem fcfs_runs_all :
  events (run_demo ["prog_a"; "prog_b"] "FCFS" demo)
  = Some (map line_event ["a1"; "a2"; "a3"; "a4"; "a5"; "a6"; "a7"; "b1"; "b2"]).
Proof. by vm_compute. Qed.

(** Round robin gives each process two lines a turn; a turn that meets
    a page fault ends with it. *)
Theorem rr_alternates :
  events (run_demo ["prog_a"; "prog_b"] "RR" demo)
  = Some (map line_event ["a1"; "a2"; "a3"; "a4"; "b1"; "b2"; "a5"; "a6"; "a7"]).
Proof. by vm_compute. Qed.

(** Under SJF a process that page faults is not put back in the
    queue: the seventh line of the script never runs, and the scheduler
    returns success. *)
Theorem sjf_drops_process_on_page_fault :
  exists k', run_demo ["prog_a"] "SJF" demo
    = Ok 0 k' (map line_event ["a1"; "a2"; "a3"; "a4"; "a5"; "a6"]).
Proof. eexists. by vm_compute. Qed.

(** The path in the backing store is built in an array sized by the
    name of the script: a name shorter than "progN" overflows it. *)
Theorem short_script_name_overflows fs filename content k :
  files k !! filename = Some content -> backing_dir k = true -> strlen filename < 5 ->
  process_initialize fs filename k = Stuck.
Proof.
  intros Hf Hb Hl. unfold process_initialize. unfold bind at 1, get at 1. rewrite Hf. simpl.
  assert (count_files_backing k = Ok (Z.of_nat (size (backing_files k))) k []) as Hc.
  { unfold count_files_backing, bind, get. simpl. rewrite Hb. simpl. unfold ret. do 2 f_equal. lia. }
  rewrite (bind_Ok_nil _ _ _ _ _ Hc). unfold copyScript at 1.
  unfold bind at 1. unfold bind at 1, get at 1. rewrite Hf. rewrite (bind_Ok_nil _ _ _ _ _ Hc), Hb. simpl.
  unfold into. set (n := Z.of_nat (size (backing_files k))).
  assert (strlen (BACKING_STORE_DIR +:+ "prog" +:+ pretty n) <? strlen filename + strlen BACKING_STORE_DIR + 1
          = false) as ->; [|done].
  apply Z.ltb_ge. rewrite !strlen_app. change (strlen "prog") with 4.
  pose proof (pretty_Z_nonempty n). lia.
Qed.

Lemma short_script_name_overflows_witness : process_initialize 18 "x" demo = Stuck.
Proof. by apply (short_script_name_overflows 18 "x" (script "x" 1) demo). Defined.

(* ------------------------------------------------------------------ *)
(** ** A page fault                                                    *)
(* ------------------------------------------------------------------ *)

(** The job of [node] is about to read a page that is not loaded, frame
    [f] is free, and its script [ls] goes on for three lines at least. *)
Record faulting (fs vs : Z) (k : kernel) (node : loc) (x : PCB) (name : string) (ls : list string)
    (n f : Z) : Prop := {
  ft_fault : pageCounter x < currentPage x;
  ft_name : filename x = Some name;
  ft_file : files k !! name = Some (unlines ls);
  ft_short : Forall short_line ls;
  ft_page : 0 <= pageCounter x < zlen (pagetable x);
  ft_lines : 3 * pageCounter x + 3 <= zlen ls;
  ft_frames : frames_ok fs vs (memory k) n;
  ft_free : first_free (memory k) n f;
  ft_f : f <> -1
}.

(** execute_process then loads the page, and returns without running a
    line. *)
Lemma execute_fault_wp fs vs parse fuel quanta k node x name ls n f (Q : bool -> kernel -> Prop) :
  faulting fs vs k node x name ls n f -> job_at (rqueue k) node = Some x -> 0 < quanta ->
  (forall k', nodes (rqueue k') = nodes (rqueue k) -> head (rqueue k') = head (rqueue k) ->
     active k' = active k ->
     lines_at (memory k') f name (take 3 (drop (Z.to_nat (3 * pageCounter x)) ls)) -> Q false k') ->
  wp (execute_process fs vs parse (S fuel) node quanta) Q k.
Proof.
  intros [H1 H2 H3 H4 H5 H6 H7 H8 H9] Hjob Hq HQ.
  unfold job_at in Hjob. apply bind_Some in Hjob as (nd & Hnd & Hx).
  unfold execute_process. wp_step. apply wp_zoom. eapply get_node_wp; [done|]. simpl.
  rewrite (proj2 (Z.ltb_lt 0 quanta)) by done. simpl. do 2 wp_step. unfold execute_line.
  wp_step. apply wp_get. wp_step. apply wp_zoom. eapply get_job_wp; [exact Hx|].
  rewrite (proj2 (Z.ltb_lt (pageCounter x) (currentPage x))) by done. wp_step. apply wp_zoom. simpl memory.
  eapply load_frame_wp; [done..|]. intros m p' Hl _ _ _ _ _ _. wp_step. apply wp_zoom. simpl.
  eapply set_pcb_wp; [exact Hx|]. apply wp_ret, wp_ret, wp_ret. by apply HQ.
Qed.

Lemma queue_same s s' l :
  nodes s' = nodes s -> head s' = head s -> queue s [] -> l = [] -> queue s' l.
Proof. intros Hn Hh [H1 H2 H3] ->. split; [done| |done]. simpl in *. congruence. Qed.

(** Scheduler_SJF loses a process that page faults: when the only
    process in the queue is about to read a page that is not loaded, the
    scheduler loads the page, then returns, whatever its lines would do,
    with an empty queue: none of its remaining lines is executed. *)
Theorem sjf_drops_faulting_process fs vs parse fuel k node x name ls n f :
  queue (rqueue k) [node] -> job_at (rqueue k) node = Some x -> active k = false ->
  faulting fs vs k node x name ls n f ->
  exists k', scheduler_SJF fs vs parse (S (S fuel)) k = Ok tt k' [] /\ queue (rqueue k') [] /\
    lines_at (memory k') f name (take 3 (drop (Z.to_nat (3 * pageCounter x)) ls)).
Proof.
  intros Hq Hx Ha Hf.
  assert (wp (scheduler_SJF fs vs parse (S (S fuel))) (fun _ k' => queue (rqueue k') [] /\
    lines_at (memory k') f name (take 3 (drop (Z.to_nat (3 * pageCounter x)) ls))) k) as H.
  { unfold scheduler_SJF, schedule. cbn [while_]. do 2 wp_step. apply wp_zoom.
    eapply is_ready_empty_wp; [done|]. rewrite bool_decide_eq_false_2 by done. wp_step. apply wp_get.
    cbv beta iota. wp_step. unfold pop_node. do 2 wp_step. apply wp_zoom. eapply ready_queue_pop_shortest_job_wp; [done|done|].
    intros p l' E s1 Hq1 [Hs1 Hs2]. simpl in E. injection E as <- <-. eapply wp_need; [done|].
    wp_step. eapply execute_fault_wp; [|simpl; by rewrite Hs2|unfold MAX_INT; lia|].
    { destruct Hf as [? ? ? ? ? ? ? ? ?]. by split. }
    intros k' Hn Hh Hact Hl. simpl in *. apply wp_ret, wp_ret. do 2 wp_step. apply wp_zoom.
    eapply is_ready_empty_wp; [by eapply queue_same|]. simpl. wp_step. apply wp_get. simpl.
    rewrite Hact, Ha. apply wp_ret, wp_ret. simpl. split; [|done].
    by eapply (queue_same s1). }
  apply wp_Ok in H as ([] & k' & E & H). by exists k'.
Qed.

(** A process that is about to read page 2 when one page is counted as
    loaded. *)
Definition fault_pcb : PCB :=
  mkPCB false 2 1 6 0 5 7 1 0 (Some "prog_a") [true; true; false; false; false; false; false; false; false; false] None.
Definition fault_demo : kernel :=
  mkKernel (mkRq 2 (Some 1%positive) {[1%positive := mkNode 2 None]} {[2%positive := fault_pcb]} 3)
    (mkStore (replicate 22 none_slot) LRU 0) false false (files demo) true.

Lemma sjf_drops_faulting_process_witness :
  exists k', scheduler_SJF 18 4 show 5 fault_demo = Ok tt k' [] /\ queue (rqueue k') [] /\
    lines_at (memory k') 0 "prog_a" ["a4"; "a5"; "a6"].
Proof.
  apply (sjf_drops_faulting_process 18 4 show 3 fault_demo 1 fault_pcb "prog_a"
    ["a1"; "a2"; "a3"; "a4"; "a5"; "a6"; "a7"] 6 0); [|done|done|].
  - split; [apply NoDup_singleton|split; [done|by exists 2%positive, None]|].
    apply Forall_singleton. by exists fault_pcb.
  - split; try done.
    + repeat constructor; by vm_compute.
    + split; try done. intros i m Hm%zget_elem%elem_of_replicate. destruct Hm as [-> _]. by exists "none".
    + left. exists 0. split_and!; [done|done|done|by vm_compute|]. intros j Hj. lia.
Defined.
End Kernel2.
