(* ===== verification/Kernel2Props.v ===== *)
(** * Kernel2Props: running the resident lines of a process

    What execute_process and the first-come-first-served scheduler of
    a2/kernel.c, as modelled in Kernel2.v, do with a process whose lines
    are all in the frame store. *)
From S2P Require Import Prelude CString VarSpec Words ReadyQueue FrameStore Kernel2.
From Stdlib Require Import Ascii.

Module Kernel2Props.
Import ReadyQueue FrameStore Kernel2.
Open Scope string_scope. Open Scope Z_scope.

Section run.
Variables fs vs : Z.
(** Executing a line of the kind [sort] prints [ev] of it and leaves the
    state alone. *)
Variable parse : string -> M kernel Z.
Variable ev : string -> event.
Variable sort : string -> Prop.
Hypothesis parse_prints : forall l k, sort l -> exists c, parse l k = Ok c k [ev l].

(** The texts of the memory, by index. *)
Definition text_at (k : kernel) (i : Z) : option string :=
  m ← zget (shellmemory (memory k)) i; text (value m).

(** The job after one line. *)
Definition after_line (x : PCB) : PCB :=
  let y := pcb_priority false (pcb_PC (PC x + 1) x) in
  if currentLine x =? 2 then pcb_place (currentPage x + 1) 0 y
  else pcb_place (currentPage x) (currentLine x + 1) y.

(** [k'] has the job at [pcb] replaced by [y]; texts and queue are the
    same. *)
Record stepped (k k' : kernel) (pcb : loc) (y : PCB) : Prop := {
  st_nodes : nodes (rqueue k') = nodes (rqueue k);
  st_head : head (rqueue k') = head (rqueue k);
  st_pcbs : pcbs (rqueue k') = <[pcb := y]> (pcbs (rqueue k));
  st_active : active k' = active k;
  st_size : zlen (shellmemory (memory k')) = zlen (shellmemory (memory k));
  st_text : forall i, text_at k' i = text_at k i
}.

Lemma value_at_line_wp (s : store) i m (Q : cstr -> store -> Prop) :
  0 <= i <= SHELL_MEM_LENGTH fs vs -> zget (shellmemory s) i = Some m ->
  (forall s', zlen (shellmemory s') = zlen (shellmemory s) ->
     (forall j, (m ← zget (shellmemory s') j; text (value m)) = (m ← zget (shellmemory s) j; text (value m))) ->
     Q (value m) s') ->
  wp (mem_get_value_at_line fs vs i) Q s.
Proof.
  intros Hi Hm HQ. unfold mem_get_value_at_line.
  assert ((i <? 0) || (SHELL_MEM_LENGTH fs vs <? i) = false) as -> by lia.
  pose proof (zget_range _ _ _ Hm) as Hr. unfold tick. wp_steps.
  eapply set_accessed_wp; [exact Hm|]. wp_step. eapply slot_wp.
  { rewrite zget_upd by (simpl; lia). by rewrite bool_decide_eq_true_2. }
  apply wp_ret. simpl. apply HQ.
  - simpl. by rewrite length_insert.
  - intros j. rewrite zget_upd by (simpl; lia). case_bool_decide; [|done]. subst. simpl. by rewrite Hm.
Qed.

Definition set_job (k : kernel) (pcb : loc) (y : PCB) : kernel :=
  mkKernel (set_pcbs (<[pcb := y]> (pcbs (rqueue k))) (rqueue k)) (memory k) (active k)
           (in_background k) (files k) (backing_dir k).

Lemma pcb_op_wp k pcb y f (Q : unit -> kernel -> Prop) :
  pcbs (rqueue k) !! pcb = Some y -> Q tt (set_job k pcb (f y)) -> wp (pcb_op pcb f) Q k.
Proof.
  intros Hy HQ. unfold pcb_op. apply wp_zoom. wp_step. eapply get_job_wp; [exact Hy|].
  by eapply set_pcb_wp.
Qed.

Lemma lower_priority_wp k pcb y (Q : unit -> kernel -> Prop) :
  pcbs (rqueue k) !! pcb = Some y -> Q tt (set_job k pcb (pcb_priority false y)) ->
  wp (when (priority y) (pcb_op pcb (pcb_priority false))) Q k.
Proof.
  intros Hy HQ. apply wp_when; intros Hp; [by eapply pcb_op_wp|].
  assert (pcb_priority false y = y) as Ey by (destruct y; simpl in *; by subst).
  rewrite Ey in HQ. unfold set_job in HQ. rewrite insert_id in HQ by done. by destruct k as [[]].
Qed.

(** One line of a job that does not fault. *)
Lemma execute_line_wpt k node pcb x l (Q : unit + bool -> kernel -> list event -> Prop) :
  pcbs (rqueue k) !! pcb = Some x -> currentPage x <= pageCounter x ->
  0 <= PC x <= SHELL_MEM_LENGTH fs vs -> text_at k (PC x) = Some l -> l <> "none" -> sort l ->
  (forall k', stepped k k' pcb (after_line x) -> Q (inl tt) k' [ev l]) ->
  wpt (execute_line fs vs parse node pcb) Q k.
Proof using parse_prints.
  intros Hx Hpage Hpc Hl Hne Hsort HQ. unfold text_at in Hl. apply bind_Some in Hl as (m & Hm & Hl).
  unfold execute_line. apply wpt_seq, wp_get, wpt_seq, wp_zoom. eapply get_job_wp; [exact Hx|].
  rewrite (proj2 (Z.ltb_ge (pageCounter x) (currentPage x))) by lia.
  apply wpt_seq. eapply pcb_op_wp; [exact Hx|]. apply wpt_seq, wp_zoom. simpl memory.
  eapply value_at_line_wp; [done|exact Hm|]. intros st Hlen Htext.
  apply wpt_seq, wp_modify, wpt_seq. simpl. eapply (lower_priority_wp _ pcb (pcb_PC (PC x + 1) x)).
  { simpl. apply lookup_insert_eq. }
  simpl. apply wpt_seq. eapply wp_need; [exact Hl|].
  unfold streq. rewrite bool_decide_eq_false_2 by done. simpl. apply wpt_bind.
  match goal with |- wpt (parse l) _ ?k1 => destruct (parse_prints l k1 Hsort) as [c Ec] end.
  unfold wpt at 1. rewrite Ec. apply wpt_seq, wp_modify. simpl. apply wpt_seq.
  eapply pcb_op_wp; [simpl; apply lookup_insert_eq|]. apply wpt_ret. simpl.
  apply HQ. split; simpl; try done.
  by rewrite !insert_insert_eq.
Qed.

Lemma after_line_fields x :
  PC (after_line x) = PC x + 1 /\ pageCounter (after_line x) = pageCounter x /\
  (0 <= currentLine x <= 2 -> 0 <= currentLine (after_line x) <= 2 /\
   3 * currentPage (after_line x) + currentLine (after_line x) = 3 * currentPage x + currentLine x + 1).
Proof.
  unfold after_line. destruct (Z.eqb_spec (currentLine x) 2) as [E|E]; simpl; (split; [done|split; [done|lia]]).
Qed.

(** The lines [ls] from PC are resident: in memory, not "none" but of the
    kind [sort], and on pages counted as loaded. *)
Record resident (k : kernel) (x : PCB) (ls : list string) : Prop := {
  rs_line : 0 <= currentLine x <= 2;
  rs_pages : 3 * currentPage x + currentLine x + zlen ls < 3 * pageCounter x + 3;
  rs_pc : 0 <= PC x /\ PC x + zlen ls <= SHELL_MEM_LENGTH fs vs;
  rs_text : forall i l, ls !! i = Some l -> text_at k (PC x + Z.of_nat i) = Some l /\ l <> "none" /\ sort l
}.

Lemma resident_tail k k' pcb x l ls :
  stepped k k' pcb (after_line x) -> resident k x (l :: ls) -> resident k' (after_line x) ls.
Proof.
  intros Hst [H1 H2 H3 H4]. destruct (after_line_fields x) as (E1 & E2 & E3).
  destruct (E3 H1) as [E4 E5]. rewrite zlen_cons in *. split; [done|lia|lia|].
  intros i l' Hi. rewrite (st_text _ _ _ _ Hst), E1. destruct (H4 (S i) l' Hi) as [Ht Hn]. split; [|done].
  rewrite <- Ht. f_equal. lia.
Qed.

Lemma stepped_trans k1 k2 k3 pcb y z :
  stepped k1 k2 pcb y -> stepped k2 k3 pcb z -> stepped k1 k3 pcb z.
Proof.
  intros [A1 A2 A3 A4 A5 A6] [B1 B2 B3 B4 B5 B6].
  split; [congruence|congruence| |congruence|congruence|].
  - by rewrite B3, A3, insert_insert_eq.
  - intros i. by rewrite B6, A6.
Qed.

(** The job after [n] lines. *)
Fixpoint after_lines (n : nat) (x : PCB) : PCB :=
  match n with O => x | S n' => after_lines n' (after_line x) end.

Lemma stepped_refl k pcb x : pcbs (rqueue k) !! pcb = Some x -> stepped k k pcb x.
Proof. intros Hx. split; try done. by rewrite insert_id. Qed.

Definition turn (node pcb : loc) (quanta i : Z) : M kernel (Z + bool) :=
  if negb (i <? quanta) then ret (inr false)
  else
    let! r := execute_line fs vs parse node pcb in
    ret (match r with inl _ => inl (i + 1) | inr b => inr b end).

(** The loop of execute_process runs the resident lines [ls], then goes
    on with the others. *)
Lemma run_lines_wpt node pcb quanta fuel ls rest : forall k x i (Q : bool -> kernel -> list event -> Prop),
  pcbs (rqueue k) !! pcb = Some x -> resident k x (ls ++ rest) -> i + zlen ls <= quanta ->
  (forall k', stepped k k' pcb (after_lines (length ls) x) ->
     resident k' (after_lines (length ls) x) rest ->
     wpt (while_ fuel (turn node pcb quanta) (i + zlen ls)) (fun b k2 tr => Q b k2 (map ev ls ++ tr)%list) k') ->
  wpt (while_ (length ls + fuel) (turn node pcb quanta) i) Q k.
Proof using parse_prints.
  induction ls as [|l ls IH]; intros k x i Q Hx Hr Hi HQ.
  - simpl in *. rewrite Z.add_0_r in HQ. apply HQ; [by apply stepped_refl|done].
  - rewrite zlen_cons in *. cbn [length Nat.add while_]. apply wpt_bind. unfold turn at 1.
    rewrite (proj2 (Z.ltb_lt i quanta)) by lia. cbn [negb]. apply wpt_bind.
    pose proof Hr as [H1 H2 H3 H4]. destruct (H4 O l eq_refl) as (Ht & Hne & Hs).
    cbn [app] in *. rewrite zlen_cons in *. simpl in Ht. rewrite Z.add_0_r in Ht.
    eapply execute_line_wpt; [done|lia|lia|done|done|done|]. intros k1 Hst. apply wpt_ret, IH with (after_line x).
    + rewrite (st_pcbs _ _ _ _ Hst). apply lookup_insert_eq.
    + by eapply resident_tail.
    + lia.
    + intros k2 Hst2 Hr2. simpl in HQ.
      replace (i + 1 + zlen ls) with (i + (1 + zlen ls)) by lia. apply HQ; [by eapply stepped_trans|done].
Qed.

(** On a free slot the process ends: its node is freed, its PCB is not. *)
Record ended (k k' : kernel) (node pcb : loc) : Prop := {
  en_nodes : nodes (rqueue k') = delete node (nodes (rqueue k));
  en_head : head (rqueue k') = head (rqueue k);
  en_pcbs : forall q, q <> pcb -> pcbs (rqueue k') !! q = pcbs (rqueue k) !! q;
  en_active : active k' = active k;
  en_text : forall i, text_at k' i = text_at k i
}.

Lemma execute_end_wp k node pcb x (Q : unit + bool -> kernel -> Prop) :
  pcbs (rqueue k) !! pcb = Some x -> is_Some (nodes (rqueue k) !! node) ->
  currentPage x <= pageCounter x -> 0 <= PC x <= SHELL_MEM_LENGTH fs vs -> text_at k (PC x) = Some "none" ->
  (forall k', ended k k' node pcb -> Q (inr true) k') ->
  wp (execute_line fs vs parse node pcb) Q k.
Proof.
  intros Hx [nd Hnd] Hpage Hpc Hl HQ. unfold text_at in Hl. apply bind_Some in Hl as (m & Hm & Hl).
  unfold execute_line. wp_step. apply wp_get. wp_step. apply wp_zoom. eapply get_job_wp; [exact Hx|].
  rewrite (proj2 (Z.ltb_ge (pageCounter x) (currentPage x))) by lia.
  wp_step. eapply pcb_op_wp; [exact Hx|]. wp_step. apply wp_zoom. simpl memory.
  eapply value_at_line_wp; [done|exact Hm|]. intros st Hlen Htext.
  wp_step. apply wp_modify. wp_step. simpl. eapply (lower_priority_wp _ pcb (pcb_PC (PC x + 1) x)).
  { simpl. apply lookup_insert_eq. }
  simpl. wp_step. eapply wp_need; [exact Hl|]. unfold streq. rewrite bool_decide_eq_true_2 by done. simpl.
  wp_step. apply wp_modify. wp_step. apply wp_zoom. unfold terminate_process, free_node. simpl.
  wp_step. eapply get_node_wp; [exact Hnd|]. apply wp_modify, wp_ret. apply HQ.
  split; simpl; try done. intros q Hq. by rewrite !lookup_insert_ne.
Qed.

Lemma after_lines_PC n x : PC (after_lines n x) = PC x + Z.of_nat n.
Proof.
  revert x. induction n as [|n IH]; intros x; simpl after_lines; [lia|].
  rewrite IH. destruct (after_line_fields x) as [-> _]. lia.
Qed.

(* ------------------------------------------------------------------ *)
(** ** One call of execute_process                                     *)
(* ------------------------------------------------------------------ *)

(** A process of the queue: its node, its PCB and its lines. *)
Record proc := mkProc { pr_node : loc; pr_pcb : loc; pr_lines : list string }.

(** Its remaining lines are resident and a free slot ends them. *)
Definition runnable (k : kernel) (p : proc) : Prop :=
  exists x, pcb <$> nodes (rqueue k) !! pr_node p = Some (pr_pcb p) /\
    pcbs (rqueue k) !! pr_pcb p = Some x /\ resident k x (pr_lines p) /\
    PC x + zlen (pr_lines p) <= SHELL_MEM_LENGTH fs vs /\
    text_at k (PC x + zlen (pr_lines p)) = Some "none".

Definition rest (q : nat) (p : proc) : proc :=
  mkProc (pr_node p) (pr_pcb p) (drop q (pr_lines p)).

(** The other processes are as they were. *)
Record others (k k' : kernel) (p : proc) : Prop := {
  ot_nodes : forall n, n <> pr_node p -> nodes (rqueue k') !! n = nodes (rqueue k) !! n;
  ot_head : head (rqueue k') = head (rqueue k);
  ot_pcbs : forall q, q <> pr_pcb p -> pcbs (rqueue k') !! q = pcbs (rqueue k) !! q;
  ot_active : active k' = active k;
  ot_text : forall i, text_at k' i = text_at k i
}.

Lemma others_runnable k k' p r :
  others k k' p -> pr_node r <> pr_node p -> pr_pcb r <> pr_pcb p -> runnable k r -> runnable k' r.
Proof.
  intros [H1 H2 H3 H4 H5] Hn Hp (x & E1 & E2 & [R1 R2 R3 R4] & E4 & E5). exists x.
  rewrite H1, H3, H5 by done. split_and!; [done|done| |done|done].
  split; [done..|]. intros i l Hi. rewrite H5. by apply R4.
Qed.

Lemma execute_process_wpt k node c quanta fuel (Q : bool -> kernel -> list event -> Prop) :
  pcb <$> nodes (rqueue k) !! node = Some c ->
  wpt (while_ fuel (turn node c quanta) 0) Q k ->
  wpt (execute_process fs vs parse fuel node quanta) Q k.
Proof.
  intros (nd & Hnd & ->)%fmap_Some HQ. unfold execute_process. apply wpt_seq, wp_zoom.
  eapply get_node_wp; [done|]. by destruct k.
Qed.

(** A call that ends the process. *)
Lemma execute_ends_wpt k p quanta fuel (Q : bool -> kernel -> list event -> Prop) :
  runnable k p -> zlen (pr_lines p) < quanta -> (length (pr_lines p) < fuel)%nat ->
  (forall k', nodes (rqueue k') = delete (pr_node p) (nodes (rqueue k)) -> others k k' p ->
     Q true k' (map ev (pr_lines p))) ->
  wpt (execute_process fs vs parse fuel (pr_node p) quanta) Q k.
Proof using parse_prints.
  intros (x & Hnd & Hx & Hr & Hend & Hnone) Hq Hf HQ.
  eapply execute_process_wpt; [done|].
  replace fuel with (length (pr_lines p) + S (fuel - length (pr_lines p) - 1))%nat by lia.
  rewrite <- (app_nil_r (pr_lines p)) in Hr.
  eapply run_lines_wpt; [done|done|unfold zlen in *; lia|].
  intros k1 Hst Hr1. cbn [while_]. unfold turn at 1.
  rewrite (proj2 (Z.ltb_lt (0 + zlen (pr_lines p)) quanta)) by lia. cbn [negb].
  apply wpt_seq, wp_bind. pose proof (after_lines_PC (length (pr_lines p)) x) as Epc.
  destruct Hr1 as [S1 S2 S3 S4]. change (zlen []) with 0 in *.
  apply execute_end_wp with (after_lines (length (pr_lines p)) x); [| |lia|lia| |].
  - rewrite (st_pcbs _ _ _ _ Hst). apply lookup_insert_eq.
  - rewrite (st_nodes _ _ _ _ Hst). apply fmap_Some in Hnd as (nd & -> & _). by eexists.
  - by rewrite (st_text _ _ _ _ Hst), Epc.
  - intros k2 [T1 T2 T3 T4 T5]. destruct Hst as [U1 U2 U3 U4 U5 U6]. apply wp_ret, wpt_ret.
    rewrite app_nil_r. apply HQ; [by rewrite T1, U1|]. split; [|congruence| |congruence|].
    + intros n Hne. by rewrite T1, U1, lookup_delete_ne.
    + intros q Hne. by rewrite T3, U3, lookup_insert_ne.
    + intros i. by rewrite T5, U6.
Qed.

(** A call that uses up the quanta. *)
Lemma execute_turn_wpt k p q fuel (Q : bool -> kernel -> list event -> Prop) :
  runnable k p -> (q <= length (pr_lines p))%nat -> (q < fuel)%nat ->
  (forall k', nodes (rqueue k') = nodes (rqueue k) -> others k k' p -> runnable k' (rest q p) ->
     Q false k' (map ev (take q (pr_lines p)))) ->
  wpt (execute_process fs vs parse fuel (pr_node p) (Z.of_nat q)) Q k.
Proof using parse_prints.
  intros (x & Hnd & Hx & Hr & Hend & Hnone) Hq Hf HQ.
  assert (length (take q (pr_lines p)) = q) as El by (rewrite length_take; lia).
  assert (zlen (take q (pr_lines p)) = Z.of_nat q) as Ez by (by rewrite El).
  eapply execute_process_wpt; [done|].
  replace fuel with (length (take q (pr_lines p)) + S (fuel - q - 1))%nat by lia.
  rewrite <- (take_drop q (pr_lines p)) in Hr.
  eapply run_lines_wpt; [done|done|unfold zlen in *; lia|].
  intros k1 Hst Hr1. cbn [while_]. unfold turn at 1. rewrite Ez.
  rewrite (proj2 (Z.ltb_ge (0 + Z.of_nat q) (Z.of_nat q))) by lia. cbn [negb].
  apply wpt_seq, wp_ret, wpt_ret. rewrite app_nil_r, El in *.
  pose proof (after_lines_PC q x) as Epc. destruct Hst as [U1 U2 U3 U4 U5 U6]. apply HQ; [done| |].
  - split; [intros; by rewrite U1|done| |done|done]. intros r Hne. by rewrite U3, lookup_insert_ne.
  - exists (after_lines q x). rewrite U1, U3, U6, Epc. cbn [rest pr_node pr_pcb pr_lines].
    assert (PC x + Z.of_nat q + zlen (drop q (pr_lines p)) = PC x + zlen (pr_lines p)) as ->
      by (rewrite length_drop; lia).
    split_and!; [done|apply lookup_insert_eq|done|done|done].
Qed.

(* ------------------------------------------------------------------ *)
(** ** The queue                                                       *)
(* ------------------------------------------------------------------ *)

(** The same processes, possibly linked otherwise. *)
Definition relinked (s s' : rq) : Prop :=
  pcbs s' = pcbs s /\ forall n, pcb <$> nodes s' !! n = pcb <$> nodes s !! n.

#[local] Instance relinked_preorder : PreOrder relinked.
Proof.
  split; [done|]. intros s1 s2 s3 [H1 H2] [H3 H4]. split; [congruence|]. intros n. by rewrite H4.
Qed.

Lemma keeps_set_next p o : keeps relinked (set_next p o).
Proof.
  intros s u s' tr. unfold set_next, get_node, bind, get, need, modify. simpl.
  destruct (nodes s !! p) as [nd|] eqn:E; [|done]. simpl. intros [= _ <- _]. split; [done|].
  intros n. simpl. destruct (decide (n = p)) as [->|Hn]; [|by rewrite lookup_insert_ne].
  by rewrite lookup_insert_eq, E.
Qed.

Lemma keeps_get_node p : keeps relinked (get_node p).
Proof. apply (keeps_bind relinked); [apply (keeps_get relinked)|intros s; apply (keeps_need relinked)]. Qed.

Lemma keeps_add_to_tail node : keeps relinked (ready_queue_add_to_tail node).
Proof.
  apply (keeps_bind relinked); [apply (keeps_get relinked)|]. intros s. destruct (head s) as [h|].
  - apply (keeps_bind relinked); [|intros cur; apply (keeps_bind relinked); [apply keeps_set_next|intros _; apply keeps_set_next]].
    apply (keeps_bind relinked); [apply (keeps_get relinked)|]. intros s1. apply (keeps_while relinked). intros x.
    apply (keeps_bind relinked); [apply keeps_get_node|]. intros nd. destruct (next nd); apply (keeps_ret relinked).
  - apply (keeps_bind relinked); [by apply (keeps_modify relinked)|]. intros _. apply keeps_set_next.
Qed.

Definition with_queue (s : rq) (k : kernel) : kernel :=
  mkKernel s (memory k) (active k) (in_background k) (files k) (backing_dir k).

Lemma runnable_relinked k s p : relinked (rqueue k) s -> runnable k p -> runnable (with_queue s k) p.
Proof.
  intros [H1 H2] (x & E1 & E2 & [R1 R2 R3 R4] & E4 & E5). exists x. simpl. rewrite H1, H2.
  split_and!; [done|done|by split|done|done].
Qed.

Lemma runnable_job k p : runnable k p -> is_Some (job_at (rqueue k) (pr_node p)).
Proof.
  intros (x & (nd & E & Ep)%fmap_Some & Hx & _). exists x. unfold job_at. rewrite E. simpl. by rewrite <- Ep.
Qed.

Lemma seg_ext m m' l : forall o e,
  (forall n, n ∈ l -> m' !! n = m !! n) -> seg m o l e -> seg m' o l e.
Proof.
  clear parse_prints. induction l as [|p l IH]; intros o e Hm; simpl; [done|]. intros (-> & c & n & Hp & Hs).
  split; [done|]. exists c, n. rewrite Hm by set_solver. split; [done|]. apply IH; [set_solver|done].
Qed.

(** The processes wait in the queue, in this order, each with a PCB of
    its own. *)
Record waiting (k : kernel) (ps : list proc) : Prop := {
  wt_queue : queue (rqueue k) (map pr_node ps);
  wt_pcbs : NoDup (map pr_pcb ps);
  wt_run : Forall (runnable k) ps;
  wt_active : active k = false
}.

Lemma waiting_intro k ps :
  NoDup (map pr_node ps) -> seg (nodes (rqueue k)) (head (rqueue k)) (map pr_node ps) None ->
  NoDup (map pr_pcb ps) -> Forall (runnable k) ps -> active k = false -> waiting k ps.
Proof.
  intros H1 H2 H3 H4 H5. split; [|done..]. split; [done..|].
  apply Forall_map. eapply Forall_impl; [done|]. apply runnable_job.
Qed.

(** The process that is not in the queue may run. *)
Lemma waiting_others k k' p ps :
  others k k' p -> waiting k ps -> pr_node p ∉ map pr_node ps -> pr_pcb p ∉ map pr_pcb ps -> waiting k' ps.
Proof.
  intros Ho [[Q1 Q2 Q3] H2 H3 H4] Hn Hp. pose proof Ho as [O1 O2 O3 O4 O5].
  apply waiting_intro; [done| |done| |congruence].
  - rewrite O2. eapply seg_ext; [|done]. intros n Hin. apply O1. by intros ->.
  - rewrite Forall_forall in *. intros r Hr. apply others_runnable with (k := k) (p := p); [done| | |by apply H3].
    + intros E. apply Hn. rewrite <- E. apply list_elem_of_In, in_map, list_elem_of_In, Hr.
    + intros E. apply Hp. rewrite <- E. apply list_elem_of_In, in_map, list_elem_of_In, Hr.
Qed.

(* ------------------------------------------------------------------ *)
(** ** Round robin                                                     *)
(* ------------------------------------------------------------------ *)

(** The body of the loop of scheduler_RR. *)
Definition rr_turn (fuel : nat) (quanta : Z) : M kernel unit :=
  let! cur := pop_node ready_queue_pop_head in
  let! r := execute_process fs vs parse fuel cur quanta in
  when (negb r) (on_queue (ready_queue_add_to_tail cur)).

Lemma pop_waiting k p ps (Q : loc -> kernel -> Prop) :
  waiting k (p :: ps) ->
  (forall k', waiting k' ps -> runnable k' p -> pr_node p ∉ map pr_node ps -> pr_pcb p ∉ map pr_pcb ps ->
     Q (pr_node p) k') ->
  wp (pop_node ready_queue_pop_head) Q k.
Proof.
  intros [H1 H2 H3 H4] HQ. unfold pop_node. wp_step. apply wp_zoom.
  pose proof H1 as [Hn _ _]. apply NoDup_cons in Hn as [Hn _]. apply NoDup_cons in H2 as [Hp H2].
  eapply ready_queue_pop_head_wp; [done|done|]. intros n l' E s' Hq [Hs1 Hs2] Hs3.
  simpl in E. injection E as <- <-. eapply wp_need; [done|].
  assert (forall r, runnable k r -> runnable (with_queue s' k) r) as Hrun.
  { intros r. apply runnable_relinked. split; [done|]. intros m. by rewrite Hs3. }
  apply Forall_cons in H3 as [H3 H5]. apply HQ; [|by apply Hrun|done|done].
  split; [done|done| |done]. eapply Forall_impl; [done|apply Hrun].
Qed.

Lemma push_waiting k p ps (Q : unit -> kernel -> Prop) :
  waiting k ps -> runnable k p -> pr_node p ∉ map pr_node ps -> pr_pcb p ∉ map pr_pcb ps ->
  (forall k', waiting k' (ps ++ [p]) -> Q tt k') ->
  wp (on_queue (ready_queue_add_to_tail (pr_node p))) Q k.
Proof.
  clear parse_prints. intros [H1 H2 H3 H4] Hr Hn Hp HQ. apply wp_zoom. apply (wp_keeps relinked); [apply keeps_add_to_tail|].
  eapply ready_queue_add_to_tail_wp; [done|done|by apply runnable_job|]. intros s' Hq _ Hs. apply HQ.
  split; rewrite ?map_app; [done| | |done].
  - apply NoDup_app. split_and!; [done|set_solver|apply NoDup_singleton].
  - apply Forall_app. split; [|constructor; [|done]].
    + eapply Forall_impl; [done|]. intros r. by apply runnable_relinked.
    + by apply runnable_relinked.
Qed.

(** A turn runs at most [q] lines of the first process, and puts it last
    unless it ended. *)
Lemma rr_turn_wpt k p ps q fuel (Q : unit -> kernel -> list event -> Prop) :
  waiting k (p :: ps) -> (length (pr_lines p) < fuel)%nat ->
  (forall k', waiting k' (if (length (pr_lines p) <? q)%nat then ps else ps ++ [rest q p]) ->
     Q tt k' (map ev (take q (pr_lines p)))) ->
  wpt (rr_turn fuel (Z.of_nat q)) Q k.
Proof using parse_prints.
  intros Hw Hf HQ. unfold rr_turn. apply wpt_seq. eapply pop_waiting; [done|].
  intros k1 Hw1 Hr1 Hn Hp. apply wpt_bind. destruct (Nat.ltb_spec (length (pr_lines p)) q) as [Hl|Hl].
  - eapply execute_ends_wpt; [done|lia|done|]. intros k2 Hnd Ho. apply wpt_ret.
    rewrite app_nil_r. rewrite take_ge in HQ by lia. apply HQ. by eapply waiting_others.
  - eapply execute_turn_wpt; [done|done|lia|]. intros k2 Hnd Ho Hr. apply wpt_silent.
    apply (push_waiting _ (rest q p) ps); [by eapply waiting_others|done..|].
    intros k3 Hw3. rewrite app_nil_r. by apply HQ.
Qed.

(** The order of the lines in a round robin of [q] lines a turn. *)
Fixpoint round_robin (turns q : nat) (ps : list (list string)) : list string :=
  match turns, ps with
  | S n, ls :: ps =>
      take q ls ++ round_robin n q (if (length ls <? q)%nat then ps else ps ++ [drop q ls])
  | _, _ => []
  end.
Definition turns (q : nat) (ps : list (list string)) : nat :=
  sum_list_with (fun ls => S (length ls / q)) ps.

Lemma rr_turns_step q ls ps :
  (0 < q)%nat ->
  turns q (ls :: ps) = S (turns q (if (length ls <? q)%nat then ps else ps ++ [drop q ls])).
Proof.
  intros Hq. unfold turns. destruct (Nat.ltb_spec (length ls) q) as [Hl|Hl]; simpl.
  - by rewrite Nat.div_small.
  - rewrite sum_list_with_app. simpl. rewrite length_drop.
    replace (length ls) with (length ls - q + 1 * q)%nat at 1 by lia.
    rewrite Nat.div_add by lia. lia.
Qed.

Lemma schedule_rr_wpt q fuel : forall n k ps,
  (0 < q)%nat -> waiting k ps -> Forall (fun p => length (pr_lines p) < fuel)%nat ps ->
  (turns q (map pr_lines ps) < n)%nat ->
  wpt (schedule n (rr_turn fuel (Z.of_nat q)))
    (fun _ k' tr => queue (rqueue k') [] /\
       tr = map ev (round_robin (turns q (map pr_lines ps)) q (map pr_lines ps))) k.
Proof using parse_prints.
  intros n k ps Hq. revert k ps. induction n as [|n IH]; intros k ps Hw Hf Hn; [lia|].
  unfold schedule. cbn [while_]. apply wpt_bind, wpt_seq, wp_zoom.
  pose proof Hw as [Hw1 Hw2 Hw3 Hw4]. eapply is_ready_empty_wp; [done|]. apply wpt_seq, wp_get. simpl.
  destruct ps as [|p ps].
  - rewrite bool_decide_eq_true_2, Hw4 by done. apply wpt_ret, wpt_ret. simpl. done.
  - rewrite bool_decide_eq_false_2 by done. apply wpt_bind. apply Forall_cons in Hf as [Hf1 Hf2].
    change (mkKernel _ _ _ _ _ _) with (with_queue (rqueue k) k).
    replace (with_queue (rqueue k) k) with k by by destruct k.
    eapply rr_turn_wpt; [done|done|]. intros k1 Hk1. apply wpt_ret. rewrite app_nil_r.
    cbn [map] in *. rewrite rr_turns_step in Hn |- * by done. cbn [round_robin].
    set (ps' := if _ : bool then _ else _) in Hk1.
    assert ((if (length (pr_lines p) <? q)%nat then map pr_lines ps
             else (map pr_lines ps ++ [drop q (pr_lines p)])%list) = map pr_lines ps') as Eps.
    { unfold ps'. destruct (_ <? _)%nat; [done|]. by rewrite map_app. }
    rewrite Eps in *. eapply wpt_mono; [apply (IH k1 ps'); [done| |lia]|].
    + unfold ps'. destruct (_ <? _)%nat; [done|]. apply Forall_app. split; [done|].
      constructor; [|done]. simpl. rewrite length_drop. lia.
    + intros _ k2 tr [Hq2 ->]. split; [done|]. by rewrite map_app.
Qed.
End run.

(** Every line is run once. *)
Lemma round_robin_perm q n : forall ps,
  (0 < q)%nat -> (turns q ps <= n)%nat -> round_robin n q ps ≡ₚ concat ps.
Proof.
  induction n as [|n IH]; intros ps Hq Hn.
  - destruct ps; [done|]. unfold turns in Hn. simpl in Hn. lia.
  - destruct ps as [|ls ps]; [done|]. rewrite rr_turns_step in Hn by done. cbn [round_robin concat].
    rewrite IH by (done || lia). destruct (Nat.ltb_spec (length ls) q) as [Hl|Hl].
    + by rewrite take_ge by lia.
    + rewrite concat_app. simpl. rewrite app_nil_r.
      rewrite <- (take_drop q ls) at 3. rewrite <- app_assoc. apply Permutation_app_head, Permutation_app_comm.
Qed.

Lemma round_robin_long n q ps :
  Forall (fun ls => (length ls < q)%nat) ps -> (length ps <= n)%nat -> round_robin n q ps = concat ps.
Proof.
  revert ps. induction n as [|n IH]; intros ps Hf Hn.
  - destruct ps; [done|]. simpl in Hn. lia.
  - destruct ps as [|ls ps]; [done|]. apply Forall_cons in Hf as [H1 H2]. cbn [round_robin concat].
    rewrite (proj2 (Nat.ltb_lt _ _) H1), take_ge by lia. f_equal. apply IH; [done|simpl in Hn; lia].
Qed.

Lemma turns_long q ps : Forall (fun ls => (length ls < q)%nat) ps -> turns q ps = length ps.
Proof.
  induction 1 as [|ls ps H1 H2 IH]; [done|]. unfold turns in *. simpl.
  rewrite Nat.div_small by done. by rewrite IH.
Qed.

Definition lines_of (ps : list proc) : list (list string) := map pr_lines ps.

(** C12: scheduler_RR runs the processes of the ready queue to their ends,
    [q] lines a turn, in the order of the queue, each going to the tail
    after its turn: when every process has its lines in memory, of a kind
    that only prints when it is executed, behind them a free slot that its
    page table has as loaded, and a PCB of its own, the lines executed are
    those of [round_robin], each line exactly once, and the queue is left
    empty. *)
Theorem rr_runs_resident_processes fs vs parse ev sort fuel q k ps :
  (forall l k, sort l -> exists c, parse l k = Ok c k [ev l]) ->
  waiting fs vs sort k ps -> (0 < q)%nat ->
  Forall (fun p => length (pr_lines p) < fuel)%nat ps -> (turns q (lines_of ps) < fuel)%nat ->
  exists k' out, scheduler_RR fs vs parse fuel (Z.of_nat q) k = Ok tt k' (map ev out) /\
    out = round_robin (turns q (lines_of ps)) q (lines_of ps) /\
    out ≡ₚ concat (lines_of ps) /\ queue (rqueue k') [].
Proof.
  intros Hp Hw Hq Hf Ht.
  pose proof (schedule_rr_wpt fs vs parse ev sort Hp q fuel fuel k ps Hq Hw Hf Ht) as H.
  apply wpt_Ok in H as ([] & k' & tr & E & Hk & ->). eexists k', _. split_and!; [exact E|done| |done].
  by apply round_robin_perm.
Qed.

(** Scheduler_FCFS runs the processes of the ready queue one after the
    other: when every process has its lines in memory, the lines executed
    are those of the first process, then those of the second, and so on,
    and the queue is left empty. *)
Theorem fcfs_runs_resident_processes fs vs parse ev sort fuel k ps :
  (forall l k, sort l -> exists c, parse l k = Ok c k [ev l]) ->
  waiting fs vs sort k ps ->
  Forall (fun p => (length (pr_lines p) < fuel)%nat /\ zlen (pr_lines p) < MAX_INT) ps -> (length ps < fuel)%nat ->
  exists k', scheduler_FCFS fs vs parse fuel k = Ok tt k' (map ev (concat (lines_of ps))) /\
    queue (rqueue k') [].
Proof.
  intros Hp Hw Hf Ht. remember (Z.to_nat MAX_INT) as q eqn:Eq.
  assert (Z.of_nat q = MAX_INT) as Eq' by (rewrite Eq; by apply Z2Nat.id). clear Eq.
  assert (Forall (fun ls => (length ls < q)%nat) (lines_of ps)) as Hl.
  { apply Forall_map. eapply Forall_impl; [done|]. intros p [_ H]. simpl. lia. }
  assert (0 < q)%nat as Hq by (unfold MAX_INT in Eq'; lia).
  pose proof (turns_long q (lines_of ps) Hl) as Hturns. unfold lines_of in Hturns at 2. rewrite length_map in Hturns.
  pose proof (schedule_rr_wpt fs vs parse ev sort Hp q fuel fuel k ps Hq Hw) as H.
  destruct (proj1 (wpt_Ok _ _ _) (H ltac:(eapply Forall_impl; [done|]; by intros p [? _])
    ltac:(fold (lines_of ps); lia))) as ([] & k' & tr & E & Hk & ->).
  exists k'. split; [|done]. rewrite Eq' in E. unfold scheduler_FCFS. fold (rr_turn fs vs parse fuel MAX_INT).
  rewrite E. fold (lines_of ps). rewrite round_robin_long by (done || (unfold lines_of in *; rewrite length_map; lia)).
  done.
Qed.

(** Two processes whose lines are in frames 0 and 1. *)
Definition resident_pcb (i pc : Z) : PCB :=
  mkPCB false 0 i pc 0 5 2 0 0 (Some "prog") (replicate 10 false) None.
Definition line_slot (s : string) : memory_struct := mkMem (Dup "prog") (Dup s) 0 0.
Definition resident_demo : kernel :=
  mkKernel (mkRq 5 (Some 1%positive)
              {[1%positive := mkNode 3 (Some 2%positive); 2%positive := mkNode 4 None]}
              {[3%positive := resident_pcb 1 0; 4%positive := resident_pcb 2 3]} 3)
    (mkStore ([line_slot "a1"; line_slot "a2"; none_slot; line_slot "b1"] ++ replicate 18 none_slot)%list LRU 0)
    false false (files demo) true.
Definition resident_procs : list proc :=
  [mkProc 1 3 ["a1"; "a2"]; mkProc 2 4 ["b1"]].

Lemma resident_demo_waiting : waiting 18 4 (fun _ => True) resident_demo resident_procs.
Proof.
  apply waiting_intro; [by apply (bool_decide_unpack _)| |by apply (bool_decide_unpack _)| |done].
  - split; [done|]. exists 3%positive, (Some 2%positive). split; [done|]. split; [done|]. by exists 4%positive, None.
  - repeat constructor.
    + exists (resident_pcb 1 0). split_and!; [done|done| |by vm_compute|done]. split; [done|done|by vm_compute|].
      intros [|[|i]] l [= <-]; done.
    + exists (resident_pcb 2 3). split_and!; [done|done| |by vm_compute|done]. split; [done|done|by vm_compute|].
      intros [|i] l [= <-]; done.
Qed.

Lemma rr_runs_resident_processes_witness :
  exists k' out, scheduler_RR 18 4 show 6 1 resident_demo = Ok tt k' (map Print out) /\
    out = ["a1"; "b1"; "a2"] /\ out ≡ₚ ["a1"; "a2"; "b1"] /\ queue (rqueue k') [].
Proof.
  apply (rr_runs_resident_processes 18 4 show Print (fun _ => True) 6 1 resident_demo resident_procs).
  - intros l k _. by exists 0.
  - apply resident_demo_waiting.
  - lia.
  - repeat constructor.
  - by apply Nat.ltb_lt.
Defined.

Lemma fcfs_runs_resident_processes_witness :
  exists k', scheduler_FCFS 18 4 show 5 resident_demo = Ok tt k' (map Print ["a1"; "a2"; "b1"]) /\
    queue (rqueue k') [].
Proof.
  apply (fcfs_runs_resident_processes 18 4 show Print (fun _ => True) 5 resident_demo resident_procs).
  - intros l k _. by exists 0.
  - apply resident_demo_waiting.
  - repeat constructor.
  - by apply Nat.ltb_lt.
Defined.
End Kernel2Props.
