(* ===== verification/A2Shell.v ===== *)
(** * A2Shell: the parser and the commands of the second shell
    (a2/shell.c, a2/interpreter.c)

    parseInput calls interpreter, run and exec call the scheduler, and the
    scheduler calls parseInput for every line: [parseInput] ties the knot
    with fuel for this nesting.  The operating system is a parameter that
    works on the files as the shell names them. *)
From S2P Require Import Prelude CString VarSpec Words Console ReadyQueue FrameStore Kernel2.
From Stdlib Require Import Ascii.

Module A2Shell.
Import ReadyQueue FrameStore Kernel2.
Open Scope string_scope. Open Scope Z_scope.

Definition MAX_ARGS_SIZE : Z := 7.

(** enum Error of interpreter.h, from TOO_MANY_TOKENS on. *)
Definition TOO_MANY_TOKENS : Z := 6.
Definition TOO_FEW_TOKENS : Z := 7.
Definition BAD_COMMAND : Z := 9.
Definition ERROR_CD : Z := 10.
Definition ERROR_MKDIR : Z := 11.
Definition error_msgs : list string :=
  ["no error"; "file does not exist"; "file could not be loaded"; "no space left in shell memory";
   "ready queue is full"; "scheduling policy error"; "too many tokens"; "too few tokens";
   "non-alphanumeric token"; "unknown name"; "cd"; "mkdir"; "unknown policy"].

Definition handle_error {S} (error_code : Z) : M S Z :=
  let! msg := need (zget error_msgs error_code) in
  print ("Bad command: " +:+ msg +:+ nl) ;;
  ret error_code.

(** The array [words] of parseInput, of 100 pointers that are NULL at
    first; those of earlier commands of the line stay in it. *)
Abbreviation argv := (list (option string)).
Definition arg {S} (words : argv) (i : Z) : M S string :=
  let! p := need (zget words i) in need p.

Definition is_crlf (c : ascii) : bool := Ascii.eqb c CR || Ascii.eqb c LF.
(** What interpreter does to its arguments. *)
Definition strip (words : argv) (args_size : Z) : argv :=
  if (args_size <? 1) || (MAX_ARGS_SIZE <? args_size) then words
  else (map (fmap (cut is_crlf)) (take (Z.to_nat args_size) words) ++ drop (Z.to_nat args_size) words)%list.

(** The arguments from [i] on, with spaces between them; the array is as
    large as the result. *)
Definition join_args {S} (words : argv) (i args_size : Z) : M S string :=
  let! l := for_acc (Z.to_nat (args_size - i)) i
    (fun i acc => let! w := arg words i in ret (acc ++ [w])%list) [] in
  ret (unwords l).

Section shell.
Variables FRAME_STORE_SIZE VAR_STORE_SIZE : Z.
(** The calls of the operating system, on the files by name: system; stat
    with S_ISDIR; chdir; and, for remove_directory, the names that readdir
    gives, stat (None on failure, or whether it is a directory), unlink
    and rmdir. *)
Abbreviation host := (gmap string string).
Variables system chdir unlink rmdir : string -> host -> Z * host.
Variable is_directory : host -> string -> bool.
Variable readdir : host -> string -> option (list string).
Variable stat : host -> string -> option bool.
(** What a caller reads as the result of exec, which ends without a
    return statement when all went well. *)
Variable garbage : Z.
Variable backing_store_path : string.
(** [fuel] of the schedulers. *)
Variable lines : nat.

Definition on_host (f : host -> Z * host) : M kernel Z :=
  let! k := get in
  let '(r, h) := f (files k) in
  set_files h ;; ret r.

Definition puts (s : string) : M kernel unit := print (s +:+ nl).

(** The entries of the directory one after the other, until one cannot be
    removed; [depth] bounds the nesting of directories. *)
Fixpoint remove_directory (depth : nat) (path : string) : M kernel Z :=
  match depth with
  | O => out_of_fuel
  | Datatypes.S depth =>
      let! k := get in
      let! r :=
        (match readdir (files k) path with
         | None => ret (-1)
         | Some names =>
             (fix entries (names : list string) : M kernel Z :=
                match names with
                | [] => ret 0
                | name :: names =>
                    if streq name "." || streq name ".." then entries names else
                    let buf := path +:+ "/" +:+ name in
                    let! k := get in
                    let! r2 :=
                      (match stat (files k) buf with
                       | None => ret (-1)
                       | Some true => remove_directory depth buf
                       | Some false => on_host (unlink buf)
                       end) in
                    if r2 =? 0 then entries names else ret r2
                end) names
         end) in
      if r =? 0 then on_host (rmdir path) else ret r
  end.

(* ------------------------------------------------------------------ *)
(** ** Commands                                                        *)
(* ------------------------------------------------------------------ *)

Definition help_string : string :=
  "COMMAND" +:+ tab +:+ tab +:+ tab +:+ "DESCRIPTION" +:+ nl +:+
  " help" +:+ tab +:+ tab +:+ tab +:+ "Displays all the commands" +:+ nl +:+
  " quit" +:+ tab +:+ tab +:+ tab +:+ "Exits / terminates the shell with “Bye!”" +:+ nl +:+
  " set VAR STRING" +:+ tab +:+ tab +:+ "Assigns a value to shell memory" +:+ nl +:+
  " print VAR" +:+ tab +:+ tab +:+ "Displays the STRING assigned to VAR" +:+ nl +:+
  " run SCRIPT.TXT" +:+ tab +:+ tab +:+ "Executes the file SCRIPT.TXT" +:+ nl +:+ " ".
Definition help : M kernel Z := puts help_string ;; ret 0.

(** [depth] of the directories under the backing store. *)
Definition quit : M kernel Z :=
  puts "Bye!" ;;
  on_queue ready_queue_destroy ;;
  on_memory (free_shell_memory FRAME_STORE_SIZE VAR_STORE_SIZE) ;;
  remove_directory lines backing_store_path ;;
  exit_with 0.

Definition set_ (var value : string) : M kernel Z :=
  let! buffer := into 1000 var in
  let! buffer := into 1000 (buffer +:+ "=") in
  let! buffer := into 1000 (buffer +:+ value) in
  on_memory (mem_set_value FRAME_STORE_SIZE VAR_STORE_SIZE var value) ;;
  ret 0.

Definition print_ (var : string) : M kernel Z :=
  let! value := on_memory (mem_get_value FRAME_STORE_SIZE VAR_STORE_SIZE var) in
  puts (default nl value) ;;
  ret 0.

Definition echo (var : string) : M kernel Z :=
  match var with
  | String "$" v => print_ v ;; ret 0
  | _ => puts var ;; ret 0
  end.

Definition my_ls : M kernel Z := on_host (system "ls | sort").

Definition has_space (s : string) : bool := negb (free_of (fun c => Ascii.eqb c " ") s).
Definition my_mkdir (dirname : string) : M kernel Z :=
  let! dir :=
    (match dirname with
     | String "$" v =>
         let! value := on_memory (mem_get_value FRAME_STORE_SIZE VAR_STORE_SIZE v) in
         ret (match value with Some d => if has_space d then None else Some d | None => None end)
     | _ => ret (Some dirname)
     end) in
  match dir with
  | None => handle_error ERROR_MKDIR
  | Some dir => on_host (system ("mkdir " +:+ dir))
  end.
Definition my_touch (filename : string) : M kernel Z := on_host (system ("touch " +:+ filename)).
Definition my_cd (dirname : string) : M kernel Z :=
  let! k := get in
  if is_directory (files k) dirname then on_host (chdir dirname) else handle_error ERROR_CD.

Definition resetmem : M kernel Z :=
  on_memory (mem_init_variable FRAME_STORE_SIZE VAR_STORE_SIZE) ;; ret 0.
Definition set_page_policy (policy : string) : M kernel Z :=
  if streq policy "FIFO" then
    on_memory (set_memory_policy FIFO) ;;
    print ("Page replacement policy set to " +:+ policy +:+ nl) ;; ret 0
  else if streq policy "LRU" then
    on_memory (set_memory_policy LRU) ;;
    print ("Page replacement policy set to " +:+ policy +:+ nl) ;; ret 0
  else handle_error 12.

Section over_parse.
Variable parse : string -> M kernel Z.

(** process_initialize never returns 11. *)
Definition run (script : string) : M kernel Z :=
  let! errCode := process_initialize FRAME_STORE_SIZE script in
  if errCode =? 11 then handle_error errCode else
  schedule_by_policy FRAME_STORE_SIZE VAR_STORE_SIZE parse lines "FCFS" ;;
  ret errCode.

(** The scripts that are not NULL, in order. *)
Fixpoint exec (fnames : list string) : M kernel Z :=
  match fnames with
  | [] =>
      let! error_code := schedule_by_policy FRAME_STORE_SIZE VAR_STORE_SIZE parse lines "RR" in
      if negb (error_code =? 0) then handle_error error_code else ret garbage
  | fname :: fnames =>
      let! error_code := process_initialize FRAME_STORE_SIZE fname in
      if negb (error_code =? 0) then handle_error error_code else exec fnames
  end.

Definition interpreter (command_args : argv) (args_size : Z) : M kernel Z :=
  if args_size <? 1 then handle_error TOO_FEW_TOKENS else
  if MAX_ARGS_SIZE <? args_size then handle_error TOO_MANY_TOKENS else
  let command_args := strip command_args args_size in
  let! a0 := arg command_args 0 in
  if streq a0 "help" then
    if 1 <? args_size then handle_error TOO_MANY_TOKENS else help
  else if streq a0 "quit" || streq a0 "exit" then
    if 1 <? args_size then handle_error TOO_MANY_TOKENS else quit
  else if streq a0 "set" then
    if args_size <? 3 then handle_error TOO_FEW_TOKENS else
    let! value := join_args command_args 2 args_size in
    let! var := arg command_args 1 in
    set_ var value
  else if streq a0 "print" then
    if args_size <? 2 then handle_error TOO_FEW_TOKENS else
    if 2 <? args_size then handle_error TOO_MANY_TOKENS else
    let! a := arg command_args 1 in print_ a
  else if streq a0 "run" then
    if args_size <? 2 then handle_error TOO_FEW_TOKENS else
    if 2 <? args_size then handle_error TOO_MANY_TOKENS else
    let! a := arg command_args 1 in run a
  else if streq a0 "echo" then
    if 2 <? args_size then handle_error TOO_MANY_TOKENS else
    let! a := arg command_args 1 in echo a
  else if streq a0 "my_ls" then
    if 1 <? args_size then handle_error TOO_MANY_TOKENS else my_ls
  else if streq a0 "my_mkdir" then
    if 2 <? args_size then handle_error TOO_MANY_TOKENS else
    let! a := arg command_args 1 in my_mkdir a
  else if streq a0 "my_touch" then
    if 2 <? args_size then handle_error TOO_MANY_TOKENS else
    let! a := arg command_args 1 in my_touch a
  else if streq a0 "my_cd" then
    if 2 <? args_size then handle_error TOO_MANY_TOKENS else
    let! a := arg command_args 1 in my_cd a
  else if streq a0 "exec" then
    if args_size <=? 1 then handle_error TOO_FEW_TOKENS else
    if 5 <? args_size then handle_error TOO_MANY_TOKENS else
    if args_size =? 2 then let! a := arg command_args 1 in exec [a]
    else if args_size =? 3 then
      let! a := arg command_args 1 in let! b := arg command_args 2 in exec [a; b]
    else if args_size =? 4 then
      let! a := arg command_args 1 in let! b := arg command_args 2 in let! c := arg command_args 3 in
      exec [a; b; c]
    else handle_error BAD_COMMAND
  else if streq a0 "resetmem" then
    if negb (args_size =? 1) then handle_error TOO_MANY_TOKENS else resetmem
  else if streq a0 "pagepolicy" then
    if args_size <? 2 then handle_error TOO_FEW_TOKENS else
    if 2 <? args_size then handle_error TOO_MANY_TOKENS else
    let! a := arg command_args 1 in set_page_policy a
  else handle_error BAD_COMMAND.

(* ------------------------------------------------------------------ *)
(** ** parseInput                                                      *)
(* ------------------------------------------------------------------ *)

Definition word_end (c : ascii) : bool :=
  Ascii.eqb c ";" || Ascii.eqb c NUL || Ascii.eqb c LF || Ascii.eqb c " ".

(** [while(ui[a]==' ') a++]: the index is not bounded. *)
Definition skip_all_spaces {S} (ui : string) (a : Z) : M S Z :=
  while_ (Datatypes.S (Datatypes.S (String.length ui)))
    (fun a => let! c := read ui a in ret (if Ascii.eqb c " " then inl (a + 1) else inr a)) a.

(** The state of the loop: the index, the words, and how many of them
    belong to the command being read. *)
Record parsing := mkParsing { pos : Z; words : argv; wid : Z }.

(** One turn of the outer loop: [inr (inl r)] returns [r], [inr (inr x)]
    leaves the loop. *)
Definition parse_step (ui : string) (x : parsing) : M kernel (parsing + (Z + parsing)) :=
  let a := pos x in
  if negb (a <? 1000) || negb (a <? strlen ui) then ret (inr (inr x)) else
  let! c := read ui a in
  if Ascii.eqb c LF || Ascii.eqb c NUL then ret (inr (inr x)) else
  let! a := skip_all_spaces ui a in
  let! c := read ui a in
  if Ascii.eqb c NUL then ret (inr (inr (mkParsing a (words x) (wid x)))) else
  let! r := copy_word word_end 1000 200 ui a in
  let '(a, tmp) := r in
  if strlen tmp =? 0 then ret (inl (mkParsing a (words x) (wid x))) else
  let! ws := need (zset (words x) (wid x) (Some tmp)) in
  let w := wid x + 1 in
  let! c := read ui a in
  if Ascii.eqb c ";" then
    let! errorCode := interpreter ws w in
    if errorCode =? -1 then ret (inr (inl errorCode)) else
    let! a := skip_spaces 1000 ui (a + 1) in
    ret (inl (mkParsing a (strip ws w) 0))
  else ret (inl (mkParsing (a + 1) ws w)).

(** A turn that makes progress moves the index: [String.length] turns and
    one are enough for those. *)
Definition parse_line (turns : nat) (ui : string) : M kernel Z :=
  let! a := skip_spaces 1000 ui 0 in
  let! r := while_ turns (parse_step ui) (mkParsing a (replicate 100 None) 0) in
  match r with
  | inl errorCode => ret errorCode
  | inr x => interpreter (words x) (wid x)
  end.
End over_parse.

Fixpoint parseInput (fuel : nat) (ui : string) : M kernel Z :=
  match fuel with
  | O => out_of_fuel
  | Datatypes.S f => parse_line (parseInput f) (Datatypes.S (Datatypes.S (String.length ui))) ui
  end.

(** [turns] of the loop of main; an empty line is not executed. *)
Definition main_loop (fuel turns : nat) (c : Console.console) : M kernel Console.console :=
  Console.shell_loop (fun ui => if 0 <? strlen ui then parseInput fuel ui else ret 0) turns c.
(** main, once the directory of the backing store is made. *)
Definition start (fuel turns : nat) (c : Console.console) : M kernel Console.console :=
  puts ("Shell v2.0" +:+ nl) ;;
  print ("Frame Store Size = " +:+ pretty FRAME_STORE_SIZE +:+ "; Variable Store Size = " +:+
         pretty VAR_STORE_SIZE +:+ nl) ;;
  on_memory (mem_init FRAME_STORE_SIZE VAR_STORE_SIZE) ;;
  main_loop fuel turns c.
End shell.

Section main.
Variables FRAME_STORE_SIZE VAR_STORE_SIZE : Z.
Abbreviation host := (gmap string string).
Variables system chdir unlink rmdir : string -> host -> Z * host.
Variable is_directory : host -> string -> bool.
Variable readdir : host -> string -> option (list string).
Variable stat : host -> string -> option bool.
Variable garbage : Z.
Variable lines : nat.
(** mkdir(., 0700) and realpath ([None] on failure). *)
Variable mkdir : string -> host -> Z * host.
Variable realpath : string -> host -> option string.

(** perror prints what the operating system says. The directory can be
    opened when it has a path. *)
Definition main (fuel turns : nat) (c : Console.console) : M kernel Console.console :=
  on_host (system "rm -rf ./backing_store") ;;
  on_host (mkdir "./backing_store/") ;;
  let! k := get in
  match realpath "./backing_store/" (files k) with
  | None => print "realpath" ;; exit_with 1
  | Some backing_store_path =>
      put (mkKernel (rqueue k) (memory k) (active k) (in_background k) (files k) true) ;;
      start FRAME_STORE_SIZE VAR_STORE_SIZE system chdir unlink rmdir is_directory readdir stat garbage backing_store_path
        lines fuel turns c
  end.
End main.
End A2Shell.
