(* ===== verification/A2ShellProps.v ===== *)
(** * A2ShellProps: lines of commands, and scripts run by the scheduler

    What parseInput of A2Shell.v does with a line of commands: it executes
    them one after the other, and hangs on a semicolon without a command
    of its own. *)
From S2P Require Import Prelude CString VarSpec Words ReadyQueue FrameStore Kernel2 Kernel2Props A2Shell.
From Stdlib Require Import Ascii.

Module A2ShellProps.
Import VarSpec ReadyQueue FrameStore Kernel2 Kernel2Props A2Shell.
Open Scope string_scope. Open Scope Z_scope.

(** A word that the parser keeps whole. *)
Definition plain (w : string) : Prop :=
  w <> EmptyString /\ free_of word_end w = true /\ strlen w < 200.

(** The array of arguments after the words [c] were stored in it. *)
Definition overlay (c : list string) (ws : argv) : argv := (map Some c ++ drop (length c) ws)%list.

Lemma zset_overlay c w ws :
  (length c < length ws)%nat -> zset (overlay c ws) (zlen c) (Some w) = Some (overlay (c ++ [w]) ws).
Proof.
  intros Hl. destruct (lookup_lt_is_Some_2 ws (length c)) as [y Hy]; [done|].
  unfold overlay. rewrite (drop_S _ _ _ Hy), map_app, length_app, <- app_assoc. simpl.
  rewrite zset_Some by (rewrite zlen_app, length_map; simpl; lia). f_equal.
  rewrite Nat2Z.id. rewrite insert_app_r_alt by (rewrite length_map; lia). rewrite length_map, Nat.sub_diag. simpl.
  replace (length c + 1)%nat with (S (length c)) by lia. done.
Qed.
Lemma length_overlay c ws : (length c <= length ws)%nat -> length (overlay c ws) = length ws.
Proof. intros H. unfold overlay. rewrite length_app, length_map, length_drop. lia. Qed.

(** A line of commands, separated by a semicolon and [n] spaces. *)
Fixpoint command_line (n : nat) (cs : list (list string)) : string :=
  match cs with
  | [] => EmptyString
  | [c] => unwords c +:+ nl
  | c :: cs => unwords c +:+ String ";" (spaces n +:+ command_line n cs)
  end.

Section parser.
Variables fs vs : Z.
Variables system chdir unlink rmdir : string -> gmap string string -> Z * gmap string string.
Variable is_directory : gmap string string -> string -> bool.
Variable readdir : gmap string string -> string -> option (list string).
Variable stat : gmap string string -> string -> option bool.
Variables (garbage : Z) (path : string) (lines : nat).
Variable parse : string -> M kernel Z.
Abbreviation interpreter' :=
  (interpreter fs vs system chdir unlink rmdir is_directory readdir stat garbage path lines parse).
Abbreviation parse_step' :=
  (parse_step fs vs system chdir unlink rmdir is_directory readdir stat garbage path lines parse).
Abbreviation parse_line' :=
  (parse_line fs vs system chdir unlink rmdir is_directory readdir stat garbage path lines parse).

(* ------------------------------------------------------------------ *)
(** ** One word                                                        *)
(* ------------------------------------------------------------------ *)

(** What follows a word: a separator [d] and the rest. *)
Definition after_word (ui : string) (x : parsing) (w : string) (d : ascii) : M kernel (parsing + (Z + parsing)) :=
  let! ws := need (zset (words x) (wid x) (Some w)) in
  let a := pos x + strlen w in
  if Ascii.eqb d ";" then
    let! errorCode := interpreter' ws (wid x + 1) in
    if errorCode =? -1 then ret (inr (inl errorCode)) else
    let! a := skip_spaces 1000 ui (a + 1) in
    ret (inl (mkParsing a (strip ws (wid x + 1)) 0))
  else ret (inl (mkParsing (a + 1) ws (wid x + 1))).

Lemma parse_step_word ui p w d r x k :
  ui = (p +:+ (w +:+ String d r)) -> plain w -> word_end d = true -> Ascii.eqb d NUL = false ->
  strlen ui < 1000 -> pos x = strlen p -> parse_step' ui x k = after_word ui x w d k.
Proof.
  intros Eui (Hw & Hfree & Hlen) Hd Hd0 Hui Hpos. pose proof (strlen_nonneg p). pose proof (strlen_nonneg r).
  assert (strlen ui = strlen p + strlen w + 1 + strlen r) as El.
  { rewrite Eui, !strlen_app. unfold strlen. simpl. lia. }
  destruct w as [|c w]; [done|]. set (v := String c w) in *.
  assert (0 < strlen v) as Hv by (unfold v, strlen; simpl; lia).
  assert (word_end c = false) as Hc by (simpl in Hfree; by apply andb_true_iff in Hfree as [?%negb_true_iff _]).
  unfold word_end in Hc. rewrite !orb_false_iff in Hc. destruct Hc as [[[Hc1 Hc2] Hc3] Hc4].
  assert (read ui (pos x) k = Ok c k []) as Hread.
  { apply silent_Ok. by eapply (read_at _ p c (w +:+ String d r)). }
  unfold parse_step. rewrite Hpos in *. cbv zeta. rewrite !(proj2 (Z.ltb_lt _ _)) by lia. cbn [negb orb]. cbv iota.
  rewrite (bind_Ok_nil _ _ _ _ _ Hread), Hc2, Hc3. cbn [orb]. cbv iota.
  assert (skip_all_spaces ui (strlen p) k = Ok (strlen p) k []) as Hskip.
  { unfold skip_all_spaces. apply while_exit. by rewrite (bind_Ok_nil _ _ _ _ _ Hread), Hc4. }
  rewrite (bind_Ok_nil _ _ _ _ _ Hskip), (bind_Ok_nil _ _ _ _ _ Hread), Hc2.
  assert (copy_word word_end 1000 200 ui (strlen p) k = Ok (strlen p + strlen v, v) k []) as Hcopy.
  { apply silent_Ok. eapply (copy_word_wp word_end 1000 200 p v (String d r)); try done; [|lia].
    exists d. split; [done|]. right. by exists r. }
  rewrite (bind_Ok_nil _ _ _ _ _ Hcopy), (proj2 (Z.eqb_neq _ _)) by lia. unfold after_word. rewrite Hpos.
  destruct (zset (words x) (wid x) (Some v)) as [ws|]; [|done]. cbn [need]. rewrite !bind_ret.
  assert (read ui (strlen p + strlen v) k = Ok d k []) as Hread2.
  { apply silent_Ok. eapply (read_at _ (p +:+ v) d r); [by rewrite Eui, app_assoc_s|by rewrite strlen_app|done]. }
  by rewrite (bind_Ok_nil _ _ _ _ _ Hread2).
Qed.

(** All words of a command but the last, with the spaces behind them. *)
Lemma parse_step_words c1 c2 ui p r ws f k :
  ui = (p +:+ (foldr (fun w t => w +:+ String " " t) r c2)) -> Forall plain c2 -> strlen ui < 1000 ->
  (length (c1 ++ c2) < length ws)%nat ->
  while_ (length c2 + f) (parse_step' ui) (mkParsing (strlen p) (overlay c1 ws) (zlen c1)) k =
  while_ f (parse_step' ui) (mkParsing (strlen ui - strlen r) (overlay (c1 ++ c2) ws) (zlen (c1 ++ c2))) k.
Proof.
  revert c1 p. induction c2 as [|w c2 IH]; intros c1 p Eui Hp Hlen Hws.
  { simpl. rewrite app_nil_r. do 2 f_equal. simpl in Eui. rewrite Eui, strlen_app. f_equal. lia. }
  apply Forall_cons in Hp as [Hw Hp]. rewrite length_app in Hws. simpl in Hws. simpl plus.
  rewrite (while_turn _ _ _ _ (mkParsing (strlen p + strlen w + 1) (overlay (c1 ++ [w]) ws) (zlen (c1 ++ [w]))) k).
  - rewrite (app_assoc c1 [w] c2 : (c1 ++ w :: c2 = (c1 ++ [w]) ++ c2)%list).
    replace (strlen p + strlen w + 1) with (strlen (p +:+ (w +:+ String " " EmptyString)))
      by (rewrite !strlen_app; unfold strlen; simpl; lia).
    apply IH; [|done|done|rewrite !length_app; simpl; lia]. rewrite Eui. simpl. by rewrite !app_assoc_s.
  - rewrite (parse_step_word ui p w " " (foldr (fun w t => w +:+ String " " t) r c2)); [|done..].
    unfold after_word. simpl. rewrite zset_overlay by lia. cbn [need]. rewrite bind_ret.
    unfold ret. do 3 f_equal. rewrite length_app. simpl. lia.
Qed.
(* ------------------------------------------------------------------ *)
(** ** Lines of commands                                               *)
(* ------------------------------------------------------------------ *)

Lemma unwords_last c w :
  unwords (c ++ [w]) = foldr (fun w t => w +:+ String " " t) w c.
Proof.
  induction c as [|v c IH]; [done|]. simpl. rewrite <- IH. by destruct c.
Qed.
Lemma unwords_last_app c w r :
  (unwords (c ++ [w]) +:+ r) = foldr (fun w t => w +:+ String " " t) (w +:+ r) c.
Proof.
  rewrite unwords_last. induction c as [|v c IH]; [done|]. simpl. rewrite app_assoc_s. f_equal.
  change (String " " ?x +:+ r) with (String " " (x +:+ r)). by rewrite IH.
Qed.

(** The commands one after the other: each is given the words of those
    before it beyond its own, and -1 ends the line. *)
Fixpoint run_commands (cs : list (list string)) (ws : argv) : M kernel Z :=
  match cs with
  | [] => interpreter' ws 0
  | [c] => interpreter' (overlay c ws) (zlen c)
  | c :: cs =>
      let! errorCode := interpreter' (overlay c ws) (zlen c) in
      if errorCode =? -1 then ret errorCode else run_commands cs (strip (overlay c ws) (zlen c))
  end.

Definition finish (r : Z + parsing) : M kernel Z :=
  match r with
  | inl errorCode => ret errorCode
  | inr x => interpreter' (words x) (wid x)
  end.
(** The last command: nothing follows its newline. *)
Lemma parse_last c p ui ws f k :
  ui = (p +:+ (unwords c +:+ nl)) -> c <> [] -> Forall plain c -> strlen ui < 1000 -> (length c < length ws)%nat ->
  (let! r := while_ (length c + S f) (parse_step' ui) (mkParsing (strlen p) ws 0) in finish r) k
  = interpreter' (overlay c ws) (zlen c) k.
Proof.
  intros Eui Hne Hp Hlen Hws. destruct (exists_last Hne) as (c' & w & ->).
  rewrite unwords_last_app in Eui. apply Forall_app in Hp as [Hp [Hw _]%Forall_cons].
  rewrite length_app in Hws. simpl in Hws.
  assert (strlen ui = strlen ui - strlen (w +:+ nl) + strlen w + 1) as El
    by (rewrite strlen_app; change (strlen nl) with 1; lia).
  assert (exists q, ui = (q +:+ (w +:+ nl))) as [q Eq].
  { rewrite Eui. clear. revert p. induction c' as [|v c IH]; intros p; [by exists p|]. simpl.
    destruct (IH (p +:+ (v +:+ String " " EmptyString))) as [q Eq]. exists q. rewrite <- Eq.
    by rewrite !app_assoc_s. }
  assert (strlen ui - strlen (w +:+ nl) = strlen q) as Eqq by (rewrite Eq at 1; rewrite strlen_app; lia).
  match goal with |- bind ?m _ k = _ => assert (m k = Ok (inr (mkParsing (strlen ui) (overlay (c' ++ [w]) ws)
    (zlen (c' ++ [w])))) k []) as Hloop end.
  { replace (length (c' ++ [w]) + S f)%nat with (length c' + S (S f))%nat by (rewrite length_app; simpl; lia).
    etransitivity; [apply (parse_step_words [] c' ui p (w +:+ nl)); [done..|simpl; lia]|]. rewrite Eqq. simpl app.
    rewrite (while_turn _ _ _ _ (mkParsing (strlen ui) (overlay (c' ++ [w]) ws) (zlen (c' ++ [w]))) k).
    - apply while_exit. unfold parse_step. cbv zeta. simpl pos. rewrite Z.ltb_irrefl.
      cbn [negb]. by rewrite orb_true_r.
    - rewrite (parse_step_word ui q w LF EmptyString); [|try done..|simpl; lia]. unfold after_word. simpl.
      rewrite zset_overlay by lia. cbn [need]. rewrite bind_ret. unfold ret. do 3 f_equal.
      + lia.
      + rewrite zlen_app. done. }
  rewrite (bind_Ok_nil _ _ _ _ _ Hloop). done.
Qed.

(** A command that a semicolon ends: the interpreter runs it, then the
    rest of the line is parsed. *)
Lemma parse_command c p n d r ui ws f k :
  ui = (p +:+ (unwords c +:+ String ";" (spaces n +:+ String d r))) -> Ascii.eqb d " " = false ->
  c <> [] -> Forall plain c -> strlen ui < 1000 -> (length c < length ws)%nat ->
  (let! r := while_ (length c + f) (parse_step' ui) (mkParsing (strlen p) ws 0) in finish r) k
  = (let! errorCode := interpreter' (overlay c ws) (zlen c) in
     if errorCode =? -1 then ret errorCode else
     let! r := while_ f (parse_step' ui)
       (mkParsing (strlen p + strlen (unwords c) + 1 + Z.of_nat n) (strip (overlay c ws) (zlen c)) 0) in
     finish r) k.
Proof.
  intros Eui Hd Hne Hp Hlen Hws. destruct (exists_last Hne) as (c' & w & ->).
  set (t := String ";" (spaces n +:+ String d r)) in *.
  pose proof Eui as Eui2. rewrite unwords_last_app in Eui. apply Forall_app in Hp as [Hp [Hw _]%Forall_cons].
  rewrite length_app in Hws. simpl in Hws.
  assert (exists q, ui = (q +:+ (w +:+ t)) /\ strlen q = strlen p + strlen (unwords (c' ++ [w])) - strlen w) as (q & Eq & Elq).
  { assert (strlen ui = strlen p + strlen (unwords (c' ++ [w])) + strlen t) as Hl by (rewrite Eui2, !strlen_app; lia).
    assert (exists q, ui = (q +:+ (w +:+ t))) as [q Eq].
    { rewrite Eui. clear. revert p. induction c' as [|v c IH]; intros p; [by exists p|]. simpl.
      destruct (IH (p +:+ (v +:+ String " " EmptyString))) as [q Eq]. exists q. rewrite <- Eq.
      by rewrite !app_assoc_s. }
    exists q. split; [done|]. rewrite Eq, !strlen_app in Hl. lia. }
  replace (length (c' ++ [w]) + f)%nat with (length c' + S f)%nat by (rewrite length_app; simpl; lia).
  etransitivity.
  { apply bind_cong; [apply (parse_step_words [] c' ui p (w +:+ t)); [done..|simpl; lia]|]. done. }
  simpl app. replace (strlen ui - strlen (w +:+ t)) with (strlen q) by (rewrite Eq, strlen_app; lia).
  cbn [while_]. rewrite bind_assoc. etransitivity.
  { apply bind_cong; [apply (parse_step_word ui q w ";" (spaces n +:+ String d r)); done|]. done. }
  unfold after_word. simpl words. simpl wid. rewrite zset_overlay by lia. cbn [need].
  assert (zlen c' + 1 = zlen (c' ++ [w])) as -> by by rewrite zlen_app.
  rewrite bind_assoc, bind_ret. simpl pos. change (Ascii.eqb ";" ";") with true. cbv iota zeta.
  rewrite bind_assoc. apply bind_cong; [done|]. intros e k'. destruct (e =? -1); [done|].
  assert (skip_spaces 1000 ui (strlen q + strlen w + 1) k' = Ok (strlen q + strlen w + 1 + Z.of_nat n) k' []) as Hs.
  { replace (strlen q + strlen w + 1) with (strlen (q +:+ (w +:+ String ";" EmptyString)))
      by (rewrite !strlen_app; unfold strlen; simpl; lia).
    apply (skip_spaces_Ok n _ (String d r)); [|by apply not_space|done]. rewrite Eq. unfold t. by rewrite !app_assoc_s. }
  rewrite bind_assoc, (bind_Ok_nil _ _ _ _ _ Hs), bind_ret. rewrite Elq. do 3 f_equal. f_equal. lia.
Qed.
Lemma length_strip ws n : length (strip ws n) = length ws.
Proof.
  unfold strip. destruct (_ || _); [done|]. rewrite length_app, length_map, length_take, length_drop. lia.
Qed.

(** A command as the parser takes it. *)
Definition command (c : list string) : Prop := c <> [] /\ Forall plain c /\ (length c < 100)%nat.

Lemma unwords_head c r : command c -> exists d t, (unwords c +:+ r) = String d t /\ Ascii.eqb d " " = false.
Proof.
  intros (Hne & Hp & _). destruct c as [|w c]; [done|]. apply Forall_cons in Hp as [(Hw & Hf & _) _].
  destruct w as [|d w]; [done|]. exists d. simpl in Hf. apply andb_true_iff in Hf as [Hd%negb_true_iff _].
  unfold word_end in Hd. rewrite !orb_false_iff in Hd. destruct Hd as [_ Hd].
  destruct c; eexists; (split; [done|exact Hd]).
Qed.

Lemma parse_commands n cs p ui ws f k :
  ui = (p +:+ command_line n cs) -> cs <> [] -> Forall command cs -> strlen ui < 1000 ->
  length ws = 100%nat -> (length (concat cs) < f)%nat ->
  (let! r := while_ f (parse_step' ui) (mkParsing (strlen p) ws 0) in finish r) k = run_commands cs ws k.
Proof.
  revert p ws f k. induction cs as [|c cs IH]; intros p ws f k Eui Hne Hc Hlen Hws Hf; [done|].
  apply Forall_cons in Hc as [Hc Hcs]. pose proof Hc as (Hc1 & Hc2 & Hc3).
  simpl concat in Hf. rewrite length_app in Hf. destruct cs as [|c2 cs].
  { replace f with (length c + S (f - length c - 1))%nat by (simpl in Hf; lia). apply (parse_last c p); [done..|lia]. }
  replace f with (length c + (f - length c))%nat by lia.
  destruct (unwords_head c2 (match cs with [] => nl | _ => String ";" (spaces n +:+ command_line n cs) end))
    as (d & t & Et & Hd); [by apply Forall_cons in Hcs as [? _]|].
  assert (command_line n (c2 :: cs) = String d t) as Ed by (rewrite <- Et; by destruct cs).
  change (command_line n (c :: c2 :: cs))
    with (unwords c +:+ String ";" (spaces n +:+ command_line n (c2 :: cs))) in Eui.
  rewrite (parse_command c p n d t); [|by rewrite <- Ed|done|done|done|done|lia].
  apply bind_cong; [done|]. intros e k'. destruct (e =? -1); [done|].
  replace (strlen p + strlen (unwords c) + 1 + Z.of_nat n)
    with (strlen (p +:+ (unwords c +:+ String ";" (spaces n)))).
  - apply IH; [|done|done|done| |lia].
    + rewrite Eui, !app_assoc_s. done.
    + rewrite length_strip, length_overlay; [done|lia].
  - rewrite !strlen_app. unfold strlen at 3. simpl. rewrite length_spaces. lia.
Qed.

Lemma concat_line n cs : Forall command cs -> (length (concat cs) <= String.length (command_line n cs))%nat.
Proof.
  assert (forall c, Forall plain c -> Z.of_nat (length c) <= strlen (unwords c)) as H.
  { induction 1 as [|w c (Hw & _) Hp IH]; [done|].
    assert (0 < strlen w) by (destruct w; [done|]; unfold strlen; simpl; lia).
    destruct c as [|v c]; [simpl; lia|].
    change (unwords (w :: v :: c)) with (w +:+ String " " (unwords (v :: c))). rewrite strlen_app.
    assert (strlen (String " " (unwords (v :: c))) = 1 + strlen (unwords (v :: c))) as ->
      by (unfold strlen; simpl; lia). simpl length in *. lia. }
  intros Hc. apply Nat2Z.inj_le. change (Z.of_nat (String.length ?s)) with (strlen s).
  induction Hc as [|c cs (_ & Hp & _) Hc IH]; [done|]. specialize (H c Hp). simpl concat. rewrite length_app.
  destruct cs as [|c2 cs].
  { simpl. rewrite strlen_app. change (strlen nl) with 1. lia. }
  change (command_line n (c :: c2 :: cs))
    with (unwords c +:+ (String ";" (spaces n) +:+ command_line n (c2 :: cs))).
  rewrite !strlen_app. pose proof (strlen_nonneg (String ";" (spaces n))). lia.
Qed.
Lemma parse_line_commands m n cs k :
  cs <> [] -> Forall command cs -> strlen (spaces m +:+ command_line n cs) < 1000 ->
  parse_line fs vs system chdir unlink rmdir is_directory readdir stat garbage path lines parse
    (S (S (String.length (spaces m +:+ command_line n cs)))) (spaces m +:+ command_line n cs) k
  = run_commands cs (replicate 100 None) k.
Proof.
  intros Hne Hc Hlen. unfold parse_line.
  assert (exists d t, command_line n cs = String d t /\ Ascii.eqb d " " = false) as (d & t & Ed & Hd).
  { destruct cs as [|c cs]; [done|]. apply Forall_cons in Hc as [Hc _].
    destruct cs; by apply unwords_head. }
  assert (skip_spaces 1000 (spaces m +:+ command_line n cs) 0 k = Ok (Z.of_nat m) k []) as Hs
    by (apply (skip_spaces_Ok m EmptyString (String d t)); [by rewrite Ed|by apply not_space|done]).
  rewrite (bind_Ok_nil _ _ _ _ _ Hs).
  assert (Z.of_nat m = strlen (spaces m)) as -> by (unfold strlen; by rewrite length_spaces).
  apply (parse_commands n cs); [done..|]. pose proof (concat_line n cs Hc).
  pose proof (strlen_app (spaces m) (command_line n cs)) as E. unfold strlen in E. lia.
Qed.

(* ------------------------------------------------------------------ *)
(** ** A semicolon of its own                                          *)
(* ------------------------------------------------------------------ *)

Lemma while_less {X R} a b (body : X -> M kernel (X + R)) x s :
  while_ (a + b) body x s = NoFuel -> while_ a body x s = NoFuel.
Proof.
  revert x s. induction a as [|a IH]; intros x s; [done|]. cbn [while_ Nat.add]. unfold bind.
  destruct (body x s) as [[x'|y] s' tr| | |]; try done. specialize (IH x' s').
  destruct (while_ (a + b) body x' s'); [done..|]. by rewrite IH.
Qed.

Lemma parse_step_stays ui p r x k :
  ui = (p +:+ String ";" r) -> pos x = strlen p -> strlen ui < 1000 -> parse_step' ui x k = Ok (inl x) k [].
Proof.
  intros Eui Hpos Hlen. assert (strlen ui = strlen p + 1 + strlen r) as El.
  { rewrite Eui, strlen_app. unfold strlen. simpl. lia. }
  pose proof (strlen_nonneg p). pose proof (strlen_nonneg r).
  assert (read ui (strlen p) k = Ok ";"%char k []) as Hread by (apply silent_Ok; by eapply (read_at _ p ";" r)).
  unfold parse_step. rewrite Hpos in *. cbv zeta. rewrite !(proj2 (Z.ltb_lt _ _)) by lia.
  cbn [negb orb]. cbv iota. rewrite (bind_Ok_nil _ _ _ _ _ Hread). simpl.
  assert (skip_all_spaces ui (strlen p) k = Ok (strlen p) k []) as Hskip.
  { unfold skip_all_spaces. apply while_exit. by rewrite (bind_Ok_nil _ _ _ _ _ Hread). }
  rewrite (bind_Ok_nil _ _ _ _ _ Hskip), (bind_Ok_nil _ _ _ _ _ Hread). simpl.
  assert (copy_word word_end 1000 200 ui (strlen p) k = Ok (strlen p, EmptyString) k []) as Hcopy.
  { apply silent_Ok. eapply (copy_word_wp word_end 1000 200 p EmptyString (String ";" r)); try done; [|change (strlen EmptyString) with 0; lia|].
    - exists ";"%char. split; [done|]. right. by exists r.
    - split; [|done]. f_equal. apply Z.add_0_r. }
  rewrite (bind_Ok_nil _ _ _ _ _ Hcopy). simpl. rewrite <- Hpos. by destruct x.
Qed.
End parser.

(* ------------------------------------------------------------------ *)
(** ** Theorems                                                        *)
(* ------------------------------------------------------------------ *)

(* ------------------------------------------------------------------ *)
(** ** Commands                                                        *)
(* ------------------------------------------------------------------ *)

Definition no_crlf (w : string) : Prop := free_of is_crlf w = true.

Lemma strip_overlay c ws : Forall no_crlf c -> strip (overlay c ws) (zlen c) = overlay c ws.
Proof.
  intros Hc. unfold strip, overlay. destruct (_ || _); [done|]. rewrite Nat2Z.id.
  rewrite take_app_le, drop_app_ge by (rewrite length_map; lia).
  rewrite take_ge by (rewrite length_map; lia). rewrite length_map, Nat.sub_diag. f_equal.
  induction Hc as [|w c Hw Hc IH]; [done|]. simpl. by rewrite cut_id, IH.
Qed.

Lemma arg_overlay c ws i w (k : kernel) :
  c !! i = Some w -> arg (overlay c ws) (Z.of_nat i) k = Ok w k [].
Proof.
  intros Hi. unfold arg, overlay. pose proof (lookup_lt_Some _ _ _ Hi).
  rewrite zget_lookup, Nat2Z.id, lookup_app_l by (rewrite ?length_map; lia).
  rewrite list_lookup_fmap, Hi. simpl. by rewrite !bind_ret.
Qed.

Lemma a2_on_memory_Ok {A} (m : M store A) k (Q : A -> store -> Prop) :
  wp m Q (memory k) ->
  exists a t, on_memory m k
    = Ok a (mkKernel (rqueue k) t (active k) (in_background k) (files k) (backing_dir k)) [] /\ Q a t.
Proof.
  intros (a & t & E & HQ)%wp_Ok. exists a, t. split; [|done]. unfold on_memory, zoom. by rewrite E.
Qed.

Lemma turns_map q (g : string -> string) wss : turns q (map (map g) wss) = turns q wss.
Proof. unfold turns. induction wss as [|ws wss IH]; [done|]. simpl. by rewrite IH, length_map. Qed.
Lemma round_robin_map n q (g : string -> string) : forall wss,
  round_robin n q (map (map g) wss) = map g (round_robin n q wss).
Proof.
  induction n as [|n IH]; intros wss; [done|]. destruct wss as [|ws wss]; [done|].
  cbn [map round_robin]. rewrite map_app, <- firstn_map, length_map. f_equal.
  rewrite <- IH. f_equal. destruct (_ <? _)%nat; [done|]. rewrite map_app. simpl. by rewrite skipn_map.
Qed.

Ltac next_arg c ws i w k :=
  let H := fresh in
  assert (arg (overlay c ws) i k = Ok w k []) as H by exact (arg_overlay c ws (Z.to_nat i) w k eq_refl);
  rewrite (bind_Ok_nil _ _ _ _ _ H); clear H.
(** The dispatch on a command whose words are literals or variables without
    CR and LF. *)
Ltac run_command c ws k :=
  unfold interpreter; rewrite (strip_overlay c) by (repeat (constructor; [done|]); done);
  let n := eval vm_compute in (zlen c) in change (zlen c) with n;
  repeat match goal with |- context [?a <? ?b] =>
    let v := eval vm_compute in (a <? b) in
    match v with true => idtac | false => idtac end; change (a <? b) with v
  end; cbv iota;
  match c with ?w :: _ => next_arg c ws 0 w k end; decide_words; cbn [orb negb]; cbv iota.

Section theorems.
Variables fs vs : Z.
Variables system chdir unlink rmdir : string -> gmap string string -> Z * gmap string string.
Variable is_directory : gmap string string -> string -> bool.
Variable readdir : gmap string string -> string -> option (list string).
Variable stat : gmap string string -> string -> option bool.
Variables (garbage : Z) (path : string) (lines : nat).
Abbreviation parseInput' :=
  (parseInput fs vs system chdir unlink rmdir is_directory readdir stat garbage path lines).
Abbreviation interpreter' :=
  (interpreter fs vs system chdir unlink rmdir is_directory readdir stat garbage path lines).
Abbreviation parse_line' :=
  (parse_line fs vs system chdir unlink rmdir is_directory readdir stat garbage path lines).
Abbreviation run_commands' :=
  (run_commands fs vs system chdir unlink rmdir is_directory readdir stat garbage path lines).

(** C13: parseInput executes a line "c1; c2; ...; cn" as the commands c1,
    ..., cn one after the other, each with exactly its own words, and
    stops at the first that returns -1; a command is a list of 1 to 99
    words of fewer than 200 characters, and the line has fewer than 1000.
    What the array of words holds beyond those
    of a command is what earlier commands of the line left there. *)
Theorem a2_command_sequence f m n cs k :
  cs <> [] -> Forall command cs -> strlen (spaces m +:+ command_line n cs) < 1000 ->
  parseInput' (S f) (spaces m +:+ command_line n cs) k
  = run_commands' (parseInput' f) cs (replicate 100 None) k.
Proof. intros H1 H2 H3. cbn [parseInput]. by apply parse_line_commands. Qed.

(** ParseInput hangs on a semicolon that does not directly follow a
    word, as in "print x ; print y" or " ;": at the semicolon, the
    word is empty and the loop goes on without moving the index, so no
    number of turns is enough, whatever follows. *)
Theorem a2_lone_semicolon_hangs parse turns c m rest k :
  Forall plain c -> (length c < 100)%nat ->
  strlen (spaces m +:+ foldr (fun w t => w +:+ String " " t) (String ";" rest) c) < 1000 ->
  parse_line' parse turns (spaces m +:+ foldr (fun w t => w +:+ String " " t) (String ";" rest) c) k = NoFuel.
Proof.
  intros Hp Hc Hlen. set (ui := (spaces m +:+ _)) in *. unfold parse_line.
  assert (exists d t, foldr (fun w t => w +:+ String " " t) (String ";" rest) c = String d t /\
    Ascii.eqb d " " = false) as (d & t & Ed & Hd).
  { destruct c as [|w c]; [by exists ";"%char, rest|]. apply Forall_cons in Hp as [Hw _].
    destruct (unwords_head [w] (String " " (foldr (fun w t => w +:+ String " " t) (String ";" rest) c)))
      as (d & t & E & Hd); [split; [done|split; [by constructor|simpl; lia]]|]. by exists d, t. }
  assert (skip_spaces 1000 ui 0 k = Ok (Z.of_nat m) k []) as Hs
    by (apply (skip_spaces_Ok m EmptyString (String d t)); [unfold ui; by rewrite Ed|by apply not_space|done]).
  rewrite (bind_Ok_nil _ _ _ _ _ Hs).
  assert (Z.of_nat m = strlen (spaces m)) as -> by (unfold strlen; by rewrite length_spaces).
  unfold bind. rewrite (while_less turns (length c)); [done|]. rewrite Nat.add_comm.
  etransitivity; [apply (parse_step_words _ _ _ _ _ _ _ _ _ _ _ _ _ [] c ui (spaces m) (String ";" rest)); try done|].
  assert (exists q, ui = (q +:+ String ";" rest)) as [q Eq].
  { unfold ui. generalize (spaces m). clear. induction c as [|v c IH]; intros p; [by exists p|]. simpl.
    destruct (IH (p +:+ (v +:+ String " " EmptyString))) as [q Eq]. exists q. rewrite <- Eq.
    by rewrite !app_assoc_s. }
  apply while_hangs. eapply (parse_step_stays _ _ _ _ _ _ _ _ _ _ _ _ _ ui q rest); [done| |done].
  simpl pos. rewrite Eq, strlen_app. lia.
Qed.
Lemma a2_interpreter_set parse x v ws k l :
  vars_are fs vs (memory k) l -> no_crlf x -> no_crlf v -> strlen x < 200 -> strlen v < 200 ->
  exists k', interpreter' parse (overlay ["set"; x; v] ws) (zlen ["set"; x; v]) k = Ok 0 k' [] /\
    vars_are fs vs (memory k') (vset l x v) /\ rqueue k' = rqueue k /\ files k' = files k.
Proof.
  intros Hl Hx Hv Hx2 Hv2. run_command ["set"; x; v] ws k.
  assert (join_args (overlay ["set"; x; v] ws) 2 3 k = Ok v k []) as Hj.
  { unfold join_args. change (Z.to_nat (3 - 2)) with 1%nat. cbn [for_acc]. rewrite !bind_assoc.
    next_arg ["set"; x; v] ws 2 v k. done. }
  rewrite (bind_Ok_nil _ _ _ _ _ Hj). next_arg ["set"; x; v] ws 1 x k.
  unfold set_, into. pose proof (strlen_nonneg x).
  do 3 (match goal with |- context [strlen ?e <? 1000] =>
    rewrite (proj2 (Z.ltb_lt (strlen e) 1000))
      by (rewrite ?strlen_app; change (strlen "=") with 1; lia) end; cbn [need]; rewrite bind_ret).
  assert (wp (mem_set_value fs vs x v) (fun _ t => vars_are fs vs t (vset l x v)) (memory k)) as Hs
    by by eapply mem_set_value_wp.
  apply a2_on_memory_Ok in Hs as ([] & t & E & Ht). rewrite (bind_Ok_nil _ _ _ _ _ E).
  eexists. by split_and!.
Qed.

Lemma a2_interpreter_print parse x ws k l :
  vars_are fs vs (memory k) l -> no_crlf x ->
  exists k', interpreter' parse (overlay ["print"; x] ws) (zlen ["print"; x]) k
      = Ok 0 k' [Print (default nl (vget l x) +:+ nl)] /\
    vars_are fs vs (memory k') l /\ rqueue k' = rqueue k /\ files k' = files k.
Proof.
  intros Hl Hx. run_command ["print"; x] ws k. next_arg ["print"; x] ws 1 x k. unfold print_.
  assert (wp (mem_get_value fs vs x) (fun r t => r = vget l x /\ vars_are fs vs t l) (memory k)) as Hg
    by by eapply mem_get_value_wp.
  apply a2_on_memory_Ok in Hg as (r & t & E & -> & Ht). rewrite (bind_Ok_nil _ _ _ _ _ E).
  eexists. by split_and!.
Qed.

Lemma interpreter_echo parse w ws k :
  no_crlf w -> (forall v, w <> String "$" v) ->
  interpreter' parse (overlay ["echo"; w] ws) (zlen ["echo"; w]) k = Ok 0 k [Print (w +:+ nl)].
Proof.
  intros Hw Hd. run_command ["echo"; w] ws k. next_arg ["echo"; w] ws 1 w k. unfold echo.
  assert (puts w k = Ok tt k [Print (w +:+ nl)]) as Hp by done.
  destruct w as [|c w]; [done|]. destruct (Ascii.eqb c "$") eqn:Ec.
  { apply Ascii.eqb_eq in Ec as ->. by destruct (Hd w). }
  by destruct c as [[][][][][][][][]].
Qed.

(** The line "echo w". *)
Definition echo_line (w : string) : string := command_line 0 [["echo"; w]].
Definition echo_word (w : string) : Prop :=
  plain w /\ no_crlf w /\ forall v, w <> String "$" v.

Lemma echo_line_prints f w k :
  echo_word w -> parseInput' (S f) (echo_line w) k = Ok 0 k [Print (w +:+ nl)].
Proof.
  intros (Hw & Hc & Hd). cbn [parseInput]. unfold echo_line.
  pose proof (parse_line_commands fs vs system chdir unlink rmdir is_directory readdir stat garbage path lines
    (parseInput' f) 0 0 [["echo"; w]] k) as H.
  change (spaces 0 +:+ ?s) with s in H. rewrite H; [by apply interpreter_echo|done| |].
  - constructor; [|done]. split; [done|split; [|simpl; lia]]. constructor; [|by constructor].
    by split; [done|split; by vm_compute].
  - destruct Hw as (_ & _ & Hw). change (command_line 0 [["echo"; w]]) with ("echo " +:+ (w +:+ nl)).
    rewrite !strlen_app.
    change (strlen "echo ") with 5. change (strlen nl) with 1. lia.
Qed.
(** C14: scripts of "echo" lines, run by the scheduler with the real
    parser: when the processes of the ready queue hold the lines "echo w"
    for the words [wss], scheduler_RR with [q] lines a turn calls
    parseInput for every line, prints each word once, on a line of its own,
    in the order of the round robin, and returns with an empty queue. *)
Theorem a2_echo_scripts_round_robin f fuel q k ps wss :
  waiting fs vs (fun l => exists w, echo_word w /\ l = echo_line w) k ps ->
  lines_of ps = map (map echo_line) wss -> Forall (Forall echo_word) wss -> (0 < q)%nat ->
  Forall (fun p => length (pr_lines p) < fuel)%nat ps -> (turns q wss < fuel)%nat ->
  exists k', scheduler_RR fs vs (parseInput' (S f)) fuel (Z.of_nat q) k
    = Ok tt k' (map (fun w => Print (w +:+ nl)) (round_robin (turns q wss) q wss)) /\
    queue (rqueue k') [] /\ round_robin (turns q wss) q wss ≡ₚ concat wss.
Proof.
  intros Hw El Hwss Hq Hf Ht.
  set (ev := fun l => Print (String.substring 5 (String.length l) l)).
  assert (forall w, ev (echo_line w) = Print (w +:+ nl)) as Hev.
  { intros w. unfold ev, echo_line. simpl. f_equal.
    assert (forall t n, (String.length t <= n)%nat -> String.substring 0 n t = t) as H.
    { induction t as [|c t IH]; intros [|n] Hn; simpl in *; try done; [lia|]. by rewrite IH by lia. }
    apply H. lia. }
  assert (forall l k, (exists w, echo_word w /\ l = echo_line w) ->
    exists c, parseInput' (S f) l k = Ok c k [ev l]) as Hp.
  { intros l k0 (w & Hword & ->). exists 0. rewrite Hev. by apply echo_line_prints. }
  assert (turns q (lines_of ps) = turns q wss) as Et by (rewrite El; apply turns_map).
  pose proof (schedule_rr_wpt fs vs _ ev _ Hp q fuel fuel k ps Hq Hw Hf) as H.
  fold (lines_of ps) in H. rewrite Et in H.
  apply wpt_Ok in H as ([] & k' & tr & E & Hk & ->); [|done]. exists k'. split_and!; [|done|by apply round_robin_perm].
  etransitivity; [exact E|]. rewrite El, round_robin_map, map_map. f_equal.
  apply map_ext. intros w. apply Hev.
Qed.

(** C12: "set x v; print x" on one line prints v: parseInput, the two
    commands and the variable store together, whenever the store has a
    slot for x. *)
Theorem a2_set_then_print f n x v k l :
  vars_are fs vs (memory k) l -> has_room l x ->
  plain x -> plain v -> no_crlf x -> no_crlf v ->
  strlen (command_line n [["set"; x; v]; ["print"; x]]) < 1000 ->
  exists k', parseInput' (S f) (command_line n [["set"; x; v]; ["print"; x]]) k = Ok 0 k' [Print (v +:+ nl)] /\
    vars_are fs vs (memory k') (vset l x v) /\ rqueue k' = rqueue k /\ files k' = files k.
Proof.
  intros Hl Hroom Hx Hv Hx2 Hv2 Hlen. cbn [parseInput].
  assert (forall w, w ∈ ["set"; "print"] -> plain w) as Hlit.
  { intros w Hw. rewrite !elem_of_cons in Hw. destruct Hw as [->|[->|Hw]]; [by split; [done|split; by vm_compute]..|].
    by apply not_elem_of_nil in Hw. }
  pose proof (parse_line_commands fs vs system chdir unlink rmdir is_directory readdir stat garbage path lines
    (parseInput' f) 0 n [["set"; x; v]; ["print"; x]] k) as H.
  change (spaces 0 +:+ ?s) with s in H. rewrite H; [|done| |done].
  2:{ apply Forall_cons_2; [|apply Forall_singleton]; (split; [done|split; [|simpl; lia]]).
      - apply Forall_cons_2; [apply Hlit; by left|]. apply Forall_cons_2; [done|]. by apply Forall_singleton.
      - apply Forall_cons_2; [apply Hlit; by right; left|]. by apply Forall_singleton. }
  clear H. cbn [run_commands]. set (ws := replicate 100 None).
  destruct (a2_interpreter_set (parseInput' f) x v ws k l) as (k1 & E1 & Hv1 & Hq1 & Hf1);
    [done|done|done|apply Hx|apply Hv|].
  rewrite (bind_Ok_nil _ _ _ _ _ E1). simpl Z.eqb. cbv iota.
  destruct (a2_interpreter_print (parseInput' f) x (strip (overlay ["set"; x; v] ws) (zlen ["set"; x; v])) k1 (vset l x v))
    as (k2 & E2 & Hv2' & Hq2 & Hf2); [done..|].
  exists k2. rewrite vget_vset in E2 by done. split_and!; [exact E2|done|congruence|congruence].
Qed.
(** Run of a script that does not exist prints nothing: the error of
    process_initialize is 1 while run tests for 11, so the schedulers are
    called with nothing to run, and 1 is returned, which main ignores.  It
    holds whatever the other processes are, as long as none is in the
    queue. *)
Theorem a2_run_missing_is_silent parse script ws k :
  files k !! script = None -> no_crlf script -> queue (rqueue k) [] -> active k = false ->
  in_background k = false -> (0 < lines)%nat ->
  interpreter' parse (overlay ["run"; script] ws) (zlen ["run"; script]) k = Ok FILE_DOES_NOT_EXIST k [].
Proof.
  intros Hf Hs Hq Ha Hb Hl. run_command ["run"; script] ws k. next_arg ["run"; script] ws 1 script k. unfold run.
  assert (process_initialize fs script k = Ok FILE_DOES_NOT_EXIST k []) as Hp.
  { unfold process_initialize. unfold bind at 1, get at 1. by rewrite Hf. }
  rewrite (bind_Ok_nil _ _ _ _ _ Hp). change (FILE_DOES_NOT_EXIST =? 11) with false. cbv iota.
  assert (schedule_by_policy fs vs parse lines "FCFS" k = Ok 0 k []) as He; [|by rewrite (bind_Ok_nil _ _ _ _ _ He)].
  destruct lines as [|n]; [lia|]. apply silent_Ok. unfold schedule_by_policy. decide_words. cbn [andb negb].
  cbv iota. wp_step. apply wp_get. rewrite Ha, Hb. wp_step. unfold scheduler_FCFS, schedule. cbn [while_].
  wp_step. wp_step. apply wp_zoom. eapply is_ready_empty_wp; [done|]. rewrite bool_decide_eq_true_2 by done.
  wp_step. apply wp_get. simpl. rewrite Ha. do 2 apply wp_ret. apply wp_ret. destruct k; simpl in *; by subst.
Qed.
End theorems.

(* ------------------------------------------------------------------ *)
(** ** Instances                                                       *)
(* ------------------------------------------------------------------ *)

(** A system on which every call succeeds and does nothing. *)
Definition quiet (s : string) (h : gmap string string) : Z * gmap string string := (0, h).
Abbreviation on_quiet f :=
  (f 18 4 quiet quiet quiet quiet (fun _ _ => false) (fun _ _ => Some []) (fun _ _ => None) 0 "/store" 100%nat).

Definition demo_line : list (list string) := [["echo"; "hi"]; ["echo"]; ["print"; "x"]].
Abbreviation demo_commands :=
  (on_quiet run_commands (on_quiet parseInput 1%nat) demo_line (replicate 100 None) demo).

Ltac plain_words :=
  repeat (apply Forall_cons_2; [split; [done|split; by vm_compute]|]); apply Forall_nil_2.

(** The second echo, which has no argument, still finds that of the first. *)
Lemma a2_command_sequence_witness :
  on_quiet parseInput 2%nat (spaces 1 +:+ command_line 2 demo_line) demo = demo_commands /\
  events demo_commands = Some [Print ("hi" +:+ nl); Print ("hi" +:+ nl); Print (nl +:+ nl)].
Proof.
  split; [|by vm_compute].
  apply (a2_command_sequence 18 4 quiet quiet quiet quiet (fun _ _ => false) (fun _ _ => Some []) (fun _ _ => None)
    0 "/store" 100 1 1 2 demo_line demo); [done| |by vm_compute].
  repeat (apply Forall_cons_2; [split; [done|split; [plain_words|simpl; lia]]|]); apply Forall_nil_2.
Defined.

Lemma a2_lone_semicolon_hangs_witness :
  on_quiet parse_line (on_quiet parseInput 1%nat) 1000%nat ("print x ; print x" +:+ nl) demo = NoFuel.
Proof.
  apply (a2_lone_semicolon_hangs 18 4 quiet quiet quiet quiet (fun _ _ => false) (fun _ _ => Some []) (fun _ _ => None)
    0 "/store" 100 _ 1000%nat ["print"; "x"] 0 (" print x" +:+ nl) demo); [plain_words|simpl; lia|by vm_compute].
Defined.

Lemma a2_run_missing_is_silent_witness :
  on_quiet interpreter (on_quiet parseInput 1%nat) (overlay ["run"; "nothing"] (replicate 100 None)) 2 demo
  = Ok 1 demo [].
Proof.
  apply (a2_run_missing_is_silent 18 4 quiet quiet quiet quiet (fun _ _ => false) (fun _ _ => Some [])
    (fun _ _ => None) 0 "/store" 100 _ "nothing" (replicate 100 None) demo); [done|done| |done|done|lia].
  by split; [apply NoDup_nil_2|..].
Defined.

Lemma a2_set_then_print_witness :
  exists k', on_quiet parseInput 2%nat (command_line 1 [["set"; "x"; "5"]; ["print"; "x"]]) demo
      = Ok 0 k' [Print ("5" +:+ nl)] /\
    vars_are 18 4 (memory k') [("x", "5"); ("none", "none"); ("none", "none"); ("none", "none")] /\
    rqueue k' = rqueue demo /\ files k' = files demo.
Proof.
  apply (a2_set_then_print 18 4 quiet quiet quiet quiet (fun _ _ => false) (fun _ _ => Some []) (fun _ _ => None)
    0 "/store" 100 1 1 "x" "5" demo (replicate 4 ("none", "none"))); [| | | |by vm_compute..].
  - split; [done|done|]. intros [|[|[|[|i]]]] kv [= <-]; by eexists.
  - right. by eexists.
  - by split; [done|split; by vm_compute].
  - by split; [done|split; by vm_compute].
Defined.

Definition echo_demo : kernel :=
  mkKernel (rqueue resident_demo)
    (mkStore ([line_slot (echo_line "a1"); line_slot (echo_line "a2"); none_slot; line_slot (echo_line "b1")]
              ++ replicate 18 none_slot)%list LRU 0)
    false false (files demo) true.

Lemma echo_word_demo w : w ∈ ["a1"; "a2"; "b1"] -> echo_word w.
Proof.
  rewrite !elem_of_cons. intros [->|[->|[->|H]]]; [..|by apply not_elem_of_nil in H];
    (split; [split; [done|split; by vm_compute]|split; [done|by intros v]]).
Qed.

Definition echo_procs : list proc :=
  [mkProc 1 3 [echo_line "a1"; echo_line "a2"]; mkProc 2 4 [echo_line "b1"]].

Lemma echo_demo_waiting :
  waiting 18 4 (fun l => exists w, echo_word w /\ l = echo_line w) echo_demo echo_procs.
Proof.
  apply waiting_intro; [by apply (bool_decide_unpack _)| |by apply (bool_decide_unpack _)| |done].
  - split; [done|]. exists 3%positive, (Some 2%positive). split; [done|]. split; [done|]. by exists 4%positive, None.
  - repeat apply Forall_cons_2; [..|apply Forall_nil_2].
    + exists (resident_pcb 1 0). split_and!; [done|done| |by vm_compute|done]. split; [done|done|by vm_compute|].
      intros [|[|i]] l [= <-]; (split; [done|split; [done|]]); eexists; (split; [|done]);
        apply echo_word_demo; set_solver.
    + exists (resident_pcb 2 3). split_and!; [done|done| |by vm_compute|done]. split; [done|done|by vm_compute|].
      intros [|i] l [= <-]. split; [done|split; [done|]]. eexists. split; [|done].
      apply echo_word_demo; set_solver.
Qed.

Lemma a2_echo_scripts_round_robin_witness :
  exists k', scheduler_RR 18 4 (on_quiet parseInput 2%nat) 6 1 echo_demo
    = Ok tt k' [Print ("a1" +:+ nl); Print ("b1" +:+ nl); Print ("a2" +:+ nl)] /\
    queue (rqueue k') [] /\ ["a1"; "b1"; "a2"] ≡ₚ ["a1"; "a2"; "b1"].
Proof.
  apply (a2_echo_scripts_round_robin 18 4 quiet quiet quiet quiet (fun _ _ => false) (fun _ _ => Some [])
    (fun _ _ => None) 0 "/store" 100 1 6 1 echo_demo echo_procs [["a1"; "a2"]; ["b1"]]);
    [apply echo_demo_waiting|done| |lia|repeat constructor|by apply Nat.ltb_lt].
  repeat apply Forall_cons_2; try apply Forall_nil_2; apply echo_word_demo; set_solver.
Defined.
End A2ShellProps.
