(* ===== verification/LinkedList.v ===== *)
(** * LinkedList: the doubly linked list of the third shell
    (a3/linked_list.c)

    [holds s l xs] relates a heap to the sequence [xs] of the data
    pointers of the list at address [l]; [linked_list_refines] says that
    any sequence of operations behaves as on that sequence. *)
From S2P Require Import Prelude.

Module LinkedList.

Abbreviation loc := positive.

(** [data] is [None] while it is not initialised (dummy nodes); [next] and
    [prev] are [None] when NULL or not initialised. *)
Record NODE := mkNODE { data : option loc; next_ : option loc; prev : option loc }.

Section lists.
(** The functions list->equal can point to, and what they return: [None]
    where they dereference a bad pointer. *)
Context {EQ : Type}.
Variable call_equal : EQ -> loc -> loc -> option bool.

Record LINKED_LIST := mkLIST { size_ : Z; dummy_head : loc; dummy_tail : loc; equal : EQ }.

Record heap := mkHeap { nodes : gmap loc NODE; lists : gmap loc LINKED_LIST; brk : loc }.

Definition malloc_node : M heap loc :=
  let! s := get in
  put (mkHeap (<[brk s := mkNODE None None None]> (nodes s)) (lists s) (Pos.succ (brk s))) ;;
  ret (brk s).
Definition get_node (p : loc) : M heap NODE := let! s := get in need (nodes s !! p).
Definition upd_node (p : loc) (f : NODE -> NODE) : M heap unit :=
  let! n := get_node p in modify (fun s => mkHeap (<[p := f n]> (nodes s)) (lists s) (brk s)).
Definition with_data (d : option loc) (n : NODE) : NODE := mkNODE d (next_ n) (prev n).
Definition with_next (p : option loc) (n : NODE) : NODE := mkNODE (data n) p (prev n).
Definition with_prev (p : option loc) (n : NODE) : NODE := mkNODE (data n) (next_ n) p.
(** [p->next], [p->prev] when they are dereferenced next. *)
Definition next_of (p : loc) : M heap loc := let! n := get_node p in need (next_ n).
Definition prev_of (p : loc) : M heap loc := let! n := get_node p in need (prev n).

Definition get_list (l : loc) : M heap LINKED_LIST := let! s := get in need (lists s !! l).
Definition set_list (l : loc) (x : LINKED_LIST) : M heap unit :=
  modify (fun s => mkHeap (nodes s) (<[l := x]> (lists s)) (brk s)).
Definition set_size (l : loc) (f : Z -> Z) : M heap unit :=
  let! x := get_list l in
  set_list l (mkLIST (f (size_ x)) (dummy_head x) (dummy_tail x) (equal x)).

(* ------------------------------------------------------------------ *)
(** ** The operations                                                  *)
(* ------------------------------------------------------------------ *)

(** [*elem]. *)
Definition has_next (elem : loc) : M heap bool :=
  let! n := get_node elem in ret (bool_decide (is_Some (next_ n))).

(** The node, and the new value of [*node]. *)
Definition next_node (node : option loc) : M heap (loc * option loc) :=
  let! p := need node in
  let! n := get_node p in
  ret (p, next_ n).

Definition next (elem : option loc) : M heap (option loc * option loc) :=
  let! r := next_node elem in
  let! n := get_node (fst r) in
  ret (data n, snd r).

Definition list_clear (list : loc) : M heap unit :=
  set_size list (fun _ => 0) ;;
  let! x := get_list list in
  upd_node (dummy_head x) (with_next (Some (dummy_tail x))) ;;
  upd_node (dummy_tail x) (with_prev (Some (dummy_head x))).

Definition add_tail (d : loc) (list : loc) : M heap Z :=
  let! new_node := malloc_node in
  let! x := get_list list in
  let! old_tail := prev_of (dummy_tail x) in
  upd_node new_node (with_data (Some d)) ;;
  upd_node old_tail (with_next (Some new_node)) ;;
  upd_node new_node (with_prev (Some old_tail)) ;;
  upd_node new_node (with_next (Some (dummy_tail x))) ;;
  upd_node (dummy_tail x) (with_prev (Some new_node)) ;;
  set_size list (fun n => n + 1) ;;
  ret 0.

Definition add_head (d : loc) (list : loc) : M heap Z :=
  let! new_node := malloc_node in
  let! x := get_list list in
  let! old_head := next_of (dummy_head x) in
  upd_node new_node (with_data (Some d)) ;;
  upd_node old_head (with_prev (Some new_node)) ;;
  upd_node new_node (with_next (Some old_head)) ;;
  upd_node new_node (with_prev (Some (dummy_head x))) ;;
  upd_node (dummy_head x) (with_next (Some new_node)) ;;
  set_size list (fun n => n + 1) ;;
  ret 0.

(** [p->prev->next = p->next; p->next->prev = p->prev]. *)
Definition unlink (p : loc) : M heap unit :=
  let! n := get_node p in
  let! a := need (prev n) in
  upd_node a (with_next (next_ n)) ;;
  let! n := get_node p in
  let! b := need (next_ n) in
  upd_node b (with_prev (prev n)).

Definition pop_head (list : loc) : M heap (option loc) :=
  let! x := get_list list in
  if size_ x <=? 0 then
    print ("Trying to pop head element from an empty linked list" +:+ nl) ;; exit_with 99
  else
    let! to_be_deleted := next_of (dummy_head x) in
    unlink to_be_deleted ;;
    set_size list (fun n => n - 1) ;;
    let! n := get_node to_be_deleted in
    ret (data n).

Definition get_node_by_index (list : loc) (index : Z) : M heap (option loc) :=
  let! x := get_list list in
  if (size_ x <=? index) || (index <? 0) then
    print ("Invalid index to get from a linked list" +:+ nl) ;; ret None
  else
    let! hd := get_node (dummy_head x) in
    for_acc (Z.to_nat index) 0 (fun _ curr =>
      let! p := need curr in let! n := get_node p in ret (next_ n)) (next_ hd).

(** The walk passes the data of every node to [equal], the dummy tail's
    too. *)
Definition get_node_by_value (list : loc) (target_data : loc) : M heap (option loc) :=
  let! x := get_list list in
  let! hd := get_node (dummy_head x) in
  let! s := get in
  while_ (S (S (size (nodes s)))) (fun curr =>
    match curr with
    | None => ret (inr None)
    | Some p =>
        let! n := get_node p in
        let! d := need (data n) in
        let! e := need (call_equal (equal x) target_data d) in
        if e : bool then ret (inr (Some p)) else ret (inl (next_ n))
    end) (next_ hd).

Definition get_by_index (list : loc) (index : Z) : M heap (option loc) :=
  let! p := get_node_by_index list index in
  let! p := need p in
  let! n := get_node p in
  ret (data n).

Definition get_by_value (list : loc) (elem : loc) : M heap (option loc) :=
  let! p := get_node_by_value list elem in
  let! p := need p in
  let! n := get_node p in
  ret (data n).

Definition remove_elem (data_to_del : loc) (list : loc) : M heap (option loc) :=
  let! p := get_node_by_value list data_to_del in
  let! to_be_deleted := need p in
  unlink to_be_deleted ;;
  set_size list (fun n => n - 1) ;;
  let! n := get_node to_be_deleted in
  ret (data n).

Definition swap (node1 node2 : loc) : M heap unit :=
  let! n1 := get_node node1 in
  let! n2 := get_node node2 in
  upd_node node1 (with_data (data n2)) ;;
  upd_node node2 (with_data (data n1)).

Definition pop_tail (list : loc) : M heap (option loc) :=
  let! x := get_list list in
  if size_ x <=? 0 then
    print ("Trying to pop tail element from an empty linked list" +:+ nl) ;; exit_with 99
  else
    let! to_be_deleted := prev_of (dummy_tail x) in
    unlink to_be_deleted ;;
    set_size list (fun n => n - 1) ;;
    let! n := get_node to_be_deleted in
    ret (data n).

Definition list_init (list : loc) (eq : EQ) : M heap unit :=
  let! h := malloc_node in
  let! t := malloc_node in
  upd_node t (with_next None) ;;
  upd_node h (with_next (Some t)) ;;
  upd_node t (with_prev (Some h)) ;;
  set_list list (mkLIST 0 h t eq).

(* ------------------------------------------------------------------ *)
(** ** Links                                                           *)
(* ------------------------------------------------------------------ *)

Definition nextof (m : gmap loc NODE) (p : loc) : option loc := n ← m !! p; next_ n.
Definition prevof (m : gmap loc NODE) (p : loc) : option loc := n ← m !! p; prev n.
Definition dataof (m : gmap loc NODE) (p : loc) : option loc := n ← m !! p; data n.

(** Consecutive nodes of a path point to each other. *)
Fixpoint linked (m : gmap loc NODE) (path : list loc) : Prop :=
  match path with
  | a :: ((b :: _) as r) => nextof m a = Some b /\ prevof m b = Some a /\ linked m r
  | _ => True
  end.

(** The list at [l] consists of the nodes [ns] between its dummies. *)
Record dll (s : heap) (l : loc) (x : LINKED_LIST) (ns : list loc) : Prop := {
  dl_list : lists s !! l = Some x;
  dl_size : size_ x = zlen ns;
  dl_nodup : NoDup (dummy_head x :: ns ++ [dummy_tail x]);
  dl_linked : linked (nodes s) (dummy_head x :: ns ++ [dummy_tail x]);
  dl_tail : nextof (nodes s) (dummy_tail x) = None;
  dl_data : Forall (fun p => is_Some (dataof (nodes s) p)) ns;
  dl_fresh : forall p, is_Some (nodes s !! p) -> (p < brk s)%positive
}.

Definition holds (s : heap) (l : loc) (xs : list loc) : Prop :=
  exists x ns, dll s l x ns /\ map (dataof (nodes s)) ns = map Some xs.

Lemma linked_app m l1 a l2 :
  linked m (l1 ++ a :: l2) <-> linked m (l1 ++ [a]) /\ linked m (a :: l2).
Proof.
  induction l1 as [|b l1 IH]; simpl; [destruct l2; naive_solver|].
  destruct l1 as [|c l1]; simpl in *; [destruct l2; naive_solver|]. rewrite IH. naive_solver.
Qed.

(** Links depend on the next pointers of all nodes but the last and the
    previous pointers of all but the first. *)
Lemma linked_ext m m' a l e :
  (forall x, x ∈ a :: l -> nextof m' x = nextof m x) ->
  (forall x, x ∈ l ++ [e] -> prevof m' x = prevof m x) ->
  linked m (a :: l ++ [e]) -> linked m' (a :: l ++ [e]).
Proof.
  revert a. induction l as [|b l IH]; intros a Hn Hp.
  - simpl. rewrite Hn, Hp by set_solver. done.
  - simpl app. intros (H1 & H2 & H3). split; [|split].
    + rewrite Hn; [done|set_solver].
    + rewrite Hp; [done|set_solver].
    + apply IH; [set_solver|set_solver|done].
Qed.

Lemma linked_in m a l b : linked m (a :: l) -> b ∈ l -> is_Some (m !! b).
Proof.
  revert a. induction l as [|c l IH]; intros a; [set_solver|].
  intros (_ & Hp & Hl) [->|Hb]%elem_of_cons; [|by eapply IH].
  unfold prevof in Hp. destruct (m !! c); [eauto|done].
Qed.
Lemma linked_hd m a b l : linked m (a :: b :: l) -> is_Some (m !! a).
Proof. intros (Hn & _). unfold nextof in Hn. destruct (m !! a); [eauto|done]. Qed.

(** Joining two linked paths with new links between their ends. *)
Lemma linked_join m m' A a mid b C :
  linked m (A ++ [a]) -> linked m (b :: C) -> linked m' (a :: mid ++ [b]) ->
  (forall x, x ∈ A -> nextof m' x = nextof m x) ->
  (forall x, x ∈ A ++ [a] -> prevof m' x = prevof m x) ->
  (forall x, x ∈ b :: C -> nextof m' x = nextof m x) ->
  (forall x, x ∈ C -> prevof m' x = prevof m x) ->
  linked m' (A ++ a :: mid ++ b :: C).
Proof.
  intros HA HC Hmid H1 H2 H3 H4. apply linked_app. split.
  - destruct A as [|c A]; [done|]. simpl in *. apply (linked_ext m); [done| |done]. set_solver.
  - change (linked m' ((a :: mid) ++ b :: C)). apply linked_app. split; [done|].
    destruct (exists_last (l := b :: C) ltac:(done)) as (l & e & E). rewrite E in HC |- *.
    destruct l as [|c l]; [done|]. injection E as -> ->. apply (linked_ext m); [set_solver|done|done].
Qed.

Lemma nextof_insert m p n x : nextof (<[p := n]> m) x = if decide (x = p) then next_ n else nextof m x.
Proof. unfold nextof. case_decide as E; [subst; by rewrite lookup_insert_eq|by rewrite lookup_insert_ne]. Qed.
Lemma prevof_insert m p n x : prevof (<[p := n]> m) x = if decide (x = p) then prev n else prevof m x.
Proof. unfold prevof. case_decide as E; [subst; by rewrite lookup_insert_eq|by rewrite lookup_insert_ne]. Qed.
Lemma dataof_insert m p n x : dataof (<[p := n]> m) x = if decide (x = p) then data n else dataof m x.
Proof. unfold dataof. case_decide as E; [subst; by rewrite lookup_insert_eq|by rewrite lookup_insert_ne]. Qed.

(** ** Steps on the heap *)

Lemma ll_get_node_wp s p n (Q : NODE -> heap -> Prop) :
  nodes s !! p = Some n -> Q n s -> wp (get_node p) Q s.
Proof. intros Hp HQ. unfold get_node. by wp_steps. Qed.
Lemma upd_node_wp s p n f (Q : unit -> heap -> Prop) :
  nodes s !! p = Some n -> Q tt (mkHeap (<[p := f n]> (nodes s)) (lists s) (brk s)) ->
  wp (upd_node p f) Q s.
Proof. intros Hp HQ. unfold upd_node. wp_step. eapply ll_get_node_wp; [done|]. by apply wp_modify. Qed.
Lemma next_of_wp s p q (Q : loc -> heap -> Prop) :
  nextof (nodes s) p = Some q -> Q q s -> wp (next_of p) Q s.
Proof.
  intros Hp HQ. apply bind_Some in Hp as (n & Hn & Hq). unfold next_of. wp_step.
  eapply ll_get_node_wp; [done|]. by eapply wp_need.
Qed.
Lemma prev_of_wp s p q (Q : loc -> heap -> Prop) :
  prevof (nodes s) p = Some q -> Q q s -> wp (prev_of p) Q s.
Proof.
  intros Hp HQ. apply bind_Some in Hp as (n & Hn & Hq). unfold prev_of. wp_step.
  eapply ll_get_node_wp; [done|]. by eapply wp_need.
Qed.
Lemma get_list_wp s l x (Q : LINKED_LIST -> heap -> Prop) :
  lists s !! l = Some x -> Q x s -> wp (get_list l) Q s.
Proof. intros Hl HQ. unfold get_list. by wp_steps. Qed.
Lemma set_size_wp s l x f (Q : unit -> heap -> Prop) :
  lists s !! l = Some x ->
  Q tt (mkHeap (nodes s) (<[l := mkLIST (f (size_ x)) (dummy_head x) (dummy_tail x) (equal x)]> (lists s)) (brk s)) ->
  wp (set_size l f) Q s.
Proof. intros Hl HQ. unfold set_size. wp_step. eapply get_list_wp; [done|]. by apply wp_modify. Qed.

(** ** Removing a node *)

(** [m'] is [m] with the links [a -> b] and [b -> a] set. *)
Record relinked (m m' : gmap loc NODE) (a b : loc) : Prop := {
  rl_next : forall x, nextof m' x = if decide (x = a) then Some b else nextof m x;
  rl_prev : forall x, prevof m' x = if decide (x = b) then Some a else prevof m x;
  rl_data : forall x, dataof m' x = dataof m x;
  rl_dom : forall x, is_Some (m' !! x) -> is_Some (m !! x)
}.

Lemma unlink_wp s a p b (Q : unit -> heap -> Prop) :
  linked (nodes s) [a; p; b] -> a <> p -> p <> b -> a <> b ->
  (forall m', relinked (nodes s) m' a b -> Q tt (mkHeap m' (lists s) (brk s))) ->
  wp (unlink p) Q s.
Proof.
  intros (H1 & H2 & H3 & H4 & _) Hap Hpb Hab HQ.
  apply bind_Some in H1 as (na & Ha & H1). apply bind_Some in H2 as (np & Hp & H2).
  assert (next_ np = Some b) as H3' by (unfold nextof in H3; by rewrite Hp in H3).
  apply bind_Some in H4 as (nb & Hb & H4).
  unfold unlink. wp_step. eapply ll_get_node_wp; [done|]. wp_step. eapply wp_need; [done|].
  wp_step. eapply upd_node_wp; [done|]. wp_step. eapply ll_get_node_wp; [simpl; by rewrite lookup_insert_ne|].
  wp_step. eapply wp_need; [done|]. eapply upd_node_wp; [simpl; by rewrite lookup_insert_ne|]. simpl.
  rewrite H3', H2. apply HQ. split; intros x.
  - rewrite !nextof_insert. unfold nextof at 2. repeat case_decide; subst; simpl; try done.
    unfold nextof. by rewrite Hb.
  - rewrite !prevof_insert. repeat case_decide; subst; simpl; try done. unfold prevof. by rewrite Ha.
  - rewrite !dataof_insert. repeat case_decide; subst; simpl; try done; unfold dataof; by rewrite ?Ha, ?Hb.
  - rewrite !lookup_insert_is_Some. intros [->|[_ [->|[_ ?]]]]; eauto.
Qed.

(** The tail of remove_elem, pop_head and pop_tail. *)
Definition take_out (list p : loc) : M heap (option loc) :=
  unlink p ;; set_size list (fun n => n - 1) ;; let! n := get_node p in ret (data n).

Lemma path_split (l1 : list loc) p l2 h t :
  exists A a b C, h :: l1 = A ++ [a] /\ l2 ++ [t] = b :: C /\
    h :: (l1 ++ p :: l2) ++ [t] = A ++ a :: p :: b :: C /\
    h :: (l1 ++ l2) ++ [t] = A ++ a :: b :: C.
Proof.
  destruct (exists_last (l := h :: l1) ltac:(done)) as (A & a & EA).
  assert (exists b C, l2 ++ [t] = b :: C) as (b & C & EC) by (destruct l2; simpl; eauto).
  exists A, a, b, C. split; [done|]. split; [done|].
  change (h :: (l1 ++ p :: l2) ++ [t]) with ((h :: l1 ++ p :: l2) ++ [t]).
  change (h :: (l1 ++ l2) ++ [t]) with ((h :: l1 ++ l2) ++ [t]).
  rewrite !app_comm_cons, EA. rewrite <- !app_assoc. simpl. by rewrite EC.
Qed.

Lemma take_out_wp s l x ns1 p ns2 (Q : option loc -> heap -> Prop) :
  dll s l x (ns1 ++ p :: ns2) ->
  (forall s' x', dll s' l x' (ns1 ++ ns2) -> equal x' = equal x ->
     (forall q, dataof (nodes s') q = dataof (nodes s) q) -> Q (dataof (nodes s) p) s') ->
  wp (take_out l p) Q s.
Proof.
  intros [H1 H2 H3 H4 H5 H6 H7] HQ.
  destruct (path_split ns1 p ns2 (dummy_head x) (dummy_tail x)) as (A & a & b & C & EA & EC & E1 & E2).
  rewrite E1 in H3, H4. pose proof H4 as Hl. apply linked_app in Hl as [HA Hl].
  pose proof Hl as Hapb. destruct Hapb as (Ha1 & Ha2 & Ha3 & Ha4 & HC).
  assert (a <> p /\ p <> b /\ a <> b /\ a ∉ C /\ b ∉ C /\ a ∉ A /\ b ∉ A) as (Hap & Hpb & Hab & HaC & HbC & HaA & HbA).
  { apply NoDup_app in H3 as (_ & Hd & Hn). apply NoDup_cons in Hn as [Hn1 Hn]. apply NoDup_cons in Hn as [Hn2 Hn].
    apply NoDup_cons in Hn as [Hn3 _]. split_and!; set_solver. }
  unfold take_out. wp_step. apply (unlink_wp s a p b); [by split_and!|done..|]. intros m' [Hn Hp Hd Hdom].
  wp_step. eapply set_size_wp; [done|].
  assert (dataof m' p = dataof (nodes s) p) as Hdp by done.
  assert (is_Some (dataof (nodes s) p)) as [d Hdd] by (rewrite Forall_forall in H6; apply H6; set_solver).
  rewrite Hdd in Hdp. apply bind_Some in Hdp as (np & Hnp & Hnd).
  wp_step. eapply ll_get_node_wp; [done|]. apply wp_ret. rewrite Hnd, <- Hdd. eapply HQ.
  - split.
    + simpl. by rewrite lookup_insert_eq.
    + simpl. rewrite H2, !length_app. simpl. lia.
    + simpl. rewrite E2. apply NoDup_app in H3 as (HnA & Hd' & HnC). apply NoDup_app. split; [done|]. split.
      * intros y Hy Hin. apply (Hd' y Hy). set_solver.
      * apply NoDup_cons in HnC as [Hn1 HnC]. apply NoDup_cons in HnC as [Hn2 HnC].
        apply NoDup_cons. split; [set_solver|done].
    + cbn [nodes dummy_head dummy_tail]. rewrite E2. apply (linked_join (nodes s) m' A a [] b C); [done|done| | | | |].
      * simpl. rewrite Hn, Hp. by rewrite !decide_True.
      * intros y Hy. rewrite Hn. rewrite decide_False; [done|set_solver].
      * intros y Hy. rewrite Hp. rewrite decide_False; [done|set_solver].
      * intros y Hy. rewrite Hn. rewrite decide_False; [done|set_solver].
      * intros y Hy. rewrite Hp. rewrite decide_False; [done|set_solver].
    + simpl. rewrite Hn. rewrite decide_False; [done|]. intros Et.
      assert (dummy_tail x ∈ b :: C) by (rewrite <- EC; set_solver). set_solver.
    + simpl. apply Forall_app. apply Forall_app in H6 as [Hf1 Hf2]. inversion Hf2; subst.
      split; (eapply Forall_impl; [done|]); intros y; by rewrite Hd.
    + simpl. intros q Hq. apply H7, Hdom, Hq.
  - done.
  - done.
Qed.

(** ** Inserting a node *)

Record inserted (m m' : gmap loc NODE) (a new b d : loc) : Prop := {
  in_next : forall x, nextof m' x = if decide (x = a) then Some new
                                    else if decide (x = new) then Some b else nextof m x;
  in_prev : forall x, prevof m' x = if decide (x = b) then Some new
                                    else if decide (x = new) then Some a else prevof m x;
  in_data : forall x, dataof m' x = if decide (x = new) then Some d else dataof m x;
  in_dom : forall x, is_Some (m' !! x) -> x = new \/ is_Some (m !! x)
}.

Definition grown (x : LINKED_LIST) : LINKED_LIST :=
  mkLIST (size_ x + 1) (dummy_head x) (dummy_tail x) (equal x).

Lemma path_dom s l x ns q :
  dll s l x ns -> q ∈ dummy_head x :: ns ++ [dummy_tail x] -> is_Some (nodes s !! q).
Proof.
  intros [_ _ _ H4 _ _ _] Hq. apply elem_of_cons in Hq as [->|Hq]; [|by eapply linked_in].
  destruct ns; by eapply linked_hd.
Qed.

Lemma path_fresh s l x ns q :
  dll s l x ns -> q ∈ dummy_head x :: ns ++ [dummy_tail x] -> q <> brk s.
Proof.
  intros Hd Hq ->. pose proof (path_dom _ _ _ _ _ Hd Hq) as Hs.
  pose proof (dl_fresh _ _ _ _ Hd _ Hs). lia.
Qed.

Lemma inserted_dll s l x ns1 ns2 A a b C d m' :
  dll s l x (ns1 ++ ns2) ->
  dummy_head x :: ns1 = A ++ [a] -> ns2 ++ [dummy_tail x] = b :: C ->
  inserted (nodes s) m' a (brk s) b d ->
  dll (mkHeap m' (<[l := grown x]> (lists s)) (Pos.succ (brk s))) l (grown x) (ns1 ++ brk s :: ns2).
Proof.
  intros Hdll EA EC [Hn Hp Hd Hdom].
  assert (forall q, q ∈ dummy_head x :: (ns1 ++ ns2) ++ [dummy_tail x] -> q <> brk s) as Hfresh
    by (intros q; by eapply path_fresh).
  destruct Hdll as [H1 H2 H3 H4 H5 H6 H7].
  assert (dummy_head x :: (ns1 ++ ns2) ++ [dummy_tail x] = A ++ a :: b :: C) as E2.
  { rewrite <- app_assoc, app_comm_cons, EA, EC, <- app_assoc. done. }
  assert (dummy_head x :: (ns1 ++ brk s :: ns2) ++ [dummy_tail x] = A ++ a :: [brk s] ++ b :: C) as E1.
  { rewrite <- app_assoc, app_comm_cons, EA, <- app_assoc. simpl. by rewrite EC. }
  rewrite E2 in H3, H4, Hfresh. apply linked_app in H4 as [HA Hl].
  pose proof H3 as Hnd. apply NoDup_app in Hnd as (HnA & HdA & Hn1). apply NoDup_cons in Hn1 as [Hn1 Hn2].
  apply NoDup_cons in Hn2 as [Hn3 HnC].
  split; cbn [nodes lists brk dummy_head dummy_tail grown size_].
  - by rewrite lookup_insert_eq.
  - rewrite H2, !length_app. simpl. lia.
  - rewrite E1. replace (A ++ a :: [brk s] ++ b :: C) with ((A ++ [a]) ++ brk s :: b :: C)
      by by rewrite <- app_assoc. rewrite <- Permutation_middle. apply NoDup_cons. split.
    + rewrite <- app_assoc. intros Hin. by apply (Hfresh _ Hin).
    + by rewrite <- app_assoc.
  - rewrite E1. apply (linked_join (nodes s)); [done| | | | | |].
    + by destruct Hl as (_ & _ & ?).
    + simpl. rewrite !Hn, !Hp. assert (a <> brk s /\ b <> brk s /\ a <> b) as (? & ? & ?)
        by (split_and!; [apply Hfresh; set_solver|apply Hfresh; set_solver|set_solver]).
      split_and!; try done; repeat case_decide; congruence.
    + intros y Hy. rewrite Hn. rewrite !decide_False; [done|apply Hfresh; set_solver|].
      intros ->. apply (HdA a Hy). set_solver.
    + intros y Hy. rewrite Hp. rewrite !decide_False; [done|apply Hfresh; set_solver|].
      intros ->. apply elem_of_app in Hy as [Hy|Hy]; [apply (HdA b Hy)|]; set_solver.
    + intros y Hy. rewrite Hn. rewrite !decide_False; [done|apply Hfresh; set_solver|set_solver].
    + intros y Hy. rewrite Hp. rewrite !decide_False; [done|apply Hfresh; set_solver|set_solver].
  - assert (dummy_tail x ∈ b :: C) as Ht by (rewrite <- EC; set_solver).
    rewrite Hn. rewrite !decide_False; [done|apply Hfresh; set_solver|]. set_solver.
  - assert (forall q, q ∈ ns1 ++ ns2 -> q <> brk s) as Hf2.
    { intros q Hq. apply Hfresh. rewrite <- E2. set_solver. }
    rewrite Forall_forall in H6 |- *. intros q Hq. rewrite Hd. case_decide; [eauto|].
    apply H6. set_solver.
  - intros q [->|Hq]%Hdom; [lia|]. specialize (H7 q Hq). lia.
Qed.

(** Data of the other nodes, with one more at its place. *)
Lemma map_dataof_same (m m' : gmap loc NODE) new d ns :
  (forall x, dataof m' x = if decide (x = new) then Some d else dataof m x) -> new ∉ ns ->
  map (dataof m') ns = map (dataof m) ns.
Proof.
  intros Hd Hn. apply map_ext_in. intros q Hq%list_elem_of_In. rewrite Hd. rewrite decide_False; [done|].
  by intros ->.
Qed.

Lemma add_tail_wp s l x ns d (Q : Z -> heap -> Prop) :
  dll s l x ns ->
  (forall s', dll s' l (grown x) (ns ++ [brk s]) ->
     (forall q, dataof (nodes s') q = if decide (q = brk s) then Some d else dataof (nodes s) q) -> Q 0 s') ->
  wp (add_tail d l) Q s.
Proof.
  intros Hdll HQ.
  assert (forall q, q ∈ dummy_head x :: ns ++ [dummy_tail x] -> q <> brk s) as Hfresh
    by (intros q; by eapply path_fresh).
  destruct (exists_last (l := dummy_head x :: ns) ltac:(done)) as (A & a & EA).
  pose proof (dl_linked _ _ _ _ Hdll) as Hl. rewrite app_comm_cons, EA, <- app_assoc in Hl.
  apply linked_app in Hl as [_ (Hat & Hta & _)].
  assert (is_Some (nodes s !! a) /\ is_Some (nodes s !! dummy_tail x)) as [[na Ha] [nt Ht]].
  { split; (eapply path_dom; [done|]); [|set_solver]. rewrite app_comm_cons, EA. set_solver. }
  assert (a <> brk s /\ dummy_tail x <> brk s) as [Hab Htb].
  { split; apply Hfresh; [rewrite app_comm_cons, EA|]; set_solver. }
  assert (a <> dummy_tail x) as Hatne.
  { pose proof (dl_nodup _ _ _ _ Hdll) as Hn. rewrite app_comm_cons, EA, <- app_assoc in Hn.
    apply NoDup_app in Hn as (_ & _ & Hn). apply NoDup_cons in Hn as [Hn _]. set_solver. }
  unfold add_tail, malloc_node. wp_step. wp_steps.
  eapply get_list_wp; [by apply Hdll|]. wp_step. eapply prev_of_wp.
  { simpl. rewrite prevof_insert, decide_False by done. done. }
  wp_step. eapply upd_node_wp; [simpl; by rewrite lookup_insert_eq|].
  wp_step. eapply upd_node_wp; [simpl; by rewrite !lookup_insert_ne|].
  wp_step. eapply upd_node_wp; [simpl; rewrite lookup_insert_ne by done; by rewrite lookup_insert_eq|].
  wp_step. eapply upd_node_wp; [simpl; by rewrite lookup_insert_eq|].
  wp_step. eapply upd_node_wp.
  { simpl. rewrite lookup_insert_ne by done. rewrite lookup_insert_ne by done.
    rewrite lookup_insert_ne by done. rewrite !lookup_insert_ne by done. done. }
  wp_step. eapply set_size_wp; [by apply Hdll|]. apply wp_ret. simpl.
  match goal with |- Q 0 (mkHeap ?m _ _) => set (m' := m) end.
  assert (inserted (nodes s) m' a (brk s) (dummy_tail x) d) as Hins.
  { split; intros q; subst m'.
    - rewrite !nextof_insert. repeat case_decide; subst; simpl; try done. unfold nextof. by rewrite Ht.
    - rewrite !prevof_insert. repeat case_decide; subst; simpl; try done. unfold prevof. by rewrite Ha.
    - rewrite !dataof_insert. repeat case_decide; subst; simpl; try done; unfold dataof; by rewrite ?Ha, ?Ht.
    - rewrite !lookup_insert_is_Some'. naive_solver. }
  apply HQ; [|apply Hins]. pose proof (inserted_dll s l x ns [] A a (dummy_tail x) [] d m') as H.
  rewrite app_nil_r in H. by apply H.
Qed.

Lemma add_head_wp s l x ns d (Q : Z -> heap -> Prop) :
  dll s l x ns ->
  (forall s', dll s' l (grown x) (brk s :: ns) ->
     (forall q, dataof (nodes s') q = if decide (q = brk s) then Some d else dataof (nodes s) q) -> Q 0 s') ->
  wp (add_head d l) Q s.
Proof.
  intros Hdll HQ.
  assert (forall q, q ∈ dummy_head x :: ns ++ [dummy_tail x] -> q <> brk s) as Hfresh
    by (intros q; by eapply path_fresh).
  assert (exists b C, ns ++ [dummy_tail x] = b :: C) as (b & C & EC) by (destruct ns; simpl; eauto).
  pose proof (dl_linked _ _ _ _ Hdll) as Hl. rewrite EC in Hl. destruct Hl as (Hhb & Hbh & _).
  assert (is_Some (nodes s !! dummy_head x) /\ is_Some (nodes s !! b)) as [[nh Hh] [nb Hb]].
  { split; (eapply path_dom; [done|]); [|rewrite EC]; set_solver. }
  assert (dummy_head x <> brk s /\ b <> brk s) as [Hhf Hbf] by (split; apply Hfresh; [|rewrite EC]; set_solver).
  assert (dummy_head x <> b) as Hne.
  { pose proof (dl_nodup _ _ _ _ Hdll) as Hn. rewrite EC in Hn. apply NoDup_cons in Hn as [Hn _]. set_solver. }
  unfold add_head, malloc_node. wp_step. wp_steps.
  eapply get_list_wp; [by apply Hdll|]. wp_step. eapply next_of_wp.
  { simpl. rewrite nextof_insert, decide_False by done. done. }
  wp_step. eapply upd_node_wp; [simpl; by rewrite lookup_insert_eq|].
  wp_step. eapply upd_node_wp; [simpl; by rewrite !lookup_insert_ne|].
  wp_step. eapply upd_node_wp; [simpl; rewrite lookup_insert_ne by done; by rewrite lookup_insert_eq|].
  wp_step. eapply upd_node_wp; [simpl; by rewrite lookup_insert_eq|].
  wp_step. eapply upd_node_wp.
  { simpl. rewrite !lookup_insert_ne by done. done. }
  wp_step. eapply set_size_wp; [by apply Hdll|]. apply wp_ret. simpl.
  match goal with |- Q 0 (mkHeap ?m _ _) => set (m' := m) end.
  assert (inserted (nodes s) m' (dummy_head x) (brk s) b d) as Hins.
  { split; intros q; subst m'.
    - rewrite !nextof_insert. repeat case_decide; subst; simpl; try done. unfold nextof. by rewrite Hb.
    - rewrite !prevof_insert. repeat case_decide; subst; simpl; try done. unfold prevof. by rewrite Hh.
    - rewrite !dataof_insert. repeat case_decide; subst; simpl; try done; unfold dataof; by rewrite ?Hh, ?Hb.
    - rewrite !lookup_insert_is_Some'. naive_solver. }
  apply HQ; [|apply Hins]. by apply (inserted_dll s l x [] ns [] (dummy_head x) b C d m').
Qed.

(** ** Searching *)

Definition eq_at (s : heap) (x : LINKED_LIST) (target p : loc) (b : bool) : Prop :=
  exists d, dataof (nodes s) p = Some d /\ call_equal (equal x) target d = Some b.

Lemma find_value_wp s x target a ns1 p rest fuel (Q : option loc -> heap -> Prop) :
  linked (nodes s) (a :: ns1 ++ p :: rest) ->
  Forall (fun q => eq_at s x target q false) ns1 -> eq_at s x target p true ->
  (length ns1 < fuel)%nat -> Q (Some p) s ->
  wp (while_ fuel (fun curr =>
    match curr with
    | None => ret (inr None)
    | Some p =>
        let! n := get_node p in
        let! d := need (data n) in
        let! e := need (call_equal (equal x) target d) in
        if e : bool then ret (inr (Some p)) else ret (inl (next_ n))
    end) (nextof (nodes s) a)) Q s.
Proof.
  intros Hl Hf Ht. revert a Hl fuel. induction Hf as [|q ns1 (d & Hd & He) Hf IH]; intros a Hl fuel Hlen HQ;
    (destruct fuel as [|f]; [simpl in Hlen; lia|]); destruct Hl as (Ha & _ & Hl); cbn [while_]; rewrite Ha.
  - destruct Ht as (d & Hd & He). apply bind_Some in Hd as (n & Hn & Hd).
    wp_step. wp_step. eapply ll_get_node_wp; [done|]. wp_step. eapply wp_need; [done|].
    wp_step. eapply wp_need; [done|]. by apply wp_ret, wp_ret.
  - apply bind_Some in Hd as (n & Hn & Hd).
    wp_step. wp_step. eapply ll_get_node_wp; [done|]. wp_step. eapply wp_need; [done|].
    wp_step. eapply wp_need; [done|]. apply wp_ret.
    assert (next_ n = nextof (nodes s) q) as -> by (unfold nextof; by rewrite Hn).
    apply IH; [done|simpl in Hlen; lia|done].
Qed.

Lemma dll_length s l x ns : dll s l x ns -> (length ns <= size (nodes s))%nat.
Proof.
  intros Hd. pose proof (dl_nodup _ _ _ _ Hd) as Hn. apply NoDup_cons in Hn as [_ Hn].
  apply NoDup_app in Hn as (Hn & _ & _).
  rewrite <- size_dom, <- (size_list_to_set (C := gset loc) ns Hn). apply subseteq_size.
  intros p. rewrite elem_of_list_to_set, elem_of_dom. intros Hp. eapply path_dom; [done|]. set_solver.
Qed.

Lemma get_node_by_value_wp s l x ns1 p ns2 target (Q : option loc -> heap -> Prop) :
  dll s l x (ns1 ++ p :: ns2) ->
  Forall (fun q => eq_at s x target q false) ns1 -> eq_at s x target p true ->
  Q (Some p) s -> wp (get_node_by_value l target) Q s.
Proof.
  intros Hd Hf Ht HQ. pose proof (dll_length _ _ _ _ Hd) as Hlen. rewrite length_app in Hlen.
  unfold get_node_by_value. wp_step. eapply get_list_wp; [by apply Hd|].
  pose proof (dl_linked _ _ _ _ Hd) as Hl. rewrite <- app_assoc in Hl.
  destruct (path_dom _ _ _ _ (dummy_head x) Hd) as [h Hh]; [set_solver|].
  wp_step. eapply ll_get_node_wp; [done|]. wp_step. apply wp_get.
  assert (next_ h = nextof (nodes s) (dummy_head x)) as -> by (unfold nextof; by rewrite Hh).
  eapply find_value_wp; [done..|lia|done].
Qed.

Lemma remove_elem_wp s l x ns1 p ns2 target (Q : option loc -> heap -> Prop) :
  dll s l x (ns1 ++ p :: ns2) ->
  Forall (fun q => eq_at s x target q false) ns1 -> eq_at s x target p true ->
  (forall s' x', dll s' l x' (ns1 ++ ns2) -> equal x' = equal x ->
     (forall q, dataof (nodes s') q = dataof (nodes s) q) -> Q (dataof (nodes s) p) s') ->
  wp (remove_elem target l) Q s.
Proof.
  intros Hd Hf Ht HQ. unfold remove_elem. wp_step. eapply get_node_by_value_wp; [done..|].
  wp_step. eapply wp_need; [done|]. by eapply take_out_wp.
Qed.

Lemma pop_head_wp s l x p ns (Q : option loc -> heap -> Prop) :
  dll s l x (p :: ns) ->
  (forall s' x', dll s' l x' ns -> equal x' = equal x ->
     (forall q, dataof (nodes s') q = dataof (nodes s) q) -> Q (dataof (nodes s) p) s') ->
  wp (pop_head l) Q s.
Proof.
  intros Hd HQ. unfold pop_head. wp_step. eapply get_list_wp; [by apply Hd|].
  pose proof (dl_size _ _ _ _ Hd) as Hs. rewrite (proj2 (Z.leb_gt _ _)) by (simpl in Hs; lia).
  wp_step. pose proof (dl_linked _ _ _ _ Hd) as (Hn & _). eapply next_of_wp; [done|].
  by apply (take_out_wp s l x [] p ns).
Qed.

Lemma pop_tail_wp s l x ns p (Q : option loc -> heap -> Prop) :
  dll s l x (ns ++ [p]) ->
  (forall s' x', dll s' l x' ns -> equal x' = equal x ->
     (forall q, dataof (nodes s') q = dataof (nodes s) q) -> Q (dataof (nodes s) p) s') ->
  wp (pop_tail l) Q s.
Proof.
  intros Hd HQ. unfold pop_tail. wp_step. eapply get_list_wp; [by apply Hd|].
  pose proof (dl_size _ _ _ _ Hd) as Hs. rewrite length_app in Hs.
  rewrite (proj2 (Z.leb_gt _ _)) by (simpl in Hs; lia).
  pose proof (dl_linked _ _ _ _ Hd) as Hl. rewrite <- app_assoc, app_comm_cons in Hl.
  apply linked_app in Hl as [_ (_ & Hp & _)].
  wp_step. eapply prev_of_wp; [done|].
  apply (take_out_wp s l x ns p []); [done|]. intros s' x' Hd'. rewrite app_nil_r in Hd'. by apply HQ.
Qed.

(** Popping from an empty list ends the program with status 99. *)
Lemma pop_empty s l x :
  dll s l x [] ->
  pop_head l s = Exit 99 s [Print ("Trying to pop head element from an empty linked list" +:+ nl)] /\
  pop_tail l s = Exit 99 s [Print ("Trying to pop tail element from an empty linked list" +:+ nl)].
Proof.
  intros Hd. pose proof (dl_list _ _ _ _ Hd) as Hl. pose proof (dl_size _ _ _ _ Hd) as Hs.
  unfold pop_head, pop_tail, get_list, bind, get. simpl. rewrite Hl. simpl. by rewrite Hs.
Qed.

Lemma list_clear_wp s l x ns (Q : unit -> heap -> Prop) :
  dll s l x ns -> (forall s' x', dll s' l x' [] -> equal x' = equal x -> Q tt s') -> wp (list_clear l) Q s.
Proof.
  intros Hd HQ. destruct (path_dom _ _ _ _ (dummy_head x) Hd) as [h Hh]; [set_solver|].
  destruct (path_dom _ _ _ _ (dummy_tail x) Hd) as [t Ht]; [set_solver|].
  destruct Hd as [H1 H2 H3 H4 H5 H6 H7].
  assert (dummy_head x <> dummy_tail x) as Hne.
  { apply NoDup_cons in H3 as [H3 _]. set_solver. }
  unfold list_clear. wp_step. eapply set_size_wp; [done|].
  wp_step. eapply get_list_wp; [simpl; by rewrite lookup_insert_eq|]. cbn [dummy_head dummy_tail].
  wp_step. eapply upd_node_wp; [done|].
  eapply upd_node_wp; [simpl; by rewrite lookup_insert_ne|].
  apply (HQ _ (mkLIST 0 (dummy_head x) (dummy_tail x) (equal x))); [|done]. split; cbn [nodes lists brk dummy_head dummy_tail size_ app].
  - apply lookup_insert_eq.
  - done.
  - apply NoDup_cons. split; [set_solver|apply NoDup_singleton].
  - simpl. rewrite !nextof_insert, !prevof_insert. repeat case_decide; try done.
  - rewrite !nextof_insert. repeat case_decide; try done. simpl.
    unfold nextof in H5. by rewrite Ht in H5.
  - done.
  - intros p. rewrite !lookup_insert_is_Some. intros [<-|[_ [<-|[_ Hp]]]]; apply H7; eauto.
Qed.

#[local] Hint Resolve add_tail_wp add_head_wp pop_head_wp pop_tail_wp remove_elem_wp
  list_clear_wp : wp.

(* ------------------------------------------------------------------ *)
(** ** Refinement                                                      *)
(* ------------------------------------------------------------------ *)

(** The operations on a sequence of data pointers; [None] where the
    sequence does not allow them (the program exits or misbehaves). *)
Inductive lop := AddTail (d : loc) | AddHead (d : loc) | PopHead | PopTail | Remove (d : loc) | Clear.

Fixpoint remove_first (f : loc -> option bool) (xs : list loc) : option (loc * list loc) :=
  match xs with
  | [] => None
  | y :: xs' =>
      match f y with
      | Some true => Some (y, xs')
      | Some false => '(z, ys) ← remove_first f xs'; Some (z, y :: ys)
      | None => None
      end
  end.

(** The data pointer returned, if any, and the new sequence. *)
Definition spec_step (eq : EQ) (o : lop) (xs : list loc) : option (option loc * list loc) :=
  match o with
  | AddTail d => Some (None, xs ++ [d])
  | AddHead d => Some (None, d :: xs)
  | PopHead => match xs with [] => None | y :: ys => Some (Some y, ys) end
  | PopTail => match last xs with None => None | Some y => Some (Some y, removelast xs) end
  | Remove d => '(y, ys) ← remove_first (call_equal eq d) xs; Some (Some y, ys)
  | Clear => Some (None, [])
  end.
Fixpoint spec_run (eq : EQ) (os : list lop) (xs : list loc) : option (list (option loc) * list loc) :=
  match os with
  | [] => Some ([], xs)
  | o :: os' => '(r, ys) ← spec_step eq o xs; '(rs, zs) ← spec_run eq os' ys; Some (r :: rs, zs)
  end.

Definition list_step (l : loc) (o : lop) : M heap (option loc) :=
  match o with
  | AddTail d => add_tail d l ;; ret None
  | AddHead d => add_head d l ;; ret None
  | PopHead => pop_head l
  | PopTail => pop_tail l
  | Remove d => remove_elem d l
  | Clear => list_clear l ;; ret None
  end.
Fixpoint list_run (l : loc) (os : list lop) : M heap (list (option loc)) :=
  match os with
  | [] => ret []
  | o :: os' => let! r := list_step l o in let! rs := list_run l os' in ret (r :: rs)
  end.

(** The list with equality [eq] holds [xs]. *)
Definition represents (s : heap) (l : loc) (eq : EQ) (xs : list loc) : Prop :=
  exists x ns, dll s l x ns /\ equal x = eq /\ map (dataof (nodes s)) ns = map Some xs.

Lemma map_dataof_ext s s' ns :
  (forall q, dataof (nodes s') q = dataof (nodes s) q) ->
  map (dataof (nodes s')) ns = map (dataof (nodes s)) ns.
Proof. intros H. by apply map_ext. Qed.

Lemma map_Some_inj (xs ys : list loc) : map Some xs = map Some ys -> xs = ys.
Proof. revert ys. induction xs as [|x xs IH]; intros [|y ys]; simpl; [done..|]. intros [= -> E]. f_equal. by apply IH. Qed.

(** Splitting at the element that remove_first takes. *)
Lemma remove_first_split s x target xs ns y ys :
  remove_first (call_equal (equal x) target) xs = Some (y, ys) ->
  map (dataof (nodes s)) ns = map Some xs ->
  exists ns1 p ns2, ns = ns1 ++ p :: ns2 /\ Forall (fun q => eq_at s x target q false) ns1 /\
    eq_at s x target p true /\ dataof (nodes s) p = Some y /\
    map (dataof (nodes s)) (ns1 ++ ns2) = map Some ys.
Proof.
  revert ns y ys. induction xs as [|z xs IH]; intros ns y ys; simpl; [done|].
  destruct ns as [|n ns]; simpl; [done|]. intros H [= Hz Hns].
  destruct (call_equal (equal x) target z) as [[|]|] eqn:E; [| |done].
  - injection H as <- <-. exists [], n, ns. split_and!; [done|done| |done|done]. by exists z.
  - apply bind_Some in H as ([y' ys'] & H & [= <- <-]).
    destruct (IH ns y' ys' H Hns) as (ns1 & p & ns2 & -> & H1 & H2 & H3 & H4).
    exists (n :: ns1), p, ns2. split_and!; [done| |done|done|simpl; by rewrite Hz, H4].
    constructor; [by exists z|done].
Qed.

Lemma list_step_wp s l eq o xs r ys (Q : option loc -> heap -> Prop) :
  represents s l eq xs -> spec_step eq o xs = Some (r, ys) ->
  (forall s', represents s' l eq ys -> Q r s') -> wp (list_step l o) Q s.
Proof.
  intros (x & ns & Hd & <- & Hm) Hs HQ.
  assert (brk s ∉ ns) as Hfresh.
  { intros Hin. by eapply (path_fresh s l x ns (brk s)); [|set_solver|]. }
  destruct o as [d|d| | |d|]; simpl in *.
  - injection Hs as <- <-. wp_step. eapply add_tail_wp; [done|]. intros s' Hd' Hdata. apply wp_ret, HQ.
    eexists _, _. split; [done|]. split; [done|]. rewrite !map_app, <- Hm.
    rewrite (map_dataof_same _ _ _ _ _ Hdata) by done. simpl. by rewrite Hdata, decide_True.
  - injection Hs as <- <-. wp_step. eapply add_head_wp; [done|]. intros s' Hd' Hdata. apply wp_ret, HQ.
    eexists _, _. split; [done|]. split; [done|]. simpl. rewrite <- Hm.
    rewrite (map_dataof_same _ _ _ _ _ Hdata) by done. by rewrite Hdata, decide_True.
  - destruct xs as [|y xs]; [done|]. injection Hs as <- <-. destruct ns as [|p ns]; [done|].
    simpl in Hm. injection Hm as Hy Hm. rewrite <- Hy in HQ. eapply pop_head_wp; [done|].
    intros s' x' Hd' He Hdata. apply HQ. exists x', ns. split; [done|]. split; [done|].
    by rewrite (map_dataof_ext s) by done.
  - destruct (last xs) as [y|] eqn:E; [|done]. injection Hs as <- <-.
    apply last_Some in E as [xs' ->]. rewrite removelast_last in *. rewrite map_app in Hm. simpl in Hm.
    destruct (exists_last (l := ns)) as (ns' & p & ->).
    { intros ->. simpl in Hm. by destruct (map Some xs'). }
    rewrite map_app in Hm. simpl in Hm. apply app_inj_tail in Hm as [Hm Hy]. rewrite <- Hy in HQ.
    eapply pop_tail_wp; [done|].
    intros s' x' Hd' He Hdata. apply HQ. exists x', ns'. split; [done|]. split; [done|].
    by rewrite (map_dataof_ext s) by done.
  - apply bind_Some in Hs as ([y zs] & Hs & [= <- <-]).
    destruct (remove_first_split _ _ _ _ _ _ _ Hs Hm) as (ns1 & p & ns2 & -> & H1 & H2 & H3 & H4).
    rewrite <- H3 in HQ. eapply remove_elem_wp; [done..|]. intros s' x' Hd' He Hdata. apply HQ.
    exists x', (ns1 ++ ns2). split; [done|]. split; [done|]. by rewrite (map_dataof_ext s) by done.
  - injection Hs as <- <-. wp_step. eapply list_clear_wp; [done|]. intros s' x' Hd' He. apply wp_ret, HQ.
    by exists x', [].
Qed.

Lemma list_run_wp s l eq os xs rs ys (Q : list (option loc) -> heap -> Prop) :
  represents s l eq xs -> spec_run eq os xs = Some (rs, ys) ->
  (forall s', represents s' l eq ys -> Q rs s') -> wp (list_run l os) Q s.
Proof.
  revert s xs rs Q. induction os as [|o os IH]; intros s xs rs Q Hr Hs HQ; simpl in *.
  - injection Hs as <- <-. by apply wp_ret, HQ.
  - apply bind_Some in Hs as ([r zs] & Hs & Hrest). apply bind_Some in Hrest as ([rs' zs'] & Hrest & [= <- <-]).
    wp_step. eapply list_step_wp; [done..|]. intros s1 Hr1. wp_step. eapply IH; [done..|].
    intros s2 Hr2. by apply wp_ret, HQ.
Qed.
End lists.

(* ------------------------------------------------------------------ *)
(** ** Properties                                                      *)
(* ------------------------------------------------------------------ *)

(** C7: Refinement: every sequence of operations that the sequence of
    data pointers allows (no pop from an empty list, no removal of an
    element that is not there) runs on the doubly linked heap without
    undefined behaviour, exit or output, returns the same elements and
    leaves a heap that represents the resulting sequence. *)
Theorem linked_list_refines {EQ} (call_equal : EQ -> loc -> loc -> option bool) s l eq os xs rs ys :
  represents s l eq xs -> spec_run call_equal eq os xs = Some (rs, ys) ->
  exists s', list_run call_equal l os s = Ok rs s' [] /\ represents s' l eq ys.
Proof.
  intros Hr Hs. assert (wp (list_run call_equal l os)
    (fun r s' => r = rs /\ represents s' l eq ys) s) as H by by eapply list_run_wp.
  apply wp_Ok in H as (r & s' & E & -> & H). by exists s'.
Qed.

(** The empty list at address 9 that list_init makes, comparing pointers. *)
Definition demo : heap :=
  mkHeap {[1%positive := mkNODE None (Some 2%positive) None; 2%positive := mkNODE None None (Some 1%positive)]}
         {[9%positive := mkLIST 0 1 2 tt]} 3.
Definition same_pointer (_ : unit) (p q : loc) : option bool := Some (bool_decide (p = q)).

Lemma demo_represents : represents demo 9 tt [].
Proof.
  exists (mkLIST 0 1 2 tt), []. split; [|done]. split; [done|done| |done|done|done|].
  - apply (bool_decide_unpack _). by vm_compute.
  - intros p [n Hn]. simpl in *. apply lookup_insert_Some in Hn as [[<- _]|[_ Hn]]; [done|].
    apply lookup_singleton_Some in Hn as [<- _]. done.
Qed.

Lemma linked_list_refines_witness :
  exists s', list_run same_pointer 9
      [AddTail 5; AddTail 6; AddHead 7; Remove 5; PopHead; PopTail; AddTail 8; Clear; AddHead 4]%positive demo
    = Ok [None; None; None; Some 5; Some 7; Some 6; None; None; None]%positive s' [] /\
    represents s' 9 tt [4%positive].
Proof. apply (linked_list_refines _ demo 9 tt _ []); [apply demo_represents|done]. Defined.

(** List_init makes an empty list. *)
Theorem list_init_empty {EQ} (s : @heap EQ) l eq :
  (forall p, is_Some (nodes s !! p) -> (p < brk s)%positive) ->
  exists s', list_init l eq s = Ok tt s' [] /\ represents s' l eq [].
Proof.
  intros Hf.
  assert (wp (list_init l eq) (fun _ s' => represents s' l eq []) s) as H.
  { unfold list_init, malloc_node. wp_step. wp_steps.
    assert (brk s <> Pos.succ (brk s)) as Hne by lia.
    eapply upd_node_wp; [simpl; by rewrite lookup_insert_eq|]. wp_step.
    eapply upd_node_wp; [simpl; rewrite !lookup_insert_ne by done; by rewrite lookup_insert_eq|]. wp_step.
    eapply upd_node_wp; [simpl; rewrite lookup_insert_ne by done; by rewrite lookup_insert_eq|].
    unfold set_list. apply wp_modify. exists (mkLIST 0 (brk s) (Pos.succ (brk s)) eq), []. split; [|done].
    split; cbn [nodes lists brk dummy_head dummy_tail size_ app].
    - apply lookup_insert_eq.
    - done.
    - apply NoDup_cons. split; [set_solver|apply NoDup_singleton].
    - simpl. rewrite !nextof_insert, !prevof_insert. repeat case_decide; try done; lia.
    - rewrite !nextof_insert. repeat case_decide; try done; lia.
    - done.
    - intros p. rewrite !lookup_insert_is_Some'. intros Hp.
      assert (p = Pos.succ (brk s) \/ p = brk s \/ is_Some (nodes s !! p)) as [->|[->|Hp']] by naive_solver;
        [lia..|]. specialize (Hf p Hp'). lia. }
  apply wp_Ok in H as ([] & s' & E & H). by exists s'.
Qed.

Lemma list_init_empty_witness :
  exists s', list_init 9 tt (mkHeap ∅ ∅ 1) = Ok tt s' [] /\ represents s' 9 tt [].
Proof. apply list_init_empty. intros p [n Hn]. done. Defined.

(** Removing from the list an element that it does not hold passes
    the uninitialised data of the dummy tail to the comparison. *)
Theorem remove_missing_is_undefined {EQ} (call_equal : EQ -> loc -> loc -> option bool) s l x target :
  dll s l x [] -> dataof (nodes s) (dummy_tail x) = None ->
  remove_elem call_equal target l s = Stuck.
Proof.
  intros Hd Ht. destruct (path_dom _ _ _ _ (dummy_head x) Hd) as [h Hh]; [set_solver|].
  destruct (path_dom _ _ _ _ (dummy_tail x) Hd) as [t Htl]; [set_solver|].
  pose proof (dl_linked _ _ _ _ Hd) as (Hn & _). unfold nextof in Hn. rewrite Hh in Hn. simpl in Hn.
  unfold dataof in Ht. rewrite Htl in Ht. simpl in Ht.
  assert (forall p n, nodes s !! p = Some n -> get_node p s = Ok n s []) as Hget.
  { intros p n Hp. unfold get_node, bind, get. simpl. by rewrite Hp. }
  assert (get_list l s = Ok x s []) as Hl.
  { unfold get_list, bind, get. simpl. by rewrite (dl_list _ _ _ _ Hd). }
  assert (get_node_by_value call_equal l target s = Stuck) as E; [|unfold remove_elem, bind; by rewrite E].
  unfold get_node_by_value. rewrite (bind_Ok_nil _ _ _ _ _ Hl), (bind_Ok_nil _ _ _ _ _ (Hget _ _ Hh)).
  rewrite (bind_Ok_nil get _ s s s eq_refl), Hn. cbn [while_].
  unfold bind at 1. rewrite (bind_Ok_nil _ _ _ _ _ (Hget _ _ Htl)). unfold bind at 1. by rewrite Ht.
Qed.

Lemma remove_missing_is_undefined_witness : remove_elem same_pointer 5 9 demo = Stuck.
Proof.
  apply (remove_missing_is_undefined same_pointer demo 9 (mkLIST 0 1 2 tt) 5); [|done].
  destruct demo_represents as (x & ns & Hd & _ & Hm). destruct ns; [|done].
  assert (x = mkLIST 0 1 2 tt) as <-; [|done].
  pose proof (dl_list _ _ _ _ Hd) as E. by injection E.
Defined.
End LinkedList.
