(* ===== verification/A3Memory.v ===== *)
(** * A3Memory: the memory of the third shell (a3/shellmemory.c)

    Frames are in the first [FRAME_STORE_SIZE] slots and variables in the
    [VAR_STORE_SIZE] slots after them.  Nothing is ever freed, so a
    [char *] is the string it points to. *)
From S2P Require Import Prelude CString VarSpec A1Memory.
From Stdlib Require Import Ascii.

Module A3Memory.
Import VarSpec.
Open Scope string_scope. Open Scope Z_scope.

(** [match] and [extract] are, to the letter, those of the first shell. *)
Definition match_ {S} : string -> string -> M S Z := A1Memory.match_.
Definition extract {S} : string -> M S string := A1Memory.extract.

Section sizes.
Variables FRAME_STORE_SIZE VAR_STORE_SIZE : Z.

Definition FRAME_VAR_BORDER : Z := FRAME_STORE_SIZE.
Definition LENGTH : Z := FRAME_STORE_SIZE + VAR_STORE_SIZE.

Definition slot (i : Z) : M slots (string * string) :=
  let! m := get in need (zget m i).
Definition set_slot (i : Z) (kv : string * string) : M slots unit :=
  let! m := get in let! m' := need (zset m i kv) in put m'.
Definition set_var (i : Z) (v : string) : M slots unit :=
  let! kv := slot i in set_slot i (v, snd kv).
Definition set_value (i : Z) (v : string) : M slots unit :=
  let! kv := slot i in set_slot i (fst kv, v).

Definition mem_init : M slots unit :=
  for_ (Z.to_nat LENGTH) 0 (fun i => set_slot i ("none", "none")).

Definition mem_free_at (pos : Z) : M slots unit :=
  set_var pos "none" ;; set_value pos "none".

(** The index where the loop over [j] stops, started at [j]. *)
Fixpoint scan_free (n : nat) (i j : Z) : M slots Z :=
  match n with
  | O => ret j
  | S n' =>
      if (j <? i + 3) && (j <? FRAME_VAR_BORDER) then
        let! kv := slot j in
        if negb (streq (fst kv) "none") then ret j else scan_free n' i (j + 1)
      else ret j
  end.

(** The contents given to [index] and [valid_bit]; [None] for the result
    1, which leaves both arrays alone. *)
Definition frame_alloc (pid : string) : M slots (option (list Z * list Z)) :=
  for_find (Z.to_nat FRAME_VAR_BORDER) 0 (fun i =>
    let! j := scan_free 4 i i in
    if j =? i + 3 then
      let! r := for_acc 3 i (fun k '(index, valid_bit) =>
        set_var k pid ;; ret ((index ++ [k])%list, (valid_bit ++ [0])%list)) ([], []) in
      ret (Some r)
    else ret None).

(** Setting the valid bit is left to the caller. *)
Definition mem_set_value_at (pos : Z) (pid value_in : string) : M slots unit :=
  set_var pos pid ;; set_value pos value_in.

Definition mem_get_value_at (pos : Z) : M slots string :=
  let! kv := slot pos in ret (snd kv).

Definition mem_set_value (var_in value_in : string) : M slots unit :=
  let n := Z.to_nat (LENGTH - FRAME_VAR_BORDER) in
  let! r := search slot n FRAME_VAR_BORDER var_in (fun i _ => set_value i value_in) in
  match r with
  | Some _ => ret tt
  | None =>
      search slot n FRAME_VAR_BORDER "none"
        (fun i _ => set_var i var_in ;; set_value i value_in) ;;
      ret tt
  end.

Definition mem_get_value (var_in : string) (caller : ascii) : M slots string :=
  let! r := search slot (Z.to_nat (LENGTH - FRAME_VAR_BORDER)) FRAME_VAR_BORDER var_in
    (fun i kv => ret (snd kv)) in
  ret (match r with
       | Some v => v
       | None => if Ascii.eqb caller "p" then "Variable does not exist" else ""
       end).

Definition reset_var_zone : M slots unit :=
  for_ (Z.to_nat (LENGTH - FRAME_VAR_BORDER)) FRAME_VAR_BORDER mem_free_at.

Definition clear_frame (start_pos : Z) : M slots unit := for_ 3 start_pos mem_free_at.

Definition printShellMemory : M slots unit :=
  let! count_empty := for_acc (Z.to_nat LENGTH) 0 (fun i n =>
    let! kv := slot i in
    if streq (fst kv) "none" then ret (n + 1)
    else
      print (nl +:+ "line " +:+ pretty i +:+ ": key: " +:+ fst kv +:+ tab +:+ tab +:+ "value: "
             +:+ snd kv +:+ nl) ;;
      ret n) 0 in
  print (nl +:+ tab +:+ pretty LENGTH +:+ " lines in total, " +:+ pretty (LENGTH - count_empty)
         +:+ " lines in use, " +:+ pretty count_empty +:+ " lines free" +:+ nl +:+ nl).

(* ------------------------------------------------------------------ *)
(** ** Facts                                                           *)
(* ------------------------------------------------------------------ *)

Definition upd (i : Z) (kv : string * string) (m : slots) : slots := <[Z.to_nat i := kv]> m.

Lemma zlen_upd i kv m : zlen (upd i kv m) = zlen m.
Proof. unfold upd. by rewrite length_insert. Qed.
Lemma a3_zget_upd i kv m j :
  0 <= i < zlen m -> zget (upd i kv m) j = if bool_decide (j = i) then Some kv else zget m j.
Proof. intros Hi. pose proof (zset_Some m i kv Hi) as Hz. by apply zset_inv in Hz as (_ & _ & ->). Qed.
Lemma upd_upd i kv kv' m : upd i kv (upd i kv' m) = upd i kv m.
Proof. apply list_insert_insert_eq. Qed.

Lemma a3_slot_wp m i kv (Q : string * string -> slots -> Prop) :
  zget m i = Some kv -> Q kv m -> wp (slot i) Q m.
Proof. intros Hm HQ. unfold slot. by wp_steps. Qed.
Lemma a3_set_slot_wp m i kv (Q : unit -> slots -> Prop) :
  0 <= i < zlen m -> Q tt (upd i kv m) -> wp (set_slot i kv) Q m.
Proof.
  intros Hi HQ. unfold set_slot. do 2 wp_step. wp_step. eapply wp_need; [by apply zset_Some|].
  by apply wp_put.
Qed.
Lemma a3_set_var_wp m i kv v (Q : unit -> slots -> Prop) :
  zget m i = Some kv -> Q tt (upd i (v, snd kv) m) -> wp (set_var i v) Q m.
Proof.
  intros Hm HQ. unfold set_var. wp_step. eapply a3_slot_wp; [done|].
  apply a3_set_slot_wp; [by eapply zget_range|done].
Qed.
Lemma a3_set_value_wp m i kv v (Q : unit -> slots -> Prop) :
  zget m i = Some kv -> Q tt (upd i (fst kv, v) m) -> wp (set_value i v) Q m.
Proof.
  intros Hm HQ. unfold set_value. wp_step. eapply a3_slot_wp; [done|].
  apply a3_set_slot_wp; [by eapply zget_range|done].
Qed.

(** Setting both fields of a slot. *)
Lemma set_both_wp m i v w (Q : unit -> slots -> Prop) :
  0 <= i < zlen m -> Q tt (upd i (v, w) m) -> wp (set_var i v ;; set_value i w) Q m.
Proof.
  intros Hi HQ. destruct (zget_ex m i Hi) as [kv Hkv]. wp_step. eapply a3_set_var_wp; [done|].
  eapply a3_set_value_wp; [rewrite a3_zget_upd by done; by rewrite bool_decide_eq_true_2|].
  simpl. by rewrite upd_upd.
Qed.

Lemma mem_free_at_wp m pos (Q : unit -> slots -> Prop) :
  0 <= pos < zlen m -> Q tt (upd pos ("none", "none") m) -> wp (mem_free_at pos) Q m.
Proof. apply set_both_wp. Qed.

(** The slots from [start], [n] of them, are free; the others are those
    of [m]. *)
Definition cleared (m m' : slots) (start n : Z) : Prop :=
  zlen m' = zlen m /\
  forall j, zget m' j = if bool_decide (start <= j < start + n) then Some ("none", "none") else zget m j.

Lemma clear_range_wp m start n (Q : unit -> slots -> Prop) :
  0 <= start -> start + Z.of_nat n <= zlen m ->
  (forall m', cleared m m' start (Z.of_nat n) -> Q tt m') -> wp (for_ n start mem_free_at) Q m.
Proof.
  intros Hs Hn HQ. apply (wp_for (fun i m' => cleared m m' start (i - start))).
  - split; [done|]. intros j. by rewrite bool_decide_eq_false_2 by lia.
  - intros i m' Hi [Hl Hj]. apply mem_free_at_wp; [lia|]. split; [by rewrite zlen_upd|].
    intros j. rewrite a3_zget_upd by lia. rewrite Hj. repeat case_bool_decide; (done || lia).
  - intros m' Hc. apply HQ. by replace (start + Z.of_nat n - start) with (Z.of_nat n) in Hc by lia.
Qed.

(* ------------------------------------------------------------------ *)
(** ** Variables                                                       *)
(* ------------------------------------------------------------------ *)

(** A memory of the right size, and the part that holds variables. *)
Record sized (m : slots) : Prop := {
  sz_length : zlen m = LENGTH; sz_frames : 0 <= FRAME_STORE_SIZE; sz_vars : 0 <= VAR_STORE_SIZE
}.
Definition vars (m : slots) : slots := drop (Z.to_nat FRAME_VAR_BORDER) m.
Definition frames (m : slots) : slots := take (Z.to_nat FRAME_VAR_BORDER) m.

Lemma a3_slot_ok m i kv : sized m -> vars m !! i = Some kv -> slot (FRAME_VAR_BORDER + Z.of_nat i) m = Ok kv m [].
Proof.
  intros [H1 H2 H3] H. unfold vars, FRAME_VAR_BORDER in *. rewrite lookup_drop in H.
  unfold slot, bind, get. simpl. rewrite zget_lookup by lia.
  rewrite Z2Nat.inj_add, Nat2Z.id by lia. by rewrite H.
Qed.

Lemma a3_vars_upd m i kv :
  sized m -> (i < length (vars m))%nat ->
  vars (upd (FRAME_VAR_BORDER + Z.of_nat i) kv m) = <[i := kv]> (vars m) /\
  frames (upd (FRAME_VAR_BORDER + Z.of_nat i) kv m) = frames m /\
  0 <= FRAME_VAR_BORDER + Z.of_nat i < zlen m.
Proof.
  intros [H1 H2 H3] Hi. unfold vars, frames, upd, FRAME_VAR_BORDER in *.
  rewrite length_drop in Hi. rewrite Z2Nat.inj_add, Nat2Z.id by lia. split_and!; [| |lia..].
  - apply list_eq. intros j. rewrite lookup_drop. destruct (decide (j = i)) as [->|Hne].
    + rewrite !list_lookup_insert_eq; [done|rewrite length_drop; lia|lia].
    + rewrite !list_lookup_insert_ne by lia. by rewrite lookup_drop.
  - apply take_insert_ge. lia.
Qed.

Lemma vars_count m : sized m -> Z.to_nat (LENGTH - FRAME_VAR_BORDER) = length (vars m).
Proof.
  intros [H1 H2 H3]. unfold vars, LENGTH, FRAME_VAR_BORDER in *. rewrite length_drop. lia.
Qed.

Lemma a3_mem_set_value_wp m k v (Q : unit -> slots -> Prop) :
  sized m ->
  (forall m', sized m' -> vars m' = vset (vars m) k v -> frames m' = frames m -> Q tt m') ->
  wp (mem_set_value k v) Q m.
Proof.
  intros Hm HQ. unfold mem_set_value, vset in *. rewrite (vars_count _ Hm). wp_step.
  assert (forall i w, vars m !! i = Some w -> forall kv,
    sized (upd (FRAME_VAR_BORDER + Z.of_nat i) kv m) /\
    vars (upd (FRAME_VAR_BORDER + Z.of_nat i) kv m) = <[i := kv]> (vars m) /\
    frames (upd (FRAME_VAR_BORDER + Z.of_nat i) kv m) = frames m /\
    0 <= FRAME_VAR_BORDER + Z.of_nat i < zlen m) as Hupd.
  { intros i w Hw kv. apply lookup_lt_Some in Hw. destruct (a3_vars_upd m i kv Hm Hw) as (? & ? & ?).
    split; [|done]. destruct Hm. by split; rewrite ?zlen_upd. }
  apply search_wp; [intros i kv Hi; by apply a3_slot_ok| |].
  - intros i w Hi Hw. rewrite Hi in HQ. destruct (Hupd i _ Hw (k, v)) as (? & ? & ? & Hr).
    destruct (zget_ex m _ Hr) as [kv Hkv].
    assert (kv = (k, w)) as ->.
    { pose proof (a3_slot_ok m i _ Hm Hw) as E. unfold slot, bind, get in E. simpl in E. rewrite Hkv in E.
      by injection E. }
    eapply a3_set_value_wp; [done|]. apply wp_ret. by apply HQ.
  - intros Hn. rewrite Hn in HQ. wp_step.
    apply search_wp; [intros i kv Hi; by apply a3_slot_ok| |].
    + intros i w Hi Hw. rewrite Hi in HQ. destruct (Hupd i _ Hw (k, v)) as (? & ? & ? & Hr).
      apply set_both_wp; [done|]. apply wp_ret. by apply HQ.
    + intros Hn2. rewrite Hn2 in HQ. apply wp_ret. by apply HQ.
Qed.

Lemma a3_mem_get_value_wp m k c (Q : string -> slots -> Prop) :
  sized m ->
  Q (match vget (vars m) k with
     | Some v => v
     | None => if Ascii.eqb c "p" then "Variable does not exist" else ""
     end) m ->
  wp (mem_get_value k c) Q m.
Proof.
  intros Hm HQ. unfold mem_get_value, vget in *. rewrite (vars_count _ Hm). wp_step.
  apply search_wp; [intros i kv Hi; by apply a3_slot_ok| |].
  - intros i v Hi Hv. rewrite Hi in HQ. simpl in HQ. rewrite Hv in HQ. by apply wp_ret, wp_ret.
  - intros Hn. rewrite Hn in HQ. by apply wp_ret.
Qed.

(* ------------------------------------------------------------------ *)
(** ** Allocating a frame                                              *)
(* ------------------------------------------------------------------ *)

Definition none_at (m : slots) (i : Z) : bool :=
  match zget m i with Some kv => streq (fst kv) "none" | None => false end.

(** Three free slots from [i], inside the frame store. *)
Definition room_at (m : slots) (i : Z) : Prop :=
  i + 3 <= FRAME_VAR_BORDER /\ none_at m i = true /\ none_at m (i + 1) = true /\ none_at m (i + 2) = true.

Lemma scan_free_wp m i (Q : Z -> slots -> Prop) :
  sized m -> 0 <= i < FRAME_VAR_BORDER ->
  (forall j, (j = i + 3 <-> room_at m i) -> Q j m) -> wp (scan_free 4 i i) Q m.
Proof.
  intros [H1 H2 H3] Hi HQ. unfold FRAME_VAR_BORDER in *.
  assert (forall n j, (n + Z.to_nat (j - i) = 4)%nat -> i <= j <= i + 3 -> j <= FRAME_STORE_SIZE ->
    (forall q, i <= q < j -> none_at m q = true) -> wp (scan_free n i j) Q m) as Hloop.
  2:{ apply Hloop; [lia|lia|lia|]. intros q Hq. lia. }
  induction n as [|n IH]; intros j Hn Hj Hf Hnone; [lia|]. cbn [scan_free].
  unfold FRAME_VAR_BORDER. destruct ((j <? i + 3) && (j <? FRAME_STORE_SIZE)) eqn:E.
  - apply andb_true_iff in E as [E1 E2]. apply Z.ltb_lt in E1, E2.
    destruct (zget_ex m j) as [kv Hkv]; [unfold LENGTH in *; lia|]. wp_step. eapply a3_slot_wp; [done|].
    destruct (streq (fst kv) "none") eqn:Es; simpl.
    + apply IH; [lia|lia|lia|]. intros q Hq. destruct (decide (q = j)) as [->|]; [|apply Hnone; lia].
      unfold none_at. by rewrite Hkv.
    + apply wp_ret, HQ. split; [lia|]. intros (_ & R0 & R1 & R2).
      assert (none_at m j = false) as Hf' by (unfold none_at; by rewrite Hkv).
      assert (j = i \/ j = i + 1 \/ j = i + 2) as [->|[->| ->]] by lia; congruence.
  - apply wp_ret, HQ. apply andb_false_iff in E. split.
    + intros ->. unfold room_at. unfold FRAME_VAR_BORDER. split_and!; [lia|apply Hnone; lia..].
    + unfold room_at, FRAME_VAR_BORDER. intros (Hr & _). destruct E as [E|E]; apply Z.ltb_ge in E; lia.
Qed.

Definition first_room (m : slots) (i : Z) : Prop :=
  0 <= i /\ room_at m i /\ forall q, 0 <= q < i -> ~ room_at m q.

(** The three slots belong to [pid], with their values unchanged. *)
Definition marked (m m' : slots) (i : Z) (pid : string) (n : Z) : Prop :=
  zlen m' = zlen m /\
  forall j, zget m' j = if bool_decide (i <= j < i + n) then (fun kv => (pid, snd kv)) <$> zget m j else zget m j.

Lemma frame_alloc_wp m pid (Q : option (list Z * list Z) -> slots -> Prop) :
  sized m ->
  ((forall i, 0 <= i -> ~ room_at m i) -> Q None m) ->
  (forall i m', first_room m i -> marked m m' i pid 3 ->
     Q (Some ([i; i + 1; i + 2], [0; 0; 0])) m') ->
  wp (frame_alloc pid) Q m.
Proof.
  intros Hm HN HQ. pose proof Hm as [H1 H2 H3]. unfold frame_alloc.
  apply (wp_for_find
    (fun i m' => m' = m /\ forall q, 0 <= q < i -> ~ room_at m q)
    (fun i r m' => r = ([i; i + 1; i + 2], [0; 0; 0]) /\ first_room m i /\ marked m m' i pid 3)).
  - split; [done|]. intros q Hq. lia.
  - intros i m' Hi [-> Hno]. unfold FRAME_VAR_BORDER in Hi. wp_step.
    apply scan_free_wp; [done|unfold FRAME_VAR_BORDER; lia|]. intros j Hj.
    destruct (Z.eqb_spec j (i + 3)) as [->|Hne].
    + assert (room_at m i) as Hroom by by apply Hj. wp_step.
      assert (i + 3 <= zlen m) by (destruct Hroom as [Hr _]; unfold FRAME_VAR_BORDER, LENGTH in *; lia).
      apply (wp_for_acc (fun k x m' => marked m m' i pid (k - i) /\
        x = ((seqZ i (k - i))%list, replicate (Z.to_nat (k - i)) 0))).
      * rewrite Z.sub_diag. split; [|done]. split; [done|]. intros j'. by rewrite bool_decide_eq_false_2 by lia.
      * intros k [index valid] m' Hk [[Hl Hmk] [= -> ->]].
        destruct (zget_ex m k) as [kv Hkv]; [lia|].
        wp_step. eapply a3_set_var_wp; [rewrite Hmk; by rewrite bool_decide_eq_false_2 by lia|].
        apply wp_ret. split; [split; [by rewrite zlen_upd|]|].
        -- intros j'. rewrite a3_zget_upd by lia. rewrite Hmk. repeat case_bool_decide; subst; try lia; try done.
           by rewrite Hkv.
        -- replace (k + 1 - i) with (k - i + 1) by lia. rewrite seqZ_app by lia. simpl.
           replace (i + (k - i)) with k by lia. f_equal.
           replace (Z.to_nat (k - i + 1)) with (Z.to_nat (k - i) + 1)%nat by lia.
           by rewrite replicate_add.
      * intros x m' [Hmk ->]. apply wp_ret. replace (i + Z.of_nat 3 - i) with 3 in * by lia.
        split; [|split; [|done]].
        -- unfold seqZ. cbn [fmap list_fmap seq Z.to_nat replicate].
           change (replicate (Z.to_nat 3) 0) with [0; 0; 0]. simpl.
           rewrite (Z.add_comm _ i), (Z.add_comm (Z.of_nat 1)), (Z.add_comm (Z.of_nat 2)).
           change (Z.of_nat 0) with 0. by rewrite Z.add_0_r.
        -- split; [lia|done].
    + apply wp_ret. split; [done|]. intros q Hq. destruct (decide (q = i)) as [->|]; [|apply Hno; lia].
      intros Hr. by apply Hne, Hj.
  - intros i r m' Hi (-> & Hf & Hmk). by apply HQ.
  - intros m' [-> Hno]. apply HN. intros i Hi Hr. apply (Hno i); [|done].
    destruct Hr as [Hr _]. unfold FRAME_VAR_BORDER in *. lia.
Qed.
End sizes.

(* ------------------------------------------------------------------ *)
(** ** Properties                                                      *)
(* ------------------------------------------------------------------ *)

(** The variables of the third shell are those of the specification,
    and setting one leaves the frames alone; an unknown variable reads as
    the message for print and as the empty string for echo. *)
Theorem a3_variables fsize vsize m k v caller :
  sized fsize vsize m ->
  (exists m', mem_set_value fsize vsize k v m = Ok tt m' [] /\ sized fsize vsize m' /\
     vars fsize m' = vset (vars fsize m) k v /\ frames fsize m' = frames fsize m) /\
  mem_get_value fsize vsize k caller m
  = Ok (match vget (vars fsize m) k with
        | Some v => v
        | None => if Ascii.eqb caller "p" then "Variable does not exist" else ""
        end) m [].
Proof.
  intros Hm. split.
  - assert (wp (mem_set_value fsize vsize k v) (fun _ m' => sized fsize vsize m' /\
      vars fsize m' = vset (vars fsize m) k v /\ frames fsize m' = frames fsize m) m) as H
      by by apply a3_mem_set_value_wp.
    apply wp_Ok in H as ([] & m' & E & H). by exists m'.
  - match goal with |- _ = Ok ?r _ _ =>
      assert (wp (mem_get_value fsize vsize k caller) (fun x m' => x = r /\ m' = m) m) as H end.
    { by eapply a3_mem_get_value_wp. }
    by apply wp_Ok in H as (r & m' & E & -> & ->).
Qed.

Lemma a3_variables_witness :
  (exists m', mem_set_value 3 2 "x" "1" (replicate 5 ("none", "none")) = Ok tt m' [] /\ sized 3 2 m' /\
     vars 3 m' = vset (vars 3 (replicate 5 ("none", "none"))) "x" "1" /\
     frames 3 m' = frames 3 (replicate 5 ("none", "none"))) /\
  mem_get_value 3 2 "x" "p" (replicate 5 ("none", "none"))
  = Ok "Variable does not exist" (replicate 5 ("none", "none")) [].
Proof. by apply (a3_variables 3 2 (replicate 5 ("none", "none")) "x" "1" "p"). Defined.

(** Frame_alloc takes the first three consecutive free slots of the
    frame store, wherever they start, and fails without a change exactly
    when there are none. *)
Theorem frame_alloc_first_fit fsize vsize m pid :
  sized fsize vsize m ->
  (frame_alloc fsize pid m = Ok None m [] /\ forall i, 0 <= i -> ~ room_at fsize m i) \/
  exists i m', frame_alloc fsize pid m = Ok (Some ([i; i + 1; i + 2], [0; 0; 0])) m' [] /\
    first_room fsize m i /\ marked m m' i pid 3.
Proof.
  intros Hm.
  assert (wp (frame_alloc fsize pid) (fun r m' =>
    (r = None /\ m' = m /\ forall i, 0 <= i -> ~ room_at fsize m i) \/
    exists i, r = Some ([i; i + 1; i + 2], [0; 0; 0]) /\ first_room fsize m i /\ marked m m' i pid 3) m) as H.
  { eapply frame_alloc_wp; [done| |]; intros; [by left|right; by eexists]. }
  apply wp_Ok in H as (r & m' & E & [(-> & -> & H)|(i & -> & H)]); [by left|right]. by exists i, m'.
Qed.

Lemma frame_alloc_first_fit_witness :
  let m := [("1", "a"); ("none", "none"); ("none", "none"); ("none", "none"); ("x", "2")] in
  (frame_alloc 4 "7" m = Ok None m [] /\ forall i, 0 <= i -> ~ room_at 4 m i) \/
  exists i m', frame_alloc 4 "7" m = Ok (Some ([i; i + 1; i + 2], [0; 0; 0])) m' [] /\
    first_room 4 m i /\ marked m m' i "7" 3.
Proof. by apply (frame_alloc_first_fit 4 1). Defined.
End A3Memory.
