(* ===== verification/Kernel3.v ===== *)
(** * Kernel3: processes of the third shell (a3/pcb.c, a3/cpu.c,
    a3/kernel.c)

    The kernel works on the memory of A3Memory.v and on three lists of
    LinkedList.v whose data are addresses of PCBs (the ready queue and
    the list of all processes) and of pages (the LRU cache).  Executing a
    line calls parseInput, the argument [parse] here. *)
From S2P Require Import Prelude CString VarSpec Words LinkedList A3Memory.
From Stdlib Require Import Ascii.

Module Kernel3.
Import VarSpec.
Open Scope string_scope. Open Scope Z_scope.

Abbreviation loc := positive.

(** pcb.h *)
Record PAGE := mkPAGE {
  index : list Z; valid_bit : list Z; page_index : Z; page_pid : Z
}.
Record PCB := mkPCB {
  pid : Z; size : Z; program_counter : list Z; page_table : list loc;
  page_table_size : Z; source_file : option FILE
}.

(** The comparison functions a list can hold. *)
Inductive equality := PCB_equal | PAGE_equal.

(** The globals of kernel.c and shellmemory.c, the heap, the files of the
    host; and [outer], the state of the rest of the shell, which the
    kernel leaves alone but the commands it runs do not. *)
Record kern {R : Type} := mkKern {
  memory : slots;
  heap : @LinkedList.heap equality;
  pcbs : gmap loc PCB;
  pages : gmap loc PAGE;
  QUEUE : loc;
  LRU_CACHE : loc;
  ALL_PCB : loc;
  PID_counter : Z;
  files : gmap string string;
  fresh : loc;
  outer : R
}.
Arguments kern : clear implicits.
Arguments mkKern {R}.

Section access.
Context {R : Type}.

Definition on_memory {A} (m : M slots A) : M (kern R) A :=
  zoom memory (fun x k => mkKern x (heap k) (pcbs k) (pages k) (QUEUE k) (LRU_CACHE k) (ALL_PCB k)
                                 (PID_counter k) (files k) (fresh k) (outer k)) m.
Definition on_lists {A} (m : M (@LinkedList.heap equality) A) : M (kern R) A :=
  zoom heap (fun x k => mkKern (memory k) x (pcbs k) (pages k) (QUEUE k) (LRU_CACHE k) (ALL_PCB k)
                               (PID_counter k) (files k) (fresh k) (outer k)) m.
Definition set_pcbs (m : gmap loc PCB) : M (kern R) unit :=
  modify (fun k => mkKern (memory k) (heap k) m (pages k) (QUEUE k) (LRU_CACHE k) (ALL_PCB k)
                          (PID_counter k) (files k) (fresh k) (outer k)).
Definition set_pages (m : gmap loc PAGE) : M (kern R) unit :=
  modify (fun k => mkKern (memory k) (heap k) (pcbs k) m (QUEUE k) (LRU_CACHE k) (ALL_PCB k)
                          (PID_counter k) (files k) (fresh k) (outer k)).
Definition malloc : M (kern R) loc :=
  let! k := get in
  put (mkKern (memory k) (heap k) (pcbs k) (pages k) (QUEUE k) (LRU_CACHE k) (ALL_PCB k)
              (PID_counter k) (files k) (Pos.succ (fresh k)) (outer k)) ;;
  ret (fresh k).

Definition get_pcb (p : loc) : M (kern R) PCB := let! k := get in need (pcbs k !! p).
Definition put_pcb (p : loc) (x : PCB) : M (kern R) unit :=
  let! k := get in set_pcbs (<[p := x]> (pcbs k)).
Definition get_page (p : loc) : M (kern R) PAGE := let! k := get in need (pages k !! p).
Definition put_page (p : loc) (x : PAGE) : M (kern R) unit :=
  let! k := get in set_pages (<[p := x]> (pages k)).
Definition with_source (f : FILE) (x : PCB) : PCB :=
  mkPCB (pid x) (size x) (program_counter x) (page_table x) (page_table_size x) (Some f).

End access.

Section kernel.
Context {R : Type}.
Variables FRAME_STORE_SIZE VAR_STORE_SIZE : Z.
Variable parse : string -> M (kern R) Z.

Abbreviation frame_alloc := (A3Memory.frame_alloc FRAME_STORE_SIZE).
Abbreviation printShellMemory := (A3Memory.printShellMemory FRAME_STORE_SIZE VAR_STORE_SIZE).

(* ------------------------------------------------------------------ *)
(** ** pcb.c                                                           *)
(* ------------------------------------------------------------------ *)

(** The loop of count_lines: the count and the last character. *)
Definition count_step (x : Z * ascii) (c : ascii) : Z * ascii :=
  let '(count, last) := x in
  (if Ascii.eqb c LF && negb (Ascii.eqb last LF) then count + 1 else count, c).
Definition count_lines (file : option string) : Z :=
  match file with
  | None => -1
  | Some content => fst (foldl count_step (0, LF) (chars content)) + 1
  end.

Definition PAGE_table_size (lines : Z) : Z :=
  if Z.rem lines 3 =? 0 then Z.quot lines 3 else Z.quot lines 3 + 1.

Definition PAGE_init (pid table_index : Z) : M (kern R) loc :=
  let! p := malloc in
  put_page p (mkPAGE [1000; 1000; 1000] [0; 0; 0] table_index pid) ;;
  ret p.

(** The loop that fills the frames of a page from the source file, up to
    its end: shared by PCB_init and load_PAGE. *)
Definition fill_page (pcb page : loc) (pid_str : string) : M (kern R) unit :=
  for_find 3 0 (fun j =>
    let! x := get_pcb pcb in
    let! f := need (source_file x) in
    let '(line, f') := fgets 999 f in
    put_pcb pcb (with_source f' x) ;;
    match line with
    | None => ret (Some tt)
    | Some line =>
        let! pg := get_page page in
        let! pos := need (zget (index pg) j) in
        on_memory (A3Memory.mem_set_value_at pos pid_str line) ;;
        let! v := need (zset (valid_bit pg) j 1) in
        put_page page (mkPAGE (index pg) v (page_index pg) (page_pid pg)) ;;
        ret None
    end) ;;
  ret tt.

Definition load_PAGE (pcb : loc) (i : Z) : M (kern R) Z :=
  let! x := get_pcb pcb in
  let! page := need (zget (page_table x) i) in
  let! pid_str := into 10 (pretty (pid x)) in
  let! r := on_memory (frame_alloc pid_str) in
  match r with
  | None => ret 1
  | Some (idx, valid) =>
      let! pg := get_page page in
      put_page page (mkPAGE idx valid (page_index pg) (page_pid pg)) ;;
      fill_page pcb page pid_str ;;
      ret 0
  end.

Definition min2 (n : Z) : Z := if n <? 2 then n else 2.

Definition PCB_init (PID : Z) (script : string) : M (kern R) loc :=
  let! new_PCB := malloc in
  let! k := get in
  let file := files k !! script in
  let size := count_lines file in
  let pts := PAGE_table_size size in
  let! table := for_acc (Z.to_nat pts) 0 (fun i t => let! p := PAGE_init PID i in ret ((t ++ [p])%list)) [] in
  match file with
  | None => print ("File not found: " +:+ script +:+ nl) ;; exit_with 99
  | Some content =>
      put_pcb new_PCB (mkPCB PID size (replicate (Z.to_nat pts) 0) table pts (Some (mkFILE content false))) ;;
      for_ (Z.to_nat (min2 pts)) 0 (fun i =>
        let! r := load_PAGE new_PCB i in
        when (r =? 1)
          (on_memory printShellMemory ;; print ("frame_alloc failed" +:+ nl) ;; exit_with 99)) ;;
      ret new_PCB
  end.

Definition free_PCB (pcb : loc) : M (kern R) unit :=
  let! x := get_pcb pcb in
  need (source_file x) ;;
  for_ (Z.to_nat (page_table_size x)) 0 (fun i =>
    let! page := need (zget (page_table x) i) in
    for_ 3 0 (fun j =>
      let! pg := get_page page in
      let! pos := need (zget (index pg) j) in
      on_memory (A3Memory.clear_frame pos)) ;;
    let! k := get in
    set_pages (delete page (pages k))) ;;
  let! k := get in
  set_pcbs (delete pcb (pcbs k)).

Definition PAGE_evict (pcb : loc) (i : Z) : M (kern R) unit :=
  print ("Page fault! Victim page contents:" +:+ nl) ;;
  for_ 3 0 (fun j =>
    let! x := get_pcb pcb in
    let! page := need (zget (page_table x) i) in
    let! pg := get_page page in
    let! pos := need (zget (index pg) j) in
    let! line := on_memory (A3Memory.mem_get_value_at pos) in
    print line ;;
    on_memory (A3Memory.mem_free_at pos) ;;
    let! idx := need (zset (index pg) j 0) in
    let! valid := need (zset (valid_bit pg) j 0) in
    put_page page (mkPAGE idx valid (page_index pg) (page_pid pg))) ;;
  print ("End of victim page contents." +:+ nl).

(** PCB_equal and PAGE_equal, on the objects the pointers lead to. *)
Definition call_equal (k : kern R) (e : equality) (p q : loc) : option bool :=
  match e with
  | PCB_equal => x ← pcbs k !! p; y ← pcbs k !! q; Some (pid x =? pid y)
  | PAGE_equal =>
      x ← pages k !! p; y ← pages k !! q;
      i ← zget (index x) 0; j ← zget (index y) 0; Some (i =? j)
  end.

(** [inr] is the return from the loop. *)
Definition PCB_done (pcb : loc) : M (kern R) bool :=
  let! x := get_pcb pcb in
  let! r := for_find (Z.to_nat (page_table_size x)) 0 (fun i =>
    let! n := need (zget (program_counter x) i) in
    ret (if negb (n =? 3) then Some tt else None)) in
  ret (match r with Some _ => false | None => true end).

(* ------------------------------------------------------------------ *)
(** ** cpu.c                                                           *)
(* ------------------------------------------------------------------ *)

(** The pointers are to slot [j] of page [i] of the process, to its
    program counter of that page and to its size. *)
Definition cpu_run (pcb : loc) (i j : Z) : M (kern R) Z :=
  let! x := get_pcb pcb in
  let! page := need (zget (page_table x) i) in
  let! pg := get_page page in
  let! v := need (zget (valid_bit pg) j) in
  if v =? 0 then ret 1
  else
    let! pos := need (zget (index pg) j) in
    let! line := on_memory (A3Memory.mem_get_value_at pos) in
    let! r := parse line in
    let! x := get_pcb pcb in
    let! n := need (zget (program_counter x) i) in
    let! pc := need (zset (program_counter x) i (n + 1)) in
    put_pcb pcb (mkPCB (pid x) (size x - 1) pc (page_table x) (page_table_size x) (source_file x)) ;;
    ret r.

Definition proc_done (pcb : loc) : M (kern R) bool :=
  let! x := get_pcb pcb in ret (if 0 <? size x then false else true).

(* ------------------------------------------------------------------ *)
(** ** kernel.c                                                        *)
(* ------------------------------------------------------------------ *)

Definition kernel_setup : M (kern R) unit :=
  let! q := malloc in on_lists (LinkedList.list_init q PCB_equal) ;;
  let! c := malloc in on_lists (LinkedList.list_init c PAGE_equal) ;;
  let! a := malloc in on_lists (LinkedList.list_init a PCB_equal) ;;
  modify (fun k => mkKern (memory k) (heap k) (pcbs k) (pages k) q c a (PID_counter k) (files k) (fresh k) (outer k)).

(** The data a list returns, used as a pointer. *)
Definition pop (m : M (@LinkedList.heap equality) (option loc)) : M (kern R) loc :=
  let! r := on_lists m in need r.

(** The search for the owner of the victim page goes through ALL_PCB but
    compares with the dummy tail of QUEUE. *)
Definition find_owner (victim : PAGE) : M (kern R) loc :=
  let! k := get in
  let! q := on_lists (LinkedList.get_list (QUEUE k)) in
  let! a := on_lists (LinkedList.get_list (ALL_PCB k)) in
  let! h := on_lists (LinkedList.get_node (LinkedList.dummy_head a)) in
  let! r := while_ (S (S (base.size (LinkedList.nodes (heap k))))) (fun curr =>
    if bool_decide (curr = Some (LinkedList.dummy_tail q)) then ret (inr curr)
    else
      let! p := need curr in
      let! n := on_lists (LinkedList.get_node p) in
      let! d := need (LinkedList.data n) in
      let! x := get_pcb d in
      if negb (pid x =? page_pid victim) then ret (inl (LinkedList.next_ n)) else ret (inr curr))
    (LinkedList.next_ h) in
  match r with
  | None => print ("cannot find PCB to be deleted" +:+ nl) ;; exit_with 99
  | Some p => let! n := on_lists (LinkedList.get_node p) in need (LinkedList.data n)
  end.

Definition run_proc (pcb : loc) (i j : Z) : M (kern R) Z :=
  let! r := cpu_run pcb i j in
  let! k := get in
  if r =? 1 then
    let! f := load_PAGE pcb i in
    when (f =? 1)
      (let! v := pop (LinkedList.pop_tail (LRU_CACHE k)) in
       let! victim := get_page v in
       let! owner := find_owner victim in
       PAGE_evict owner (page_index victim) ;;
       load_PAGE pcb i ;; ret tt) ;;
    let! x := get_pcb pcb in
    let! page := need (zget (page_table x) i) in
    on_lists (LinkedList.add_head page (LRU_CACHE k)) ;;
    on_lists (LinkedList.add_tail pcb (QUEUE k)) ;;
    ret 1
  else
    let! x := get_pcb pcb in
    let! page := need (zget (page_table x) i) in
    let! k := get in
    let! d := pop (LinkedList.remove_elem (call_equal k) page (LRU_CACHE k)) in
    on_lists (LinkedList.add_head d (LRU_CACHE k)) ;;
    ret 0.

Definition new_proc (script : string) : M (kern R) Z :=
  let! k := get in
  modify (fun k => mkKern (memory k) (heap k) (pcbs k) (pages k) (QUEUE k) (LRU_CACHE k) (ALL_PCB k)
                          (PID_counter k + 1) (files k) (fresh k) (outer k)) ;;
  let! new_PCB := PCB_init (PID_counter k) script in
  on_lists (LinkedList.add_tail new_PCB (ALL_PCB k)) ;;
  let! r := on_lists (LinkedList.add_tail new_PCB (QUEUE k)) in
  if negb (r =? 0) then ret 1
  else
    let! x := get_pcb new_PCB in
    for_ (Z.to_nat (min2 (page_table_size x))) 0 (fun i =>
      let! page := need (zget (page_table x) i) in
      on_lists (LinkedList.add_head page (LRU_CACHE k)) ;; ret tt) ;;
    ret 0.

(** The first slot whose valid bit is set, from slot [j] of page [i]. *)
Definition first_valid (pcb : loc) : M (kern R) (Z * Z) :=
  let! x := get_pcb pcb in
  while_ (S (3 * length (page_table x))) (fun '(i, j) =>
    let! page := need (zget (page_table x) i) in
    let! pg := get_page page in
    let! v := need (zget (valid_bit pg) j) in
    ret (if v =? 0 then inl (if j <? 2 then (i, j + 1) else (i + 1, 0)) else inr (i, j))) (0, 0).

Definition run_proc_FIFO (fuel : nat) : M (kern R) Z :=
  let! k := get in
  while_ fuel (fun _ =>
    let! q := on_lists (LinkedList.get_list (QUEUE k)) in
    if negb (0 <? LinkedList.size_ q) then ret (inr tt)
    else
      let! curr := pop (LinkedList.pop_head (QUEUE k)) in
      while_ fuel (fun _ =>
        let! d := proc_done curr in
        if d : bool then ret (inr tt)
        else
          let! ij := first_valid curr in
          run_proc curr (fst ij) (snd ij) ;; ret (inl tt)) tt ;;
      free_PCB curr ;;
      ret (inl tt)) tt ;;
  ret 0.

Definition queue_done : M (kern R) bool :=
  let! k := get in
  let! q := on_lists (LinkedList.get_list (QUEUE k)) in
  let! h := on_lists (LinkedList.get_node (LinkedList.dummy_head q)) in
  while_ (S (S (base.size (LinkedList.nodes (heap k))))) (fun curr =>
    let! p := need curr in
    let! b := on_lists (LinkedList.has_next p) in
    if b : bool then
      let! r := on_lists (LinkedList.next curr) in
      let! d := need (fst r) in
      let! e := PCB_done d in
      if e : bool then ret (inl (snd r)) else ret (inr false)
    else ret (inr true)) (LinkedList.next_ h).

(** The first page whose program counter is not 3, run at that counter. *)
Definition run_next (pcb : loc) : M (kern R) Z :=
  let! x := get_pcb pcb in
  let! r := for_find (Z.to_nat (page_table_size x)) 0 (fun i =>
    let! n := need (zget (program_counter x) i) in
    ret (if negb (n =? 3) then Some i else None)) in
  let i := default (Z.max 0 (page_table_size x)) r in
  let! j := need (zget (program_counter x) i) in
  run_proc pcb i j.

Definition RR_turn : M (kern R) unit :=
  let! k := get in
  let! curr := pop (LinkedList.pop_head (QUEUE k)) in
  let! x := get_pcb curr in
  if 1 <? size x then
    let! r := run_next curr in
    if r =? 1 then ret tt
    else
      let! r := run_next curr in
      if r =? 1 then ret tt
      else on_lists (LinkedList.add_tail curr (QUEUE k)) ;; ret tt
  else if size x =? 1 then run_next curr ;; ret tt
  else ret tt.

Definition free_all (k : kern R) : M (kern R) unit :=
  let! a := on_lists (LinkedList.get_list (ALL_PCB k)) in
  let! h := on_lists (LinkedList.get_node (LinkedList.dummy_head a)) in
  while_ (S (S (base.size (LinkedList.nodes (heap k))))) (fun curr =>
    let! p := need curr in
    let! b := on_lists (LinkedList.has_next p) in
    if b : bool then
      let! r := on_lists (LinkedList.next curr) in
      let! d := need (fst r) in
      free_PCB d ;;
      ret (inl (snd r))
    else ret (inr tt)) (LinkedList.next_ h).

Definition run_proc_RR (fuel : nat) : M (kern R) Z :=
  while_ fuel (fun _ =>
    let! d := queue_done in
    if d : bool then ret (inr tt) else RR_turn ;; ret (inl tt)) tt ;;
  let! k := get in
  free_all k ;;
  on_lists (LinkedList.list_clear (QUEUE k)) ;;
  on_lists (LinkedList.list_clear (LRU_CACHE k)) ;;
  on_lists (LinkedList.list_clear (ALL_PCB k)) ;;
  ret 0.
End kernel.

(* ------------------------------------------------------------------ *)
(** ** Properties                                                      *)
(* ------------------------------------------------------------------ *)

(** Lines separated by newlines, none after the last. *)
Fixpoint separated (ls : list string) : string :=
  match ls with
  | [] => EmptyString
  | [l] => l
  | l :: ls' => l +:+ nl +:+ separated ls'
  end.

(** A kernel with [f] frame slots and [v] variable slots before
    kernel_setup. *)
Definition script (name : string) (n : nat) : list string :=
  map (fun i => name +:+ pretty (Z.of_nat i)) (seq 1 n).
Definition boot (f v : nat) : kern unit :=
  mkKern (replicate (f + v) ("none", "none")) (LinkedList.mkHeap ∅ ∅ 1) ∅ ∅ 1 1 1 1
    (list_to_map [("a", separated (script "a" 7)); ("b", separated (script "b" 2));
                  ("six", separated (script "s" 6))]) 100 tt.
(** Executing a line prints it; the line "s2" returns [code]. *)
Definition show (code : Z) (line : string) : M (kern unit) Z :=
  print line ;; ret (if streq line ("s2" +:+ nl) then code else 0).
Definition run_demo (f v : nat) (code : Z) (names : list string) : M (kern unit) Z :=
  foldr (fun n m => new_proc (Z.of_nat f) (Z.of_nat v) n ;; m) (run_proc_RR (Z.of_nat f) (show code) 100) names.
Definition events {A} (r : outcome (kern unit) A) : option (list event) :=
  match r with Ok _ _ tr => Some tr | _ => None end.

(** A line that count_lines sees: not empty, no newline in it. *)
Definition full_line (l : string) : Prop := l <> EmptyString /\ has_lf l = false.

Lemma chars_app a b : chars (a +:+ b) = (chars a ++ chars b)%list.
Proof. induction a as [|c a IH]; [done|]. change (c :: chars (a +:+ b) = (c :: chars a ++ chars b)%list). by rewrite IH. Qed.

Lemma count_line l n c :
  full_line l -> exists d, foldl count_step (n, c) (chars l) = (n, d) /\ Ascii.eqb d LF = false.
Proof.
  intros [Hne Hl]. revert c Hne. induction l as [|d l IH]; intros c Hne; [done|].
  simpl in Hl. apply orb_false_iff in Hl as [Hd Hl]. simpl. rewrite Hd. simpl.
  destruct l as [|e l]; [by exists d|]. by apply IH.
Qed.

Lemma count_step_lf n d : Ascii.eqb d LF = false -> count_step (n, d) LF = (n + 1, LF).
Proof. intros H. unfold count_step. by rewrite Ascii.eqb_refl, H. Qed.

Lemma count_unlines ls n :
  Forall full_line ls -> foldl count_step (n, LF) (chars (unlines ls)) = (n + zlen ls, LF).
Proof.
  intros H. revert n. induction H as [|l ls Hl H IH]; intros n; [by rewrite Z.add_0_r|].
  cbn [unlines]. rewrite chars_app, foldl_app. destruct (count_line l n LF Hl) as (d & -> & Hd).
  cbn [chars foldl]. rewrite count_step_lf by done. rewrite IH. f_equal. simpl. lia.
Qed.

(** Count_lines is the number of lines when the last one has no
    newline, and one more when it has: on a script that ends with a
    newline, as text files do, the process is given a line that does not
    exist. *)
Theorem count_lines_needs_open_last_line ls :
  Forall full_line ls -> ls <> [] ->
  count_lines (Some (separated ls)) = zlen ls /\ count_lines (Some (unlines ls)) = zlen ls + 1.
Proof.
  intros H Hne. unfold count_lines. rewrite count_unlines by done. split; [|done].
  destruct (exists_last (l := ls) Hne) as (ks & l & ->). apply Forall_app in H as [Hk Hl].
  inversion Hl as [|? ? Hl1 _]; subst.
  assert (separated (ks ++ [l])%list = unlines ks +:+ l) as ->.
  { clear. induction ks as [|k ks IH]; [done|].
    assert (separated ((k :: ks) ++ [l])%list = k +:+ nl +:+ separated (ks ++ [l])%list) as -> by by destruct ks.
    rewrite IH. cbn [unlines]. rewrite Words.app_assoc_s. done. }
  rewrite chars_app, foldl_app, count_unlines by done.
  destruct (count_line l (0 + zlen ks) LF Hl1) as (d & -> & _). rewrite length_app. simpl. lia.
Qed.

Lemma count_lines_needs_open_last_line_witness :
  count_lines (Some (separated ["print x"; "echo y"])) = 2 /\
  count_lines (Some (unlines ["print x"; "echo y"])) = 3.
Proof. apply (count_lines_needs_open_last_line ["print x"; "echo y"]); [by repeat constructor|done]. Defined.

(** The page table is just large enough: three lines a page, no page
    empty. *)
Theorem page_table_size_exact lines :
  0 <= lines ->
  3 * PAGE_table_size lines - 3 < lines <= 3 * PAGE_table_size lines \/
  (lines = 0 /\ PAGE_table_size lines = 0).
Proof.
  intros H. unfold PAGE_table_size. rewrite Z.rem_mod_nonneg, Z.quot_div_nonneg by lia.
  case_match; Z.to_euclidean_division_equations; lia.
Qed.

Lemma page_table_size_exact_witness :
  3 * PAGE_table_size 7 - 3 < 7 <= 3 * PAGE_table_size 7 \/ (7 = 0 /\ PAGE_table_size 7 = 0).
Proof. apply page_table_size_exact. lia. Defined.

(** Round robin: two lines of each process in turn until all are done. *)
Theorem rr3_alternates :
  events ((kernel_setup ;; run_demo 18 4 0 ["a"; "b"]) (boot 18 4))
  = Some (map Print ["a1" +:+ nl; "a2" +:+ nl; "b1" +:+ nl; "b2"; "a3" +:+ nl; "a4" +:+ nl; "a5" +:+ nl; "a6" +:+ nl; "a7"]).
Proof. by vm_compute. Qed.

(** Demand paging: with six frame slots the third page of a process
    faults, the least recently used page is printed and evicted, and the
    process runs to its end. *)
Theorem page_fault_evicts_lru :
  events ((kernel_setup ;; run_demo 6 4 0 ["a"]) (boot 6 4))
  = Some (map Print (["a1" +:+ nl; "a2" +:+ nl; "a3" +:+ nl; "a4" +:+ nl; "a5" +:+ nl; "a6" +:+ nl;
      "Page fault! Victim page contents:" +:+ nl; "a1" +:+ nl; "a2" +:+ nl; "a3" +:+ nl;
      "End of victim page contents." +:+ nl; "a7"])%list).
Proof. by vm_compute. Qed.

(** Free_PCB clears a frame from each of the three slots of a page,
    so it clears two slots too many: when the last frame of the store
    belonged to the process, the first two shell variables are erased. *)
Theorem finished_process_erases_variables :
  exists k, (kernel_setup ;;
   on_memory (A3Memory.mem_set_value 6 4 "x" "1") ;;
   run_demo 6 4 0 ["six"] ;;
   on_memory (A3Memory.mem_get_value 6 4 "x" "p")) (boot 6 4)
  = Ok "Variable does not exist" k (map Print ["s1" +:+ nl; "s2" +:+ nl; "s3" +:+ nl; "s4" +:+ nl; "s5" +:+ nl; "s6"]).
Proof. eexists. by vm_compute. Qed.

(** A command that returns 1 is taken for a page fault: its page is
    loaded again from where the file was left, here its end, and the
    line after it is lost. *)
Theorem failing_command_drops_page :
  exists k pg, (kernel_setup ;; new_proc 18 4 "six" ;; RR_turn 18 (show 1)) (boot 18 4)
  = Ok tt k [Print ("s1" +:+ nl); Print ("s2" +:+ nl)] /\
    pages k !! 104%positive = Some pg /\ page_index pg = 0 /\ valid_bit pg = [0; 0; 0].
Proof. do 2 eexists. split; [by vm_compute|]. split; [by vm_compute|]. done. Qed.
End Kernel3.
