(* ===== verification/Kernel3Props.v ===== *)
(** * Kernel3Props: what loading, evicting and freeing the pages of a
    process does to the memory of the third shell

    The properties of load_PAGE, PAGE_evict and free_PCB (a3/pcb.c), as
    modelled in Kernel3.v, for every process and every memory. *)
From S2P Require Import Prelude CString VarSpec Words LinkedList A3Memory Kernel3.
From Stdlib Require Import Ascii.

Module Kernel3Props.
Import VarSpec Kernel3.
Open Scope string_scope. Open Scope Z_scope.

Section props.
Context {R : Type}.

(** The state with another memory, PCBs and pages. *)
Definition upd_kern (k : kern R) (m : slots) (ps : gmap loc PCB) (gs : gmap loc PAGE) : kern R :=
  mkKern m (heap k) ps gs (QUEUE k) (LRU_CACHE k) (ALL_PCB k) (PID_counter k) (files k) (fresh k) (outer k).
(** Two states that differ in those at most. *)
Definition same_rest (k k' : kern R) : Prop := k' = upd_kern k (memory k') (pcbs k') (pages k').

Lemma same_rest_refl k : same_rest k k.
Proof. by destruct k. Qed.

Lemma get_pcb_wp k p x (Q : PCB -> kern R -> Prop) :
  pcbs k !! p = Some x -> Q x k -> wp (get_pcb p) Q k.
Proof. intros Hp HQ. unfold get_pcb. by wp_steps. Qed.
Lemma get_page_wp k p x (Q : PAGE -> kern R -> Prop) :
  pages k !! p = Some x -> Q x k -> wp (get_page p) Q k.
Proof. intros Hp HQ. unfold get_page. by wp_steps. Qed.
Lemma put_pcb_wp k p x (Q : unit -> kern R -> Prop) :
  Q tt (upd_kern k (memory k) (<[p := x]> (pcbs k)) (pages k)) -> wp (put_pcb p x) Q k.
Proof. intros HQ. unfold put_pcb, set_pcbs. by wp_steps. Qed.
Lemma put_page_wp k p x (Q : unit -> kern R -> Prop) :
  Q tt (upd_kern k (memory k) (pcbs k) (<[p := x]> (pages k))) -> wp (put_page p x) Q k.
Proof. intros HQ. unfold put_page, set_pages. by wp_steps. Qed.
Lemma on_memory_wp {A} k (m : M slots A) (Q : A -> kern R -> Prop) :
  wp m (fun a x => Q a (upd_kern k x (pcbs k) (pages k))) (memory k) -> wp (on_memory m) Q k.
Proof. intros H. unfold on_memory. by apply wp_zoom. Qed.

(* ------------------------------------------------------------------ *)
(** ** Freeing a process                                               *)
(* ------------------------------------------------------------------ *)

(** Page [p] is in the three slots from [i]. *)
Definition page_at (k : kern R) (p : loc) (i : Z) : Prop :=
  exists pg, pages k !! p = Some pg /\ index pg = [i; i + 1; i + 2].

Lemma cleared_cleared m m1 m2 i n :
  2 <= n -> A3Memory.cleared m m1 i n -> A3Memory.cleared m1 m2 (i + n - 2) 3 ->
  A3Memory.cleared m m2 i (n + 1).
Proof.
  intros Hn [H1 H2] [H3 H4]. split; [lia|]. intros j. rewrite H4, H2.
  repeat case_bool_decide; (done || lia).
Qed.

(** Clearing a frame from each slot of a page. *)
Lemma free_frames_wp k p i (Q : unit -> kern R -> Prop) :
  page_at k p i -> 0 <= i -> i + 5 <= zlen (memory k) ->
  (forall m, A3Memory.cleared (memory k) m i 5 -> Q tt (upd_kern k m (pcbs k) (pages k))) ->
  wp (for_ 3 0 (fun j =>
        let! pg := get_page p in
        let! pos := need (zget (index pg) j) in
        on_memory (A3Memory.clear_frame pos))) Q k.
Proof.
  intros (pg & Hp & Hidx) Hi Hlen HQ.
  apply (wp_for (fun j k' => exists m, k' = upd_kern k m (pcbs k) (pages k) /\
    A3Memory.cleared (memory k) m i (if j =? 0 then 0 else j + 2))).
  - exists (memory k). split; [by destruct k|]. split; [done|]. intros q.
    by rewrite bool_decide_eq_false_2 by (simpl; lia).
  - intros j k' Hj (m & -> & Hm). wp_step. eapply get_page_wp; [exact Hp|]. wp_step.
    eapply (wp_need _ (i + j)).
    { rewrite Hidx. assert (j = 0 \/ j = 1 \/ j = 2) as [->|[->| ->]] by lia; by rewrite ?Z.add_0_r. }
    apply on_memory_wp. simpl. apply A3Memory.clear_range_wp; [lia|destruct Hm; lia|].
    intros m' Hm'. exists m'. split; [done|]. rewrite (proj2 (Z.eqb_neq (j + 1) 0)) by lia.
    destruct (Z.eqb_spec j 0) as [->|Hne].
    + rewrite Z.add_0_r in Hm'. destruct Hm as [H1 H2], Hm' as [H3 H4]. split; [lia|].
      intros q. rewrite H4, H2. repeat case_bool_decide; (done || lia).
    + replace (j + 1 + 2) with (j + 2 + 1) by lia. eapply cleared_cleared; [lia|done|].
      by replace (i + (j + 2) - 2) with (i + j) by lia.
  - intros k' (m & -> & Hm). by apply HQ.
Qed.

(** Slot [j] is one of the five from some frame of [fs]. *)
Definition hit (fs : list Z) (j : Z) : bool := existsb (fun f => (f <=? j) && (j <? f + 5)) fs.

Lemma hit_snoc fs f j : hit (fs ++ [f])%list j = hit fs j || ((f <=? j) && (j <? f + 5)).
Proof. unfold hit. rewrite existsb_app. simpl. by rewrite orb_false_r. Qed.

Record freed (k k' : kern R) (ps : list loc) (fs : list Z) : Prop := {
  fr_len : zlen (memory k') = zlen (memory k);
  fr_memory : forall j, zget (memory k') j = if hit fs j then Some ("none", "none") else zget (memory k) j;
  fr_pages : forall p, pages k' !! p = if bool_decide (p ∈ ps) then None else pages k !! p;
  fr_pcbs : pcbs k' = pcbs k;
  fr_rest : same_rest k k'
}.

Lemma take_snoc {A} (l : list A) i x : l !! i = Some x -> take (S i) l = (take i l ++ [x])%list.
Proof. apply take_S_r. Qed.

Lemma free_pages_wp k (x : PCB) fs (Q : unit -> kern R -> Prop) :
  page_table_size x = zlen (page_table x) -> NoDup (page_table x) ->
  Forall2 (page_at k) (page_table x) fs -> Forall (fun i => 0 <= i /\ i + 5 <= zlen (memory k)) fs ->
  (forall k', freed k k' (page_table x) fs -> Q tt k') ->
  wp (for_ (Z.to_nat (page_table_size x)) 0 (fun i =>
        let! page := need (zget (page_table x) i) in
        for_ 3 0 (fun j =>
          let! pg := get_page page in
          let! pos := need (zget (index pg) j) in
          on_memory (A3Memory.clear_frame pos)) ;;
        let! k := get in
        set_pages (delete page (pages k)))) Q k.
Proof.
  intros Hsize Hnd Hpages Hfs HQ. rewrite Hsize, Nat2Z.id. pose proof (Forall2_length _ _ _ Hpages) as Hlen.
  apply (wp_for (fun i k' => freed k k' (take (Z.to_nat i) (page_table x)) (take (Z.to_nat i) fs))).
  - split; try done. by apply same_rest_refl.
  - intros i k' Hi Hk. destruct (zget_ex (page_table x) i) as [p Hp]; [lia|].
    wp_step. eapply wp_need; [done|]. wp_step. rewrite zget_lookup in Hp by lia.
    destruct (Forall2_lookup_l _ _ _ _ _ Hpages Hp) as (f & Hf & pg & Hpg & Hidx).
    assert (0 <= f /\ f + 5 <= zlen (memory k)) as [Hf0 Hf5] by (by eapply (Forall_lookup_1 _ _ _ _ Hfs)).
    assert (p ∉ take (Z.to_nat i) (page_table x)) as Hnew.
    { intros (q & Hq & Hql)%elem_of_take. pose proof (NoDup_lookup _ _ _ _ Hnd Hq Hp). lia. }
    destruct Hk as [H1 H2 H3 H4 H5].
    apply (free_frames_wp k' p f); [|done|lia|].
    { exists pg. split; [|done]. by rewrite H3, bool_decide_eq_false_2. }
    intros m [Hm1 Hm2]. unfold set_pages. wp_steps.
    replace (Z.to_nat (i + 1)) with (S (Z.to_nat i)) by lia.
    rewrite (take_snoc _ _ _ Hp), (take_snoc _ _ _ Hf). split; simpl.
    + lia.
    + intros j. rewrite Hm2, H2, hit_snoc.
      destruct (bool_decide (f <= j < f + 5)) eqn:E; [apply bool_decide_eq_true in E|apply bool_decide_eq_false in E].
      * rewrite (proj2 (Z.leb_le f j)), (proj2 (Z.ltb_lt j (f + 5))) by lia. by rewrite orb_true_r.
      * assert ((f <=? j) && (j <? f + 5) = false) as -> by lia. by rewrite orb_false_r.
    + intros q. destruct (decide (q = p)) as [->|Hqp].
      * rewrite lookup_delete_eq, bool_decide_eq_true_2; [done|set_solver].
      * rewrite lookup_delete_ne, H3 by done. repeat case_bool_decide; try done; set_solver.
    + done.
    + unfold same_rest in *. rewrite H5. done.
  - intros k' Hk. apply HQ. rewrite Z.add_0_l, Nat2Z.id, take_ge, Hlen, take_ge in Hk by lia. done.
Qed.

(** C37: free_PCB frees the process, its page table and its pages, but
    clears two slots too many for every page: with pages in the frames
    from [f], for [f] in [fs], exactly the slots [f] to [f + 4] read "none"
    afterwards, whoever owns the last two, and no other slot changes. *)
Theorem free_PCB_clears_five_slots_a_page k pcb x src fs :
  pcbs k !! pcb = Some x -> source_file x = Some src ->
  page_table_size x = zlen (page_table x) -> NoDup (page_table x) ->
  Forall2 (page_at k) (page_table x) fs -> Forall (fun i => 0 <= i /\ i + 5 <= zlen (memory k)) fs ->
  exists k', free_PCB pcb k = Ok tt k' [] /\ pcbs k' = delete pcb (pcbs k) /\
    (forall p, pages k' !! p = if bool_decide (p ∈ page_table x) then None else pages k !! p) /\
    forall j, zget (memory k') j
      = if existsb (fun f => (f <=? j) && (j <? f + 5)) fs then Some ("none", "none") else zget (memory k) j.
Proof.
  intros Hx Hsrc Hsize Hnd Hpages Hfs.
  assert (wp (free_PCB pcb) (fun _ k' => pcbs k' = delete pcb (pcbs k) /\
    (forall p, pages k' !! p = if bool_decide (p ∈ page_table x) then None else pages k !! p) /\
    forall j, zget (memory k') j = if hit fs j then Some ("none", "none") else zget (memory k) j) k) as H.
  { unfold free_PCB. wp_step. eapply get_pcb_wp; [done|]. wp_step. eapply wp_need; [done|]. wp_step.
    eapply free_pages_wp; [done..|]. intros k' [H1 H2 H3 H4 H5]. unfold set_pcbs. wp_steps.
    by rewrite H4. }
  apply wp_Ok in H as ([] & k' & E & H). by exists k'.
Qed.

(* ------------------------------------------------------------------ *)
(** ** Loading a page                                                  *)
(* ------------------------------------------------------------------ *)

(** The valid bits of a page with [n] lines. *)
Definition valid (n : nat) : list Z := (replicate n 1 ++ replicate (3 - n) 0)%list.

(** [n] lines of [ls] have been read into the page at frame [f]. *)
Record loaded (k k' : kern R) (pcb page : loc) (x : PCB) (pg : PAGE) (f : Z) (ls : list string)
    (n : nat) (eof : bool) : Prop := {
  ld_pcb : pcbs k' !! pcb = Some (with_source (mkFILE (unlines (drop n ls)) eof) x);
  ld_pcbs : forall q, q <> pcb -> pcbs k' !! q = pcbs k !! q;
  ld_page : pages k' !! page = Some (mkPAGE [f; f + 1; f + 2] (valid n) (page_index pg) (page_pid pg));
  ld_pages : forall q, q <> page -> pages k' !! q = pages k !! q;
  ld_len : zlen (memory k') = zlen (memory k);
  ld_lines : forall j l, (j < n)%nat -> ls !! j = Some l ->
    zget (memory k') (f + Z.of_nat j) = Some (pretty (pid x), l +:+ nl);
  ld_others : forall q, ~ (f <= q < f + 3) -> zget (memory k') q = zget (memory k) q;
  ld_rest : same_rest k k'
}.

Lemma valid_set n : (n < 3)%nat -> zset (valid n) (Z.of_nat n) 1 = Some (valid (S n)).
Proof. intros Hn. assert (n = 0 \/ n = 1 \/ n = 2)%nat as [->|[->| ->]] by lia; by vm_compute. Qed.

(** One line more. *)
Lemma load_line_wp k k' pcb page x pg f ls n l (Q : option unit -> kern R -> Prop) :
  loaded k k' pcb page x pg f ls n false -> (n < 3)%nat -> ls !! n = Some l ->
  0 <= f -> f + 3 <= zlen (memory k) ->
  (forall k2, loaded k k2 pcb page x pg f ls (S n) false -> Q None k2) ->
  wp (let! p := get_page page in
      let! pos := need (zget (index p) (Z.of_nat n)) in
      on_memory (A3Memory.mem_set_value_at pos (pretty (pid x)) (l +:+ nl)) ;;
      let! v := need (zset (valid_bit p) (Z.of_nat n) 1) in
      put_page page (mkPAGE (index p) v (page_index p) (page_pid p)) ;;
      ret None) Q
     (upd_kern k' (memory k') (<[pcb := with_source (mkFILE (unlines (drop (S n) ls)) false) x]> (pcbs k'))
        (pages k')).
Proof.
  intros [H1 H2 H3 H4 H5 H6 H7 H8] Hn Hl Hf Hf3 HQ.
  wp_step. eapply get_page_wp; [exact H3|]. wp_step. apply (wp_need _ (f + Z.of_nat n)).
  { simpl. assert (n = 0 \/ n = 1 \/ n = 2)%nat as [->|[->| ->]] by lia; by rewrite ?Z.add_0_r. }
  wp_step. apply on_memory_wp. unfold A3Memory.mem_set_value_at. simpl memory.
  apply A3Memory.set_both_wp; [lia|]. wp_step. eapply wp_need; [by apply valid_set|].
  wp_step. apply put_page_wp, wp_ret, HQ. split; simpl.
  - by rewrite lookup_insert_eq.
  - intros q Hq. rewrite lookup_insert_ne by done. by apply H2.
  - by rewrite lookup_insert_eq.
  - intros q Hq. rewrite lookup_insert_ne by done. by apply H4.
  - by rewrite A3Memory.zlen_upd.
  - intros j l' Hj Hl'. rewrite A3Memory.a3_zget_upd by lia. case_bool_decide as Hjn.
    + assert (j = n) as -> by lia. congruence.
    + apply H6; [lia|done].
  - intros q Hq. rewrite A3Memory.a3_zget_upd by lia. rewrite bool_decide_eq_false_2 by lia. by apply H7.
  - unfold same_rest in *. by rewrite H8.
Qed.

(** The number of lines a page takes from a file. *)
Definition page_lines (ls : list string) : nat := Nat.min 3 (length ls).

Lemma fill_page_wp k k0 pcb page x pg f ls (Q : unit -> kern R -> Prop) :
  loaded k k0 pcb page x pg f ls 0 false -> Forall short_line ls -> 0 <= f -> f + 3 <= zlen (memory k) ->
  (forall k', loaded k k' pcb page x pg f ls (page_lines ls) (bool_decide (length ls < 3)%nat) -> Q tt k') ->
  wp (fill_page pcb page (pretty (pid x))) Q k0.
Proof.
  intros H0 Hs Hf Hf3 HQ. unfold fill_page. wp_step.
  apply (wp_for_find
    (fun i k' => loaded k k' pcb page x pg f ls (Z.to_nat i) false /\ (Z.to_nat i <= length ls)%nat)
    (fun i _ k' => loaded k k' pcb page x pg f ls (page_lines ls) (bool_decide (length ls < 3)%nat))).
  - split; [done|simpl; lia].
  - intros i k' Hi [Hk Hle]. wp_step. eapply get_pcb_wp; [apply Hk|]. wp_step.
    eapply wp_need; [done|]. destruct (decide (Z.to_nat i < length ls)%nat) as [Hlt|Hge].
    + destruct (lookup_lt_is_Some_2 _ _ Hlt) as [l Hl]. rewrite (drop_S _ _ _ Hl).
      rewrite fgets_line_n by (lia || by eapply Forall_lookup_1).
      wp_step. apply put_pcb_wp. change (String LF EmptyString) with nl.
      assert (with_source (mkFILE (unlines (drop (S (Z.to_nat i)) ls)) false)
        (with_source (mkFILE (unlines (l :: drop (S (Z.to_nat i)) ls)) false) x)
        = with_source (mkFILE (unlines (drop (S (Z.to_nat i)) ls)) false) x) as -> by done.
      pose proof (load_line_wp k k' pcb page x pg f ls (Z.to_nat i) l) as Hw.
      rewrite Z2Nat.id in Hw by lia. apply Hw; [done|lia|done..|].
      intros k2 Hk2. replace (Z.to_nat (i + 1)) with (S (Z.to_nat i)) by lia. split; [done|lia].
    + assert (Z.to_nat i = length ls) as Ei by lia. rewrite drop_ge by lia.
      change (fgets 999 (mkFILE (unlines []) false)) with (@None string, mkFILE EmptyString true).
      cbv beta iota. wp_step. apply put_pcb_wp, wp_ret. unfold page_lines.
      rewrite Nat.min_r, bool_decide_eq_true_2 by lia. destruct Hk as [H1 H2 H3 H4 H5 H6 H7 H8].
      rewrite Ei in *. split; simpl; try done.
      * rewrite lookup_insert_eq. by rewrite drop_ge by lia.
      * intros q Hq. rewrite lookup_insert_ne by done. by apply H2.
      * unfold same_rest in *. by rewrite H8.
  - intros j y k' Hj Hk. by apply wp_ret, HQ.
  - intros k' [Hk Hle]. apply wp_ret, HQ. rewrite Z.add_0_l in *.
    change (Z.to_nat (Z.of_nat 3)) with 3%nat in *. unfold page_lines.
    rewrite Nat.min_l, bool_decide_eq_false_2 by lia. done.
Qed.

(** C27: demand loading: load_PAGE takes the first three consecutive free
    slots for the page, reads the next three lines of the script into
    them (fewer at its end), under the name of the process, sets the valid
    bit of each slot that got a line, and leaves the file after those
    lines; no other slot, page or process changes.  With no free frame it
    returns 1 and changes nothing. The lines of the script have fewer than
    98 characters and a newline each, and the process a number of fewer
    than 10 digits. *)
Theorem load_PAGE_next_lines fsize vsize k pcb x i page pg ls :
  A3Memory.sized fsize vsize (memory k) -> pcbs k !! pcb = Some x ->
  source_file x = Some (mkFILE (unlines ls) false) -> Forall short_line ls ->
  strlen (pretty (pid x)) < 10 -> zget (page_table x) i = Some page -> pages k !! page = Some pg ->
  ((forall f, 0 <= f -> ~ A3Memory.room_at fsize (memory k) f) /\ load_PAGE fsize pcb i k = Ok 1 k []) \/
  exists f k', A3Memory.first_room fsize (memory k) f /\ load_PAGE fsize pcb i k = Ok 0 k' [] /\
    loaded k k' pcb page x pg f ls (page_lines ls) (bool_decide (length ls < 3)%nat).
Proof.
  intros Hm Hx Hsrc Hs Hpid Hi Hpg.
  assert (wp (load_PAGE fsize pcb i) (fun r k' =>
    ((forall f, 0 <= f -> ~ A3Memory.room_at fsize (memory k) f) /\ r = 1 /\ k' = k) \/
    exists f, A3Memory.first_room fsize (memory k) f /\ r = 0 /\
      loaded k k' pcb page x pg f ls (page_lines ls) (bool_decide (length ls < 3)%nat)) k) as H.
  { unfold load_PAGE. wp_step. eapply get_pcb_wp; [done|]. wp_step. eapply wp_need; [done|]. wp_step.
    unfold into. eapply wp_need; [by rewrite (proj2 (Z.ltb_lt _ _))|]. wp_step. apply on_memory_wp.
    eapply A3Memory.frame_alloc_wp; [done| |].
    - intros Hno. apply wp_ret. left. split; [done|]. split; [done|by destruct k].
    - intros f m Hf [Hmk1 Hmk2]. wp_step. eapply get_page_wp; [exact Hpg|]. wp_step. apply put_page_wp. wp_step.
      pose proof Hf as (Hf0 & (Hf3 & _) & _). destruct Hm as [Hz1 Hz2 Hz3].
      unfold A3Memory.LENGTH, A3Memory.FRAME_VAR_BORDER in *.
      apply (fill_page_wp k _ pcb page x pg f ls); [|done|lia|lia|].
      + split; simpl; try done.
        * rewrite Hx. destruct x. simpl in *. by subst.
        * by rewrite lookup_insert_eq.
        * intros q Hq. by rewrite lookup_insert_ne.
        * intros j l Hj. lia.
        * intros q Hq. by rewrite Hmk2, bool_decide_eq_false_2 by lia.
      + intros k' Hk'. apply wp_ret. right. by exists f. }
  apply wp_Ok in H as (r & k' & E & [(Hno & -> & ->)|(f & Hf & -> & Hl)]); [by left|right].
  by exists f, k'.
Qed.

(* ------------------------------------------------------------------ *)
(** ** Evicting a page                                                 *)
(* ------------------------------------------------------------------ *)

Definition evict_line (pcb : loc) (i j : Z) : M (kern R) unit :=
  let! x := get_pcb pcb in
  let! page := need (zget (page_table x) i) in
  let! pg := get_page page in
  let! pos := need (zget (index pg) j) in
  let! line := on_memory (A3Memory.mem_get_value_at pos) in
  print line ;;
  on_memory (A3Memory.mem_free_at pos) ;;
  let! idx := need (zset (index pg) j 0) in
  let! valid := need (zset (valid_bit pg) j 0) in
  put_page page (mkPAGE idx valid (page_index pg) (page_pid pg)).

Lemma bind_need {S A C} (a : A) (f : A -> M S C) s : bind (need (Some a)) f s = f a s.
Proof. apply prefix_nil. Qed.

Lemma evict_line_run k pcb x i page pg j pos kv idx vld :
  pcbs k !! pcb = Some x -> zget (page_table x) i = Some page -> pages k !! page = Some pg ->
  zget (index pg) j = Some pos -> zget (memory k) pos = Some kv ->
  zset (index pg) j 0 = Some idx -> zset (valid_bit pg) j 0 = Some vld ->
  evict_line pcb i j k
  = Ok tt (upd_kern k (A3Memory.upd pos ("none", "none") (memory k)) (pcbs k)
             (<[page := mkPAGE idx vld (page_index pg) (page_pid pg)]> (pages k))) [Print (snd kv)].
Proof.
  intros Hx Hp Hpg Hpos Hkv Hidx Hvld. unfold evict_line.
  rewrite (bind_Ok_nil (get_pcb pcb) _ k x k) by (unfold get_pcb, bind, get, need; simpl; by rewrite Hx).
  rewrite Hp, bind_need.
  rewrite (bind_Ok_nil (get_page page) _ k pg k) by (unfold get_page, bind, get, need; simpl; by rewrite Hpg).
  rewrite Hpos, bind_need.
  rewrite (bind_Ok_nil _ _ k (snd kv) k).
  2:{ unfold on_memory, zoom, A3Memory.mem_get_value_at, A3Memory.slot, bind, get, need.
      rewrite Hkv. simpl. by destruct k. }
  rewrite (bind_Ok _ _ k tt k [Print (snd kv)]) by done.
  assert (wp (on_memory (A3Memory.mem_free_at pos)) (fun _ k' =>
    k' = upd_kern k (A3Memory.upd pos ("none", "none") (memory k)) (pcbs k) (pages k)) k) as Hw.
  { apply on_memory_wp, A3Memory.mem_free_at_wp; [by eapply zget_range|done]. }
  apply wp_Ok in Hw as ([] & k1 & E & ->). rewrite (bind_Ok_nil _ _ _ _ _ E).
  rewrite Hidx, bind_need, Hvld, bind_need. done.
Qed.

(** PAGE_evict prints the lines of the page between its two messages,
    frees the page's slots and no other, and clears the page's indices and
    valid bits; nothing else changes. *)
Theorem PAGE_evict_prints_and_frees k pcb x i page a b c v0 v1 v2 ti tp ka kb kc :
  pcbs k !! pcb = Some x -> zget (page_table x) i = Some page ->
  pages k !! page = Some (mkPAGE [a; b; c] [v0; v1; v2] ti tp) -> NoDup [a; b; c] ->
  zget (memory k) a = Some ka -> zget (memory k) b = Some kb -> zget (memory k) c = Some kc ->
  exists m, PAGE_evict pcb i k
    = Ok tt (upd_kern k m (pcbs k) (<[page := mkPAGE [0; 0; 0] [0; 0; 0] ti tp]> (pages k)))
        (map Print ["Page fault! Victim page contents:" +:+ nl; snd ka; snd kb; snd kc;
                    "End of victim page contents." +:+ nl]) /\
    forall j, zget m j = if bool_decide (j ∈ [a; b; c]) then Some ("none", "none") else zget (memory k) j.
Proof.
  intros Hx Hp Hpg Hnd Ha Hb Hc.
  pose proof (zget_range _ _ _ Ha) as Ra. pose proof (zget_range _ _ _ Hb) as Rb.
  pose proof (zget_range _ _ _ Hc) as Rc. rewrite !NoDup_cons in Hnd. destruct Hnd as (N1 & N2 & _).
  exists (A3Memory.upd c ("none", "none") (A3Memory.upd b ("none", "none") (A3Memory.upd a ("none", "none") (memory k)))).
  split.
  - unfold PAGE_evict. change (for_ 3 0 _) with (for_ 3 0 (evict_line pcb i)).
    rewrite (bind_Ok _ _ k tt k [Print ("Page fault! Victim page contents:" +:+ nl)]) by done.
    match goal with |- context [upd_kern k ?m ?ps ?gs] =>
      assert (for_ 3 0 (evict_line pcb i) k = Ok tt (upd_kern k m ps gs) [Print (snd ka); Print (snd kb); Print (snd kc)]) as E;
      [|by rewrite (bind_Ok _ _ _ _ _ _ E)] end.
    cbn [for_].
    erewrite (bind_Ok (evict_line pcb i 0)) by (eapply evict_line_run; done).
    erewrite (bind_Ok (evict_line pcb i (0 + 1))).
    2:{ eapply evict_line_run; [done|done|apply lookup_insert_eq|done| |done|done].
        simpl. rewrite A3Memory.a3_zget_upd, bool_decide_eq_false_2 by (done || set_solver). exact Hb. }
    erewrite (bind_Ok (evict_line pcb i (0 + 1 + 1))).
    2:{ eapply evict_line_run; [done|done|apply lookup_insert_eq|done| |done|done].
        simpl. rewrite !A3Memory.a3_zget_upd, !bool_decide_eq_false_2
          by (rewrite ?A3Memory.zlen_upd; done || set_solver). exact Hc. }
    simpl. by rewrite !insert_insert_eq.
  - intros j. rewrite !A3Memory.a3_zget_upd by (rewrite ?A3Memory.zlen_upd; done).
    repeat case_bool_decide; try done; set_solver.
Qed.
End props.

(* ------------------------------------------------------------------ *)
(** ** Witnesses                                                       *)
(* ------------------------------------------------------------------ *)

(** Process 1, of two pages, the first in frame 0; six frame slots and four
    variables, one of them set. *)
Definition demo_pcb : PCB :=
  mkPCB 1 5 [0; 0] [11; 12]%positive 2 (Some (mkFILE (unlines ["l3"; "l4"]) false)).
Definition demo_memory : slots :=
  [("1", "l0"); ("1", "l1"); ("1", "l2"); ("none", "none"); ("none", "none"); ("none", "none");
   ("x", "7"); ("y", "8"); ("z", "9"); ("none", "none")].
Definition demo (second : list Z) : kern unit :=
  upd_kern (boot 6 4) demo_memory {[10%positive := demo_pcb]}
    {[11%positive := mkPAGE [0; 1; 2] [1; 1; 1] 0 1; 12%positive := mkPAGE second [0; 0; 0] 1 1]}.

(** The variables x and y are lost with the process. *)
Lemma free_PCB_clears_five_slots_a_page_witness :
  exists k', free_PCB 10 (demo [3; 4; 5]) = Ok tt k' [] /\
    zget (memory (demo [3; 4; 5])) 6 = Some ("x", "7") /\ zget (memory k') 6 = Some ("none", "none") /\
    zget (memory k') 8 = Some ("z", "9").
Proof.
  destruct (free_PCB_clears_five_slots_a_page (demo [3; 4; 5]) 10 demo_pcb
    (mkFILE (unlines ["l3"; "l4"]) false) [0; 3]) as (k' & E & _ & _ & H).
  - done.
  - done.
  - done.
  - apply (bool_decide_unpack _). by vm_compute.
  - repeat constructor; eexists; done.
  - repeat constructor; by vm_compute.
  - exists k'. split; [exact E|]. split; [done|]. rewrite !H. by vm_compute.
Defined.

Lemma load_PAGE_next_lines_witness :
  exists f k', A3Memory.first_room 6 (memory (demo [1000; 1000; 1000])) f /\
    load_PAGE 6 10 1 (demo [1000; 1000; 1000]) = Ok 0 k' [] /\
    loaded (demo [1000; 1000; 1000]) k' 10 12 demo_pcb (mkPAGE [1000; 1000; 1000] [0; 0; 0] 1 1) f ["l3"; "l4"] 2 true.
Proof.
  destruct (load_PAGE_next_lines 6 4 (demo [1000; 1000; 1000]) 10 demo_pcb 1 12
    (mkPAGE [1000; 1000; 1000] [0; 0; 0] 1 1) ["l3"; "l4"]) as [[Hno _]|H].
  - split; by vm_compute.
  - done.
  - done.
  - repeat constructor; by vm_compute.
  - by vm_compute.
  - done.
  - done.
  - exfalso. apply (Hno 3); [done|]. split_and!; by vm_compute.
  - exact H.
Defined.

Lemma PAGE_evict_prints_and_frees_witness :
  exists m, PAGE_evict 10 0 (demo [3; 4; 5])
    = Ok tt (upd_kern (demo [3; 4; 5]) m (pcbs (demo [3; 4; 5]))
               (<[11%positive := mkPAGE [0; 0; 0] [0; 0; 0] 0 1]> (pages (demo [3; 4; 5]))))
        (map Print ["Page fault! Victim page contents:" +:+ nl; "l0"; "l1"; "l2";
                    "End of victim page contents." +:+ nl]) /\
    forall j, zget m j = if bool_decide (j ∈ [0; 1; 2]) then Some ("none", "none") else zget demo_memory j.
Proof.
  apply (PAGE_evict_prints_and_frees (demo [3; 4; 5]) 10 demo_pcb 0 11 0 1 2 1 1 1 0 1 ("1", "l0") ("1", "l1") ("1", "l2"));
    [done..|apply (bool_decide_unpack _); by vm_compute|done|done|done].
Defined.
End Kernel3Props.
