(* ===== verification/Links.v ===== *)
(** * Links: paths of a doubly linked structure

    [linked nx pv path] says that consecutive addresses of [path] point to
    each other, where [nx] and [pv] read the links of a heap.  The lemmas
    cut and join such paths; IntrusiveList.v uses them for every change of
    links it makes. *)
From S2P Require Import Prelude.

Section links.
Implicit Types (nx pv : positive -> option positive) (p q a b x : positive) (l : list positive).

Fixpoint linked nx pv l : Prop :=
  match l with
  | a :: ((b :: _) as r) => nx a = Some b /\ pv b = Some a /\ linked nx pv r
  | _ => True
  end.

Lemma linked_app_inv nx pv l1 l2 : linked nx pv (l1 ++ l2) ->
  linked nx pv l1 /\ linked nx pv l2 /\
  forall a b, last l1 = Some a -> hd_error l2 = Some b -> nx a = Some b /\ pv b = Some a.
Proof.
  induction l1 as [|c l1 IH]; simpl; [done|]. destruct l1 as [|d l1].
  - destruct l2 as [|e l2]; [done|]. simpl. intros (H1 & H2 & H3).
    split; [done|]. split; [done|]. by intros a b [= <-] [= <-].
  - intros (H1 & H2 & H3). destruct (IH H3) as (H4 & H5 & H6). by split_and!.
Qed.

Lemma linked_concat nx pv l1 l2 :
  linked nx pv l1 -> linked nx pv l2 ->
  (forall a b, last l1 = Some a -> hd_error l2 = Some b -> nx a = Some b /\ pv b = Some a) ->
  linked nx pv (l1 ++ l2).
Proof.
  induction l1 as [|c l1 IH]; simpl; [done|]. destruct l1 as [|d l1].
  - destruct l2 as [|e l2]; [done|]. simpl. intros _ H2 H3. by destruct (H3 c e).
  - intros (H1 & H2 & H3) H4 H5. split; [done|]. split; [done|]. by apply IH.
Qed.

(** A path depends on the next link of all its addresses but the last and
    the previous link of all but the first. *)
Lemma linked_same nx pv nx' pv' l :
  NoDup l ->
  (forall x, x ∈ l -> last l <> Some x -> nx' x = nx x) ->
  (forall x, x ∈ l -> hd_error l <> Some x -> pv' x = pv x) ->
  linked nx pv l -> linked nx' pv' l.
Proof.
  intros Hd. revert nx pv nx' pv'. induction l as [|a l IH]; [done|]. intros nx pv nx' pv' Hn Hp.
  apply NoDup_cons in Hd as [Ha Hd]. destruct l as [|b l]; [done|]. intros (H1 & H2 & H3).
  assert (last (a :: b :: l) <> Some a) as Hla.
  { intros E. apply Ha. change (last (b :: l) = Some a) in E. by apply last_Some_elem_of. }
  split; [|split].
  - rewrite Hn; [done|set_solver|done].
  - rewrite Hp; [done|set_solver|]. intros [= ->]. set_solver.
  - apply (IH Hd nx pv); [| |done].
    + intros x Hx Hl. apply Hn; [set_solver|done].
    + intros x Hx Hl. apply Hp; [set_solver|]. intros [= ->]. done.
Qed.

(** The neighbours of an address inside a path. *)
Lemma linked_mid nx pv l1 a b l2 :
  linked nx pv (l1 ++ a :: b :: l2) -> nx a = Some b /\ pv b = Some a.
Proof. intros (_ & (H1 & H2 & _) & _)%linked_app_inv. done. Qed.

End links.

Lemma NoDup_app_ne {A} (l1 l2 : list A) x y : NoDup (l1 ++ l2) -> x ∈ l1 -> y ∈ l2 -> x <> y.
Proof. intros (_ & Hd & _)%NoDup_app Hx Hy ->. by apply (Hd y). Qed.

(** Four disjoint segments. *)
Lemma NoDup_app4 {A} (l1 l2 l3 l4 : list A) : NoDup (l1 ++ l2 ++ l3 ++ l4) ->
  (NoDup l1 /\ NoDup l2 /\ NoDup l3 /\ NoDup l4) /\
  (forall x, x ∈ l1 -> x ∈ l2 -> False) /\ (forall x, x ∈ l1 -> x ∈ l3 -> False) /\
  (forall x, x ∈ l1 -> x ∈ l4 -> False) /\ (forall x, x ∈ l2 -> x ∈ l3 -> False) /\
  (forall x, x ∈ l2 -> x ∈ l4 -> False) /\ (forall x, x ∈ l3 -> x ∈ l4 -> False).
Proof.
  rewrite !NoDup_app. intros (N1 & D1 & N2 & D2 & N3 & D3 & N4).
  split; [done|]. split_and!; intros x Hx Hy.
  1-3: apply (D1 x Hx); rewrite !elem_of_app; tauto.
  1-2: apply (D2 x Hx); rewrite !elem_of_app; tauto.
  by apply (D3 x).
Qed.

(** Read backwards, the links change roles. *)
Lemma linked_reverse nx pv l : linked nx pv l -> linked pv nx (reverse l).
Proof.
  induction l as [|a l IH]; [done|]. intros Hl. rewrite reverse_cons.
  destruct (linked_app_inv nx pv [a] l Hl) as (_ & H & Ha). apply linked_concat; [by apply IH|done|].
  intros x y Hx [= <-]. rewrite last_reverse in Hx. destruct l as [|b l]; [done|]. injection Hx as <-.
  by destruct (Ha a b).
Qed.

Lemma filter_none {A} (P : A -> Prop) `{forall x, Decision (P x)} l :
  Forall (fun x => ~ P x) l -> filter P l = [].
Proof. induction 1 as [|x l Hx _ IH]; [done|]. by rewrite filter_cons_False. Qed.
