(* ===== verification/IntrusiveList.v ===== *)
(** * IntrusiveList: the doubly linked list of the file system
    (a3/fs/list.c and list.h)

    The elements are embedded in other objects: the heap here holds only
    their links, by address.  [dll h l xs] says that the list with headers
    [l] consists of the elements [xs]. *)
From stdpp Require Import sorting.
From S2P Require Import Prelude Links.

Module IntrusiveList.

(** list.h *)
Abbreviation loc := positive.
Record list_elem := mkElem { prev : option loc; next : option loc }.
(** struct list, by the addresses of its two headers. *)
Record list_ := mkList { head : loc; tail : loc }.

(** A pointer is [None] for NULL. *)
Abbreviation ptr := (option loc).
Abbreviation heap := (gmap loc list_elem).

Definition get_elem (p : ptr) : M heap list_elem :=
  let! a := need p in let! h := get in need (h !! a).
Definition get_next (p : ptr) : M heap ptr := let! e := get_elem p in ret (next e).
Definition get_prev (p : ptr) : M heap ptr := let! e := get_elem p in ret (prev e).
Definition set_next (p v : ptr) : M heap unit :=
  let! a := need p in let! e := get_elem p in modify (<[a := mkElem (prev e) v]>).
Definition set_prev (p v : ptr) : M heap unit :=
  let! a := need p in let! e := get_elem p in modify (<[a := mkElem v (next e)]>).

Definition null (p : ptr) : bool := bool_decide (p = None).
Definition same (p q : ptr) : bool := bool_decide (p = q).

Definition is_head (elem : ptr) : M heap bool :=
  if null elem then ret false else
  let! e := get_elem elem in ret (null (prev e) && negb (null (next e))).
Definition is_interior (elem : ptr) : M heap bool :=
  if null elem then ret false else
  let! e := get_elem elem in ret (negb (null (prev e)) && negb (null (next e))).
Definition is_tail (elem : ptr) : M heap bool :=
  if null elem then ret false else
  let! e := get_elem elem in ret (negb (null (prev e)) && null (next e)).

(** The lists are globals, never NULL: ASSERT (list != NULL) is left out. *)
Definition llist_init (l : list_) : M heap unit :=
  modify (fun h => <[tail l := mkElem (Some (head l)) None]> (<[head l := mkElem None (Some (tail l))]> h)).

Definition list_begin (l : list_) : M heap ptr := get_next (Some (head l)).
Definition list_end (l : list_) : ptr := Some (tail l).
Definition list_rbegin (l : list_) : M heap ptr := get_prev (Some (tail l)).
Definition list_rend (l : list_) : ptr := Some (head l).
Definition list_head (l : list_) : ptr := Some (head l).
Definition list_tail (l : list_) : ptr := Some (tail l).

Definition list_next (elem : ptr) : M heap ptr :=
  let! b1 := is_head elem in
  let! b2 := is_interior elem in
  assert_ (b1 || b2) "is_head(elem) || is_interior(elem)" ;;
  get_next elem.
Definition list_prev (elem : ptr) : M heap ptr :=
  let! b1 := is_interior elem in
  let! b2 := is_tail elem in
  assert_ (b1 || b2) "is_interior(elem) || is_tail(elem)" ;;
  get_prev elem.

Definition list_insert (before elem : ptr) : M heap unit :=
  let! b1 := is_interior before in
  let! b2 := is_tail before in
  assert_ (b1 || b2) "is_interior(before) || is_tail(before)" ;;
  assert_ (negb (null elem)) "elem != NULL" ;;
  let! p := get_prev before in
  set_prev elem p ;;
  set_next elem before ;;
  let! p := get_prev before in
  set_next p elem ;;
  set_prev before elem.

Definition list_splice (before first last : ptr) : M heap unit :=
  let! b1 := is_interior before in
  let! b2 := is_tail before in
  assert_ (b1 || b2) "is_interior(before) || is_tail(before)" ;;
  if same first last then ret tt else
  let! last := list_prev last in
  let! b := is_interior first in
  assert_ b "is_interior(first)" ;;
  let! b := is_interior last in
  assert_ b "is_interior(last)" ;;
  (* cleanly remove first...last from its current list *)
  let! p := get_prev first in
  let! n := get_next last in
  set_next p n ;;
  let! n := get_next last in
  let! p := get_prev first in
  set_prev n p ;;
  (* splice first...last into the new list *)
  let! p := get_prev before in
  set_prev first p ;;
  set_next last before ;;
  let! p := get_prev before in
  set_next p first ;;
  set_prev before last.

Definition list_push_front (l : list_) (elem : ptr) : M heap unit :=
  let! b := list_begin l in list_insert b elem.
Definition list_push_back (l : list_) (elem : ptr) : M heap unit :=
  list_insert (list_end l) elem.

Definition list_remove (elem : ptr) : M heap ptr :=
  let! b := is_interior elem in
  assert_ b "is_interior(elem)" ;;
  let! e := get_elem elem in
  set_next (prev e) (next e) ;;
  let! e := get_elem elem in
  set_prev (next e) (prev e) ;;
  get_next elem.

Definition list_empty (l : list_) : M heap bool :=
  let! b := list_begin l in ret (same b (list_end l)).

Definition list_front (l : list_) : M heap ptr :=
  let! e := list_empty l in
  assert_ (negb e) "!list_empty(list)" ;;
  get_next (Some (head l)).
Definition list_back (l : list_) : M heap ptr :=
  let! e := list_empty l in
  assert_ (negb e) "!list_empty(list)" ;;
  get_prev (Some (tail l)).

Definition list_pop_front (l : list_) : M heap ptr :=
  let! front := list_front l in
  list_remove front ;;
  ret front.
Definition list_pop_back (l : list_) : M heap ptr :=
  let! back := list_back l in
  list_remove back ;;
  ret back.

(** A walk of a list visits an element once: the size of the heap bounds
    its turns. *)
Definition walk {X R} (body : X -> M heap (X + R)) (x : X) : M heap R :=
  let! h := get in while_ (S (size h)) body x.

Definition list_size (l : list_) : M heap Z :=
  let! b := list_begin l in
  walk (fun '(e, cnt) =>
    if same e (list_end l) then ret (inr cnt)
    else let! n := list_next e in ret (inl (n, cnt + 1))) (b, 0).

(** [swap(&e->prev, &e->next)], and the two swaps after the loop. *)
Definition swap_links (e : ptr) : M heap unit :=
  let! p := get_prev e in
  let! n := get_next e in
  set_prev e n ;;
  set_next e p.

Definition list_reverse (l : list_) : M heap unit :=
  let! e := list_empty l in
  when (negb e)
    (let! b := list_begin l in
     walk (fun e =>
       if same e (list_end l) then ret (inr tt)
       else swap_links e ;; let! e' := get_prev e in ret (inl e')) b ;;
     let! x := get_next (Some (head l)) in
     let! y := get_prev (Some (tail l)) in
     set_next (Some (head l)) y ;;
     set_prev (Some (tail l)) x ;;
     let! a := get_next (Some (head l)) in
     let! b := get_prev (Some (tail l)) in
     let! x := get_prev a in
     let! y := get_next b in
     set_prev a y ;;
     set_next b x).

Section ordered.
(** The function [less] with its auxiliary data; [None] where it reads an
    element that is not embedded in an object, as a header. *)
Variable less : loc -> loc -> option bool.
Definition call_less (a b : ptr) : M heap bool :=
  let! x := need a in let! y := need b in need (less x y).

Definition is_sorted (a b : ptr) : M heap bool :=
  if same a b then ret true else
  walk (fun a =>
    let! a := list_next a in
    if same a b then ret (inr true) else
    let! p := list_prev a in
    let! r := call_less a p in
    if r : bool then ret (inr false) else ret (inl a)) a.

Definition find_end_of_run (a b : ptr) : M heap ptr :=
  assert_ (negb (null a)) "a != NULL" ;;
  assert_ (negb (null b)) "b != NULL" ;;
  assert_ (negb (same a b)) "a != b" ;;
  walk (fun a =>
    let! a := list_next a in
    if same a b then ret (inr a) else
    let! p := list_prev a in
    let! r := call_less a p in
    if r : bool then ret (inr a) else ret (inl a)) a.

Definition inplace_merge (a0 a1b0 b1 : ptr) : M heap unit :=
  assert_ (negb (null a0)) "a0 != NULL" ;;
  assert_ (negb (null a1b0)) "a1b0 != NULL" ;;
  assert_ (negb (null b1)) "b1 != NULL" ;;
  let! s := is_sorted a0 a1b0 in
  assert_ s "is_sorted(a0, a1b0, less, aux)" ;;
  let! s := is_sorted a1b0 b1 in
  assert_ s "is_sorted(a1b0, b1, less, aux)" ;;
  walk (fun '(a0, a1b0) =>
    if same a0 a1b0 || same a1b0 b1 then ret (inr tt) else
    let! r := call_less a1b0 a0 in
    if negb r then let! a0 := list_next a0 in ret (inl (a0, a1b0))
    else
      let! a1b0 := list_next a1b0 in
      let! p := list_prev a1b0 in
      list_splice a0 p a1b0 ;;
      ret (inl (a0, a1b0))) (a0, a1b0).

(** One pass over the list: the number of runs it leaves. *)
Definition sort_pass (l : list_) : M heap Z :=
  let! b := list_begin l in
  walk (fun '(a0, output_run_cnt) =>
    if same a0 (list_end l) then ret (inr output_run_cnt) else
    let output_run_cnt := output_run_cnt + 1 in
    let! a1b0 := find_end_of_run a0 (list_end l) in
    if same a1b0 (list_end l) then ret (inr output_run_cnt) else
    let! b1 := find_end_of_run a1b0 (list_end l) in
    inplace_merge a0 a1b0 b1 ;;
    ret (inl (b1, output_run_cnt))) (b, 0).

Definition list_sort (l : list_) : M heap unit :=
  walk (fun _ =>
    let! output_run_cnt := sort_pass l in
    if 1 <? output_run_cnt then ret (inl tt) else ret (inr tt)) tt ;;
  let! b := list_begin l in
  let! s := is_sorted b (list_end l) in
  assert_ s "is_sorted(list_begin(list), list_end(list), less, aux)".

Definition list_insert_ordered (l : list_) (elem : ptr) : M heap unit :=
  assert_ (negb (null elem)) "elem != NULL" ;;
  let! b := list_begin l in
  let! e := walk (fun e =>
    if same e (list_end l) then ret (inr e) else
    let! r := call_less elem e in
    if r : bool then ret (inr e) else let! n := list_next e in ret (inl n)) b in
  list_insert e elem.

(** [duplicates] is [None] for NULL. *)
Definition list_unique (l : list_) (duplicates : option list_) : M heap unit :=
  let! e := list_empty l in
  if e : bool then ret tt else
  let! b := list_begin l in
  walk (fun elem =>
    let! n := list_next elem in
    if same n (list_end l) then ret (inr tt) else
    let! r1 := call_less elem n in
    let! r2 := (if r1 : bool then ret true else call_less n elem) in
    if negb r1 && negb r2 then
      list_remove n ;;
      match duplicates with Some d => list_push_back d n | None => ret tt end ;;
      ret (inl elem)
    else ret (inl n)) b.

Definition list_max (l : list_) : M heap ptr :=
  let! max := list_begin l in
  if same max (list_end l) then ret max else
  let! e := list_next max in
  walk (fun '(max, e) =>
    if same e (list_end l) then ret (inr max) else
    let! r := call_less max e in
    let! n := list_next e in
    ret (inl (if r : bool then e else max, n))) (max, e).

Definition list_min (l : list_) : M heap ptr :=
  let! min := list_begin l in
  if same min (list_end l) then ret min else
  let! e := list_next min in
  walk (fun '(min, e) =>
    if same e (list_end l) then ret (inr min) else
    let! r := call_less e min in
    let! n := list_next e in
    ret (inl (if r : bool then e else min, n))) (min, e).
End ordered.

(* ------------------------------------------------------------------ *)
(** ** Links of a heap                                                 *)
(* ------------------------------------------------------------------ *)

Definition nextof (h : heap) (x : loc) : ptr := e ← h !! x; next e.
Definition prevof (h : heap) (x : loc) : ptr := e ← h !! x; prev e.
Definition live (h : heap) (x : loc) : Prop := is_Some (h !! x).

Definition setn (a : loc) (v : ptr) (h : heap) : heap := <[a := mkElem (prevof h a) v]> h.
Definition setp (a : loc) (v : ptr) (h : heap) : heap := <[a := mkElem v (nextof h a)]> h.

Lemma nextof_setn a v h x : nextof (setn a v h) x = if decide (x = a) then v else nextof h x.
Proof. unfold nextof, setn. case_decide; simplify_map_eq; done. Qed.
Lemma prevof_setn a v h x : prevof (setn a v h) x = prevof h x.
Proof. unfold prevof at 1, setn. destruct (decide (x = a)); simplify_map_eq; done. Qed.
Lemma nextof_setp a v h x : nextof (setp a v h) x = nextof h x.
Proof. unfold nextof at 1, setp. destruct (decide (x = a)); simplify_map_eq; done. Qed.
Lemma prevof_setp a v h x : prevof (setp a v h) x = if decide (x = a) then v else prevof h x.
Proof. unfold prevof, setp. case_decide; simplify_map_eq; done. Qed.
Lemma live_setn a v h x : live h x -> live (setn a v h) x.
Proof. intros. unfold live, setn. destruct (decide (x = a)); simplify_map_eq; eauto. Qed.
Lemma live_setp a v h x : live h x -> live (setp a v h) x.
Proof. intros. unfold live, setp. destruct (decide (x = a)); simplify_map_eq; eauto. Qed.
Lemma size_setn a v h : live h a -> size (setn a v h) = size h.
Proof. apply map_size_insert_Some. Qed.
Lemma size_setp a v h : live h a -> size (setp a v h) = size h.
Proof. apply map_size_insert_Some. Qed.
Hint Rewrite nextof_setn prevof_setn nextof_setp prevof_setp : links.
#[local] Hint Resolve live_setn live_setp : links.

Lemma nextof_live h a b : nextof h a = Some b -> live h a.
Proof. unfold nextof, live. destruct (h !! a); [eauto|done]. Qed.
Lemma prevof_live h a b : prevof h a = Some b -> live h a.
Proof. unfold prevof, live. destruct (h !! a); [eauto|done]. Qed.
#[local] Hint Resolve nextof_live prevof_live : links.

Lemma get_elem_wp h a (Q : list_elem -> heap -> Prop) :
  live h a -> Q (mkElem (prevof h a) (nextof h a)) h -> wp (get_elem (Some a)) Q h.
Proof.
  intros [e He] HQ. unfold get_elem. wp_step. eapply wp_need; [done|]. wp_step. apply wp_get. eapply wp_need; [done|].
  unfold nextof, prevof in HQ. rewrite He in HQ. by destruct e.
Qed.
Lemma get_next_wp h a (Q : ptr -> heap -> Prop) :
  live h a -> Q (nextof h a) h -> wp (get_next (Some a)) Q h.
Proof. intros. unfold get_next. wp_step. apply get_elem_wp; [done|]. by apply wp_ret. Qed.
Lemma get_prev_wp h a (Q : ptr -> heap -> Prop) :
  live h a -> Q (prevof h a) h -> wp (get_prev (Some a)) Q h.
Proof. intros. unfold get_prev. wp_step. apply get_elem_wp; [done|]. by apply wp_ret. Qed.
Lemma set_elem_next_wp h a v (Q : unit -> heap -> Prop) :
  live h a -> Q tt (setn a v h) -> wp (set_next (Some a) v) Q h.
Proof. intros. unfold set_next. wp_step. eapply wp_need; [done|]. wp_step. apply get_elem_wp; [done|]. by apply wp_modify. Qed.
Lemma set_prev_wp h a v (Q : unit -> heap -> Prop) :
  live h a -> Q tt (setp a v h) -> wp (set_prev (Some a) v) Q h.
Proof. intros. unfold set_prev. wp_step. eapply wp_need; [done|]. wp_step. apply get_elem_wp; [done|]. by apply wp_modify. Qed.

Lemma is_head_wp h a (Q : bool -> heap -> Prop) :
  live h a -> Q (null (prevof h a) && negb (null (nextof h a))) h -> wp (is_head (Some a)) Q h.
Proof. intros. unfold is_head. simpl. wp_step. apply get_elem_wp; [done|]. by apply wp_ret. Qed.
Lemma is_interior_wp h a (Q : bool -> heap -> Prop) :
  live h a -> Q (negb (null (prevof h a)) && negb (null (nextof h a))) h -> wp (is_interior (Some a)) Q h.
Proof. intros. unfold is_interior. simpl. wp_step. apply get_elem_wp; [done|]. by apply wp_ret. Qed.
Lemma is_tail_wp h a (Q : bool -> heap -> Prop) :
  live h a -> Q (negb (null (prevof h a)) && null (nextof h a)) h -> wp (is_tail (Some a)) Q h.
Proof. intros. unfold is_tail. simpl. wp_step. apply get_elem_wp; [done|]. by apply wp_ret. Qed.

(* ------------------------------------------------------------------ *)
(** ** Lists                                                           *)
(* ------------------------------------------------------------------ *)

Definition path (l : list_) (xs : list loc) : list loc := head l :: xs ++ [tail l].

Record dll (h : heap) (l : list_) (xs : list loc) : Prop := {
  dl_nodup : NoDup (path l xs);
  dl_linked : linked (nextof h) (prevof h) (path l xs);
  dl_head : prevof h (head l) = None;
  dl_tail : nextof h (tail l) = None
}.

(** The element before, and the one after, a position of the list. *)
Definition back (l : list_) (xs : list loc) : loc := default (head l) (last xs).
Definition front (l : list_) (xs : list loc) : loc := match xs with [] => tail l | x :: _ => x end.

Lemma last_back l xs : last (head l :: xs) = Some (back l xs).
Proof. unfold back. destruct xs as [|x xs]; [done|]. rewrite last_cons. by destruct (last (x :: xs)) eqn:E; [|apply last_None in E]. Qed.
Lemma hd_front l xs : hd_error (xs ++ [tail l]) = Some (front l xs).
Proof. by destruct xs. Qed.
Lemma back_in l xs : back l xs ∈ head l :: xs.
Proof. apply last_Some_elem_of, last_back. Qed.
Lemma front_in l xs : front l xs ∈ xs ++ [tail l].
Proof. destruct xs; simpl; set_solver. Qed.
Lemma back_snoc l xs x : back l (xs ++ [x]) = x.
Proof. unfold back. by rewrite last_snoc. Qed.

Lemma path_app l xs1 xs2 : path l (xs1 ++ xs2) = (head l :: xs1) ++ (xs2 ++ [tail l]).
Proof. unfold path. by rewrite <- app_assoc. Qed.

Lemma path_app4 l u v w t :
  path l (u ++ v ++ w ++ t) = (head l :: u) ++ v ++ w ++ (t ++ [tail l]).
Proof. unfold path. by rewrite <- !app_assoc. Qed.

Lemma dll_cut h l xs1 xs2 :
  dll h l (xs1 ++ xs2) ->
  nextof h (back l xs1) = Some (front l xs2) /\ prevof h (front l xs2) = Some (back l xs1).
Proof.
  intros [_ Hl _ _]. rewrite path_app in Hl. apply linked_app_inv in Hl as (_ & _ & H).
  apply H; [apply last_back|apply hd_front].
Qed.

Lemma dll_frame h h' l xs :
  dll h l xs ->
  (forall x, x ∈ path l xs -> nextof h' x = nextof h x /\ prevof h' x = prevof h x) -> dll h' l xs.
Proof.
  intros [H1 H2 H3 H4] Hx. split; [done| | |].
  - eapply linked_same; [done| | |done]; intros x Hin _; by apply Hx.
  - rewrite <- H3. apply Hx. unfold path. set_solver.
  - rewrite <- H4. apply Hx. unfold path. set_solver.
Qed.

Lemma dll_size h l xs : dll h l xs -> (length xs + 2 <= size h)%nat.
Proof.
  intros [H1 H2 _ _]. assert (length (path l xs) = (length xs + 2)%nat) as <-.
  { unfold path. simpl. rewrite length_app. simpl. lia. }
  rewrite <- size_dom, <- (size_list_to_set (C := gset loc) _ H1).
  apply subseteq_size. intros x [Hx|Hx]%elem_of_list_to_set%elem_of_cons; apply elem_of_dom.
  - subst. rewrite <- (app_nil_l xs) in H2. rewrite path_app in H2.
    apply linked_app_inv in H2 as (_ & _ & H). by eapply nextof_live, H; [|apply hd_front].
  - apply list_elem_of_split in Hx as (l1 & l2 & E). unfold path in H2. rewrite E in H2.
    apply (linked_app_inv _ _ (head l :: l1)) in H2 as (_ & _ & H).
    destruct (exists_last (l := head l :: l1) ltac:(done)) as (A & a & EA). rewrite EA in H.
    eapply prevof_live, (H a x); [apply last_snoc|done].
Qed.

Lemma dll_live h l xs x : dll h l xs -> x ∈ path l xs -> live h x.
Proof.
  intros Hd Hx. apply elem_of_cons in Hx as [->|Hx].
  - destruct (dll_cut h l [] xs Hd) as [H _]. by eapply nextof_live.
  - apply elem_of_app in Hx as [Hx|Hx].
    + apply list_elem_of_split in Hx as (l1 & l2 & ->). destruct (dll_cut h l l1 (x :: l2) Hd) as [_ H].
      by eapply prevof_live.
    + apply list_elem_of_singleton in Hx as ->. rewrite <- (app_nil_r xs) in Hd.
      destruct (dll_cut h l xs [] Hd) as [_ H]. by eapply prevof_live.
Qed.

Lemma back_path l xs1 xs2 : back l xs1 ∈ path l (xs1 ++ xs2).
Proof. rewrite path_app. pose proof (back_in l xs1). set_solver. Qed.
Lemma front_path l xs1 xs2 : front l xs2 ∈ path l (xs1 ++ xs2).
Proof. rewrite path_app. pose proof (front_in l xs2). set_solver. Qed.

(** The sides of a position are disjoint. *)
Lemma path_cut_NoDup l xs1 xs2 :
  NoDup (path l (xs1 ++ xs2)) <->
  NoDup (head l :: xs1) /\ (forall x, x ∈ head l :: xs1 -> x ∉ xs2 ++ [tail l]) /\ NoDup (xs2 ++ [tail l]).
Proof. rewrite path_app. apply NoDup_app. Qed.

(** Links set between addresses known to differ. *)
Ltac links_ne := repeat (case_decide; [|try congruence]); try congruence.

(** A segment that keeps its inner links. *)
Ltac seg_ext :=
  eapply linked_same; [eassumption| | |eassumption];
  intros x Hx Hend; autorewrite with links;
  repeat (case_decide; [subst; exfalso; first [by apply Hend|by eauto 3|set_solver]|]); done.

Lemma dll_insert h l xs1 xs2 e :
  dll h l (xs1 ++ xs2) -> e ∉ path l (xs1 ++ xs2) ->
  dll (setp (front l xs2) (Some e) (setn (back l xs1) (Some e)
        (setn e (Some (front l xs2)) (setp e (Some (back l xs1)) h)))) l (xs1 ++ e :: xs2).
Proof.
  intros [H1 H2 H3 H4] He. pose proof H1 as (N1 & N2 & N3)%path_cut_NoDup.
  rewrite path_app in H2, He. apply linked_app_inv in H2 as (L1 & L2 & _).
  pose proof (last_back l xs1) as Ha. pose proof (hd_front l xs2) as Hb.
  pose proof (back_in l xs1) as Ia. pose proof (front_in l xs2) as Ib.
  set (a := back l xs1) in *. set (b := front l xs2) in *.
  assert (a <> e) by set_solver. assert (b <> e) by set_solver.
  assert (a <> b) by (intros ->; by apply (N2 b)).
  split.
  - apply path_cut_NoDup. split_and!; [done| |].
    + intros x Hx [->|Hx2]%elem_of_cons; [set_solver|by apply (N2 x)].
    + simpl. apply NoDup_cons. split; [set_solver|done].
  - rewrite path_app. apply linked_concat; [seg_ext| |].
    + apply (linked_concat _ _ [e]); [done|seg_ext|].
      intros x y [= <-] Hy. change (hd_error (xs2 ++ [tail l]) = Some y) in Hy. rewrite Hb in Hy. injection Hy as <-. autorewrite with links.
      by links_ne.
    + intros x y Hx [= <-]. rewrite Ha in Hx. injection Hx as <-. autorewrite with links.
      by links_ne.
  - autorewrite with links. rewrite !decide_False; [done|set_solver|]. intros E. apply (N2 b); [set_solver|done].
  - autorewrite with links. rewrite !decide_False; [done|set_solver|]. intros E.
    apply (N2 a); [done|]. rewrite <- E. set_solver.
Qed.

Lemma dll_remove h l xs1 e xs2 :
  dll h l (xs1 ++ e :: xs2) ->
  dll (setp (front l xs2) (Some (back l xs1)) (setn (back l xs1) (Some (front l xs2)) h)) l (xs1 ++ xs2).
Proof.
  intros [H1 H2 H3 H4]. pose proof H1 as (N1 & N2 & N3)%path_cut_NoDup.
  simpl in N3. apply NoDup_cons in N3 as [N3 N4].
  rewrite path_app in H2. apply linked_app_inv in H2 as (L1 & L2 & _).
  apply (linked_app_inv _ _ [e]) in L2 as (_ & L2 & _).
  pose proof (last_back l xs1) as Ha. pose proof (hd_front l xs2) as Hb.
  pose proof (back_in l xs1) as Ia. pose proof (front_in l xs2) as Ib.
  set (a := back l xs1) in *. set (b := front l xs2) in *.
  assert (forall x, x ∈ head l :: xs1 -> x ∉ xs2 ++ [tail l]) as N5.
  { intros x Hx Hx2. apply (N2 x Hx). simpl. by right. }
  split.
  - apply path_cut_NoDup. by split_and!.
  - rewrite path_app. apply linked_concat; [seg_ext|seg_ext|].
    intros x y Hx Hy. rewrite Ha in Hx. rewrite Hb in Hy. injection Hx as <-. injection Hy as <-.
    autorewrite with links. by rewrite !decide_True.
  - autorewrite with links. rewrite !decide_False; [done|]. intros E. apply (N5 b); [rewrite <- E; apply elem_of_cons; by left|done].
  - autorewrite with links. rewrite !decide_False; [done|]. intros E.
    apply (N5 a); [done|]. rewrite <- E. set_solver.
Qed.

(** Moving the segment [ys] back over [zs]. *)
Lemma dll_splice h l xs1 z zs y ys xs2 :
  let a := back l xs1 in let b := front l xs2 in
  let z' := back l (z :: zs) in let y' := back l (y :: ys) in
  dll h l (xs1 ++ (z :: zs) ++ (y :: ys) ++ xs2) ->
  dll (setp z (Some y') (setn a (Some y) (setn y' (Some z) (setp y (Some a)
        (setp b (Some z') (setn z' (Some b) h)))))) l (xs1 ++ (y :: ys) ++ (z :: zs) ++ xs2).
Proof.
  intros a b z' y' [H1 H2 H3 H4].
  rewrite path_app4 in H1, H2.
  pose proof H1 as ((N1 & N2 & N3 & N4) & X1 & X2 & X3 & X4 & X5 & X6)%NoDup_app4.
  apply linked_app_inv in H2 as (L1 & L2 & _). apply linked_app_inv in L2 as (L2 & L3 & _).
  apply linked_app_inv in L3 as (L3 & L4 & _).
  assert (last (z :: zs) = Some z') as Ez.
  { unfold z', back. by destruct (last (z :: zs)) eqn:E; [|apply last_None in E]. }
  assert (last (y :: ys) = Some y') as Ey.
  { unfold y', back. by destruct (last (y :: ys)) eqn:E; [|apply last_None in E]. }
  pose proof (last_back l xs1) as Ha. pose proof (hd_front l xs2) as Hb. fold a in Ha. fold b in Hb.
  assert (a ∈ head l :: xs1) as Ia by apply back_in. assert (b ∈ xs2 ++ [tail l]) as Ib by apply front_in.
  assert (z' ∈ z :: zs) as Iz by by apply last_Some_elem_of. assert (y' ∈ y :: ys) as Iy by by apply last_Some_elem_of.
  assert (z ∈ z :: zs) as Iz0 by apply list_elem_of_here. assert (y ∈ y :: ys) as Iy0 by apply list_elem_of_here.
  clearbody a b z' y'. set (A := head l :: xs1) in *. set (Zs := z :: zs) in *. set (Ys := y :: ys) in *.
  set (B := xs2 ++ [tail l]) in *.
  assert (a <> z' /\ a <> y' /\ z' <> y' /\ b <> y /\ b <> z /\ y <> z) as (D1 & D2 & D3 & D4 & D5 & D6)
    by (split_and!; intros ->; eauto 3).
  assert (head l ∈ A) as IA by apply list_elem_of_here.
  assert (tail l ∈ B) as IB by by apply elem_of_app; right; apply list_elem_of_here.
  split.
  - rewrite path_app4. rewrite (Permutation_app_swap_app Ys Zs). done.
  - rewrite path_app4.
    apply linked_concat; [seg_ext|apply linked_concat; [seg_ext|apply linked_concat; [seg_ext|seg_ext|]|]|].
    + intros u v Hu Hv. rewrite Ez in Hu. fold B in Hv. rewrite Hb in Hv. injection Hu as <-. injection Hv as <-.
      autorewrite with links. by links_ne.
    + intros u v Hu Hv. rewrite Ey in Hu. injection Hu as <-. injection Hv as <-.
      autorewrite with links. by links_ne.
    + intros u v Hu Hv. change (last A = Some u) in Hu. rewrite Ha in Hu.
      injection Hu as <-. injection Hv as <-. autorewrite with links. by links_ne.
  - autorewrite with links. rewrite !decide_False; [done|intros E; rewrite E in IA; eauto 3..].
  - autorewrite with links. rewrite !decide_False; [done|intros E; rewrite E in IB; eauto 3..].
Qed.

(* ------------------------------------------------------------------ *)
(** ** The operations on links                                         *)
(* ------------------------------------------------------------------ *)

(** The links of the elements of a list, for the assertions. *)
Lemma front_links h l xs1 xs2 :
  dll h l (xs1 ++ xs2) -> live h (front l xs2) /\ null (prevof h (front l xs2)) = false.
Proof. intros Hd. destruct (dll_cut _ _ _ _ Hd) as [_ H]. rewrite H. split; [by eapply prevof_live|done]. Qed.
Lemma back_links h l xs1 xs2 :
  dll h l (xs1 ++ xs2) -> live h (back l xs1) /\ null (nextof h (back l xs1)) = false.
Proof. intros Hd. destruct (dll_cut _ _ _ _ Hd) as [H _]. rewrite H. split; [by eapply nextof_live|done]. Qed.
Lemma elem_links h l xs1 e xs2 :
  dll h l (xs1 ++ e :: xs2) ->
  live h e /\ prevof h e = Some (back l xs1) /\ nextof h e = Some (front l xs2).
Proof.
  intros Hd. destruct (dll_cut h l xs1 (e :: xs2) Hd) as [_ H1].
  rewrite cons_middle, app_assoc in Hd. destruct (dll_cut h l (xs1 ++ [e]) xs2 Hd) as [H2 _].
  rewrite back_snoc in H2. split; [by eapply prevof_live|done].
Qed.

(** ASSERT(is_interior(p) || is_tail(p)) at a position of a list. *)
Lemma assert_front_wp {A} h l xs1 xs2 msg (k : unit -> M heap A) Q :
  dll h l (xs1 ++ xs2) -> wp (k tt) Q h ->
  wp (let! b1 := is_interior (Some (front l xs2)) in let! b2 := is_tail (Some (front l xs2)) in
      let! u := assert_ (b1 || b2) msg in k u) Q h.
Proof.
  intros Hd HQ. destruct (front_links _ _ _ _ Hd) as [Hl Hp].
  wp_step. apply is_interior_wp; [done|]. wp_step. apply is_tail_wp; [done|]. wp_step.
  apply wp_assert; [|done]. rewrite Hp. by destruct (null (nextof h (front l xs2))).
Qed.
Lemma assert_interior_wp {A} h l xs1 e xs2 msg (k : unit -> M heap A) Q :
  dll h l (xs1 ++ e :: xs2) -> wp (k tt) Q h ->
  wp (let! b := is_interior (Some e) in let! u := assert_ b msg in k u) Q h.
Proof.
  intros Hd HQ. destruct (elem_links _ _ _ _ _ Hd) as (Hl & Hp & Hn).
  wp_step. apply is_interior_wp; [done|]. wp_step. apply wp_assert; [|done]. by rewrite Hp, Hn.
Qed.

Lemma list_begin_wp h l xs (Q : ptr -> heap -> Prop) :
  dll h l xs -> Q (Some (front l xs)) h -> wp (list_begin l) Q h.
Proof.
  intros Hd HQ. destruct (dll_cut h l [] xs Hd) as [H _].
  apply get_next_wp; [by eapply nextof_live|]. change (back l []) with (head l) in H. by rewrite H.
Qed.
Lemma list_next_wp h l xs1 e xs2 (Q : ptr -> heap -> Prop) :
  dll h l (xs1 ++ e :: xs2) -> Q (Some (front l xs2)) h -> wp (list_next (Some e)) Q h.
Proof.
  intros Hd HQ. destruct (elem_links _ _ _ _ _ Hd) as (Hl & Hp & Hn). unfold list_next.
  wp_step. apply is_head_wp; [done|]. wp_step. apply is_interior_wp; [done|]. wp_step.
  apply wp_assert; [by rewrite Hp, Hn|]. apply get_next_wp; [done|]. by rewrite Hn.
Qed.
Lemma list_prev_wp h l xs1 xs2 (Q : ptr -> heap -> Prop) :
  dll h l (xs1 ++ xs2) -> Q (Some (back l xs1)) h -> wp (list_prev (Some (front l xs2))) Q h.
Proof.
  intros Hd HQ. unfold list_prev. eapply assert_front_wp; [done|].
  apply get_prev_wp; [by eapply front_links|]. destruct (dll_cut _ _ _ _ Hd) as [_ H]. by rewrite H.
Qed.

(** What an operation leaves unchanged: the links of the addresses not in
    [D], the objects of the heap and their number. *)
Record frame (h h' : heap) (D : list loc) : Prop := {
  fr_links : forall x, x ∉ D -> nextof h' x = nextof h x /\ prevof h' x = prevof h x;
  fr_live : forall x, live h x -> live h' x;
  fr_size : size h' = size h
}.

Lemma frame_refl h D : frame h h D.
Proof. done. Qed.
Lemma frame_trans h1 h2 h3 D : frame h1 h2 D -> frame h2 h3 D -> frame h1 h3 D.
Proof.
  intros [A1 A2 A3] [B1 B2 B3]. split; [|auto|congruence].
  intros x Hx. destruct (A1 x Hx), (B1 x Hx). split; congruence.
Qed.
Lemma frame_mono h h' D D' : frame h h' D -> (forall x, x ∈ D -> x ∈ D') -> frame h h' D'.
Proof. intros [A1 A2 A3] HD. split; [|done..]. intros x Hx. apply A1. auto. Qed.
Lemma frame_setn h h1 a v D : frame h h1 D -> live h a -> a ∈ D -> frame h (setn a v h1) D.
Proof.
  intros [A1 A2 A3] Hl Ha. split; [|intros; by apply live_setn, A2|].
  - intros x Hx. autorewrite with links. rewrite decide_False; [by apply A1|]. by intros ->.
  - rewrite size_setn; [done|by apply A2].
Qed.
Lemma frame_setp h h1 a v D : frame h h1 D -> live h a -> a ∈ D -> frame h (setp a v h1) D.
Proof.
  intros [A1 A2 A3] Hl Ha. split; [|intros; by apply live_setp, A2|].
  - intros x Hx. autorewrite with links. rewrite decide_False; [by apply A1|]. by intros ->.
  - rewrite size_setp; [done|by apply A2].
Qed.
Ltac frames :=
  repeat lazymatch goal with
  | |- frame _ (setn _ _ _) _ => apply frame_setn
  | |- frame _ (setp _ _ _) _ => apply frame_setp
  | |- frame ?h ?h _ => apply frame_refl
  end.

(** Another list is not changed. *)
Lemma frame_dll h h' D l ys :
  frame h h' D -> dll h l ys -> (forall x, x ∈ path l ys -> x ∉ D) -> dll h' l ys.
Proof. intros [A1 _ _] Hd Hx. eapply dll_frame; [done|]. intros x Hin. by apply A1, Hx. Qed.

Lemma list_insert_wp h l xs1 xs2 e (Q : unit -> heap -> Prop) :
  dll h l (xs1 ++ xs2) -> e ∉ path l (xs1 ++ xs2) -> live h e ->
  (forall h', dll h' l (xs1 ++ e :: xs2) -> frame h h' (path l (xs1 ++ e :: xs2)) -> Q tt h') ->
  wp (list_insert (Some (front l xs2)) (Some e)) Q h.
Proof.
  intros Hd He Hl HQ. pose proof (back_path l xs1 xs2) as Ia. pose proof (front_path l xs1 xs2) as Ib.
  destruct (dll_cut _ _ _ _ Hd) as [Hab Hba]. pose proof (dll_insert h l xs1 xs2 e Hd He) as Hd'.
  destruct (back_links _ _ _ _ Hd) as [La _]. destruct (front_links _ _ _ _ Hd) as [Lb _].
  assert (back l xs1 <> e /\ front l xs2 <> e) as [Hae Hbe] by (split; intros E; rewrite E in *; done).
  assert (forall x, x ∈ path l (xs1 ++ xs2) \/ x = e -> x ∈ path l (xs1 ++ e :: xs2)) as Hin.
  { intros x. rewrite !path_app. rewrite !elem_of_app, !elem_of_cons. tauto. }
  unfold list_insert. eapply assert_front_wp; [done|].
  set (a := back l xs1) in *. set (b := front l xs2) in *.
  wp_step. apply wp_assert; [done|]. wp_step. apply get_prev_wp; [done|]. rewrite Hba.
  wp_step. apply set_prev_wp; [done|]. wp_step. apply set_elem_next_wp; [by auto with links|].
  wp_step. apply get_prev_wp; [by auto with links|]. autorewrite with links.
  rewrite decide_False, Hba by done.
  wp_step. apply set_elem_next_wp; [by auto with links|]. apply set_prev_wp; [by auto with links|].
  apply HQ; [done|]. frames; auto.
Qed.

Lemma list_remove_wp h l xs1 e xs2 (Q : ptr -> heap -> Prop) :
  dll h l (xs1 ++ e :: xs2) ->
  (forall h', dll h' l (xs1 ++ xs2) -> frame h h' (path l (xs1 ++ xs2)) -> Q (Some (front l xs2)) h') ->
  wp (list_remove (Some e)) Q h.
Proof.
  intros Hd HQ. destruct (elem_links _ _ _ _ _ Hd) as (Hl & Hp & Hn).
  pose proof (dll_remove _ _ _ _ _ Hd) as Hd'. pose proof (dl_nodup _ _ _ Hd) as Hnd.
  assert (live h (back l xs1)) as La by by eapply dll_live, back_path.
  assert (live h (front l xs2)) as Lb.
  { rewrite cons_middle, app_assoc in Hd. by eapply front_links. }
  assert (back l xs1 <> e /\ front l xs2 <> e) as [Hae Hbe].
  { rewrite path_app in Hnd. apply NoDup_app in Hnd as (_ & Hdis & Hnd). simpl in Hnd.
    apply NoDup_cons in Hnd as [Hnd _]. pose proof (back_in l xs1) as Ia. pose proof (front_in l xs2) as Ib.
    split; intros E; rewrite E in *; [|done]. apply (Hdis e); [done|]. apply list_elem_of_here. }
  unfold list_remove. eapply assert_interior_wp; [done|].
  wp_step. apply get_elem_wp; [done|]. simpl. rewrite Hp, Hn.
  wp_step. apply set_elem_next_wp; [done|]. wp_step. apply get_elem_wp; [by auto with links|]. simpl.
  autorewrite with links. rewrite decide_False, Hp, Hn by done.
  wp_step. apply set_prev_wp; [by auto with links|]. apply get_next_wp; [by auto with links|].
  autorewrite with links. rewrite decide_False, Hn by done. apply HQ; [done|].
  frames; done || apply back_path || apply front_path.
Qed.

Lemma back_app l xs y ys : back l (xs ++ y :: ys) = back l (y :: ys).
Proof.
  unfold back. rewrite last_app. by destruct (last (y :: ys)) eqn:E; [|apply last_None in E].
Qed.
Lemma back_cons_in l y ys : back l (y :: ys) ∈ y :: ys.
Proof.
  unfold back. destruct (last (y :: ys)) eqn:E; [|by apply last_None in E]. by apply last_Some_elem_of.
Qed.

(** Moving the segment [y :: ys] back over [z :: zs]. *)
Lemma list_splice_wp h l xs1 z zs y ys xs2 (Q : unit -> heap -> Prop) :
  dll h l (xs1 ++ (z :: zs) ++ (y :: ys) ++ xs2) ->
  (forall h', dll h' l (xs1 ++ (y :: ys) ++ (z :: zs) ++ xs2) ->
     frame h h' (path l (xs1 ++ (z :: zs) ++ (y :: ys) ++ xs2)) -> Q tt h') ->
  wp (list_splice (Some z) (Some y) (Some (front l xs2))) Q h.
Proof.
  intros Hd HQ. pose proof (dll_splice h l xs1 z zs y ys xs2 Hd) as Hd'. cbv zeta in Hd'.
  assert (Hd1 : dll h l ((xs1 ++ z :: zs) ++ y :: (ys ++ xs2))) by by rewrite <- app_assoc.
  assert (Hd2 : dll h l ((xs1 ++ (z :: zs) ++ y :: ys) ++ xs2)) by by rewrite <- !app_assoc.
  destruct (exists_last (l := y :: ys) ltac:(done)) as (ys0 & y' & Ey).
  assert (Hd3 : dll h l ((xs1 ++ (z :: zs) ++ ys0) ++ y' :: xs2)).
  { rewrite Ey, <- !app_assoc in Hd. by rewrite <- !app_assoc. }
  assert (back l (y :: ys) = y') as Eb by (rewrite Ey; apply back_snoc).
  destruct (elem_links _ _ _ _ _ Hd1) as (Ly & Py & Ny). rewrite back_app in Py.
  destruct (elem_links _ _ _ _ _ Hd3) as (Ly' & Py' & Ny').
  destruct (elem_links h l xs1 z _ Hd) as (Lz & Pz & Nz).
  destruct (back_links h l xs1 _ Hd) as [La _]. destruct (front_links _ _ _ _ Hd2) as [Lb _].
  assert (live h (back l (z :: zs))) as Lz'.
  { rewrite <- (back_app l xs1). by eapply back_links. }
  pose proof (dl_nodup _ _ _ Hd) as Hnd.
  rewrite path_app4 in Hnd. apply NoDup_app4 in Hnd as (_ & X1 & X2 & X3 & X4 & X5 & X6).
  pose proof (back_in l xs1) as Ia. pose proof (front_in l xs2) as Ib.
  pose proof (back_cons_in l z zs) as Iz'. pose proof (back_cons_in l y ys) as Iy'.
  assert (z ∈ z :: zs) as Iz by apply list_elem_of_here. assert (y ∈ y :: ys) as Iy by apply list_elem_of_here.
  unfold list_splice. apply (assert_front_wp h l xs1 (z :: zs ++ y :: ys ++ xs2)); [done|].
  unfold same. rewrite bool_decide_eq_false_2 by (intros [= E]; rewrite <- E in Ib; eauto 3).
  wp_step. eapply list_prev_wp; [exact Hd2|]. rewrite app_assoc, back_app, Eb.
  eapply assert_interior_wp; [exact Hd1|]. eapply assert_interior_wp; [exact Hd3|].
  rewrite Eb in *. set (b := front l xs2) in *. set (a := back l xs1) in *. set (z' := back l (z :: zs)) in *.
  assert (a <> z' /\ a <> y' /\ z' <> y' /\ b <> y /\ b <> z /\ y <> z) as (D1 & D2 & D3 & D4 & D5 & D6)
    by (split_and!; intros E; rewrite E in *; eauto 3).
  wp_step. apply get_prev_wp; [done|]. rewrite Py. wp_step. apply get_next_wp; [done|]. rewrite Ny'.
  wp_step. apply set_elem_next_wp; [done|]. wp_step. apply get_next_wp; [by auto with links|].
  wp_step. apply get_prev_wp; [by auto with links|]. autorewrite with links. rewrite decide_False, Ny', Py by done.
  wp_step. apply set_prev_wp; [by auto with links|]. wp_step. apply get_prev_wp; [by auto with links|].
  autorewrite with links. rewrite decide_False, Pz by done.
  wp_step. apply set_prev_wp; [by auto with links|]. wp_step. apply set_elem_next_wp; [by auto with links|].
  wp_step. apply get_prev_wp; [by auto 7 with links|]. autorewrite with links.
  rewrite !decide_False, Pz by done.
  wp_step. apply set_elem_next_wp; [by auto 7 with links|]. apply set_prev_wp; [by auto 8 with links|].
  apply HQ; [done|]. rewrite path_app4.
  apply elem_of_app in Ib. frames; try done; rewrite !elem_of_app; tauto.
Qed.
End IntrusiveList.
