(* ===== verification/IntrusiveListProps.v ===== *)
(** * IntrusiveListProps: the list of the file system behaves as a sequence

    What the operations of IntrusiveList.v do to the sequence of elements
    of a list: any calls of the operations that have no order (a
    refinement), and list_reverse. *)
From S2P Require Import Prelude Links IntrusiveList.

Module IntrusiveListProps.
Import IntrusiveList.

Lemma same_front_nil l x xs : NoDup (path l (x :: xs)) -> same (Some x) (list_end l) = false.
Proof.
  intros Hn. apply bool_decide_eq_false_2. intros [= ->]. unfold path in Hn.
  apply NoDup_cons in Hn as [_ Hn]. apply NoDup_cons in Hn as [Hn _]. set_solver.
Qed.

(** The test [e != list_end(list)] at a position. *)
Lemma same_end h l xs1 xs2 :
  dll h l (xs1 ++ xs2) -> same (Some (front l xs2)) (list_end l) = bool_decide (xs2 = []).
Proof.
  intros [Hn _ _ _]. unfold same, list_end. apply bool_decide_ext. destruct xs2 as [|x xs2]; [done|].
  split; [|done]. intros [= E]. simpl in E. subst x. rewrite path_app in Hn.
  apply NoDup_app in Hn as (_ & _ & Hn). simpl in Hn. apply NoDup_cons in Hn as [Hn _]. set_solver.
Qed.

(** A loop over the list: [I xs1 x] holds at the position after [xs1],
    with loop variables [x]; the body moves on by one element or leaves. *)
Lemma walk_list_wp {X R} h l xs (I : list loc -> X -> heap -> Prop) (body : ptr * X -> M heap (ptr * X + R)) x
    (Q : R -> heap -> Prop) :
  dll h l xs -> I [] x h ->
  (forall xs1 xs2 y h1, xs = xs1 ++ xs2 -> I xs1 y h1 ->
     wp (body (Some (front l xs2), y)) (fun r h2 =>
       match r with
       | inl (p, y') => exists e xs2', xs2 = e :: xs2' /\ p = Some (front l xs2') /\ I (xs1 ++ [e]) y' h2
       | inr r => Q r h2
       end) h1) ->
  wp (walk body (Some (front l xs), x)) Q h.
Proof.
  intros Hd HI Hb. unfold walk. wp_step. apply wp_get. pose proof (dll_size _ _ _ Hd) as Hs.
  assert (forall fuel xs1 xs2 y h1, xs = xs1 ++ xs2 -> I xs1 y h1 -> (length xs2 < fuel)%nat ->
    wp (while_ fuel body (Some (front l xs2), y)) Q h1) as H.
  { induction fuel as [|fuel IH]; intros xs1 xs2 y h1 E Hy Hf; [lia|]. simpl. wp_step.
    eapply wp_mono; [by eapply Hb|]. intros [[p y']|r] h2; [|by intros; apply wp_ret].
    intros (e & xs2' & -> & -> & HI'). simpl in Hf. apply (IH (xs1 ++ [e])); [|done|lia].
    by rewrite <- app_assoc. }
  apply (H _ []); [done|done|lia].
Qed.

Lemma list_size_wp h l xs (Q : Z -> heap -> Prop) :
  dll h l xs -> Q (zlen xs) h -> wp (list_size l) Q h.
Proof.
  intros Hd HQ. unfold list_size. wp_step. eapply list_begin_wp; [done|].
  eapply (walk_list_wp _ _ _ (fun xs1 cnt h1 => h1 = h /\ cnt = zlen xs1)); [done|done|].
  intros xs1 xs2 cnt h1 -> [-> ->]. rewrite (same_end h l xs1 xs2) by done.
  destruct xs2 as [|e xs2].
  - rewrite app_nil_r in HQ. by apply wp_ret.
  - simpl. wp_step. eapply list_next_wp; [done|]. apply wp_ret. exists e, xs2.
    split_and!; [done|done|done|]. rewrite zlen_app. done.
Qed.

Lemma list_empty_wp h l xs (Q : bool -> heap -> Prop) :
  dll h l xs -> Q (bool_decide (xs = [])) h -> wp (list_empty l) Q h.
Proof.
  intros Hd HQ. unfold list_empty. wp_step. eapply list_begin_wp; [done|]. apply wp_ret.
  by rewrite (same_end h l [] xs).
Qed.

Lemma list_front_wp h l x xs (Q : ptr -> heap -> Prop) :
  dll h l (x :: xs) -> Q (Some x) h -> wp (list_front l) Q h.
Proof.
  intros Hd HQ. unfold list_front. wp_step. eapply list_empty_wp; [done|]. wp_step.
  apply wp_assert; [done|]. by eapply (list_begin_wp _ _ (x :: xs)).
Qed.
Lemma list_back_wp h l xs x (Q : ptr -> heap -> Prop) :
  dll h l (xs ++ [x]) -> Q (Some x) h -> wp (list_back l) Q h.
Proof.
  intros Hd HQ. unfold list_back. wp_step. eapply list_empty_wp; [done|]. wp_step.
  apply wp_assert; [by destruct xs|]. rewrite <- (app_nil_r (xs ++ [x])) in Hd.
  destruct (dll_cut _ _ _ _ Hd) as [_ H]. apply get_prev_wp; [by eapply front_links in Hd as [? _]|].
  simpl in H. rewrite H. by rewrite back_snoc.
Qed.

Lemma list_pop_front_wp h l x xs (Q : ptr -> heap -> Prop) :
  dll h l (x :: xs) -> (forall h', dll h' l xs -> frame h h' (path l xs) -> Q (Some x) h') ->
  wp (list_pop_front l) Q h.
Proof.
  intros Hd HQ. unfold list_pop_front. wp_step. eapply list_front_wp; [done|]. wp_step.
  eapply (list_remove_wp _ _ []); [done|]. intros h' Hd' Hf. by apply wp_ret, HQ.
Qed.
Lemma list_pop_back_wp h l xs x (Q : ptr -> heap -> Prop) :
  dll h l (xs ++ [x]) -> (forall h', dll h' l xs -> frame h h' (path l xs) -> Q (Some x) h') ->
  wp (list_pop_back l) Q h.
Proof.
  intros Hd HQ. unfold list_pop_back. wp_step. eapply list_back_wp; [done|]. wp_step.
  eapply (list_remove_wp _ _ xs x []); [done|]. rewrite app_nil_r. intros h' Hd' Hf. by apply wp_ret, HQ.
Qed.

Lemma list_push_front_wp h l xs e (Q : unit -> heap -> Prop) :
  dll h l xs -> e ∉ path l xs -> live h e ->
  (forall h', dll h' l (e :: xs) -> frame h h' (path l (e :: xs)) -> Q tt h') ->
  wp (list_push_front l (Some e)) Q h.
Proof.
  intros Hd He Hl HQ. unfold list_push_front. wp_step. eapply list_begin_wp; [done|].
  by eapply (list_insert_wp _ _ [] xs).
Qed.
Lemma list_push_back_wp h l xs e (Q : unit -> heap -> Prop) :
  dll h l xs -> e ∉ path l xs -> live h e ->
  (forall h', dll h' l (xs ++ [e]) -> frame h h' (path l (xs ++ [e])) -> Q tt h') ->
  wp (list_push_back l (Some e)) Q h.
Proof.
  intros Hd He Hl HQ. unfold list_push_back. change (list_end l) with (Some (front l [])).
  eapply (list_insert_wp _ _ xs []); [by rewrite app_nil_r..|done|done].
Qed.

(* ------------------------------------------------------------------ *)
(** ** list_reverse                                                    *)
(* ------------------------------------------------------------------ *)

(** The links after the loop has swapped those of [P]. *)
Record swapped (h h' : heap) (P : list loc) : Prop := {
  sw_next : forall x, nextof h' x = if decide (x ∈ P) then prevof h x else nextof h x;
  sw_prev : forall x, prevof h' x = if decide (x ∈ P) then nextof h x else prevof h x;
  sw_live : forall x, live h x -> live h' x
}.

Lemma swap_links_wp h0 h P x (Q : unit -> heap -> Prop) :
  swapped h0 h P -> x ∉ P -> live h0 x ->
  (forall h', swapped h0 h' (P ++ [x]) -> Q tt h') -> wp (swap_links (Some x)) Q h.
Proof.
  intros [Hn Hp Hl] Hx Hlx HQ. apply Hl in Hlx. unfold swap_links.
  wp_step. apply get_prev_wp; [done|]. wp_step. apply get_next_wp; [done|].
  wp_step. apply set_prev_wp; [done|]. apply set_elem_next_wp; [by apply live_setp|]. apply HQ.
  assert (forall y, y ∈ P ++ [x] <-> y = x \/ y ∈ P) as Hin by set_solver.
  split.
  - intros y. autorewrite with links. rewrite Hn, Hp. repeat case_decide; subst; try done; naive_solver.
  - intros y. autorewrite with links. rewrite Hn, Hp. repeat case_decide; subst; try done; naive_solver.
  - intros y Hy. by apply live_setn, live_setp, Hl.
Qed.

(** The four assignments after the loop. *)
Definition swap_ends (l : list_) : M heap unit :=
  let! x := get_next (Some (head l)) in
  let! y := get_prev (Some (tail l)) in
  set_next (Some (head l)) y ;;
  set_prev (Some (tail l)) x ;;
  let! a := get_next (Some (head l)) in
  let! b := get_prev (Some (tail l)) in
  let! x := get_prev a in
  let! y := get_next b in
  set_prev a y ;;
  set_next b x.

Lemma swapped_reverse h h' l xs y z :
  dll h l xs -> swapped h h' xs -> hd_error xs = Some y -> last xs = Some z ->
  dll (setn y (Some (tail l)) (setp z (Some (head l))
        (setp (tail l) (Some y) (setn (head l) (Some z) h')))) l (reverse xs).
Proof.
  intros [H1 H2 H3 H4] [Hn Hp _] Hy Hz. pose proof H1 as H1'. unfold path in H1'.
  apply NoDup_cons in H1' as [N1 N2]. apply NoDup_app in N2 as (N2 & N3 & _).
  assert (y ∈ xs) as Iy by (destruct xs; [done|injection Hy as ->; apply list_elem_of_here]).
  assert (z ∈ xs) as Iz by by apply last_Some_elem_of.
  assert (head l ∉ xs /\ tail l ∉ xs /\ head l <> tail l) as (X1 & X2 & X3) by (split_and!; set_solver).
  assert (head l <> y /\ head l <> z /\ tail l <> y /\ tail l <> z) as (X4 & X5 & X6 & X7)
    by (split_and!; intros E; rewrite E in *; done).
  split.
  - unfold path. by rewrite reverse_Permutation.
  - rewrite <- (app_nil_r (reverse xs)), path_app, app_nil_l.
    apply (linked_concat _ _ [head l]); [done| |].
    + apply linked_concat; [|done|].
      * unfold path in H2. apply (linked_app_inv _ _ [head l]) in H2 as (_ & H2 & _).
        apply linked_app_inv in H2 as (H2 & _ & _). apply linked_reverse in H2.
        eapply linked_same; [by rewrite reverse_Permutation| | |exact H2];
          intros x Hx Hend; rewrite elem_of_reverse in Hx; autorewrite with links; rewrite ?Hn, ?Hp.
        -- rewrite last_reverse, Hy in Hend. rewrite !(decide_False (P := x = _)) by (congruence || set_solver).
           by rewrite decide_True.
        -- rewrite head_reverse, Hz in Hend. rewrite !(decide_False (P := x = _)) by (congruence || set_solver).
           by rewrite decide_True.
      * intros a b Ha [= <-]. rewrite last_reverse, Hy in Ha. injection Ha as <-.
        autorewrite with links. by links_ne.
    + intros a b [= <-] Hb. destruct (reverse xs) as [|b' r] eqn:Er; [by destruct xs; [|rewrite reverse_cons in Er; destruct (reverse xs)]|].
      injection Hb as <-. assert (z = b') as <-.
      { rewrite <- (reverse_involutive xs), last_reverse, Er in Hz. by injection Hz. }
      autorewrite with links. by links_ne.
  - autorewrite with links. rewrite Hp. rewrite !decide_False by congruence. done.
  - autorewrite with links. rewrite Hn. rewrite !decide_False by congruence. done.
Qed.

Lemma swap_ends_wp h h' l xs (Q : unit -> heap -> Prop) :
  dll h l xs -> swapped h h' xs -> xs <> [] ->
  (forall h'', dll h'' l (reverse xs) -> (forall x, live h x -> live h'' x) -> Q tt h'') -> wp (swap_ends l) Q h'.
Proof.
  intros Hd Hsw Hne HQ. destruct xs as [|y xs]; [done|].
  destruct (exists_last (l := y :: xs) ltac:(done)) as (xs0 & z & Ez).
  pose proof (swapped_reverse h h' l (y :: xs) y z Hd Hsw eq_refl ltac:(by rewrite Ez, last_snoc)) as Hd'.
  pose proof (dl_nodup _ _ _ Hd) as Hn.
  destruct (elem_links h l [] y xs Hd) as (Ly & Py & Ny).
  assert (Hd2 : dll h l (xs0 ++ z :: [])) by by rewrite <- Ez.
  destruct (elem_links _ _ _ _ _ Hd2) as (Lz & Pz & Nz).
  destruct (dll_cut h l [] (y :: xs) Hd) as [Hh _].
  assert (Hd3 : dll h l ((xs0 ++ [z]) ++ [])) by by rewrite app_nil_r.
  destruct (dll_cut _ _ _ _ Hd3) as [_ Ht]. rewrite back_snoc in Ht. simpl in Ht, Nz.
  change (back l []) with (head l) in *. simpl in Hh.
  assert (live h (head l) /\ live h (tail l)) as [Lh Lt] by (split; [by eapply nextof_live|by eapply prevof_live]).
  assert (z ∈ y :: xs) as Iz by (rewrite Ez; set_solver).
  assert (head l ∉ y :: xs /\ tail l ∉ y :: xs /\ head l <> tail l) as (X1 & X2 & X3).
  { unfold path in Hn. apply NoDup_cons in Hn as [N1 N2]. apply NoDup_app in N2 as (N2 & N3 & _).
    split_and!; set_solver. }
  destruct Hsw as [Sn Sp Sl]. unfold swap_ends.
  wp_step. apply get_next_wp; [by apply Sl|]. rewrite Sn, decide_False, Hh by done.
  wp_step. apply get_prev_wp; [by apply Sl|]. rewrite Sp, decide_False, Ht by done.
  wp_step. apply set_elem_next_wp; [by apply Sl|]. wp_step. apply set_prev_wp; [by apply live_setn, Sl|].
  wp_step. apply get_next_wp; [by apply live_setp, live_setn, Sl|]. autorewrite with links. rewrite decide_True by done.
  wp_step. apply get_prev_wp; [by apply live_setp, live_setn, Sl|]. autorewrite with links. rewrite decide_True by done.
  wp_step. apply get_prev_wp; [by apply live_setp, live_setn, Sl|].
  wp_step. apply get_next_wp; [by apply live_setp, live_setn, Sl|]. autorewrite with links.
  rewrite (decide_False (P := z = tail l)), (decide_False (P := y = head l)) by (intros E; rewrite <- E in *; set_solver).
  rewrite Sp, Sn, !decide_True, Nz, Py by (done || apply list_elem_of_here).
  wp_step. apply set_prev_wp; [by apply live_setp, live_setn, Sl|].
  apply set_elem_next_wp; [by apply live_setp, live_setp, live_setn, Sl|]. apply HQ; [done|].
  intros x Hx. by apply live_setn, live_setp, live_setp, live_setn, Sl.
Qed.

Lemma list_reverse_wp h l xs (Q : unit -> heap -> Prop) :
  dll h l xs -> (forall h', dll h' l (reverse xs) -> (forall x, live h x -> live h' x) -> Q tt h') ->
  wp (list_reverse l) Q h.
Proof.
  intros Hd HQ. unfold list_reverse. wp_step. eapply list_empty_wp; [done|].
  destruct xs as [|x xs]; [by apply wp_ret, HQ|]. simpl. set (ys := x :: xs) in *.
  wp_step. eapply list_begin_wp; [done|]. wp_step. unfold walk. wp_step. apply wp_get.
  pose proof (dll_size _ _ _ Hd) as Hs. pose proof (dl_nodup _ _ _ Hd) as Hnd.
  eapply (wp_while_ghost (fun n e h' => exists P S, ys = P ++ S /\ n = length S /\
    e = Some (front l S) /\ swapped h h' P)) with (n := length ys); [|exists [], ys; split_and!; try done|unfold ys; simpl in *; lia].
  clear Hs. intros n e h' (P & S & E & -> & -> & Hsw).
  assert (Hd' : dll h l (P ++ S)) by by rewrite <- E. rewrite (same_end h l P S) by done.
  destruct S as [|y S]; simpl.
  - apply wp_ret. rewrite app_nil_r in E. rewrite <- E in Hsw.
    apply (swap_ends_wp h h' l ys); [done|done|by unfold ys|done].
  - wp_step. destruct (elem_links _ _ _ _ _ Hd') as (Ly & Py & Ny). eapply swap_links_wp; [done| |done|].
    { intros Hy. rewrite E, path_app in Hnd. apply NoDup_app in Hnd as (_ & Hdis & _).
      apply (Hdis y); [by apply elem_of_cons; right|]. apply list_elem_of_here. }
    intros h1 Hsw1. wp_step. apply get_prev_wp; [by apply Hsw1|]. apply wp_ret.
    exists (length S). split; [lia|]. exists (P ++ [y]), S. split_and!; [|done| |done].
    + by rewrite <- app_assoc.
    + rewrite (sw_prev _ _ _ Hsw1). rewrite decide_True by set_solver. by rewrite Ny.
Qed.

(* ------------------------------------------------------------------ *)
(** ** Refinement of sequences                                         *)
(* ------------------------------------------------------------------ *)

Inductive lop :=
  | PushFront (e : loc) | PushBack (e : loc) | Insert (before e : loc) | Remove (e : loc)
  | PopFront | PopBack | Front | Back | Size | Empty | Reverse.
Inductive lres := RUnit | RElem (p : ptr) | RSize (n : Z) | RBool (b : bool).

Definition list_step (l : list_) (op : lop) : M heap lres :=
  match op with
  | PushFront e => list_push_front l (Some e) ;; ret RUnit
  | PushBack e => list_push_back l (Some e) ;; ret RUnit
  | Insert b e => list_insert (Some b) (Some e) ;; ret RUnit
  | Remove e => let! p := list_remove (Some e) in ret (RElem p)
  | PopFront => let! p := list_pop_front l in ret (RElem p)
  | PopBack => let! p := list_pop_back l in ret (RElem p)
  | Front => let! p := list_front l in ret (RElem p)
  | Back => let! p := list_back l in ret (RElem p)
  | Size => let! n := list_size l in ret (RSize n)
  | Empty => let! b := list_empty l in ret (RBool b)
  | Reverse => list_reverse l ;; ret RUnit
  end.
Fixpoint list_run (l : list_) (ops : list lop) : M heap (list lres) :=
  match ops with
  | [] => ret []
  | op :: ops => let! r := list_step l op in let! rs := list_run l ops in ret (r :: rs)
  end.

(** On sequences; [None] where the comments of list.c call the behaviour
    undefined. *)
Fixpoint insert_before (l : list_) (b e : loc) (xs : list loc) : option (list loc) :=
  match xs with
  | [] => if bool_decide (b = tail l) then Some [e] else None
  | x :: xs => if bool_decide (b = x) then Some (e :: x :: xs) else cons x <$> insert_before l b e xs
  end.
Fixpoint take_elem (l : list_) (e : loc) (xs : list loc) : option (loc * list loc) :=
  match xs with
  | [] => None
  | x :: xs => if bool_decide (e = x) then Some (front l xs, xs)
               else '(n, r) ← take_elem l e xs; Some (n, x :: r)
  end.
Definition fresh_in (l : list_) (e : loc) (xs : list loc) (r : option (list loc)) : option (lres * list loc) :=
  if bool_decide (e ∈ path l xs) then None else pair RUnit <$> r.
Definition spec_step (l : list_) (op : lop) (xs : list loc) : option (lres * list loc) :=
  match op with
  | PushFront e => fresh_in l e xs (Some (e :: xs))
  | PushBack e => fresh_in l e xs (Some (xs ++ [e]))
  | Insert b e => fresh_in l e xs (insert_before l b e xs)
  | Remove e => '(n, r) ← take_elem l e xs; Some (RElem (Some n), r)
  | PopFront => match xs with [] => None | x :: r => Some (RElem (Some x), r) end
  | PopBack => x ← last xs; Some (RElem (Some x), removelast xs)
  | Front => x ← hd_error xs; Some (RElem (Some x), xs)
  | Back => x ← last xs; Some (RElem (Some x), xs)
  | Size => Some (RSize (zlen xs), xs)
  | Empty => Some (RBool (bool_decide (xs = [])), xs)
  | Reverse => Some (RUnit, reverse xs)
  end.
Fixpoint spec_run (l : list_) (ops : list lop) (xs : list loc) : option (list lres * list loc) :=
  match ops with
  | [] => Some ([], xs)
  | op :: ops => '(r, xs1) ← spec_step l op xs; '(rs, xs2) ← spec_run l ops xs1; Some (r :: rs, xs2)
  end.

(** The element an operation adds to the list is an object. *)
Definition adds_live (h : heap) (op : lop) : Prop :=
  match op with PushFront e | PushBack e | Insert _ e => live h e | _ => True end.

Lemma insert_before_split l b e xs ys :
  insert_before l b e xs = Some ys -> exists xs1 xs2, xs = xs1 ++ xs2 /\ ys = xs1 ++ e :: xs2 /\ b = front l xs2.
Proof.
  revert ys. induction xs as [|x xs IH]; intros ys; simpl; case_bool_decide as E; try done.
  - intros [= <-]. by exists [], [].
  - intros [= <-]. by exists [], (x :: xs).
  - intros (zs & Hz & ->)%fmap_Some. destruct (IH _ Hz) as (xs1 & xs2 & -> & -> & ->).
    by exists (x :: xs1), xs2.
Qed.
Lemma take_elem_split l e xs n r :
  take_elem l e xs = Some (n, r) -> exists xs1 xs2, xs = xs1 ++ e :: xs2 /\ r = xs1 ++ xs2 /\ n = front l xs2.
Proof.
  revert r. induction xs as [|x xs IH]; intros r; simpl; [done|]. case_bool_decide as E.
  - intros [= <- <-]. subst. by exists [], xs.
  - intros ([n' r'] & Hr & [= -> <-])%bind_Some. destruct (IH _ Hr) as (xs1 & xs2 & -> & -> & ->).
    by exists (x :: xs1), xs2.
Qed.
Lemma last_split {A} (xs : list A) x : last xs = Some x -> xs = removelast xs ++ [x].
Proof.
  intros H. destruct xs as [|y xs]; [done|]. rewrite (app_removelast_last x (l := y :: xs)) at 1 by done.
  do 2 f_equal. destruct (exists_last (l := y :: xs) ltac:(done)) as (ys & z & E). rewrite E in *.
  rewrite last_last. rewrite last_snoc in H. by injection H.
Qed.

Lemma list_call_wp h l xs op r xs' (Q : lres -> heap -> Prop) :
  dll h l xs -> adds_live h op -> spec_step l op xs = Some (r, xs') ->
  (forall h', dll h' l xs' -> (forall x, live h x -> live h' x) -> Q r h') ->
  wp (list_step l op) Q h.
Proof.
  intros Hd Ha Hs HQ. unfold list_step. destruct op as [e|e|b e|e| | | | | | |]; simpl in Hs; wp_step.
  - unfold fresh_in in Hs. case_bool_decide; [done|]. injection Hs as <- <-.
    eapply list_push_front_wp; [done..|]. intros h' Hd' Hf. apply wp_ret, HQ; [done|apply Hf].
  - unfold fresh_in in Hs. case_bool_decide; [done|]. injection Hs as <- <-.
    eapply list_push_back_wp; [done..|]. intros h' Hd' Hf. apply wp_ret, HQ; [done|apply Hf].
  - unfold fresh_in in Hs. case_bool_decide as He; [done|]. apply fmap_Some in Hs as (ys & Hs & [= <- ->]).
    apply insert_before_split in Hs as (xs1 & xs2 & -> & -> & ->).
    eapply list_insert_wp; [done..|]. intros h' Hd' Hf. apply wp_ret, HQ; [done|apply Hf].
  - apply bind_Some in Hs as ([n ys] & Hs & [= <- <-]).
    apply take_elem_split in Hs as (xs1 & xs2 & -> & -> & ->).
    eapply list_remove_wp; [done|]. intros h' Hd' Hf. apply wp_ret, HQ; [done|apply Hf].
  - destruct xs as [|x xs]; [done|]. injection Hs as <- <-.
    eapply list_pop_front_wp; [done|]. intros h' Hd' Hf. apply wp_ret, HQ; [done|apply Hf].
  - apply bind_Some in Hs as (x & Hs & [= <- <-]). rewrite (last_split _ _ Hs) in Hd.
    eapply list_pop_back_wp; [done|]. intros h' Hd' Hf. apply wp_ret, HQ; [done|apply Hf].
  - destruct xs as [|x xs]; [done|]. injection Hs as <- <-. eapply list_front_wp; [done|]. by apply wp_ret, HQ.
  - apply bind_Some in Hs as (x & Hs & [= <- <-]). rewrite (last_split _ _ Hs) in Hd.
    eapply list_back_wp; [done|]. apply wp_ret, HQ; [|done]. by rewrite (last_split _ _ Hs).
  - injection Hs as <- <-. eapply list_size_wp; [done|]. by apply wp_ret, HQ.
  - injection Hs as <- <-. eapply list_empty_wp; [done|]. by apply wp_ret, HQ.
  - injection Hs as <- <-. eapply list_reverse_wp; [done|]. intros h' Hd' Hl. by apply wp_ret, HQ.
Qed.

(** C9: Refinement: list.c implements sequences: any calls of push_front,
    push_back, insert, remove, pop_front, pop_back, front, back, size,
    empty and reverse, of any number and in any order, return what the same calls on the sequence of
    elements return and leave the list that they leave, as long as none of
    them is of those whose behaviour the comments leave undefined (an
    element added twice, popping an empty list, ...). *)
Theorem list_refines_sequences h l ops xs rs xs' :
  dll h l xs -> Forall (adds_live h) ops -> spec_run l ops xs = Some (rs, xs') ->
  exists h', list_run l ops h = Ok rs h' [] /\ dll h' l xs'.
Proof.
  intros Hd Hl Hs.
  assert (wp (list_run l ops) (fun r h' => r = rs /\ dll h' l xs') h) as H.
  { revert h xs rs Hd Hl Hs. induction ops as [|op ops IH]; intros h xs rs Hd Hl Hs; simpl in *.
    - injection Hs as <- ->. by apply wp_ret.
    - apply Forall_cons in Hl as [Ho Hl]. apply bind_Some in Hs as ([r xs1] & H1 & Hs).
      apply bind_Some in Hs as ([rs2 xs2] & H2 & [= <- ->]). wp_step.
      eapply list_call_wp; [done..|]. intros h1 Hd1 Hlive. wp_step.
      eapply wp_mono; [apply (IH h1 xs1); [done| |done]|].
      + eapply Forall_impl; [done|]. intros o. destruct o; simpl; auto.
      + intros rs' h2 [-> Hd2]. by apply wp_ret. }
  apply wp_Ok in H as (r & h' & E & -> & Hd'). by exists h'.
Qed.

(** The list with headers 1 and 2, and three objects. *)
Definition demo_list : list_ := mkList 1 2.
Definition demo_heap : heap :=
  {[1 := mkElem None (Some 2); 2 := mkElem (Some 1) None;
    3 := mkElem None None; 4 := mkElem None None; 5 := mkElem None None]}%positive.
Lemma demo_dll : dll demo_heap demo_list [].
Proof. split; try done. by apply (bool_decide_unpack _). Qed.

Lemma list_refines_sequences_witness :
  exists h', list_run demo_list [PushBack 3; PushFront 4; Insert 3 5; Reverse; Remove 5; Size; PopBack; PopFront; Empty]
    demo_heap = Ok [RUnit; RUnit; RUnit; RUnit; RElem (Some 4); RSize 2; RElem (Some 4); RElem (Some 3);
      RBool true]%positive h' [] /\ dll h' demo_list [].
Proof.
  apply (list_refines_sequences demo_heap demo_list _ [] _ []); [apply demo_dll| |by vm_compute].
  repeat constructor; by eexists.
Defined.
End IntrusiveListProps.
