(* ===== verification/IntrusiveSort.v ===== *)
(** * IntrusiveSort: the operations of the list that use an order

    list_sort of a3/fs/list.c is a natural merge sort in place.  It ends,
    and leaves the elements sorted and equal ones in the order they had. *)
From stdpp Require Import sorting.
From S2P Require Import Prelude Links IntrusiveList IntrusiveListProps.

Module IntrusiveSort.
Import IntrusiveList IntrusiveListProps.

(** The same list, with the elements grouped otherwise. *)
Ltac regroup H :=
  repeat first [rewrite <- app_assoc in H|rewrite <- app_comm_cons in H];
  repeat first [rewrite <- app_assoc|rewrite <- app_comm_cons];
  rewrite ?app_nil_l, ?app_nil_r in H; rewrite ?app_nil_l, ?app_nil_r; exact H.

Section sort.
(** [less] on the elements of [D] is the strict part of an order. *)
Context (l : list_) (less : loc -> loc -> option bool) (lt : loc -> loc -> bool) (D : list loc).
Hypothesis less_lt : forall x y, x ∈ D -> y ∈ D -> less x y = Some (lt x y).

Definition le (x y : loc) : Prop := lt y x = false.
#[global] Instance le_dec x y : Decision (le x y) := decide (lt y x = false).

Lemma call_less_wp x y h (Q : bool -> heap -> Prop) :
  x ∈ D -> y ∈ D -> Q (lt x y) h -> wp (call_less less (Some x) (Some y)) Q h.
Proof using less_lt.
  intros Hx Hy HQ. unfold call_less. do 2 (wp_step; eapply wp_need; [done|]).
  eapply wp_need; [by apply less_lt|done].
Qed.

(** Two positions of a list are the same address when nothing is between
    them. *)
Lemma same_pos h xs ys zs :
  dll h l (xs ++ ys ++ zs) -> same (Some (front l (ys ++ zs))) (Some (front l zs)) = bool_decide (ys = []).
Proof.
  intros [Hn _ _ _]. unfold same. apply bool_decide_ext. destruct ys as [|y ys]; [done|].
  split; [|done]. intros [= E]. simpl in E. pose proof (front_in l zs) as Hf. rewrite <- E in Hf.
  rewrite path_app in Hn. apply NoDup_app in Hn as (_ & _ & Hn). simpl in Hn.
  apply NoDup_cons in Hn as [Hn _]. exfalso. apply Hn. rewrite <- app_assoc. apply elem_of_app. by right.
Qed.

(** [run] is the longest start of [ys] in nondecreasing order. *)
Record run_split (ys run rest : list loc) : Prop := {
  rs_app : ys = run ++ rest;
  rs_ne : run <> [];
  rs_sorted : Sorted le run;
  rs_desc : forall p z, last run = Some p -> hd_error rest = Some z -> lt z p = true
}.

Lemma Sorted_snoc_le pre p q : Sorted le (pre ++ [p]) -> le p q -> Sorted le ((pre ++ [p]) ++ [q]).
Proof. intros Hs Hle. apply Sorted_snoc; [done|]. by constructor. Qed.

(** The loop of is_sorted and find_end_of_run. *)
Lemma scan_wp {R} h xs1 y ys xs2 (f g : ptr -> R) (Q : R -> heap -> Prop) :
  dll h l (xs1 ++ (y :: ys) ++ xs2) -> (forall x, x ∈ y :: ys -> x ∈ D) ->
  (forall run rest, run_split (y :: ys) run rest ->
     Q ((if rest is [] then f else g) (Some (front l (rest ++ xs2)))) h) ->
  wp (walk (fun a =>
        let! a := list_next a in
        if same a (Some (front l xs2)) then ret (inr (f a)) else
        let! p := list_prev a in
        let! r := call_less less a p in
        if r : bool then ret (inr (g a)) else ret (inl a)) (Some y)) Q h.
Proof using less_lt.
  intros Hd HD HQ. unfold walk. wp_step. apply wp_get. pose proof (dll_size _ _ _ Hd) as Hs.
  apply (wp_while_ghost (fun n a h' => h' = h /\ exists pre p post, y :: ys = pre ++ p :: post /\
    a = Some p /\ Sorted le (pre ++ [p]) /\ n = length post)) with (n := length ys).
  2:{ split; [done|]. exists [], y, ys. split_and!; try done. by repeat constructor. }
  2:{ rewrite !length_app in Hs. simpl in Hs. lia. }
  clear Hs. intros n a h' [-> (pre & p & post & E & -> & Hsort & ->)]. rewrite E in Hd, HD.
  assert (Hd1 : dll h l ((xs1 ++ pre) ++ p :: (post ++ xs2))) by regroup Hd.
  wp_step. eapply list_next_wp; [done|].
  assert (Hd2 : dll h l ((xs1 ++ pre ++ [p]) ++ post ++ xs2)) by regroup Hd.
  rewrite (same_pos h (xs1 ++ pre ++ [p]) post xs2) by done.
  destruct post as [|q post].
  - apply wp_ret. apply (HQ (pre ++ [p]) []). split; [by rewrite app_nil_r|by destruct pre|done|done].
  - simpl. change (Some q) with (Some (front l ((q :: post) ++ xs2))) at 1.
    wp_step. eapply list_prev_wp; [done|]. rewrite app_assoc, back_snoc.
    wp_step. apply call_less_wp; [apply HD; set_solver..|]. destruct (lt q p) eqn:Elt; apply wp_ret.
    + apply (HQ (pre ++ [p]) (q :: post)). split; [by rewrite <- app_assoc|by destruct pre|done|].
      intros p' z Hp [= <-]. rewrite last_snoc in Hp. by injection Hp as <-.
    + exists (length post). split; [simpl; lia|]. split; [done|]. exists (pre ++ [p]), q, post.
      split_and!; [by rewrite <- app_assoc|done| |done]. by apply Sorted_snoc_le.
Qed.

Lemma is_sorted_wp h xs1 ys xs2 (Q : bool -> heap -> Prop) :
  dll h l (xs1 ++ ys ++ xs2) -> (forall x, x ∈ ys -> x ∈ D) -> Sorted le ys -> Q true h ->
  wp (is_sorted less (Some (front l (ys ++ xs2))) (Some (front l xs2))) Q h.
Proof using less_lt.
  intros Hd HD Hs HQ. unfold is_sorted. erewrite same_pos by done. destruct ys as [|y ys]; [done|].
  simpl. apply (scan_wp h xs1 y ys xs2 (fun _ => true) (fun _ => false)); [done|done|].
  intros run [|z rest] [E Hne _ Hlt]; [done|]. exfalso.
  destruct (exists_last Hne) as (run' & p & ->). specialize (Hlt p z (last_snoc _ _) eq_refl).
  rewrite E, <- app_assoc in Hs. assert (Sorted le ([p] ++ z :: rest)) as Hs' by (clear -Hs; induction run'; [done|inversion Hs; auto]).
  inversion Hs' as [|? ? _ Hh]; subst. inversion Hh as [|? ? Hle]; subst. unfold le in Hle. congruence.
Qed.

Lemma find_end_of_run_wp h xs1 y ys (Q : ptr -> heap -> Prop) :
  dll h l (xs1 ++ y :: ys) -> (forall x, x ∈ y :: ys -> x ∈ D) ->
  (forall run rest, run_split (y :: ys) run rest -> Q (Some (front l rest)) h) ->
  wp (find_end_of_run less (Some y) (list_end l)) Q h.
Proof using less_lt.
  intros Hd HD HQ. unfold find_end_of_run. wp_step. apply wp_assert; [done|]. wp_step. apply wp_assert; [done|].
  wp_step. apply wp_assert.
  { change (Some y) with (Some (front l (y :: ys))). by erewrite same_end by done. }
  rewrite <- (app_nil_r ys), app_comm_cons in Hd.
  apply (scan_wp h xs1 y ys [] (fun a => a) (fun a => a)); [done|done|].
  intros run rest Hr. specialize (HQ run rest Hr). rewrite app_nil_r. by destruct rest.
Qed.

(* ------------------------------------------------------------------ *)
(** ** Merging                                                         *)
(* ------------------------------------------------------------------ *)

Lemma frame_path h h' xs ys : (forall x, x ∈ xs <-> x ∈ ys) -> frame h h' (path l xs) -> frame h h' (path l ys).
Proof.
  intros Hxy Hf. eapply frame_mono; [done|]. intros x. unfold path.
  rewrite !elem_of_cons, !elem_of_app, Hxy. done.
Qed.

Lemma inplace_merge_wp h P L1 L2 T (Q : unit -> heap -> Prop) :
  dll h l (P ++ L1 ++ L2 ++ T) -> (forall x, x ∈ L1 ++ L2 -> x ∈ D) -> Sorted le L1 -> Sorted le L2 ->
  (forall h', dll h' l (P ++ list_merge le L1 L2 ++ T) ->
     frame h h' (path l (P ++ L1 ++ L2 ++ T)) -> Q tt h') ->
  wp (inplace_merge less (Some (front l (L1 ++ L2 ++ T))) (Some (front l (L2 ++ T))) (Some (front l T))) Q h.
Proof using less_lt.
  intros Hd HD S1 S2 HQ. unfold inplace_merge. do 3 (wp_step; apply wp_assert; [done|]).
  wp_step. eapply is_sorted_wp; [exact Hd|set_solver|done|]. wp_step. apply wp_assert; [done|].
  wp_step. assert (Hd2 : dll h l ((P ++ L1) ++ L2 ++ T)) by regroup Hd.
  eapply is_sorted_wp; [exact Hd2|set_solver|done|]. wp_step. apply wp_assert; [done|].
  unfold walk. wp_step. apply wp_get. pose proof (dll_size _ _ _ Hd) as Hs. rewrite !length_app in Hs.
  apply (wp_while_ghost (fun n '(a0, a1b0) h' => exists M K1 K2,
    dll h' l ((P ++ M) ++ K1 ++ K2 ++ T) /\ frame h h' (path l (P ++ L1 ++ L2 ++ T)) /\
    M ++ list_merge le K1 K2 = list_merge le L1 L2 /\ (forall x, x ∈ K1 ++ K2 -> x ∈ L1 ++ L2) /\
    (forall x, x ∈ P ++ L1 ++ L2 ++ T <-> x ∈ (P ++ M) ++ K1 ++ K2 ++ T) /\
    a0 = Some (front l (K1 ++ K2 ++ T)) /\ a1b0 = Some (front l (K2 ++ T)) /\
    n = (length K1 + length K2)%nat)) with (n := (length L1 + length L2)%nat).
  2:{ exists [], L1, L2. rewrite app_nil_r. split_and!; try done; apply frame_refl. }
  2:{ lia. }
  clear Hs Hd Hd2. intros n [a0 a1b0] h' (M & K1 & K2 & Hd & Hf & HM & HK & Hset & -> & -> & ->).
  rewrite (same_pos h' (P ++ M) K1 (K2 ++ T)) by done.
  rewrite (same_pos h' ((P ++ M) ++ K1) K2 T) by regroup Hd.
  destruct K1 as [|x K1]; [|destruct K2 as [|y K2]]; simpl orb.
  - apply wp_ret, HQ; [|done]. rewrite list_merge_nil_l in HM. rewrite <- HM. regroup Hd.
  - apply wp_ret, HQ; [|done]. rewrite list_merge_nil_r in HM. rewrite <- HM. regroup Hd.
  - cbn [orb app front]. wp_step. apply call_less_wp; [apply HD, HK; set_solver..|].
    rewrite list_merge_cons in HM. destruct (lt y x) eqn:Elt; cbn [negb].
    + rewrite decide_False in HM by (unfold le; congruence).
      assert (Hd1 : dll h' l (((P ++ M) ++ x :: K1) ++ y :: K2 ++ T)) by regroup Hd.
      wp_step. eapply list_next_wp; [exact Hd1|].
      assert (Hd2 : dll h' l ((((P ++ M) ++ x :: K1) ++ [y]) ++ K2 ++ T)) by regroup Hd.
      wp_step. eapply list_prev_wp; [exact Hd2|]. rewrite back_snoc. wp_step.
      assert (Hd3 : dll h' l ((P ++ M) ++ (x :: K1) ++ [y] ++ K2 ++ T)) by regroup Hd.
      eapply (list_splice_wp h' l (P ++ M) x K1 y [] (K2 ++ T)); [exact Hd3|].
      intros h2 Hd4 Hf2. apply wp_ret. exists (length (x :: K1) + length K2)%nat. split; [simpl; lia|].
      exists (M ++ [y]), (x :: K1), K2. split_and!; try done.
      * regroup Hd4.
      * eapply frame_trans; [done|]. eapply frame_path; [|exact Hf2]. intros z. rewrite Hset. set_solver.
      * by rewrite <- app_assoc.
      * intros z Hz. apply HK. set_solver.
      * intros z. rewrite Hset. set_solver.
    + rewrite decide_True in HM by done.
      wp_step. assert (Hd1 : dll h' l ((P ++ M) ++ x :: (K1 ++ (y :: K2) ++ T))) by regroup Hd.
      eapply list_next_wp; [exact Hd1|]. apply wp_ret. exists (length K1 + length (y :: K2))%nat. split; [simpl; lia|].
      exists (M ++ [x]), K1, (y :: K2). split_and!; try done.
      * regroup Hd.
      * by rewrite <- app_assoc.
      * intros z Hz. apply HK. set_solver.
      * intros z. rewrite Hset. set_solver.
Qed.

(** The same elements, those that are equal in the same order. *)
Definition eqv (z x : loc) : Prop := le z x /\ le x z.
#[global] Instance eqv_dec z x : Decision (eqv z x) := and_dec _ _.
Definition stable (xs ys : list loc) : Prop :=
  ys ≡ₚ xs /\ forall z, filter (eqv z) ys = filter (eqv z) xs.

Lemma stable_refl xs : stable xs xs.
Proof. done. Qed.
Lemma stable_trans xs ys zs : stable xs ys -> stable ys zs -> stable xs zs.
Proof. intros [H1 H2] [H3 H4]. split; [by rewrite H3|]. intros z. by rewrite H4. Qed.
Lemma stable_app xs ys xs' ys' : stable xs xs' -> stable ys ys' -> stable (xs ++ ys) (xs' ++ ys').
Proof.
  intros [H1 H2] [H3 H4]. split; [by rewrite H1, H3|]. intros z. by rewrite !filter_app, H2, H4.
Qed.
Lemma stable_in xs ys x : stable xs ys -> x ∈ ys -> x ∈ xs.
Proof. intros [H _]. by rewrite H. Qed.

Section ordered.
Context {le_trans : Transitive le} {le_total : Total le}.

Lemma list_merge_stable xs ys : Sorted le xs -> Sorted le ys -> stable (xs ++ ys) (list_merge le xs ys).
Proof using le_trans.
  intros Hx Hy. split; [by rewrite merge_Permutation|]. intros z. rewrite filter_app.
  apply Sorted_StronglySorted in Hx; [|done]. clear Hy. revert ys.
  induction xs as [|x xs IHx]; intros ys; [by rewrite list_merge_nil_l|].
  apply StronglySorted_cons in Hx as [Hf Hx].
  induction ys as [|y ys IHy]; [by rewrite list_merge_nil_r, app_nil_r|].
  rewrite list_merge_cons. destruct (decide (le x y)) as [Hle|Hlt].
  - rewrite !(filter_cons _ x), IHx by done. by case_decide.
  - rewrite (filter_cons _ y (list_merge _ _ _)), (filter_cons _ y ys), IHy. case_decide as Hz; [|done].
    assert (filter (eqv z) (x :: xs) = []) as ->; [|done].
    apply filter_none, Forall_cons. split.
    + intros [H1 H2]. apply Hlt. transitivity z; [done|by apply Hz].
    + eapply Forall_impl; [done|]. intros w Hw [H1 H2]. apply Hlt.
      transitivity w; [done|]. transitivity z; [done|by apply Hz].
Qed.

(** ** Runs *)

(** The number of neighbours out of order. *)
Fixpoint descents (xs : list loc) : nat :=
  match xs with
  | x :: ((y :: _) as r) => (if lt y x then 1 else 0) + descents r
  | _ => 0
  end.

Lemma descents_app xs ys :
  (descents (xs ++ ys) <= descents xs + descents ys + 1)%nat.
Proof.
  induction xs as [|x xs IH]; simpl; [lia|]. destruct xs as [|y xs].
  - simpl. destruct ys; [simpl; lia|]. simpl. destruct (lt _ _); lia.
  - simpl in *. lia.
Qed.
Lemma descents_sorted xs : Sorted le xs -> descents xs = 0%nat.
Proof.
  induction 1 as [|x xs Hs IH Hh]; [done|]. destruct xs as [|y xs]; [done|]. simpl in *.
  inversion Hh as [|? ? Hle]; subst. rewrite IH. unfold le in Hle. by rewrite Hle.
Qed.
Lemma descents_run xs p z ys : last xs = Some p -> lt z p = true ->
  descents (xs ++ z :: ys) = (descents xs + 1 + descents (z :: ys))%nat.
Proof.
  induction xs as [|x xs IH]; intros Hp Hlt; [done|]. destruct xs as [|y xs].
  - injection Hp as ->. simpl. rewrite Hlt. lia.
  - cbn [app descents] in *. rewrite IH by done. lia.
Qed.
Lemma descents_length xs : (descents xs <= length xs)%nat.
Proof.
  induction xs as [|x xs IH]; [done|]. destruct xs as [|y xs]; [simpl; lia|]. cbn [descents length] in *.
  destruct (lt y x); lia.
Qed.
Lemma descents_concat Ms : Forall (Sorted le) Ms -> (descents (concat Ms) <= length Ms - 1)%nat.
Proof.
  induction 1 as [|M Ms HM HMs IH]; [done|]. simpl. destruct Ms as [|N Ms].
  - simpl. rewrite app_nil_r, descents_sorted by done. lia.
  - pose proof (descents_app M (concat (N :: Ms))). rewrite (descents_sorted M) in * by done. simpl in *. lia.
Qed.

(* ------------------------------------------------------------------ *)
(** ** Passes                                                          *)
(* ------------------------------------------------------------------ *)

(** What a pass leaves: [Ms], the merged runs, sorted. *)
Definition pass_result (xs : list loc) (Ms : list (list loc)) : Prop :=
  Forall (Sorted le) Ms /\ stable xs (concat Ms) /\ (2 * length Ms <= descents xs + 2)%nat.

Lemma sort_pass_wp h xs (Q : Z -> heap -> Prop) :
  dll h l xs -> (forall x, x ∈ xs -> x ∈ D) ->
  (forall h' Ms, dll h' l (concat Ms) -> pass_result xs Ms -> Q (zlen Ms) h') ->
  wp (sort_pass less l) Q h.
Proof using less_lt le_trans le_total.
  intros Hd HD HQ. unfold sort_pass. wp_step. eapply list_begin_wp; [done|].
  unfold walk. wp_step. apply wp_get. pose proof (dll_size _ _ _ Hd) as Hs.
  apply (wp_while_ghost (fun n '(a0, cnt) h' => exists Ms T, dll h' l (concat Ms ++ T) /\
    a0 = Some (front l T) /\ cnt = zlen Ms /\ Forall (Sorted le) Ms /\ stable xs (concat Ms ++ T) /\
    (2 * length Ms + descents T <= descents xs + (if bool_decide (T = []) then 1 else 0))%nat /\
    n = length T)) with (n := length xs); [| |lia].
  2:{ exists [], xs. simpl. split_and!; try done. simpl. lia. }
  clear Hs Hd. intros n [a0 cnt] h' (Ms & T & Hd & -> & -> & Hsort & Hst & Hdesc & ->).
  erewrite same_end by done. destruct T as [|y T]; simpl bool_decide in *; cbv iota.
  - rewrite app_nil_r in *. apply wp_ret, HQ; [done|]. split_and!; [done|done|simpl in Hdesc; lia].
  - assert (forall x, x ∈ y :: T -> x ∈ D) as HDT.
    { intros x Hx. apply HD. eapply stable_in; [done|]. set_solver. }
    wp_step. eapply (find_end_of_run_wp _ _ y T); [done|done|]. intros run rest [E Hne Hrun Hlt].
    rewrite E in Hd, Hst, HDT. assert (Hd1 : dll h' l ((concat Ms ++ run) ++ rest)) by regroup Hd.
    erewrite same_end by exact Hd1. destruct rest as [|z rest]; simpl bool_decide; cbv iota.
    + apply wp_ret. rewrite app_nil_r in E, Hd, Hst.
      assert (concat (Ms ++ [run]) = concat Ms ++ run) as Ec by (rewrite concat_app; simpl; by rewrite app_nil_r).
      replace (zlen Ms + 1) with (zlen (Ms ++ [run])) by (rewrite zlen_app; done).
      apply HQ; [by rewrite Ec|]. split_and!; [|by rewrite Ec|].
      * apply Forall_app. by split; [|constructor].
      * rewrite E, descents_sorted in Hdesc by done. rewrite length_app. simpl. lia.
    + assert (forall x, x ∈ z :: rest -> x ∈ D) as HDz by (intros x Hx; apply HDT; set_solver).
      wp_step. eapply (find_end_of_run_wp _ _ z rest); [exact Hd1|done|]. intros run2 rest2 [E2 Hne2 Hrun2 Hlt2].
      rewrite E2 in Hd, Hst, HDz, HDT.
      wp_step. rewrite E, E2.
      eapply inplace_merge_wp; [exact Hd|set_solver|done|done|].
      intros h2 Hd2 _. apply wp_ret. exists (length rest2). rewrite !length_app.
      split; [destruct run; [done|]; simpl; lia|]. exists (Ms ++ [list_merge le run run2]), rest2.
      assert (concat (Ms ++ [list_merge le run run2]) = concat Ms ++ list_merge le run run2) as Ec
        by (rewrite concat_app; simpl; by rewrite app_nil_r).
      rewrite Ec. split_and!; [regroup Hd2|done|by rewrite zlen_app| | | |done].
      * apply Forall_app. split; [done|]. constructor; [by apply Sorted_list_merge|done].
      * eapply stable_trans; [exact Hst|]. rewrite <- app_assoc. apply stable_app; [apply stable_refl|].
        rewrite app_assoc. apply stable_app; [by apply list_merge_stable|apply stable_refl].
      * destruct (exists_last Hne) as (r1 & p & Er). rewrite E2 in Hlt.
        destruct run2 as [|z2 run2]; [done|].
        rewrite E, E2 in Hdesc. cbn [app] in Hdesc.
        rewrite (descents_run run p z2) in Hdesc by (try apply Hlt; try done; by rewrite Er, last_snoc).
        rewrite (descents_sorted run) in Hdesc by done. rewrite length_app. simpl length.
        destruct rest2 as [|w rest2]; simpl bool_decide; cbv iota.
        { rewrite app_nil_r in Hdesc. rewrite (descents_sorted (z2 :: run2)) in Hdesc by done. simpl in *. lia. }
        destruct (exists_last Hne2) as (r2 & p2 & Er2). rewrite app_comm_cons in Hdesc.
        rewrite (descents_run (z2 :: run2) p2 w) in Hdesc by (try apply Hlt2; try done; by rewrite Er2, last_snoc).
        rewrite (descents_sorted (z2 :: run2)) in Hdesc by done. lia.
Qed.

Lemma list_sort_wp h xs (Q : unit -> heap -> Prop) :
  dll h l xs -> (forall x, x ∈ xs -> x ∈ D) ->
  (forall h' ys, dll h' l ys -> Sorted le ys -> stable xs ys -> Q tt h') ->
  wp (list_sort less l) Q h.
Proof using less_lt le_trans le_total.
  intros Hd HD HQ. unfold list_sort. wp_step. unfold walk at 1. wp_step. apply wp_get.
  pose proof (dll_size _ _ _ Hd) as Hs. pose proof (descents_length xs) as Hl.
  apply (wp_while_ghost (fun n _ h' => exists ys, dll h' l ys /\ stable xs ys /\ n = descents ys))
    with (n := descents xs); [|by exists xs|lia].
  clear Hs Hl Hd. intros n _ h' (ys & Hd & Hst & ->). wp_step.
  assert (forall x, x ∈ ys -> x ∈ D) as HDy by (intros x Hx; by eapply HD, stable_in).
  eapply sort_pass_wp; [done|done|]. intros h1 Ms Hd1 (Hsort & Hst1 & Hdesc).
  assert (stable xs (concat Ms)) as Hst2 by by eapply stable_trans.
  pose proof (descents_concat _ Hsort) as Hdc. destruct (Z.ltb_spec 1 (zlen Ms)) as [Hm|Hm]; apply wp_ret.
  - exists (descents (concat Ms)). split; [lia|]. by exists (concat Ms).
  - assert (Sorted le (concat Ms)) as Hsorted.
    { destruct Ms as [|M [|N Ms]]; [by constructor| |simpl in Hm; lia]. simpl. rewrite app_nil_r. by inversion Hsort. }
    wp_step. eapply list_begin_wp; [done|]. wp_step. rewrite <- (app_nil_r (concat Ms)) in Hd1 |- * at 1.
    eapply (is_sorted_wp _ [] (concat Ms) []); [done| |done|].
    + intros x Hx. by eapply HD, stable_in.
    + apply wp_assert; [done|]. rewrite app_nil_r in Hd1. by eapply HQ.
Qed.

(* ------------------------------------------------------------------ *)
(** ** The other operations that compare                               *)
(* ------------------------------------------------------------------ *)

(** The place of [e]: after the elements not greater than it. *)
Fixpoint insert_sorted (e : loc) (xs : list loc) : list loc :=
  match xs with
  | [] => [e]
  | x :: xs => if lt e x then e :: x :: xs else x :: insert_sorted e xs
  end.

Lemma insert_sorted_perm e xs : insert_sorted e xs ≡ₚ e :: xs.
Proof.
  induction xs as [|x xs IH]; [done|]. simpl. destruct (lt e x); [done|]. rewrite IH. apply perm_swap.
Qed.
Lemma insert_sorted_sorted e xs : Sorted le xs -> Sorted le (insert_sorted e xs).
Proof using le_total.
  induction 1 as [|x xs Hs IH Hh]; simpl; [by repeat constructor|]. destruct (lt e x) eqn:E.
  - constructor; [by constructor|]. constructor. destruct (le_total e x) as [H|H]; [done|].
    unfold le in H. congruence.
  - constructor; [done|]. destruct xs as [|y xs]; simpl; [by repeat constructor|].
    destruct (lt e y); constructor; [done|]. by inversion Hh.
Qed.

Lemma list_insert_ordered_wp h xs e (Q : unit -> heap -> Prop) :
  dll h l xs -> (forall x, x ∈ e :: xs -> x ∈ D) -> e ∉ path l xs -> live h e ->
  (forall h', dll h' l (insert_sorted e xs) -> frame h h' (path l (insert_sorted e xs)) -> Q tt h') ->
  wp (list_insert_ordered less l (Some e)) Q h.
Proof using less_lt.
  clear le_trans le_total. intros Hd HD He Hl HQ. unfold list_insert_ordered. wp_step. apply wp_assert; [done|].
  wp_step. eapply list_begin_wp; [done|]. wp_step. unfold walk. wp_step. apply wp_get.
  pose proof (dll_size _ _ _ Hd) as Hs.
  apply (wp_while_ghost (fun n p h' => h' = h /\ exists xs1 xs2, xs = xs1 ++ xs2 /\ p = Some (front l xs2) /\
    insert_sorted e xs = xs1 ++ insert_sorted e xs2 /\ n = length xs2)) with (n := length xs); [| |lia].
  2:{ split; [done|]. by exists [], xs. }
  clear Hs. intros n p h' [-> (xs1 & xs2 & -> & -> & E & ->)]. erewrite same_end by done.
  assert (insert_sorted e (xs1 ++ xs2) = xs1 ++ e :: xs2 ->
    wp (list_insert (Some (front l xs2)) (Some e)) Q h) as Hins.
  { intros E2. rewrite E2 in HQ. by eapply list_insert_wp. }
  destruct xs2 as [|x xs2]; simpl bool_decide; cbv iota.
  - apply wp_ret. by apply Hins.
  - cbn [front]. wp_step. apply call_less_wp; [apply HD; set_solver..|]. simpl in E. destruct (lt e x) eqn:Elt.
    + apply wp_ret. by apply Hins.
    + wp_step. eapply list_next_wp; [done|]. apply wp_ret. exists (length xs2). split; [simpl; lia|].
      split; [done|]. exists (xs1 ++ [x]), xs2. by rewrite E, <- !app_assoc.
Qed.

(** [best] is the first of the elements that no other comes before. *)
Definition first_best (before : loc -> loc -> bool) (xs : list loc) (best : loc) : Prop :=
  exists xs1 xs2, xs = xs1 ++ best :: xs2 /\
    Forall (fun x => before best x = true) xs1 /\ Forall (fun x => before x best = false) xs2.

(** The loop of list_max and list_min: [before e best] when [e] replaces
    [best]. *)
Lemma best_loop_wp (before : loc -> loc -> bool) (call : ptr -> ptr -> M heap bool) h x xs (Q : ptr -> heap -> Prop) :
  (forall b e R, b ∈ x :: xs -> e ∈ x :: xs -> R (before e b) h -> wp (call (Some b) (Some e)) R h) ->
  (forall a b c, before a b = true -> before b c = true -> before a c = true) ->
  (forall a b c, before a b = true -> before c b = false -> before a c = true) ->
  dll h l (x :: xs) -> (forall b, first_best before (x :: xs) b -> Q (Some b) h) ->
  wp (walk (fun '(best, e) =>
        if same e (list_end l) then ret (inr best) else
        let! r := call best e in
        let! n := list_next e in
        ret (inl (if r : bool then e else best, n))) (Some x, Some (front l xs))) Q h.
Proof using less lt.
  clear less_lt le_trans le_total. intros Hcall T1 T2 Hd HQ. unfold walk. wp_step. apply wp_get.
  pose proof (dll_size _ _ _ Hd) as Hs. simpl in Hs.
  apply (wp_while_ghost (fun n '(best, e) h' => h' = h /\ exists ys zs b, x :: xs = ys ++ zs /\
    best = Some b /\ e = Some (front l zs) /\ first_best before ys b /\ n = length zs)) with (n := length xs); [| |lia].
  2:{ split; [done|]. exists [x], xs, x. split_and!; try done. by exists [], []. }
  clear Hs. intros n [best e] h' [-> (ys & zs & b & E & -> & -> & Hb & ->)]. rewrite E in Hd, HQ.
  erewrite same_end by done. destruct zs as [|z zs]; simpl bool_decide; cbv iota.
  - apply wp_ret, HQ. by rewrite app_nil_r.
  - pose proof Hb as (y1 & y2 & Ey & F1 & F2). subst ys. cbn [front]. wp_step.
    apply Hcall; [rewrite E; set_solver..|].
    wp_step. eapply list_next_wp; [done|]. apply wp_ret. exists (length zs). split; [simpl; lia|].
    split; [done|]. exists ((y1 ++ b :: y2) ++ [z]), zs, (if before z b then z else b).
    split_and!; [by rewrite <- app_assoc|by destruct (before z b)|done| |done].
    destruct (before z b) eqn:Ez.
    + exists (y1 ++ b :: y2), []. split_and!; [done| |done]. apply Forall_app. split; [|constructor; [done|]].
      * eapply Forall_impl; [exact F1|]. intros w Hw. by eapply T1.
      * eapply Forall_impl; [exact F2|]. intros w Hw. by eapply T2.
    + exists y1, (y2 ++ [z]). rewrite <- app_assoc. split_and!; [done|done|]. apply Forall_app. by repeat constructor.
Qed.

Lemma lt_trans a b c : lt a b = true -> lt b c = true -> lt a c = true.
Proof using le_trans le_total.
  clear less_lt. intros H1 H2. destruct (lt a c) eqn:E; [done|]. exfalso.
  assert (le a b) as Hab by (destruct (le_total a b) as [?|H]; [done|unfold le in H; congruence]).
  assert (le c b) as H by (by transitivity a). unfold le in H. congruence.
Qed.
Lemma lt_le_trans a b c : lt a b = true -> le b c -> lt a c = true.
Proof using le_trans.
  clear less_lt. intros H1 H2. destruct (lt a c) eqn:E; [done|]. exfalso.
  assert (le b a) as H by (by transitivity c). unfold le in H. congruence.
Qed.
Lemma le_lt_trans a b c : le a b -> lt b c = true -> lt a c = true.
Proof using le_trans.
  clear less_lt. intros H1 H2. destruct (lt a c) eqn:E; [done|]. exfalso.
  assert (le c b) as H by (by transitivity a). unfold le in H. congruence.
Qed.

Lemma list_min_wp h x xs (Q : ptr -> heap -> Prop) :
  dll h l (x :: xs) -> (forall y, y ∈ x :: xs -> y ∈ D) ->
  (forall b, first_best lt (x :: xs) b -> Q (Some b) h) -> wp (list_min less l) Q h.
Proof using less_lt le_trans le_total.
  intros Hd HD HQ. unfold list_min. wp_step. eapply list_begin_wp; [done|].
  rewrite (same_end h l [] (x :: xs)) by done. simpl bool_decide. cbv iota.
  wp_step. eapply (list_next_wp h l [] x xs); [done|].
  apply (best_loop_wp lt (fun b e => call_less less e b)); [|apply lt_trans| |done|done].
  - intros b e R Hb He HR. apply call_less_wp; auto.
  - intros a b c Hab Hcb. by apply lt_le_trans with b.
Qed.
Lemma list_max_wp h x xs (Q : ptr -> heap -> Prop) :
  dll h l (x :: xs) -> (forall y, y ∈ x :: xs -> y ∈ D) ->
  (forall b, first_best (fun a b => lt b a) (x :: xs) b -> Q (Some b) h) -> wp (list_max less l) Q h.
Proof using less_lt le_trans le_total.
  intros Hd HD HQ. unfold list_max. wp_step. eapply list_begin_wp; [done|].
  rewrite (same_end h l [] (x :: xs)) by done. simpl bool_decide. cbv iota.
  wp_step. eapply (list_next_wp h l [] x xs); [done|].
  apply (best_loop_wp (fun a b => lt b a) (call_less less)); [| | |done|done].
  - intros b e R Hb He HR. apply call_less_wp; auto.
  - intros a b c Hab Hbc. by apply lt_trans with b.
  - intros a b c Hab Hcb. by apply le_lt_trans with b.
Qed.

(** What list_unique keeps after [e], and what it removes. *)
Fixpoint unique_from (e : loc) (xs : list loc) : list loc * list loc :=
  match xs with
  | [] => ([], [])
  | x :: xs =>
      if negb (lt e x) && negb (lt x e) then let '(k, d) := unique_from e xs in (k, x :: d)
      else let '(k, d) := unique_from x xs in (x :: k, d)
  end.

Lemma list_unique_wp h x xs k d (Q : unit -> heap -> Prop) :
  dll h l (x :: xs) -> (forall y, y ∈ x :: xs -> y ∈ D) -> unique_from x xs = (k, d) ->
  (forall h', dll h' l (x :: k) -> Q tt h') -> wp (list_unique less l None) Q h.
Proof using less_lt.
  clear le_trans le_total. intros Hd HD Hu HQ. unfold list_unique. wp_step. eapply list_empty_wp; [done|].
  simpl bool_decide. cbv iota. wp_step. eapply list_begin_wp; [done|]. unfold walk. wp_step. apply wp_get.
  pose proof (dll_size _ _ _ Hd) as Hs. simpl in Hs.
  apply (wp_while_ghost (fun n p h' => exists ys e zs kz dz, p = Some e /\ dll h' l (ys ++ e :: zs) /\
    (forall y, y ∈ e :: zs -> y ∈ D) /\ unique_from e zs = (kz, dz) /\
    x :: k = ys ++ e :: kz /\ n = length zs)) with (n := length xs); [| |lia].
  2:{ exists [], x, xs, k, d. by split_and!. }
  clear Hs Hd. intros n p h' (ys & e & zs & kz & dz & -> & Hd & HDz & Hz & Ek & ->).
  wp_step. eapply list_next_wp; [done|].
  assert (Hd1 : dll h' l ((ys ++ [e]) ++ zs)) by regroup Hd.
  erewrite same_end by exact Hd1. destruct zs as [|z zs]; simpl bool_decide; cbv iota.
  - injection Hz as <- <-. apply wp_ret, HQ. by rewrite Ek.
  - cbn [front]. wp_step. apply call_less_wp; [apply HDz; set_solver..|].
    wp_step. eapply (wp_mono (if lt e z then ret true else call_less less (Some z) (Some e))
      (fun r2 h2 => h2 = h' /\ negb (lt e z) && negb r2 = negb (lt e z) && negb (lt z e))).
    { destruct (lt e z); [by apply wp_ret|]. apply call_less_wp; [apply HDz; set_solver..|]. done. }
    intros r2 h2 [-> Er]. rewrite Er. simpl in Hz. destruct (negb (lt e z) && negb (lt z e)).
    + destruct (unique_from e zs) as [k1 d1] eqn:Eu. injection Hz as -> <-. wp_step.
      eapply list_remove_wp; [exact Hd1|]. intros h2 Hd2 _. wp_step. apply wp_ret, wp_ret.
      exists (length zs). split; [simpl; lia|]. exists ys, e, zs, kz, d1.
      split_and!; [done|regroup Hd2|intros y Hy; apply HDz; set_solver|done|done|done].
    + destruct (unique_from z zs) as [k1 d1] eqn:Eu. injection Hz as <- ->. apply wp_ret.
      exists (length zs). split; [simpl; lia|]. exists (ys ++ [e]), z, zs, k1, dz.
      split_and!; [done|done|intros y Hy; apply HDz; set_solver|done|by rewrite <- app_assoc|done].
Qed.
End ordered.
End sort.

(* ------------------------------------------------------------------ *)
(** ** Properties                                                      *)
(* ------------------------------------------------------------------ *)

(** [less], where it is called on two elements of [xs], is the strict part
    of a total preorder. *)
Record order_on (less : loc -> loc -> option bool) (lt : loc -> loc -> bool) (xs : list loc) : Prop := {
  oo_less : forall x y, x ∈ xs -> y ∈ xs -> less x y = Some (lt x y);
  oo_trans : Transitive (le lt);
  oo_total : Total (le lt)
}.

(** C8: Termination and correctness of list_sort: it returns on every list,
    never calls [less] on a header, and leaves the same elements in
    nondecreasing order; elements that compare equal keep the order they
    had (the sort is stable). *)
Theorem list_sort_sorts less lt h l xs :
  order_on less lt xs -> dll h l xs ->
  exists h' ys, list_sort less l h = Ok tt h' [] /\ dll h' l ys /\
    Sorted (le lt) ys /\ ys ≡ₚ xs /\ forall z, filter (eqv lt z) ys = filter (eqv lt z) xs.
Proof.
  intros [H1 H2 H3] Hd.
  assert (wp (list_sort less l) (fun _ h' => exists ys, dll h' l ys /\ Sorted (le lt) ys /\ stable lt xs ys) h) as H.
  { eapply (list_sort_wp l less lt xs H1); [done..|]. intros h' ys Hd' Hs Hst. by exists ys. }
  apply wp_Ok in H as ([] & h' & E & ys & Hd' & Hs & Hp & Hst). by exists h', ys.
Qed.

(** Insertion by list_insert_ordered keeps a sorted list sorted, and puts the new
    element after those equal to it. *)
Theorem list_insert_ordered_sorted less lt h l xs e :
  order_on less lt (e :: xs) -> dll h l xs -> Sorted (le lt) xs -> e ∉ path l xs -> live h e ->
  exists h' xs1 xs2, list_insert_ordered less l (Some e) h = Ok tt h' [] /\ xs = xs1 ++ xs2 /\
    dll h' l (xs1 ++ e :: xs2) /\ Sorted (le lt) (xs1 ++ e :: xs2) /\
    Forall (fun x => lt e x = false) xs1 /\ (forall x, hd_error xs2 = Some x -> lt e x = true).
Proof.
  intros [H1 H2 H3] Hd Hs He Hl.
  assert (exists xs1 xs2, xs = xs1 ++ xs2 /\ insert_sorted lt e xs = xs1 ++ e :: xs2 /\
    Forall (fun x => lt e x = false) xs1 /\ (forall x, hd_error xs2 = Some x -> lt e x = true))
    as (xs1 & xs2 & E & E2 & F1 & F2).
  { clear. induction xs as [|x xs (xs1 & xs2 & E & E2 & F1 & F2)]; simpl; [by exists [], []|].
    destruct (lt e x) eqn:Elt.
    - exists [], (x :: xs). split_and!; [done|done|done|]. by intros y [= <-].
    - exists (x :: xs1), xs2. rewrite E at 1. rewrite E2. split_and!; [done|done|by constructor|done]. }
  assert (wp (list_insert_ordered less l (Some e)) (fun _ h' => dll h' l (insert_sorted lt e xs)) h) as H.
  { eapply (list_insert_ordered_wp l less lt (e :: xs) H1); [done..|]. done. }
  apply wp_Ok in H as ([] & h' & Eh & Hd'). exists h', xs1, xs2. rewrite <- E2. split_and!; try done.
  by apply insert_sorted_sorted.
Qed.

(** list_max and list_min return the first of the greatest and of the least
    elements. *)
Theorem list_max_min_first less lt h l x xs :
  order_on less lt (x :: xs) -> dll h l (x :: xs) ->
  exists a b, list_max less l h = Ok (Some a) h [] /\ first_best (fun u v => lt v u) (x :: xs) a /\
    list_min less l h = Ok (Some b) h [] /\ first_best lt (x :: xs) b.
Proof.
  intros [H1 H2 H3] Hd.
  assert (wp (list_max less l) (fun r h' => h' = h /\ exists a, r = Some a /\
    first_best (fun u v => lt v u) (x :: xs) a) h) as Hmax.
  { eapply (list_max_wp l less lt (x :: xs) H1); [done..|]. eauto. }
  assert (wp (list_min less l) (fun r h' => h' = h /\ exists a, r = Some a /\ first_best lt (x :: xs) a) h) as Hmin.
  { eapply (list_min_wp l less lt (x :: xs) H1); [done..|]. eauto. }
  apply wp_Ok in Hmax as (r & h1 & E1 & -> & a & -> & Ha).
  apply wp_Ok in Hmin as (r & h1 & E2 & -> & b & -> & Hb). by exists a, b.
Qed.

(** Five elements, compared by their address modulo 10; headers cannot be
    compared. *)
Definition by_digit (x y : loc) : bool := Z.pos x mod 10 <? Z.pos y mod 10.
Definition demo_less (x y : loc) : option bool :=
  if (x <=? 2)%positive || (y <=? 2)%positive then None else Some (by_digit x y).
Definition demo_build (xs : list loc) : heap :=
  foldr (fun x h => <[x := mkElem None None]> h)
    {[1 := mkElem None (Some 2); 2 := mkElem (Some 1) None]}%positive xs.
Definition demo_elems : list loc := [23; 11; 7; 13; 5]%positive.

Lemma by_digit_order xs : Forall (fun x => 2 < Z.pos x) xs -> order_on demo_less by_digit xs.
Proof.
  intros Hx. rewrite Forall_forall in Hx. unfold demo_less, by_digit. split.
  - intros x y Hx1 Hy1. pose proof (Hx x Hx1). pose proof (Hx y Hy1).
    rewrite (proj2 (Pos.leb_gt _ _)), (proj2 (Pos.leb_gt _ _)) by lia. done.
  - intros x y z. unfold le, by_digit. rewrite !Z.ltb_ge. lia.
  - intros x y. unfold le, by_digit. rewrite !Z.ltb_ge. lia.
Qed.

Lemma list_sort_sorts_witness :
  exists h h' ys, dll h demo_list demo_elems /\ list_sort demo_less demo_list h = Ok tt h' [] /\
    dll h' demo_list ys /\ Sorted (le by_digit) ys /\ ys ≡ₚ demo_elems /\
    filter (eqv by_digit 3%positive) ys = [23; 13]%positive.
Proof.
  destruct (list_refines_sequences (demo_build demo_elems) demo_list (map PushBack demo_elems) []
    [RUnit; RUnit; RUnit; RUnit; RUnit] demo_elems) as (h & _ & Hd).
  { split; try done. by apply (bool_decide_unpack _). }
  { repeat constructor; by eexists. }
  { by vm_compute. }
  exists h. destruct (list_sort_sorts demo_less by_digit h demo_list demo_elems) as (h' & ys & H1 & H2 & H3 & H4 & H5).
  { apply by_digit_order. by repeat constructor. }
  { done. }
  exists h', ys. split_and!; try done.
Defined.
End IntrusiveSort.
