(* ===== verification/FsUtil2.v ===== *)
(** * FsUtil2: copying, searching, defragmentation and recovery
    (a3/fs/fsutil2.c)

    These commands also use the files of the host, which are a parameter,
    and a global list of [struct FileInfo] that lives on the heap. *)
From Stdlib Require Import Ascii SpecFloat.
From S2P Require Import Prelude Bitmap Store FsState Inode FileData FreeMap CString Files Directory FileSys.

Module FsUtil2.
Import Bitmap FsState Inode FreeMap Files Directory FileSys.

(** enum Error of a3/interpreter.h. *)
Definition FILE_DOES_NOT_EXIST : Z := 1.
Definition NO_MEM_SPACE : Z := 2.
Definition FILE_CREATION_ERROR : Z := 10.
Definition START_SECTOR : Z := 4.

Record FileInfo := mkInfo { info_name : string; info_size : Z; info_content : list Z; info_next : ptr }.

(* ------------------------------------------------------------------ *)
(** ** The C library                                                   *)
(* ------------------------------------------------------------------ *)

(** strrchr(s, '/') + 1. *)
Fixpoint after_slash (s : string) : option string :=
  match s with
  | EmptyString => None
  | String c s =>
      match after_slash s with
      | Some t => Some t
      | None => if Ascii.eqb c "/" then Some s else None
      end
  end.
Definition base_name (fname : string) : string := default fname (after_slash fname).

Fixpoint starts_with (p s : list Z) : bool :=
  match p, s with
  | [], _ => true
  | x :: p, y :: s => (x =? y) && starts_with p s
  | _, [] => false
  end.
Fixpoint contains (p s : list Z) : bool :=
  starts_with p s || match s with [] => false | _ :: s => contains p s end.
(** strstr(s, p) != NULL for an array [s]: undefined without a NUL in it. *)
Definition strstr (s p : list Z) : option bool :=
  if bool_decide (0 ∈ s) then Some (contains p (until_nul s)) else None.

(** printf's %.6f of the double [(double) f / t]: the exact value of the
    quotient, which is at most 1, rounded half to even. *)
Definition double_of (z : Z) : spec_float := binary_normalize 53 1024 z 0 false.
Definition scaled6 (x : spec_float) : Z :=
  match x with
  | S754_finite _ m e =>
      let num := Z.pos m * 10 ^ 6 * 2 ^ Z.max e 0 in
      let den := 2 ^ Z.max (- e) 0 in
      let q := num / den in
      let r := 2 * (num mod den) in
      if (den <? r) || ((den =? r) && Z.odd q) then q + 1 else q
  | _ => 0
  end.
Fixpoint digits (n : nat) (z : Z) : string :=
  match n with O => EmptyString | S n => (digits n (z / 10) +:+ pretty (z mod 10))%string end.
Definition percentage (f t : Z) : string :=
  let z := scaled6 (SFdiv 53 1024 (double_of f) (double_of t)) in
  (pretty (z / 10 ^ 6)%Z +:+ "." +:+ digits 6 (z mod 10 ^ 6))%string.

Section ops.
Context {B : Type} `{!BlockStore B, !CacheControl B}.
(** The host: the contents of a file that fopen can read; a file written
    by fopen(., "w"), the writes and fclose, or [None] when fopen fails. *)
Context {Host : Type}.
Variable host_read : Host -> string -> option (list Z).
Variable host_write : string -> list Z -> Host -> option Host.
(** What the stack holds where dir_add has its entry. *)
Variable junk : list Z.

Record util := mkUtil { u_fs : fs B; u_host : Host; infos : gmap loc FileInfo; file_list_head : ptr }.

Definition on_fs {A} (m : M (fs B) A) : M util A :=
  zoom u_fs (fun x s => mkUtil x (u_host s) (infos s) (file_list_head s)) m.
(** [true] when the file could be written. *)
Definition write_host (fname : string) (bytes : list Z) : M util bool :=
  let! s := get in
  match host_write fname bytes (u_host s) with
  | None => ret false
  | Some h => put (mkUtil (u_fs s) h (infos s) (file_list_head s)) ;; ret true
  end.

Definition get_info (p : loc) : M util FileInfo := let! s := get in need (infos s !! p).
Definition set_info (p : loc) (i : FileInfo) : M util unit :=
  modify (fun s => mkUtil (u_fs s) (u_host s) (<[p := i]> (infos s)) (file_list_head s)).
Definition free_info (p : loc) : M util unit :=
  modify (fun s => mkUtil (u_fs s) (u_host s) (delete p (infos s)) (file_list_head s)).
Definition set_head (p : ptr) : M util unit :=
  modify (fun s => mkUtil (u_fs s) (u_host s) (infos s) p).

(** [while (dir_readdir(dir, name))]. *)
Definition each_entry {X} (dir : loc) (body : string -> X -> M util X) (x : X) : M util X :=
  let! d := on_fs (get_dir dir) in
  let! ip := on_fs (get_inode (d_inode d)) in
  while_ (Z.to_nat (length_ (data ip) / sizeof_entry + 2)) (fun x =>
    let! r := on_fs (dir_readdir dir) in
    match r with
    | None => ret (inr x)
    | Some nm => let! x := body (string_of nm) x in ret (inl x)
    end) x.

(* ------------------------------------------------------------------ *)
(** ** Copying                                                         *)
(* ------------------------------------------------------------------ *)

(** The products are of type int.  The byte of the buffer that fread does
    not set is the last one, which fsutil_write overwrites. *)
Definition copy_in (fname : string) : M util Z :=
  let! s := get in
  match host_read (u_host s) fname with
  | None => ret FILE_DOES_NOT_EXIST
  | Some source =>
      let file_size := zlen source in
      let! free := on_fs fsutil_freespace in
      let space_blocks := free / DIRECT_BLOCKS_COUNT + 1 in
      let! available_space_bytes :=
        need (if free * 512 <? 2 ^ 31 then Some (free * 512 - space_blocks * 512) else None) in
      let write_size := if file_size + 1 <? available_space_bytes then file_size + 1 else available_space_bytes in
      let file_name := base_name fname in
      let! created := on_fs (fsutil_create junk file_name (u32 write_size)) in
      if created =? 0 then ret FILE_CREATION_ERROR else
      (* malloc of a negative size *)
      if write_size <? 0 then ret NO_MEM_SPACE else
      let bytes := slice source 0 write_size in
      let buffer := bytes ++ replicate (Z.to_nat (write_size - zlen bytes)) 0 in
      on_fs (fsutil_write file_name buffer (u32 write_size)) ;;
      when (write_size <? file_size)
        (print ("Warning: could only write " +:+ pretty write_size +:+ " out of " +:+ pretty file_size +:+
                " bytes (reached end of file)." +:+ nl)%string) ;;
      ret 0
  end.

(** The bytes before the first NUL, one by one; [size] is that of the
    buffer they go to. *)
Definition read_text (file : loc) (size : Z) : M util (list Z) :=
  while_ (Z.to_nat size + 2) (fun buffer =>
    let! bs := on_fs (file_read file 1) in
    match bs with
    | [c] =>
        if c =? 0 then ret (inr buffer)
        else let! _ := need (if zlen buffer <? size then Some tt else None) in ret (inl (buffer ++ [c]))
    | _ => ret (inr buffer)
    end) [].

Definition copy_out (fname : string) : M util Z :=
  let! p := on_fs (filesys_open fname) in
  match p with
  | None => ret FILE_DOES_NOT_EXIST
  | Some source_file =>
      let! file_size := on_fs (file_length p) in
      if file_size <? 0 then on_fs (fsutil_close fname) ;; ret NO_MEM_SPACE else
      on_fs (fsutil_seek fname 0) ;;
      let! buffer := read_text source_file file_size in
      let! ok := write_host (base_name fname) buffer in
      on_fs (fsutil_close fname) ;;
      ret (if ok : bool then 0 else FILE_CREATION_ERROR)
  end.

(* ------------------------------------------------------------------ *)
(** ** Searching                                                       *)
(* ------------------------------------------------------------------ *)

(** malloc fails for the size -1 that fsutil_size gives without a file. *)
Definition found_in_file (pattern fname : string) : M util bool :=
  let! file_size := on_fs (fsutil_size fname) in
  if file_size <? 0 then
    print ("Failed to allocate memory for file contents: " +:+ fname +:+ nl)%string ;; ret false
  else
    let! r := on_fs (fsutil_read fname file_size) in
    let buffer := default [] r in
    if bool_decide (is_Some r) && (zlen buffer =? file_size) then need (strstr buffer (bytes_of pattern))
    else print ("Error reading file: " +:+ fname +:+ nl)%string ;; ret false.

Definition find_file (pattern : string) : M util unit :=
  let! dir := on_fs dir_open_root in
  match dir with
  | None => ret tt
  | Some p =>
      each_entry p (fun name _ =>
        let! found := found_in_file pattern name in
        when found (print (name +:+ nl)%string)) tt ;;
      on_fs (dir_close dir)
  end.

(* ------------------------------------------------------------------ *)
(** ** Fragmentation                                                   *)
(* ------------------------------------------------------------------ *)

(** The difference is an unsigned 32-bit one. *)
Definition far_apart (a b : Z) : bool := 3 <? u32 (b - a).

Definition fragmented_file (inode : loc) (print_num_sectors : Z) : M util bool :=
  let! n := on_fs (inode_length inode) in
  let num_sectors := bytes_to_sectors n in
  when (print_num_sectors =? 0) (print ("Num free sectors: " +:+ pretty num_sectors +:+ nl)%string) ;;
  if num_sectors <=? 1 then ret false else
  let! r := on_fs (get_inode_data_sectors inode) in
  let! sectors := need r in
  let! r := for_ret (Z.to_nat (num_sectors - 1)) 0 (fun i _ =>
    let! a := need (zget sectors i) in
    let! b := need (zget sectors (i + 1)) in
    ret (if far_apart a b then inr true else inl tt)) tt in
  ret (match r with inr b => b | inl _ => false end).

Definition fragmentation_degree : M util unit :=
  let! dir := on_fs dir_open_root in
  match dir with
  | None => ret tt
  | Some p =>
      let! r := each_entry p (fun name '(total_files, fragmented_files, print_num_sectors) =>
        let! file := on_fs (filesys_open name) in
        match file with
        | None => ret (total_files, fragmented_files, print_num_sectors)
        | Some f =>
            let! inode := on_fs (file_get_inode f) in
            let! b := fragmented_file inode (print_num_sectors + 1) in
            on_fs (file_close file) ;;
            ret (total_files + 1, if b : bool then fragmented_files + 1 else fragmented_files, print_num_sectors + 1)
        end) (0, 0, 0) in
      let '(total_files, fragmented_files, _) := r in
      on_fs (dir_close dir) ;;
      print ("Num fragmentable files: " +:+ pretty total_files +:+ nl)%string ;;
      print ("Num fragmented files: " +:+ pretty fragmented_files +:+ nl)%string ;;
      if 0 <? total_files then
        print ("Fragmentation pct: " +:+ percentage fragmented_files total_files +:+ nl)%string
      else print ("No fragmentable files found." +:+ nl)%string
  end.

(** The list ends after at most as many nodes as the heap has. *)
Definition reverse_list (head : ptr) : M util ptr :=
  let! s := get in
  while_ (S (size (infos s))) (fun '(prev, current) =>
    match current with
    | None => ret (inr prev)
    | Some c =>
        let! i := get_info c in
        set_info c (mkInfo (info_name i) (info_size i) (info_content i) prev) ;;
        ret (inl (Some c, info_next i))
    end) (None, head).

(** The first loop of defragment, for one file. *)
Definition remember_file (name : string) : M util unit :=
  let! file := on_fs (filesys_open name) in
  match file with
  | None => ret tt
  | Some f =>
      let! inode := on_fs (file_get_inode f) in
      let! file_size := on_fs (inode_length inode) in
      let! buffer := on_fs (file_read f file_size) in
      if negb (zlen buffer =? file_size) then
        print ("Error reading file content." +:+ nl)%string ;; on_fs (file_close file)
      else
        let! new_file := on_fs malloc in
        let! s := get in
        set_info new_file (mkInfo name file_size buffer (file_list_head s)) ;;
        set_head (Some new_file) ;;
        on_fs (file_close file)
  end.

(** The last loop of defragment. *)
Definition recreate_files (head : ptr) : M util unit :=
  let! s := get in
  while_ (S (size (infos s))) (fun current =>
    match current with
    | None => ret (inr tt)
    | Some c =>
        let! i := get_info c in
        on_fs (fsutil_create junk (info_name i) (u32 (info_size i))) ;;
        on_fs (fsutil_write (info_name i) (info_content i) (u32 (info_size i))) ;;
        free_info c ;;
        ret (inl (info_next i))
    end) head.

(** [file_list_head] keeps the address of a freed node. *)
Definition defragment : M util Z :=
  let! dir := on_fs dir_open_root in
  match dir with
  | None => ret FILE_DOES_NOT_EXIST
  | Some p =>
      each_entry p (fun name _ => remember_file name) tt ;;
      on_fs (dir_close dir) ;;
      let! dir := on_fs dir_open_root in
      match dir with
      | None => ret FILE_DOES_NOT_EXIST
      | Some p =>
          each_entry p (fun name _ => let! _ := on_fs (fsutil_rm name) in ret tt) tt ;;
          on_fs (dir_close dir) ;;
          let! s := get in
          let! head := reverse_list (file_list_head s) in
          set_head head ;;
          recreate_files head ;;
          ret 0
      end
  end.

(* ------------------------------------------------------------------ *)
(** ** Recovery                                                        *)
(* ------------------------------------------------------------------ *)

Definition nonzero (b : Z) : bool := negb (b =? 0).

(** recover(0), for one free sector.  The loop runs over 123 entries of an
    array that has one entry for each sector of the file. *)
Definition recover_inode (sector : Z) : M util unit :=
  let! inode := on_fs (inode_open sector) in
  let! r := on_fs (get_inode_data_sectors inode) in
  let! ip := on_fs (get_inode inode) in
  if magic (data ip) =? INODE_MAGIC then
    let! direct_sectors := need r in
    for_ (Z.to_nat DIRECT_BLOCKS_COUNT) 0 (fun j =>
      let! t := need (zget direct_sectors j) in
      when (negb (t =? 0)) (on_fs (on_free_map (bitmap_flip t)))) ;;
    on_fs (on_free_map (bitmap_flip sector)) ;;
    let! recovered_name := into 14 ("recovered0-" +:+ pretty (i32 sector))%string in
    let! dir := on_fs dir_open_root in
    let! ok := on_fs (dir_add junk dir recovered_name sector (negb (is_dir (data ip) =? 0))) in
    when (negb ok) (print ("Failed to add " +:+ recovered_name +:+ nl)%string) ;;
    on_fs (inode_close (Some inode))
  else on_fs (inode_close (Some inode)).

Definition recover_inodes : M util unit :=
  let! n := on_fs (on_free_map bitmap_size) in
  for_ (Z.to_nat n) 0 (fun i =>
    let! used := on_fs (on_free_map (bitmap_test i)) in
    when (negb used) (recover_inode i)).

(** recover(1), for one sector. *)
Definition recovered1 (sector : Z) : string := ("recovered1-" +:+ pretty (i32 sector) +:+ ".txt")%string.
Definition recover_sector (sector : Z) : M util unit :=
  let! buffer := on_fs (cache_read sector) in
  when (existsb nonzero buffer)
    (let! ok := write_host (recovered1 sector) (until_nul buffer) in
     when (negb ok) (print ("Failed to open file " +:+ recovered1 sector +:+ " for writing" +:+ nl)%string)).
Definition recover_sectors : M util unit :=
  let! n := on_fs (on_free_map bitmap_size) in
  for_ (Z.to_nat (n - START_SECTOR)) START_SECTOR recover_sector.

(** recover(2), for one file. *)
Definition recovered2 (file_name : string) : string := ("recovered2-" +:+ file_name +:+ ".txt")%string.
Definition recover_past_end (file_name : string) : M util unit :=
  let! file := on_fs (filesys_open file_name) in
  match file with
  | None => ret tt
  | Some f =>
      let! inode := on_fs (file_get_inode f) in
      let! file_size := on_fs (inode_length inode) in
      let num_sectors := bytes_to_sectors file_size in
      if num_sectors =? 0 then on_fs (inode_close (Some inode)) else
      let! r := on_fs (get_inode_data_sectors inode) in
      match r with
      | None => on_fs (inode_close (Some inode))
      | Some sectors =>
          let! last_sector := need (zget sectors (num_sectors - 1)) in
          let last_block_offset := u64 file_size mod SECTOR in
          let! buffer := on_fs (cache_read last_sector) in
          let past_end := drop (Z.to_nat last_block_offset) buffer in
          when (existsb nonzero past_end)
            (let! ok := write_host (recovered2 file_name) (List.filter nonzero past_end) in
             when (negb ok) (print ("Failed to create recovery file for " +:+ file_name +:+ nl)%string)) ;;
          on_fs (inode_close (Some inode))
      end
  end.
Definition recover_hidden : M util unit :=
  let! dir := on_fs dir_open_root in
  match dir with
  | None => print ("Error: Cannot open root directory." +:+ nl)%string
  | Some p =>
      each_entry p (fun name _ => recover_past_end name) tt ;;
      on_fs (dir_close dir)
  end.

Definition recover (flag : Z) : M util unit :=
  if flag =? 0 then recover_inodes
  else if flag =? 1 then recover_sectors
  else if flag =? 2 then recover_hidden
  else ret tt.
End ops.
End FsUtil2.
