(* ===== verification/FsUtil2Props.v ===== *)
(** * FsUtil2Props: fragmentation, searching and recovery

    What the commands of FsUtil2.v do on files whose sector map is sound. *)
From S2P Require Import Prelude Bitmap Block Store Cache FsState Inode FileData FreeMap FileProps Dealloc CString Files FilesProps Directory DemoDisk DirectoryProps DirectoryRemove FileSys PathProps FileSysProps FsUtil2.

Module FsUtil2Props.
Import Bitmap FsState Inode FileData FreeMap FileProps Dealloc Files FilesProps Directory DirectoryProps
  DirectoryRemove FileSys PathProps FileSysProps FsUtil2.

Section sectors.
Context {B : Type} `{!BlockStore B}.
Implicit Types (b : B) (s : fs B) (d : inode_disk).

(* ------------------------------------------------------------------ *)
(** ** The sectors of a file                                           *)
(* ------------------------------------------------------------------ *)

(** The loops that append the first elements of a block. *)
Lemma collect_wp {T} (l bl acc : list Z) n (st : T) (Q : list Z -> T -> Prop) :
  n = length l -> (forall i t, zget l i = Some t -> zget bl i = Some t) -> Q (acc ++ l) st ->
  wp (for_acc n 0 (fun i acc => let! t := need (zget bl i) in ret (acc ++ [t])) acc) Q st.
Proof.
  intros -> Hl HQ. apply (wp_for_acc (fun i x st' => x = acc ++ take (Z.to_nat i) l /\ st' = st)).
  - by rewrite app_nil_r.
  - intros i x ? Hi (-> & ->). destruct (zget_ex l i) as [t Ht]; [lia|]. wp_step.
    eapply wp_need; [by apply Hl|]. apply wp_ret. split; [|done]. rewrite <- app_assoc. f_equal.
    symmetry. apply take_next; [lia|done].
  - intros x ? (-> & ->). by rewrite take_ge by lia.
Qed.

Lemma zget_drop (l : list Z) n i : 0 <= i -> zget (drop n l) i = zget l (Z.of_nat n + i).
Proof.
  intros Hi. rewrite !zget_lookup by lia. rewrite lookup_drop. f_equal. lia.
Qed.

(** The part behind the doubly indirect block, one indirect block a turn. *)
Lemma collect_double_wp s d secs acc (Q : list Z * Z -> fs B -> Prop) :
  bs_inv (store s) -> file_ok (store s) d secs -> 251 < zlen secs ->
  (forall b n, same_store (store s) b -> Q (acc ++ part3 secs, n) (set_store b s)) ->
  wp (for_acc (Z.to_nat (DIV_ROUND_UP (zlen (part3 secs)) 128)) 0
        (fun i '(acc, num_sectors2) =>
           let subsize := min num_sectors2 128 in
           let! first := need (zget (blocks_at (store s) (doubly_indirect_block d)) i) in
           let! bs2 := cache_read first in
           let! acc' := for_acc (Z.to_nat subsize) 0
             (fun i2 acc => let! t := need (zget (decode_blocks bs2) i2) in ret (acc ++ [t])) acc in
           ret (acc', num_sectors2 - subsize)) (acc, zlen (part3 secs))) Q s.
Proof.
  intros Hinv Hf Hlt HQ. set (p3 := part3 secs). destruct (zlen_parts secs) as (_ & _ & L3). fold p3 in L3.
  pose proof (fo_max _ _ _ Hf) as Hmax. unfold MAX_SECTORS in Hmax.
  assert (DIV_ROUND_UP (zlen p3) 128 = (zlen p3 + 127) / 128) as Ediv.
  { unfold DIV_ROUND_UP, u64. rewrite Z.mod_small by lia. f_equal. lia. }
  rewrite Ediv. apply (wp_for_acc (fun i '(x, n2) s' =>
    x = acc ++ take (Z.to_nat (128 * i)) p3 /\ n2 = Z.max 0 (zlen p3 - 128 * i) /\
    exists b, same_store (store s) b /\ s' = set_store b s)).
  - rewrite app_nil_r. split_and!; [done|lia|]. exists (store s). split; [by apply same_store_refl|by destruct s].
  - intros i [x n2] s' Hi (-> & -> & b & Hb & ->).
    assert (128 * i < zlen p3) as Hi' by (Z.to_euclidean_division_equations; lia).
    set (chunk := slice p3 (128 * i) 128).
    assert (zlen chunk = Z.min 128 (zlen p3 - 128 * i)) as Lc by (unfold chunk; rewrite zlen_slice_min by lia; lia).
    assert (forall j t, zget chunk j = Some t -> exists f,
              zget (blocks_at (store s) (doubly_indirect_block d)) i = Some f /\
              zget (blocks_at (store s) f) j = Some t) as Hchunk.
    { intros j t Hj. pose proof (zget_range _ _ _ Hj) as Hr. unfold chunk in Hj.
      rewrite zget_slice in Hj by lia. unfold p3, part3 in Hj. rewrite zget_drop in Hj by lia.
      destruct (owned_blocks s d secs _ t Hf Hj) as (_ & _ & (f & H1 & H2)); [lia|].
      exists f. replace ((_ - 251) / 128) with i in H1 by (Z.to_euclidean_division_equations; lia).
      replace ((_ - 251) mod 128) with j in H2 by (Z.to_euclidean_division_equations; lia). done. }
    destruct (zget_ex chunk 0) as [t0 Ht0]; [lia|]. destruct (Hchunk 0 t0 Ht0) as (f & Hif & _).
    cbv zeta. wp_step. eapply wp_need; [exact Hif|].
    assert (in_range (store s) f) as Hfr.
    { apply (fo_meta _ _ _ Hf). right. right. exists i. split_and!; [lia|lia|done]. }
    wp_step. eapply cache_read_wp; [apply Hb|by eapply in_range_size; [apply Hb|]|]. intros b2 Hb2. simpl store in *.
    wp_step. apply collect_wp with (l := chunk).
    + unfold min. case_match; lia.
    + intros j t Hj. destruct (Hchunk j t Hj) as (f' & Hf' & Ht). rewrite Hif in Hf'. injection Hf' as <-.
      unfold blocks_at in Ht. by rewrite (ss_sector _ _ Hb) by done.
    + apply wp_ret. split_and!; [|unfold min; case_match; lia|].
      * rewrite <- app_assoc. f_equal. unfold chunk, slice.
        replace (Z.to_nat (128 * (i + 1))) with (Z.to_nat (128 * i) + Z.to_nat 128)%nat by lia.
        by rewrite take_take_drop.
      * exists b2. split; [by eapply same_store_trans|done].
  - intros [x n2] s' (-> & -> & b & Hb & ->). rewrite take_ge; [by apply HQ|].
    Z.to_euclidean_division_equations; lia.
Qed.

(** The two blocks are read only if the file goes that far. *)
Lemma collect_second_wp s d secs (Q : list Z -> fs B -> Prop) :
  bs_inv (store s) -> file_ok (store s) d secs ->
  (forall b, same_store (store s) b -> Q (part1 secs ++ part2 secs) (set_store b s)) ->
  wp (if 0 <? zlen (part2 secs) then
        let! bs := cache_read (indirect_block d) in
        for_acc (length (part2 secs)) 0
          (fun i acc => let! t := need (zget (decode_blocks bs) i) in ret (acc ++ [t])) (part1 secs)
      else ret (part1 secs)) Q s.
Proof.
  intros Hinv Hf HQ. destruct (zlen_parts secs) as (_ & L2 & _). destruct (0 <? zlen (part2 secs)) eqn:E.
  - assert (in_range (store s) (indirect_block d)) as Hr by (apply Hf; left; lia).
    wp_step. eapply cache_read_wp; [done..|]. intros b Hb. apply collect_wp with (l := part2 secs); [done| |by apply HQ].
    intros i t Hi. pose proof (zget_range _ _ _ Hi). unfold part2 in Hi. rewrite zget_slice in Hi by lia.
    replace i with (123 + i - 123) by lia. apply (owned_blocks s d secs (123 + i) t); [done|done|lia].
  - apply wp_ret. assert (part2 secs = []) as E2 by (apply nil_length_inv; lia).
    rewrite E2, app_nil_r in HQ. pose proof (HQ (store s)) as H. destruct s. by apply H, same_store_refl.
Qed.

Lemma collect_third_wp s d secs (Q : list Z -> fs B -> Prop) :
  bs_inv (store s) -> file_ok (store s) d secs ->
  (forall b, same_store (store s) b -> Q secs (set_store b s)) ->
  wp (if 0 <? zlen (part3 secs) then
        let! bs := cache_read (doubly_indirect_block d) in
        let l2 := DIV_ROUND_UP (zlen (part3 secs)) 128 in
        let! r := for_acc (Z.to_nat l2) 0
          (fun i '(acc, num_sectors2) =>
             let subsize := min num_sectors2 128 in
             let! first := need (zget (decode_blocks bs) i) in
             let! bs2 := cache_read first in
             let! acc' := for_acc (Z.to_nat subsize) 0
               (fun i2 acc => let! t := need (zget (decode_blocks bs2) i2) in ret (acc ++ [t])) acc in
             ret (acc', num_sectors2 - subsize)) (part1 secs ++ part2 secs, zlen (part3 secs)) in
        ret (fst r)
      else ret (part1 secs ++ part2 secs)) Q s.
Proof.
  intros Hinv Hf HQ. destruct (zlen_parts secs) as (_ & _ & L3). destruct (0 <? zlen (part3 secs)) eqn:E.
  - assert (in_range (store s) (doubly_indirect_block d)) as Hr by (apply Hf; right; left; lia).
    wp_step. eapply cache_read_wp; [done..|]. intros b Hb. cbv zeta. wp_step.
    assert (decode_blocks (bs_sector (store s) (doubly_indirect_block d)) =
            blocks_at (store (set_store b s)) (doubly_indirect_block d)) as ->.
    { unfold blocks_at. simpl. by rewrite (ss_sector _ _ Hb). }
    apply collect_double_wp; [apply Hb| |lia|].
    + eapply file_ok_changes; [by apply same_changes_only|done].
    + intros b3 n Hb3. apply wp_ret. simpl. rewrite <- app_assoc, <- secs_split. apply HQ.
      by eapply same_store_trans.
  - apply wp_ret. assert (part3 secs = []) as E3 by (apply nil_length_inv; lia).
    pose proof (secs_split secs) as Es. rewrite E3, app_nil_r in Es. rewrite <- Es.
    pose proof (HQ (store s)) as H. destruct s. by apply H, same_store_refl.
Qed.

(** get_inode_data_sectors gives the sectors of the file, in order. *)
Lemma get_inode_data_sectors_wp s q ip secs (Q : option (list Z) -> fs B -> Prop) :
  bs_inv (store s) -> inodes s !! q = Some ip -> file_ok (store s) (data ip) secs ->
  (forall b, same_store (store s) b -> Q (Some secs) (set_store b s)) ->
  wp (get_inode_data_sectors q) Q s.
Proof.
  intros Hinv Hq Hf HQ. set (d := data ip) in *. destruct (zlen_parts secs) as (L1 & L2 & L3).
  pose proof (fo_max _ _ _ Hf) as Hmax. unfold MAX_SECTORS in Hmax.
  unfold get_inode_data_sectors. wp_step. eapply get_inode_wp; [done|]. fold d. cbv zeta.
  rewrite (proj2 (Z.ltb_ge _ _)) by apply Hf. rewrite <- (fo_count _ _ _ Hf).
  change DIRECT_BLOCKS_COUNT with 123. change INDIRECT_BLOCKS_PER_SECTOR with 128.
  assert (min (zlen secs) 123 = zlen (part1 secs) /\
          min (zlen secs - zlen (part1 secs)) 128 = zlen (part2 secs) /\
          min (zlen secs - zlen (part1 secs) - zlen (part2 secs)) (128 * 128) = zlen (part3 secs))
    as (-> & -> & ->) by (unfold min; repeat case_match; lia).
  rewrite !Nat2Z.id. wp_step. apply collect_wp with (l := part1 secs); [done| |].
  { intros i t Hi. pose proof (zget_range _ _ _ Hi). unfold part1 in Hi.
    apply (owned_blocks s d secs i t); [done| |lia]. rewrite zget_lookup in Hi |- * by lia.
    by rewrite lookup_take_lt in Hi by lia. }
  simpl app. wp_step. apply collect_second_wp; [done..|]. intros b Hb.
  wp_step. apply collect_third_wp; [apply Hb|by eapply file_ok_changes; [by apply same_changes_only|]|].
  intros b2 Hb2. wp_step. apply wp_assert; [lia|]. apply wp_ret. rewrite set_store_twice. apply HQ.
  by eapply same_store_trans.
Qed.
End sectors.

Section props.
Context {B : Type} `{!BlockStore B, !CacheControl B} {Host : Type}.
Variable host_read : Host -> string -> option (list Z).
Variable host_write : string -> list Z -> Host -> option Host.
Implicit Types (b : B) (s : fs B) (u : util (B := B) (Host := Host)).

Definition with_fs (x : fs B) u : util (B := B) (Host := Host) :=
  mkUtil x (u_host u) (infos u) (file_list_head u).

Lemma on_fs_wp {A} (m : M (fs B) A) (Q : A -> util (B := B) (Host := Host) -> Prop) u :
  wp m (fun a x => Q a (with_fs x u)) (u_fs u) -> wp (on_fs m) Q u.
Proof. apply (wp_zoom u_fs). Qed.

(* ------------------------------------------------------------------ *)
(** ** Fragmentation                                                   *)
(* ------------------------------------------------------------------ *)

Fixpoint has_gap (l : list Z) : bool :=
  match l with
  | a :: ((b :: _) as r) => far_apart a b || has_gap r
  | _ => false
  end.

Lemma has_gap_spec l :
  has_gap l = true <-> exists i x y, zget l i = Some x /\ zget l (i + 1) = Some y /\ far_apart x y = true.
Proof.
  induction l as [|x l IH].
  { split; [done|]. intros (i & a & ? & Ha & _). pose proof (zget_range _ _ _ Ha). simpl in *. lia. }
  destruct l as [|y r]; simpl.
  { split; [done|]. intros (i & a & ? & Ha & Hb & _). pose proof (zget_range _ _ _ Ha). pose proof (zget_range _ _ _ Hb).
    simpl in *. lia. }
  rewrite orb_true_iff, IH. split.
  - intros [H|(i & a & c & Ha & Hc & H)]; [by exists 0, x, y|]. exists (i + 1), a, c.
    pose proof (zget_range _ _ _ Ha). rewrite !zget_lookup in * by lia.
    replace (Z.to_nat (i + 1)) with (S (Z.to_nat i)) in * by lia.
    by replace (Z.to_nat (i + 1 + 1)) with (S (S (Z.to_nat i))) by lia.
  - intros (i & a & c & Ha & Hc & H). pose proof (zget_range _ _ _ Ha). destruct (decide (i = 0)) as [->|].
    { injection Ha as ->. injection Hc as ->. by left. }
    right. exists (i - 1), a, c. rewrite !zget_lookup in * by lia.
    replace (Z.to_nat i) with (S (Z.to_nat (i - 1))) in Ha by lia.
    replace (Z.to_nat (i + 1)) with (S (S (Z.to_nat (i - 1)))) in Hc by lia.
    by replace (Z.to_nat (i - 1 + 1)) with (S (Z.to_nat (i - 1))) by lia.
Qed.

(** The loop over the gaps from the [i]-th on. *)
Lemma gap_loop_wp {T} (l : list Z) n i (st : T) (Q : unit + bool -> T -> Prop) :
  0 <= i -> i + Z.of_nat n = zlen l - 1 ->
  Q (if has_gap (drop (Z.to_nat i) l) then inr true else inl tt) st ->
  wp (for_ret n i (fun i _ =>
    let! x := need (zget l i) in
    let! y := need (zget l (i + 1)) in
    ret (if far_apart x y then inr true else inl tt)) tt) Q st.
Proof.
  revert i. induction n as [|n IH]; intros i Hi Hn HQ; simpl for_ret.
  - apply wp_ret. assert (length (drop (Z.to_nat i) l) = 1%nat) as E by (rewrite length_drop; lia).
    destruct (drop (Z.to_nat i) l) as [|x [|y r]]; done.
  - destruct (zget_ex l i) as [a Ha]; [lia|]. destruct (zget_ex l (i + 1)) as [c Hc]; [lia|].
    wp_step. wp_step. eapply wp_need; [done|]. wp_step. eapply wp_need; [done|]. apply wp_ret.
    rewrite !zget_lookup in Ha, Hc by lia. replace (Z.to_nat (i + 1)) with (S (Z.to_nat i)) in Hc by lia.
    rewrite (drop_S _ _ _ Ha), (drop_S _ _ _ Hc) in HQ. simpl in HQ. destruct (far_apart a c); [by apply wp_ret|].
    apply IH; [lia..|]. replace (Z.to_nat (i + 1)) with (S (Z.to_nat i)) by lia. by rewrite (drop_S _ _ _ Hc).
Qed.

(** C23: Functional correctness of fragmented_file, called so that it does
    not print the number of sectors: it answers true exactly when some data
    sector of the file, through the indirect blocks too, is not 1, 2 or 3
    sectors behind the one before it; that is, more than 3 behind or, the
    difference being unsigned, anywhere before it. Nothing is changed. *)
Theorem fragmented_file_spec u q ip secs n :
  bs_inv (store (u_fs u)) -> inodes (u_fs u) !! q = Some ip -> file_ok (store (u_fs u)) (data ip) secs -> n <> 0 ->
  wp (fragmented_file q n) (fun r u' =>
    (r = true <-> exists i x y, zget secs i = Some x /\ zget secs (i + 1) = Some y /\ ~ (x < y <= x + 3)) /\
    exists b, same_store (store (u_fs u)) b /\ u' = with_fs (set_store b (u_fs u)) u) u.
Proof.
  intros Hinv Hq Hf Hn.
  assert (has_gap secs = true <-> exists i x y, zget secs i = Some x /\ zget secs (i + 1) = Some y /\ ~ (x < y <= x + 3))
    as Hgap.
  { rewrite has_gap_spec. apply exist_proper; intros i. apply exist_proper; intros x. apply exist_proper; intros y. split; intros (Ha & Hb & H); split_and!; try done.
    all: pose proof (bs_size_bound _ Hinv).
    all: pose proof (Forall_zget _ _ _ _ (fo_range _ _ _ Hf) Ha) as Ra.
    all: pose proof (Forall_zget _ _ _ _ (fo_range _ _ _ Hf) Hb) as Rb.
    all: unfold far_apart, u32, in_range in *.
    - apply Z.ltb_lt in H. intros Hab. rewrite Z.mod_small in H by lia. lia.
    - apply Z.ltb_lt.
      assert (x <> y) as Hne.
      { intros ->. pose proof (NoDup_zget _ _ _ _ (fo_nodup _ _ _ Hf) Ha Hb). lia. }
      destruct (decide (x < y)); [rewrite Z.mod_small by lia; lia|].
      rewrite <- (Z_mod_plus_full _ 1), Z.mod_small by lia. lia. }
  enough (wp (fragmented_file q n) (fun r u' => r = has_gap secs /\
    exists b, same_store (store (u_fs u)) b /\ u' = with_fs (set_store b (u_fs u)) u) u) as H.
  { eapply wp_mono; [exact H|]. by intros r u' (-> & Hs). }
  unfold fragmented_file, inode_length. wp_step. apply on_fs_wp. wp_step.
  eapply get_inode_wp; [done|]. apply wp_ret. rewrite <- (fo_count _ _ _ Hf).
  wp_step. apply wp_when; [lia|intros _].
  destruct (zlen secs <=? 1) eqn:E.
  { apply wp_ret. split.
    - apply Z.leb_le in E. destruct secs as [|x [|y l]]; [done..|]. simpl in E. lia.
    - exists (store (u_fs u)). split; [by apply same_store_refl|]. unfold with_fs. by destruct u as [[] ???]. }
  wp_step. apply on_fs_wp. eapply get_inode_data_sectors_wp; [done..|]. intros b Hb.
  wp_step. eapply wp_need; [done|]. wp_step. apply gap_loop_wp; [lia..|].
  apply wp_ret. split; [change (Z.to_nat 0) with O; rewrite drop_0; by destruct (has_gap secs)|]. exists b. split; [done|]. by destruct u.
Qed.

(* ------------------------------------------------------------------ *)
(** ** Searching                                                       *)
(* ------------------------------------------------------------------ *)

Lemma contains_spec p l : contains p l = true <-> exists l1 l2, l = l1 ++ p ++ l2.
Proof.
  assert (forall p l, starts_with p l = true <-> exists l2, l = p ++ l2) as Hs.
  { clear. induction p as [|x p IH]; intros l; [split; [by exists l|done]|]. destruct l as [|y l]; simpl.
    - split; [done|]. by intros [? ?].
    - rewrite andb_true_iff, Z.eqb_eq, IH. split; [intros [-> [l2 ->]]; by exists l2|].
      intros [l2 [= -> ->]]. split; [done|by exists l2]. }
  induction l as [|y l IH]; simpl; rewrite orb_true_iff, Hs.
  - split; [intros [[l2 E]|?]; [by exists [], l2|done]|]. intros ([|? ?] & l2 & E); [left; by exists l2|done].
  - rewrite IH. split.
    + intros [[l2 E]|(l1 & l2 & ->)]; [by exists [], l2|by exists (y :: l1), l2].
    + intros ([|z l1] & l2 & E); [left; by exists l2|]. injection E as -> E. right. by exists l1, l2.
Qed.

(** The file is in the table of open files. *)
Record listed u fp f ip secs fname : Prop := {
  li_opened : opened (u_fs u) fp f ip secs;
  li_table : table_map (file_table (u_fs u)) !! fname = Some fp
}.

Lemma table_file_wp u fp f ip secs fname (Q : option (loc * bool) -> fs B -> Prop) :
  listed u fp f ip secs fname -> Q (Some (fp, false)) (u_fs u) -> wp (table_file fname) Q (u_fs u).
Proof.
  intros [_ Ht] HQ. rewrite <- find_entry_map in Ht. unfold table_file, get_file_by_fname.
  do 4 wp_step. by rewrite Ht; apply wp_ret.
Qed.

Lemma fsutil_size_wp u fp f ip secs fname (Q : Z -> fs B -> Prop) :
  listed u fp f ip secs fname -> 0 <= f_pos f -> Q (length_ (data ip)) (u_fs u) -> wp (fsutil_size fname) Q (u_fs u).
Proof.
  intros Hli Hpos HQ. pose proof Hli as [[] _]. unfold fsutil_size. wp_step. eapply table_file_wp; [done|].
  wp_step. eapply get_file_wp; [done|]. wp_step. unfold file_length, inode_length. wp_step. apply wp_assert; [done|].
  wp_step. wp_step; [done|]. wp_step. eapply get_file_wp; [done|]. wp_step. eapply get_inode_wp; [done|]. apply wp_ret.
  wp_step. unfold file_seek, set_file. wp_step. apply wp_assert; [done|]. wp_step. apply wp_assert; [lia|].
  wp_step. wp_step; [done|]. wp_step. eapply get_file_wp; [done|]. wp_steps.
  destruct f, (u_fs u). simpl in *. unfold set_files. simpl. by rewrite insert_id.
Qed.

(** One search in an open file, wherever its position is. *)
Definition read_to_end u fp f ip secs b : util (B := B) (Host := Host) :=
  with_fs (moved (u_fs u) fp f (f_pos f + zlen (slice (text (u_fs u) ip secs) (f_pos f) (length_ (data ip)))) b) u.

Lemma found_in_file_read u fp f ip secs fname pattern (Q : bool -> _ -> list event -> Prop) :
  listed u fp f ip secs fname ->
  (forall b, same_store (store (u_fs u)) b ->
     let buffer := slice (text (u_fs u) ip secs) (f_pos f) (length_ (data ip)) in
     wpt (if zlen buffer =? length_ (data ip) then need (strstr buffer (bytes_of pattern))
          else print ("Error reading file: " +:+ fname +:+ nl)%string ;; ret false) Q
       (read_to_end u fp f ip secs b)) ->
  wpt (found_in_file pattern fname) Q u.
Proof.
  intros Hli HQ. pose proof Hli as [Ho _]. pose proof (fo_length _ _ _ (op_secs _ _ _ _ _ Ho)) as Hl.
  unfold found_in_file. apply wpt_seq. apply on_fs_wp. eapply fsutil_size_wp; [done|apply (op_pos _ _ _ _ _ Ho)|].
  rewrite (proj2 (Z.ltb_ge _ _)) by done. apply wpt_seq. apply on_fs_wp. simpl u_fs. unfold fsutil_read. wp_step.
  eapply table_file_wp; [done|]. wp_step.
  assert (i32 (length_ (data ip)) = length_ (data ip)) as ->.
  { pose proof (op_length _ _ _ _ _ Ho). unfold i32. rewrite Z.mod_small by lia. lia. }
  eapply file_read_wp; [done|done|]. intros b Hb. apply wp_ret. simpl default. simpl andb. exact (HQ b Hb).
Qed.

(** What the find command does with a file that is already in the
    table of open files, at position 0: the search answers whether the
    pattern occurs in the text before the file's first NUL, but it leaves
    the position at the end of the file, so that the next search of the
    same file reads nothing, reports an error and finds nothing. *)
Theorem searching_twice_fails u fp f ip secs fname pattern :
  listed u fp f ip secs fname -> f_pos f = 0 -> 0 < length_ (data ip) -> 0 ∈ text (u_fs u) ip secs ->
  wpt (let! first := found_in_file pattern fname in
       let! second := found_in_file pattern fname in ret (first, second))
    (fun '(first, second) u' tr =>
       (first = true <-> exists l1 l2, until_nul (text (u_fs u) ip secs) = l1 ++ bytes_of pattern ++ l2) /\
       second = false /\ tr = [Print ("Error reading file: " +:+ fname +:+ nl)]) u.
Proof.
  intros Hli Hpos Hlen Hnul. pose proof Hli as [Ho Ht]. set (txt := text (u_fs u) ip secs) in *.
  assert (zlen txt = length_ (data ip)) as El by (apply zlen_content; apply Ho).
  apply wpt_bind. eapply found_in_file_read; [done|]. intros b Hb. fold txt. cbv zeta.
  rewrite Hpos, <- El, slice_all, Z.eqb_refl by done. unfold strstr. rewrite bool_decide_eq_true_2 by done.
  apply wpt_ret. unfold read_to_end. fold txt. rewrite Hpos, <- El, slice_all by done.
  set (u1 := with_fs _ _). set (f1 := mkFile (f_inode f) (0 + zlen txt) (f_deny_write f)).
  assert (listed u1 fp f1 ip secs fname) as Hli1.
  { split; [|done]. eapply moved_opened; [done|by apply same_changes_only|lia]. }
  apply wpt_bind. eapply found_in_file_read; [done|]. intros b2 Hb2. simpl f_pos.
  assert (text (u_fs u1) ip secs = txt) as -> by (apply content_same; [done|apply Ho]).
  cbv zeta. unfold slice. rewrite drop_ge, take_nil by lia. rewrite (proj2 (Z.eqb_neq _ _)) by (simpl; lia).
  split; [|done]. apply contains_spec.
Qed.
End props.

(* ------------------------------------------------------------------ *)
(** ** Witnesses                                                       *)
(* ------------------------------------------------------------------ *)

#[local] Existing Instance Cache.cache_store.

Definition on_host (s : fs Cache.cache) : util (B := Cache.cache) (Host := unit) := mkUtil s tt ∅ None.

(** A file in the sectors 4 and 3, in this order. *)
Lemma fragmented_file_spec_witness :
  wp (fragmented_file 5 1) (fun r _ => r = true) (on_host demo_open).
Proof.
  eapply wp_mono.
  { apply (fragmented_file_spec (on_host demo_open) 5 demo_inode [4; 3] 1);
      [apply demo_cache_inv|by vm_compute|apply demo_file_ok|done]. }
  intros r u' [-> _]. exists 0, 4, 3. split_and!; [done..|lia].
Defined.

(** The free map's own file, eight bytes, opened by name: it starts with
    the bytes 255, 1, 0. *)
Definition map_listed : util (B := Cache.cache) (Host := unit) :=
  on_host (set_file_table [mkFte "map" 1] DemoDisk.session).

Lemma searching_twice_fails_witness :
  wpt (let! first := found_in_file (string_of [1]) "map" in
       let! second := found_in_file (string_of [1]) "map" in ret (first, second))
    (fun r _ tr => r = (true, false) /\ tr = [Print ("Error reading file: map" +:+ nl)]) map_listed.
Proof.
  eapply wpt_mono.
  { apply (searching_twice_fails map_listed 1 (mkFile 2 0 false) DemoDisk.map_inode [2] "map" (string_of [1])).
    - split; [|done]. split; [apply DemoDisk.disk_inv|done|done|apply DemoDisk.map_file_ok|done|done].
    - done.
    - done.
    - apply (bool_decide_unpack _). by vm_compute. }
  intros [first second] u' tr (H1 & -> & ->). split; [|done]. f_equal. apply H1.
  exists [255], []. by vm_compute.
Defined.
End FsUtil2Props.
