(* ===== verification/RecoverProps.v ===== *)
(** * RecoverProps: what the three recovery commands do (fsutil2.c) *)
From Stdlib Require Import Sorted.
From S2P Require Import Prelude Bitmap Block Store Cache FsState Inode FileData FreeMap FileProps Dealloc CString Files FilesProps Directory DemoDisk DirectoryProps DirectoryRemove FileSys PathProps FileSysProps FsUtil2 FsUtil2Props.

Module RecoverProps.
Import Bitmap FsState Inode FileData FreeMap FileProps Dealloc Files FilesProps Directory DirectoryProps
  DirectoryRemove FileSys PathProps FileSysProps FsUtil2 FsUtil2Props.

Section past_end.
Context {B : Type} `{!BlockStore B}.
Implicit Types (b : B) (d : inode_disk).

(** What recover 2 takes for data behind the end of a file. *)
Definition past_end b d (secs : list Z) : list Z :=
  if length_ d mod 512 =? 0 then slice (sectors_bytes b secs) (length_ d - 512) 512
  else drop (Z.to_nat (length_ d)) (sectors_bytes b secs).

Lemma past_end_last b d secs :
  bs_inv b -> file_ok b d secs -> 0 < length_ d < 2 ^ 31 ->
  exists t, zget secs (zlen secs - 1) = Some t /\
    drop (Z.to_nat (u64 (length_ d) mod SECTOR)) (bs_sector b t) = past_end b d secs.
Proof.
  intros Hinv Hf Hlen. pose proof (fo_count _ _ _ Hf) as Hn. set (l := length_ d) in *.
  unfold bytes_to_sectors, u64, SECTOR in *. rewrite Z.quot_div_nonneg, (Z.mod_small _ (2 ^ 64)) in Hn
    by (Z.to_euclidean_division_equations; lia). rewrite (Z.mod_small l (2 ^ 64)) by lia.
  destruct (zget_ex secs (zlen secs - 1)) as [t Ht]; [Z.to_euclidean_division_equations; lia|].
  exists t. split; [done|]. destruct (bs_sector_ok b t Hinv) as [Hl _].
  { by apply (Forall_zget _ _ _ _ (fo_range _ _ _ Hf) Ht). }
  unfold SECTOR in Hl. unfold past_end. fold l. destruct (l mod 512 =? 0) eqn:E.
  - apply Z.eqb_eq in E. rewrite E, drop_0.
    rewrite (slice_sectors_bytes b d secs (l - 512) t 512 Hinv Hf).
    + replace ((l - 512) mod 512) with 0 by (Z.to_euclidean_division_equations; lia).
      rewrite <- Hl. by rewrite slice_all.
    + Z.to_euclidean_division_equations; lia.
    + rewrite <- Ht. f_equal. Z.to_euclidean_division_equations; lia.
    + lia.
    + Z.to_euclidean_division_equations; lia.
  - assert (zlen (sectors_bytes b secs) = 512 * zlen secs) as HL by by eapply zlen_sectors_bytes.
    pose proof (Z.mod_pos_bound l 512 ltac:(lia)) as Hm.
    assert (slice (sectors_bytes b secs) l (512 - l mod 512) = slice (bs_sector b t) (l mod 512) (512 - l mod 512)) as Hs.
    { apply (slice_sectors_bytes b d); [done|done|lia| |lia|lia]. rewrite <- Ht. f_equal.
      Z.to_euclidean_division_equations; lia. }
    unfold slice in Hs. rewrite !take_ge in Hs; [done| |]; rewrite length_drop; [lia|Z.to_euclidean_division_equations; lia].
Qed.

End past_end.

Section props.
Context {B : Type} `{!BlockStore B, !CacheControl B} {Host : Type}.
Variable host_read : Host -> string -> option (list Z).
Variable host_write : string -> list Z -> Host -> option Host.
Implicit Types (b : B) (s : fs B) (u : util (B := B) (Host := Host)).



(* ------------------------------------------------------------------ *)
(** ** Names of recovered files                                        *)
(* ------------------------------------------------------------------ *)



(* ------------------------------------------------------------------ *)
(** ** recover 1                                                       *)
(* ------------------------------------------------------------------ *)

Lemma write_host_wp u nm bytes h' (Q : bool -> util (B := B) (Host := Host) -> Prop) :
  host_write nm bytes (u_host u) = Some h' ->
  Q true (mkUtil (u_fs u) h' (infos u) (file_list_head u)) -> wp (write_host host_write nm bytes) Q u.
Proof. intros E HQ. unfold write_host. wp_step. wp_step. rewrite E. by wp_steps. Qed.






(* ------------------------------------------------------------------ *)
(** ** recover 0                                                       *)
(* ------------------------------------------------------------------ *)

(** Recover 0 on a deleted file of fewer than 123 data sectors whose
    inode is intact is undefined behaviour: it walks 123 entries of the
    array of the file's sectors, which has one entry for each. *)
Theorem recover_0_overreads junk u sec secs :
  bs_inv (store (u_fs u)) -> in_range (store (u_fs u)) sec -> not_open (u_fs u) sec ->
  let d := decode_inode (bs_sector (store (u_fs u)) sec) in
  magic d = INODE_MAGIC -> file_ok (store (u_fs u)) d secs -> zlen secs < 123 ->
  wf (free_map (u_fs u)) -> Forall (fun t => 0 <= t < bit_cnt (free_map (u_fs u))) secs ->
  recover_inode junk sec u = Stuck.
Proof.
  intros Hinv Hr Hno d Hmagic Hf Hlen Hwf Hbits. set (s := u_fs u) in *. unfold recover_inode.
  eapply (bind_stuck _ _ (fun q u' => q = brk s /\ exists b, same_store (store s) b /\ u' = with_fs (with_inode s sec b) u)).
  { apply on_fs_wp. apply inode_open_wp; [done..|]. intros b Hb. eauto. }
  intros q u1 (-> & b & Hb & ->). set (s1 := with_inode s sec b).
  assert (inodes s1 !! brk s = Some (mkInode sec 1 false 0 d)) as Hq by apply lookup_insert_eq.
  eapply (bind_stuck _ _ (fun r u' => r = Some secs /\ exists b, u' = with_fs (set_store b s1) u)).
  { apply on_fs_wp. simpl u_fs. eapply get_inode_data_sectors_wp; [apply Hb|exact Hq| |].
    - eapply file_ok_changes; [by apply same_changes_only|done].
    - intros b2 Hb2. split; [done|]. by exists b2. }
  intros r u2 (-> & b2 & ->).
  eapply (bind_stuck _ _ (fun ip u' => ip = mkInode sec 1 false 0 d /\ u' = with_fs (set_store b2 s1) u)).
  { apply on_fs_wp. eapply get_inode_wp; [exact Hq|]. by split. }
  intros ip u3 (-> & ->). cbv beta. cbn [data]. rewrite Hmagic, Z.eqb_refl.
  eapply (bind_stuck _ _ (fun l u' => l = secs /\ u' = with_fs (set_store b2 s1) u)).
  { eapply wp_need; [done|]. by split. }
  intros l u4 (-> & ->). apply bind_Stuck.
  apply (for_stuck (fun _ u' => wf (free_map (u_fs u')) /\ bit_cnt (free_map (u_fs u')) = bit_cnt (free_map s)) _ (zlen secs)).
  - done.
  - change DIRECT_BLOCKS_COUNT with 123. lia.
  - intros j u' Hj (Hw & Hc). destruct (zget_ex secs j) as [t Ht]; [lia|]. wp_step. eapply wp_need; [done|].
    apply wp_when; intros _; [|done]. apply on_fs_wp. unfold on_free_map. wp_step.
    pose proof (Forall_zget _ _ _ _ Hbits Ht) as Hrange. simpl in Hrange.
    apply bitmap_flip_wp; [done|by rewrite Hc|]. intros m (Hm & Hcm & _). simpl. split; [done|congruence].
  - intros u' _. assert (zget secs (zlen secs) = None) as E by (apply zget_None; lia).
    by rewrite E.
Qed.

(* ------------------------------------------------------------------ *)
(** ** recover 2                                                       *)
(* ------------------------------------------------------------------ *)

(** C25: Functional correctness of recover 2 for one file: it writes to a
    file of the host, named after the file, the bytes other than 0 that
    are behind the end of the file in its last sector, if there are any.
    For a file of a multiple of 512 bytes these are the last 512 bytes of
    the file itself. *)
Theorem recover_2_dumps u rd rsecs es fp fl mip msecs nm sec secs h' :
  mounted (u_fs u) rd rsecs es fp fl mip msecs ->
  good_name nm -> slashes nm = 0 -> nm <> "."%string -> nm <> ".."%string ->
  dir_map es !! bytes_of nm = Some sec -> in_range (store (u_fs u)) sec -> not_open (u_fs u) sec ->
  sec <> ROOT_DIR_SECTOR ->
  let d := decode_inode (bs_sector (store (u_fs u)) sec) in
  file_ok (store (u_fs u)) d secs -> 0 < length_ d < 2 ^ 31 ->
  let hidden := List.filter nonzero (past_end (store (u_fs u)) d secs) in
  host_write (recovered2 nm) hidden (u_host u) = Some h' ->
  wp (recover_past_end host_write nm) (fun _ u' => u_host u' = if decide (hidden = []) then u_host u else h') u.
Proof.
  intros Hm Hgood Hsl Hdot Hdots Hin Hr Hno Hroot d Hf Hlen hidden Hw.
  pose proof (fm_inv _ _ _ _ _ (mt_map _ _ _ _ _ _ _ _ Hm)) as Hinv. set (s := u_fs u) in *.
  assert (snd (split_path_filename nm) = nm) as Hsplit.
  { rewrite split_eq, (tokens_noslash nm) by (done || apply Hgood). done. }
  unfold recover_past_end. wp_step. apply on_fs_wp.
  eapply (filesys_open_wp fp fl mip msecs s rd rsecs es nm nm sec); try done.
  intros b Hb. set (s1 := file_opened s sec b). set (q := Pos.succ (Pos.succ (brk s))).
  assert (inodes s1 !! q = Some (mkInode sec 1 false 0 d)) as Hq by apply lookup_insert_eq.
  assert (file_ok b d secs) as Hf1 by (eapply file_ok_changes; [by apply same_changes_only|done]).
  wp_step. apply on_fs_wp. unfold file_get_inode. wp_step. eapply get_file_wp; [apply lookup_insert_eq|]. apply wp_ret.
  wp_step. apply on_fs_wp. unfold inode_length. wp_step. eapply get_inode_wp; [exact Hq|]. apply wp_ret. cbn [data f_inode].
  rewrite <- (fo_count _ _ _ Hf1). destruct (past_end_last b d secs) as (t & Ht & Hpast); [apply Hb|done|done|].
  pose proof (zget_range _ _ _ Ht) as Hrange. rewrite (proj2 (Z.eqb_neq _ _)) by lia.
  wp_step. apply on_fs_wp. eapply get_inode_data_sectors_wp; [apply Hb|exact Hq|exact Hf1|]. intros b2 Hb2.
  wp_step. eapply wp_need; [exact Ht|].
  assert (in_range b t) as Htr by apply (Forall_zget _ _ _ _ (fo_range _ _ _ Hf1) Ht).
  wp_step. apply on_fs_wp. eapply cache_read_wp; [apply Hb2|eapply in_range_size; [apply Hb2|done]|]. intros b3 Hb3.
  match goal with |- context [bs_sector (store ?x) t] => change (store x) with b2 end.
  rewrite (ss_sector _ _ Hb2 t) by done. change (store _) with b. rewrite Hpast.
  assert (past_end b d secs = past_end (store s) d secs) as ->.
  { unfold past_end. by rewrite (sectors_bytes_same (store s) b d secs Hb Hf). }
  fold hidden. wp_step.
  assert (existsb nonzero (past_end (store s) d secs) = negb (bool_decide (hidden = []))) as ->.
  { unfold hidden. clear. induction (past_end (store s) d secs) as [|x l IH]; [done|]. simpl. by destruct (nonzero x). }
  apply wp_when; intros E.
  - wp_step. eapply write_host_wp; [exact Hw|]. apply wp_when; [done|intros _]. apply on_fs_wp.
    eapply inode_close_wp; [exact Hq|done|]. cbn. rewrite decide_False; [done|]. by intros ->.
  - apply on_fs_wp. eapply inode_close_wp; [exact Hq|done|]. cbn. rewrite decide_True; [done|].
    by case_bool_decide.
Qed.
End props.

(* ------------------------------------------------------------------ *)
(** ** Witnesses                                                       *)
(* ------------------------------------------------------------------ *)

#[local] Existing Instance Cache.cache_store.

Definition map_write (nm : string) (bytes : list Z) (h : gmap string (list Z)) : option (gmap string (list Z)) :=
  Some (<[nm := bytes]> h).
Definition demo_util : util (B := Cache.cache) (Host := gmap string (list Z)) := mkUtil idle ∅ ∅ None.




Lemma recover_0_overreads_witness : recover_inode (Host := unit) [] 4 (mkUtil idle tt ∅ None) = Stuck.
Proof.
  apply (recover_0_overreads [] (mkUtil idle tt ∅ None) 4 [5; 7]).
  - apply DemoDisk.disk_inv.
  - by vm_compute.
  - apply Forall_singleton. by exists DemoDisk.map_inode.
  - by vm_compute.
  - change (u_fs (mkUtil idle tt ∅ None)) with idle.
    assert (decode_inode (bs_sector (store idle) 4) = DemoDisk.a_txt) as -> by by vm_compute.
    apply DemoDisk.a_txt_file_ok.
  - done.
  - split; [done|by vm_compute|by repeat constructor].
  - repeat constructor; by vm_compute.
Defined.

(** The file ["a.txt"] of 600 bytes: its last sector holds 424 more. *)
Lemma recover_2_dumps_witness :
  wp (recover_past_end map_write "a.txt") (fun _ u' =>
    u_host u' !! "recovered2-a.txt.txt"%string = Some (replicate 424 7)) demo_util.
Proof.
  assert (in_range (store idle) 4) as Hr by by vm_compute.
  assert (dir_map DemoDisk.root_entries !! bytes_of "a.txt" = Some 4) as Hmap by by vm_compute.
  assert (not_open idle 4) as Hno by (apply Forall_singleton; by exists DemoDisk.map_inode).
  assert (decode_inode (bs_sector (store idle) 4) = DemoDisk.a_txt) as E by by vm_compute.
  assert (List.filter nonzero (past_end (store idle) DemoDisk.a_txt [5; 7]) = replicate 424 7) as Eh by by vm_compute.
  eapply wp_mono.
  { eapply (recover_2_dumps map_write demo_util DemoDisk.root_disk [3] DemoDisk.root_entries 1 (mkFile 2 0 false)
              DemoDisk.map_inode [2] "a.txt" 4 [5; 7]).
    - apply idle_mounted.
    - split; [apply (bool_decide_unpack _); by vm_compute|done|done].
    - done.
    - done.
    - done.
    - exact Hmap.
    - exact Hr.
    - exact Hno.
    - discriminate.
    - change (u_fs demo_util) with idle. rewrite E. apply DemoDisk.a_txt_file_ok.
    - change (u_fs demo_util) with idle. rewrite E. split; reflexivity.
    - change (u_fs demo_util) with idle. rewrite E, Eh. reflexivity. }
  intros ? u'. change (u_fs demo_util) with idle. rewrite E, Eh. rewrite decide_False by done. intros ->.
  apply lookup_insert_eq.
Defined.
End RecoverProps.
