(* ===== verification/A3Shell.v ===== *)
(** * A3Shell: the parser and the commands of the third shell
    (a3/shell.c, a3/interpreter.c)

    parseInput calls interpreter, whose run and exec call the scheduler of
    Kernel3.v, which calls parseInput for every line; the other commands
    call the file system.  [parseInput] ties the knot with fuel for this
    nesting.  strtok is used without a care for the nesting: where it goes
    on is part of the state. *)
From S2P Require Import Prelude CString VarSpec Words Console Bitmap Store FsState Inode FreeMap Files Directory FileSys FsUtil2 LinkedList A3Memory Kernel3.
From Stdlib Require Import Ascii.

Module A3Shell.
Import VarSpec Kernel3.
Open Scope string_scope. Open Scope Z_scope.

Definition MAX_USER_INPUT : Z := 1000.

(** enum Error of interpreter.h; the others are in FsUtil2.v. *)
Definition TOO_MANY_TOKENS : Z := 5.
Definition TOO_FEW_TOKENS : Z := 6.
Definition NON_ALPHANUMERIC_TOKEN : Z := 7.
Definition BAD_COMMAND : Z := 8.
Definition ERROR_RM : Z := 9.
Definition FILESYSTEM_ERROR : Z := 11.
Definition FILE_WRITE_ERROR : Z := 12.
Definition FILE_READ_ERROR : Z := 13.
Definition error_msgs : list string :=
  ["no error"; "file does not exist"; "no space left in shell memory"; "ready queue is full";
   "scheduling policy error"; "too many tokens"; "too few tokens"; "non-alphanumeric token";
   "unknown name"; "rm"; "file could not be created"; "bad filesystem";
   "file could not be written (maybe no space?)"; "file could not be read"].

Definition handle_error {S} (error_code : Z) : M S Z :=
  let! msg := need (zget error_msgs error_code) in
  print ("Bad command: " +:+ msg +:+ nl) ;;
  ret error_code.

Definition puts {S} (s : string) : M S unit := print (s +:+ nl).

(** A word of the array: beyond those stored the entries were never set. *)
Definition arg {S} (words : list string) (i : Z) : M S string := need (zget words i).

Definition is_crlf (c : ascii) : bool := Ascii.eqb c CR || Ascii.eqb c LF.

(* ------------------------------------------------------------------ *)
(** ** The C library                                                   *)
(* ------------------------------------------------------------------ *)

(** In the "C" locale. *)
Definition in_class (lo hi c : ascii) : bool :=
  (nat_of_ascii lo <=? nat_of_ascii c)%nat && (nat_of_ascii c <=? nat_of_ascii hi)%nat.
Definition isdigit (c : ascii) : bool := in_class "0" "9" c.
Definition isalnum (c : ascii) : bool := isdigit c || in_class "A" "Z" c || in_class "a" "z" c.
Definition isspace (c : ascii) : bool := Ascii.eqb c " " || in_class (ch 9) (ch 13) c.

Fixpoint digits_value (acc : Z) (s : string) : Z :=
  match s with
  | String c s' =>
      if isdigit c then digits_value (acc * 10 + Z.of_nat (nat_of_ascii c - 48)) s' else acc
  | EmptyString => acc
  end.
Fixpoint skip_isspace (s : string) : string :=
  match s with String c s' => if isspace c then skip_isspace s' else s | EmptyString => s end.
(** Undefined when the value does not fit an int. *)
Definition atoi {S} (s : string) : M S Z :=
  let s := skip_isspace s in
  let v :=
    match s with
    | String "-" t => - digits_value 0 t
    | String "+" t => digits_value 0 t
    | _ => digits_value 0 s
    end in
  need (if bool_decide (- 2 ^ 31 <= v < 2 ^ 31) then Some v else None).

Fixpoint skip_delimiters (s : string) : string :=
  match s with String ";" s' => skip_delimiters s' | _ => s end.
(** The text before the first delimiter, and what follows it if there is
    one. *)
Fixpoint token_of (s : string) : string * option string :=
  match s with
  | EmptyString => (EmptyString, None)
  | String ";" s' => (EmptyString, Some s')
  | String c s' => let '(t, r) := token_of s' in (String c t, r)
  end.
(** A call of strtok that goes on at [s]: the token, and where the next
    call with NULL goes on. *)
Definition strtok_from (s : string) : option string * option string :=
  match skip_delimiters s with
  | EmptyString => (None, None)
  | s => let '(t, r) := token_of s in (Some t, r)
  end.

(** The words joined by spaces, with the two NULs that write and find_file
    end the buffer with. *)
Definition words_buffer (ws : list string) : list Z := (Directory.bytes_of (unwords ws) ++ [0; 0])%list.

(** isAlphaNumStr. *)
Definition isAlphaNumStr (str : string) : bool :=
  match str with EmptyString => false | _ => free_of (fun c => negb (isalnum c)) str end.

(* ------------------------------------------------------------------ *)
(** ** State                                                           *)
(* ------------------------------------------------------------------ *)

(** The state of the shell outside the kernel: the file system and the list
    of fsutil2.c, new_name_count, and where strtok goes on. *)
Record shell {B : Type} := mkShell {
  fsys : FsState.fs B;
  file_infos : gmap loc FsUtil2.FileInfo;
  info_head : option loc;
  new_name_count : Z;
  strtok_rest : option string
}.
Arguments shell : clear implicits.
Arguments mkShell {B}.

Section shell.
Context {B : Type} `{!BlockStore B, !FileSys.CacheControl B}.
Variables FRAME_STORE_SIZE VAR_STORE_SIZE : Z.
(** The operating system, on the files by name: system; the current
    directory; the contents of a file that fopen can read; fopen(., "w")
    with the writes and fclose. *)
Abbreviation host := (gmap string string).
Variable system : string -> host -> Z * host.
Variable getcwd : host -> string.
Variable host_read : host -> string -> option (list Z).
Variable host_write : string -> list Z -> host -> option host.
(** What the stack holds where dir_add has its entry. *)
Variable junk : list Z.
(** [fuel] of the schedulers. *)
Variable lines : nat.
Abbreviation state := (kern (shell B)).

Definition set_outer (x : shell B) : M state unit :=
  modify (fun k => mkKern (memory k) (heap k) (pcbs k) (pages k) (QUEUE k) (LRU_CACHE k) (ALL_PCB k)
                          (PID_counter k) (files k) (fresh k) x).
Definition set_files (f : host) : M state unit :=
  modify (fun k => mkKern (memory k) (heap k) (pcbs k) (pages k) (QUEUE k) (LRU_CACHE k) (ALL_PCB k)
                          (PID_counter k) f (fresh k) (outer k)).
Definition set_strtok (r : option string) : M state unit :=
  let! k := get in
  let x := outer k in
  set_outer (mkShell (fsys x) (file_infos x) (info_head x) (new_name_count x) r).

Definition run_system (command : string) : M state Z :=
  let! k := get in
  let '(r, h) := system command (files k) in
  set_files h ;; ret r.

(** A command of the file system and of fsutil2.c. *)
Definition on_util {A} (m : M (@FsUtil2.util B host) A) : M state A :=
  zoom (fun k => FsUtil2.mkUtil (fsys (outer k)) (files k) (file_infos (outer k)) (info_head (outer k)))
       (fun u k =>
          mkKern (memory k) (heap k) (pcbs k) (pages k) (QUEUE k) (LRU_CACHE k) (ALL_PCB k) (PID_counter k)
            (FsUtil2.u_host u) (fresh k)
            (mkShell (FsUtil2.u_fs u) (FsUtil2.infos u) (FsUtil2.file_list_head u)
               (new_name_count (outer k)) (strtok_rest (outer k)))) m.
Definition on_files {A} (m : M (FsState.fs B) A) : M state A := on_util (FsUtil2.on_fs m).

(* ------------------------------------------------------------------ *)
(** ** Commands                                                        *)
(* ------------------------------------------------------------------ *)

Definition help_string : string :=
  "COMMAND" +:+ tab +:+ tab +:+ tab +:+ "DESCRIPTION" +:+ nl +:+
  " help" +:+ tab +:+ tab +:+ tab +:+ "      Displays all the commands" +:+ nl +:+
  " quit" +:+ tab +:+ tab +:+ tab +:+ "      Exits / terminates the shell with “Bye!”" +:+ nl +:+
  " set VAR STRING" +:+ tab +:+ tab +:+ "      Assigns a value to shell memory" +:+ nl +:+
  " print VAR" +:+ tab +:+ tab +:+ "      Displays the STRING assigned to VAR" +:+ nl +:+
  " echo VAR                     Displays VAR if VAR doesn't begin with '$', otherwise displays the value assigned to VAR" +:+ nl +:+
  " ls                        Displays the folders and files in the current directory in ascending order according to ASCII values " +:+ nl +:+
  " run SCRIPT.TXT" +:+ tab +:+ tab +:+ "      Executes the file SCRIPT.TXT" +:+ nl +:+
  " exec [SCRIPT.TXT]     Executes up to 3 files using the round-robin scheduling policy" +:+ nl +:+
  " resetmem                     Deletes the content of the variable store" +:+ nl.
Definition help : M state Z := puts help_string ;; ret 0.

Definition quit : M state Z := puts "Bye!" ;; ret (-1).

Definition set_ (var value : string) : M state Z :=
  let! buffer := into 1000 var in
  let! buffer := into 1000 (buffer +:+ "=") in
  let! buffer := into 1000 (buffer +:+ value) in
  on_memory (A3Memory.mem_set_value FRAME_STORE_SIZE VAR_STORE_SIZE var value) ;;
  ret 0.

Definition print_ (var : string) : M state Z :=
  let! v := on_memory (A3Memory.mem_get_value FRAME_STORE_SIZE VAR_STORE_SIZE var "p") in
  puts v ;;
  ret 0.

(** Each suffix of the name is tested. *)
Fixpoint suffixes_alnum (s : string) : bool :=
  match s with EmptyString => true | String _ s' => isAlphaNumStr s && suffixes_alnum s' end.
Definition echo (var : string) : M state Z :=
  match var with
  | String "$" name =>
      if negb (suffixes_alnum name) then handle_error NON_ALPHANUMERIC_TOKEN
      else
        let! v := on_memory (A3Memory.mem_get_value FRAME_STORE_SIZE VAR_STORE_SIZE name "e") in
        puts v ;; ret 0
  | _ =>
      if negb (isAlphaNumStr var) then handle_error NON_ALPHANUMERIC_TOKEN
      else puts var ;; ret 0
  end.

Section over_parse.
Variable parse : string -> M state Z.

Definition run (script : string) : M state Z :=
  let! r := new_proc FRAME_STORE_SIZE VAR_STORE_SIZE script in
  if negb (r =? 0) then ret 1 else run_proc_RR FRAME_STORE_SIZE parse lines.

Definition exec (scripts : list string) (policy : string) : M state Z :=
  if 3 <? zlen scripts then print ("exec can only take between 1 to 3 scripts" +:+ nl) ;; ret 1 else
  let! r := for_ret (length scripts) 0 (fun i _ =>
    let! script := arg scripts i in
    let! r := new_proc FRAME_STORE_SIZE VAR_STORE_SIZE script in
    ret (if negb (r =? 0) then inr 1 else inl tt)) tt in
  match r with
  | inr e => ret e
  | inl _ =>
      if streq policy "FIFO" then run_proc_FIFO FRAME_STORE_SIZE parse lines
      else if streq policy "RR" then run_proc_RR FRAME_STORE_SIZE parse lines
      else ret 0
  end.

(* ------------------------------------------------------------------ *)
(** ** interpreter                                                     *)
(* ------------------------------------------------------------------ *)

(** The directory in which the shell was started, in main's array of 1024
    characters. *)
Variable cwd : string.

(** The name of the copy gets as many letters a as scripts were copied. *)
Definition copy_script (name : string) : M state string :=
  let! old_name := into 100 name in
  let! cmd := into 100 ("cp ./" +:+ name +:+ " ") in
  let! k := get in
  let x := outer k in
  let! old_name := into 100 (Nat.iter (Z.to_nat (new_name_count x)) (fun s => snoc s "a") old_name) in
  let! new_name := into 100 ("./backing_store/" +:+ old_name) in
  let! cmd := into 100 (cmd +:+ new_name) in
  run_system cmd ;;
  let! k := get in
  let x := outer k in
  set_outer (mkShell (fsys x) (file_infos x) (info_head x) (new_name_count x + 1) (strtok_rest x)) ;;
  ret new_name.

Definition renew_backing_store : M state unit :=
  run_system ("rm -rf " +:+ cwd +:+ "/backing_store") ;;
  run_system ("mkdir " +:+ cwd +:+ "/backing_store") ;;
  ret tt.

(** The value of set, in an array of 505 characters: [inr] is the return
    from the loop. *)
Definition set_value_of (command_args : list string) : M state (string + Z) :=
  let args_size := zlen command_args in
  for_ret (Z.to_nat (args_size - 2)) 2 (fun i buffer =>
    let! w := arg command_args i in
    if negb (isAlphaNumStr w) then let! e := handle_error NON_ALPHANUMERIC_TOKEN in ret (inr e) else
    let! buffer := into 505 (buffer +:+ w) in
    let! buffer := (if negb (i =? args_size - 1) then into 505 (buffer +:+ " ") else ret buffer) in
    ret (inl buffer)) EmptyString.

Definition with_words (n : Z) (command_args : list string) (command : M state Z) : M state Z :=
  if negb (zlen command_args =? n) then handle_error TOO_MANY_TOKENS else command.

Definition write_command (command_args : list string) : M state Z :=
  let buffer := words_buffer (drop 2 command_args) in
  let size := zlen buffer in
  let! file := arg command_args 1 in
  let! r := on_files (FileSys.fsutil_write file buffer size) in
  let bytes_written := fst r in
  if bytes_written =? -1 then handle_error FILE_WRITE_ERROR else
  when (negb (bytes_written =? size))
    (print ("Warning: could only write " +:+ pretty bytes_written +:+ " out of " +:+ pretty size +:+
            " bytes (reached end of file)" +:+ nl)) ;;
  ret 0.

(** malloc and memset with the size below -1; the array of no bytes that
    printf is given with the size -1. *)
Definition read_command (command_args : list string) : M state Z :=
  let! a := arg command_args 2 in
  let! size := atoi a in
  if size + 1 <? 0 then undef else
  let! file := arg command_args 1 in
  let! r := on_files (FileSys.fsutil_read file size) in
  match r with
  | None => handle_error FILE_READ_ERROR
  | Some bytes =>
      if size <? 0 then undef else
      puts (FileSys.string_of (bytes ++ replicate (Z.to_nat (size + 1 - zlen bytes)) 0)%list) ;;
      ret (if zlen bytes =? size then 1 else 0)
  end.

Definition on_error (status : Z) : M state Z := if status =? 0 then ret 0 else handle_error status.

(** The last branches: the commands on the whole disk. *)
Definition disk_command (a0 : string) (command_args : list string) : M state Z :=
  let with_words n := with_words n command_args in
  if streq a0 "freespace" then with_words 1
    (let! free_space := on_files FileSys.fsutil_freespace in
     let! bytes := need (if free_space * SECTOR <? 2 ^ 31 then Some (free_space * SECTOR) else None) in
     puts ("Num free sectors: " +:+ pretty free_space +:+ " (" +:+ pretty bytes +:+ " total bytes)") ;; ret 0)
  else if streq a0 "fragmentation_degree" then with_words 1
    (on_util FsUtil2.fragmentation_degree ;; ret 0)
  else if streq a0 "defragment" then with_words 1
    (on_util (FsUtil2.defragment junk) ;; ret 0)
  else if streq a0 "recover" then with_words 2
    (let! a := arg command_args 1 in
     let! flag := atoi a in
     on_util (FsUtil2.recover host_write junk flag) ;; ret 0)
  else handle_error BAD_COMMAND.

(** The commands of the file system: the second half of interpreter. *)
Definition file_command (a0 : string) (command_args : list string) : M state Z :=
  let args_size := zlen command_args in
  let with_words n := with_words n command_args in
  if streq a0 "ls" then
    if 1 <? args_size then handle_error TOO_MANY_TOKENS else
    let! status := on_files FileSys.fsutil_ls in
    if status =? 1 then handle_error FILESYSTEM_ERROR else ret 0
  else if streq a0 "cat" then with_words 2
    (let! a := arg command_args 1 in
     let! status := on_files (FileSys.fsutil_cat a) in
     if status =? 1 then handle_error FsUtil2.FILE_DOES_NOT_EXIST else ret 0)
  else if streq a0 "rm" then with_words 2
    (let! a := arg command_args 1 in
     let! status := on_files (FileSys.fsutil_rm a) in
     if negb status then handle_error ERROR_RM else ret 1)
  else if streq a0 "create" then with_words 3
    (let! b := arg command_args 2 in
     let! size := atoi b in
     let! a := arg command_args 1 in
     let! status := on_files (FileSys.fsutil_create junk a size) in
     if status =? 0 then handle_error FsUtil2.FILE_CREATION_ERROR else ret 0)
  else if streq a0 "write" then
    if args_size <? 3 then handle_error TOO_FEW_TOKENS else write_command command_args
  else if streq a0 "find_file" then
    if args_size <? 2 then handle_error TOO_FEW_TOKENS else
    on_util (FsUtil2.find_file (unwords (drop 1 command_args))) ;; ret 0
  else if streq a0 "read" then with_words 3 (read_command command_args)
  else if streq a0 "copy_in" then with_words 2
    (let! k := get in
     let! cwd_path := into 1024 (getcwd (files k) +:+ "/") in
     let! a := arg command_args 1 in
     let! cwd_path := into 1024 (cwd_path +:+ a) in
     let! status := on_util (FsUtil2.copy_in host_read junk cwd_path) in
     on_error status)
  else if streq a0 "copy_out" then with_words 2
    (let! a := arg command_args 1 in
     let! status := on_util (FsUtil2.copy_out host_write a) in
     on_error status)
  else if streq a0 "size" then with_words 2
    (let! a := arg command_args 1 in
     let! length := on_files (FileSys.fsutil_size a) in
     if length =? -1 then handle_error FsUtil2.FILE_DOES_NOT_EXIST else
     puts ("File length: " +:+ pretty length) ;; ret 0)
  else if streq a0 "seek" then with_words 3
    (let! b := arg command_args 2 in
     let! offset := atoi b in
     let! a := arg command_args 1 in
     let! status := on_files (FileSys.fsutil_seek a offset) in
     if status =? -1 then handle_error FsUtil2.FILE_DOES_NOT_EXIST else ret 0)
  else disk_command a0 command_args.

(** Interpreter gets all the words that parseInput found. *)
Definition interpreter (command_args : list string) : M state Z :=
  let args_size := zlen command_args in
  if args_size <? 1 then handle_error TOO_FEW_TOKENS else
  let command_args := map (cut is_crlf) command_args in
  let! a0 := arg command_args 0 in
  if streq a0 "help" then
    if 1 <? args_size then handle_error TOO_MANY_TOKENS else help
  else if streq a0 "quit" || streq a0 "exit" then
    if 1 <? args_size then handle_error TOO_MANY_TOKENS else
    run_system ("rm -rf " +:+ cwd +:+ "/backing_store") ;;
    on_files FileSys.filesys_done ;;
    quit
  else if streq a0 "set" then
    if args_size <? 3 then handle_error TOO_FEW_TOKENS else
    let! var := arg command_args 1 in
    if negb (isAlphaNumStr var) then handle_error NON_ALPHANUMERIC_TOKEN else
    let! r := set_value_of command_args in
    match r with
    | inr e => ret e
    | inl buffer => set_ var buffer
    end
  else if streq a0 "print" then
    if args_size <? 2 then handle_error TOO_FEW_TOKENS else
    if 2 <? args_size then handle_error TOO_MANY_TOKENS else
    let! a := arg command_args 1 in print_ a
  else if streq a0 "run" then
    if args_size <? 2 then handle_error TOO_FEW_TOKENS else
    if 2 <? args_size then handle_error TOO_MANY_TOKENS else
    let! a := arg command_args 1 in
    let! new_name := copy_script a in
    let! r := run new_name in
    renew_backing_store ;;
    ret r
  else if streq a0 "echo" then
    if 2 <? args_size then handle_error TOO_MANY_TOKENS else
    let! a := arg command_args 1 in echo a
  else if streq a0 "exec" then
    if args_size <=? 1 then handle_error TOO_FEW_TOKENS else
    if 5 <? args_size then handle_error TOO_MANY_TOKENS else
    let! scripts := for_acc (Z.to_nat (args_size - 1)) 1 (fun i scripts =>
      let! a := arg command_args i in
      let! new_name := copy_script a in
      ret ((scripts ++ [new_name])%list)) [] in
    let! r := exec scripts "RR" in
    renew_backing_store ;;
    ret r
  else if streq a0 "resetmem" then
    on_memory (A3Memory.reset_var_zone FRAME_STORE_SIZE VAR_STORE_SIZE) ;; ret 0
  else file_command a0 command_args.

(* ------------------------------------------------------------------ *)
(** ** parseInput                                                      *)
(* ------------------------------------------------------------------ *)

Definition word_end (c : ascii) : bool := Ascii.eqb c NUL || Ascii.eqb c " ".

(** The words of a token: one turn of the loop, with the words so far. *)
Definition word_step (token : string) (x : Z * list string) : M state (Z * list string + list string) :=
  let '(a, words) := x in
  let! c := read token a in
  if Ascii.eqb c NUL || negb (a <? MAX_USER_INPUT) then ret (inr words) else
  let! r := copy_word word_end MAX_USER_INPUT MAX_USER_INPUT token a in
  let '(a, tmp) := r in
  let! words := need (if zlen words <? 100 then Some (app words [tmp]) else None) in
  let! c := read token a in
  if Ascii.eqb c NUL then ret (inr words) else ret (inl (a + 1, words)).
Definition token_words (token : string) : M state (list string) :=
  let! a := skip_spaces MAX_USER_INPUT token 0 in
  while_ (Datatypes.S (Datatypes.S (String.length token))) (word_step token) (a, []).

(** strtok(s, ";") and strtok(NULL, ";"). *)
Definition strtok (s : option string) : M state (option string) :=
  let! k := get in
  let s := match s with Some s => Some s | None => strtok_rest (outer k) end in
  let '(t, r) := match s with Some s => strtok_from s | None => (None, None) end in
  set_strtok r ;; ret t.

(** One turn of the loop: the current token and the result so far. *)
Definition token_step (x : option string * Z) : M state (option string * Z + Z) :=
  match x with
  | (None, r) => ret (inr r)
  | (Some tokens, _) =>
      let! token := into MAX_USER_INPUT tokens in
      let! words := token_words token in
      let! r := interpreter words in
      let! tokens := strtok None in
      ret (if r =? -1 then inr r else inl (tokens, r))
  end.
Definition parse_line (turns : nat) (ui : string) : M state Z :=
  let! tokens := strtok (Some ui) in
  while_ turns token_step (tokens, 0).
End over_parse.

(** A line has at most one token for each two characters. A nested call
    leaves no more tokens to its caller than its own line has: [lines] is
    for those. *)
Fixpoint parseInput (cwd : string) (fuel : nat) (ui : string) : M state Z :=
  match fuel with
  | O => out_of_fuel
  | Datatypes.S f => parse_line (parseInput cwd f) cwd (Datatypes.S (Datatypes.S (lines + String.length ui))) ui
  end.

(** [turns] of the loop of main. *)
Definition main_loop (cwd : string) (fuel turns : nat) (c : Console.console) : M state Console.console :=
  Console.shell_loop (parseInput cwd fuel) turns c.
(** main returns only when an argument is missing; ide_init is in the
    initial state, whose device has [device_size] sectors. *)
Definition main (argv : list string) (device_size : Z) (fuel turns : nat) (c : Console.console)
  : M state (Z + Console.console) :=
  if zlen argv <? 2 then
    puts "Error: myshell must be called with the hard drive as argument. E.g., ./myshell myhd.dsk" ;; ret (inl 1)
  else
  let format := (zlen argv =? 3) && bool_decide (zget argv 2 = Some "-f") in
  let! k := get in
  let! cwd := into 1024 (getcwd (files k)) in
  run_system "rm -rf backing_store" ;;
  run_system "mkdir backing_store" ;;
  puts "Shell v2.1" ;;
  puts ("Frame Store Size = " +:+ pretty FRAME_STORE_SIZE +:+ "; Variable Store Size = " +:+ pretty VAR_STORE_SIZE) ;;
  on_memory (A3Memory.mem_init FRAME_STORE_SIZE VAR_STORE_SIZE) ;;
  kernel_setup ;;
  on_files (FileSys.filesys_init device_size format) ;;
  let! c := main_loop cwd fuel turns c in
  ret (inr c).
End shell.
End A3Shell.
