(* ===== verification/A3ShellProps.v ===== *)
(** * A3ShellProps: lines of commands in the third shell

    What parseInput of A3Shell.v makes of a line: the words of a token, and
    the tokens of a line, as far as nested calls of strtok leave them. *)
From S2P Require Import Prelude CString VarSpec Words Bitmap Block Store Cache FsState FileSys FsUtil2 LinkedList A3Memory Kernel3 A3Shell DemoDisk.
From Stdlib Require Import Ascii.

Module A3ShellProps.
Import VarSpec Cache FileSys Kernel3 A3Shell.
Open Scope string_scope. Open Scope Z_scope.

(** The pieces of a text between single spaces, where a space at the end
    starts no piece. *)
Fixpoint pieces (s : string) : list string :=
  match s with
  | EmptyString => []
  | String c s' =>
      if Ascii.eqb c " " then EmptyString :: pieces s'
      else match pieces s' with [] => [String c EmptyString] | w :: ws => String c w :: ws end
  end.
(** The text after the spaces it starts with. *)
Fixpoint unindented (s : string) : string :=
  match s with String c s' => if Ascii.eqb c " " then unindented s' else s | EmptyString => s end.

Lemma unindented_spec s : exists n, s = (spaces n +:+ unindented s) /\ forall r, unindented s <> String " " r.
Proof.
  induction s as [|c s (n & E & H)]; simpl; [by exists 0%nat|].
  destruct (Ascii.eqb_spec c " ") as [->|Hc].
  - exists (S n). split; [|done]. by rewrite E at 1.
  - exists 0%nat. split; [done|]. intros r [= -> _]. done.
Qed.

(** No NUL inside, as in every C string. *)
Definition c_string (s : string) : Prop := free_of (fun c => Ascii.eqb c NUL) s = true.

Lemma free_of_app f a b : free_of f (a +:+ b) = free_of f a && free_of f b.
Proof. induction a as [|c a IH]; [done|]. simpl. rewrite <- andb_assoc. by f_equal. Qed.

(** A text is one word, or a word, a space and the rest. *)
Lemma break_space s :
  c_string s -> s <> EmptyString ->
  exists w, free_of word_end w = true /\
    ((s = w /\ pieces s = [w]) \/ exists r, s = (w +:+ String " " r) /\ pieces s = w :: pieces r).
Proof.
  induction s as [|c s IH]; intros Hs Hne; [done|]. unfold c_string in Hs. simpl in Hs.
  apply andb_true_iff in Hs as [Hc%negb_true_iff Hs]. simpl pieces.
  destruct (Ascii.eqb_spec c " ") as [->|Hsp].
  { exists EmptyString. split; [done|]. right. by exists s. }
  assert (word_end c = false) as Hend.
  { unfold word_end. rewrite Hc. destruct (Ascii.eqb_spec c " "); done. }
  destruct s as [|d s].
  { exists (String c EmptyString). simpl. rewrite Hend. split; [done|]. by left. }
  destruct (IH Hs) as (w & Hw & H); [done|]. exists (String c w). cbn [free_of]. rewrite Hend. split; [done|].
  destruct H as [[-> ->]|(r & -> & ->)]; [by left|]. right. by exists r.
Qed.

(** The dispatch on words whose texts, cut at the end of the line, are
    [Hw]. *)
Ltac dispatch Hw :=
  let Hl := fresh in
  pose proof (f_equal (@length string) Hw) as Hl; rewrite length_map in Hl; simpl in Hl;
  unfold interpreter; rewrite Hw; try rewrite Hl; unfold arg; simpl; rewrite ?bind_ret; decide_words; cbn [orb negb]; cbv iota.

Section parser.
Context {B : Type} `{!BlockStore B, !CacheControl B}.
Implicit Types k : kern (shell B).

Lemma word_loop fuel : forall s p acc token k,
  token = (p +:+ s) -> c_string s -> strlen token < 1000 -> zlen acc + zlen (pieces s) <= 100 ->
  (String.length s < fuel)%nat ->
  while_ fuel (word_step token) (strlen p, acc) k = Ok (acc ++ pieces s)%list k [].
Proof.
  induction fuel as [|fuel IH]; intros s p acc token k E Hs Hlen Hn Hf; [lia|].
  destruct (decide (s = EmptyString)) as [->|Hne].
  { apply while_exit, silent_Ok. unfold word_step. wp_step.
    apply read_end; [by rewrite E, app_nil_s|]. simpl. rewrite app_nil_r. by apply wp_ret. }
  destruct (break_space s Hs Hne) as (w & Hw & H).
  assert (strlen token = strlen p + strlen s) as El by (rewrite E; apply strlen_app).
  pose proof (strlen_nonneg p). pose proof (strlen_nonneg w).
  assert (exists c r, s = String c r /\ Ascii.eqb c NUL = false) as (c & r0 & Ec & Hc).
  { destruct s as [|c r0]; [done|]. exists c, r0. split; [done|]. unfold c_string in Hs. simpl in Hs.
    by apply andb_true_iff in Hs as [?%negb_true_iff _]. }
  assert (0 < strlen s) as Hpos by (rewrite Ec; unfold strlen; simpl; lia).
  destruct H as [[-> Hp]|(r & Es & Hp)]; rewrite Hp in *.
  - apply while_exit, silent_Ok. unfold word_step. wp_step. eapply (read_at _ p c r0); [by rewrite E, Ec|done|].
    rewrite Hc, (proj2 (Z.ltb_lt _ _)) by (unfold MAX_USER_INPUT; lia). simpl orb. cbv iota. wp_step.
    eapply (copy_word_wp word_end _ _ p w EmptyString); [done| |by rewrite E, app_nil_s|done|..];
      [|unfold MAX_USER_INPUT; lia..|].
    { exists NUL. split; [done|]. by left. }
    rewrite (proj2 (Z.ltb_lt _ 100)) by (simpl in Hn; lia). wp_step. eapply wp_need; [done|]. wp_step.
    apply read_end; [by rewrite E, strlen_app|]. simpl. by apply wp_ret.
  - assert (strlen s = strlen w + 1 + strlen r) as Els by (rewrite Es, strlen_app; unfold strlen; simpl; lia).
    pose proof (strlen_nonneg r).
    rewrite (while_turn _ _ _ _ (strlen p + strlen w + 1, (acc ++ [w])%list) k).
    + replace (strlen p + strlen w + 1) with (strlen (p +:+ (w +:+ String " " EmptyString)))
        by (rewrite !strlen_app; unfold strlen; simpl; lia).
      rewrite (IH r); [by rewrite <- app_assoc| | |done| |].
      * rewrite E, Es. by rewrite !app_assoc_s.
      * unfold c_string in *. rewrite Es, free_of_app in Hs. apply andb_true_iff in Hs as [_ Hs]. done.
      * rewrite zlen_app. simpl in *. lia.
      * unfold strlen in *. lia.
    + apply silent_Ok. unfold word_step. wp_step. eapply (read_at _ p c r0); [by rewrite E, Ec|done|].
      rewrite Hc, (proj2 (Z.ltb_lt _ _)) by (unfold MAX_USER_INPUT; lia). simpl orb. cbv iota. wp_step.
      eapply (copy_word_wp word_end _ _ p w (String " " r)); [done| |by rewrite E, Es|done|..];
        [|unfold MAX_USER_INPUT; lia..|].
      { exists " "%char. split; [done|]. right. by exists r. }
      rewrite (proj2 (Z.ltb_lt _ 100)) by (simpl in Hn; lia). wp_step. eapply wp_need; [done|]. wp_step.
      eapply (read_at _ (p +:+ w) " " r); [by rewrite E, Es, app_assoc_s|by rewrite strlen_app|]. by apply wp_ret.
Qed.

Lemma token_words_Ok token k :
  c_string token -> strlen token < 1000 -> zlen (pieces (unindented token)) <= 100 ->
  token_words token k = Ok (pieces (unindented token)) k [].
Proof.
  intros Hc Hlen Hn. destruct (unindented_spec token) as (n & E & Hu). set (s := unindented token) in *.
  unfold token_words, MAX_USER_INPUT.
  rewrite (bind_Ok_nil _ _ _ (0 + Z.of_nat n) k); [|by apply (skip_spaces_Ok n EmptyString s)].
  assert (0 + Z.of_nat n = strlen (spaces n)) as -> by (unfold strlen; rewrite length_spaces; lia).
  apply (word_loop _ s (spaces n) []); [done| |done|done|].
  - unfold c_string in *. rewrite E, free_of_app in Hc. by apply andb_true_iff in Hc as [_ Hc].
  - assert (strlen token = Z.of_nat n + strlen s) as El
      by (rewrite E, strlen_app; unfold strlen at 1; by rewrite length_spaces).
    unfold strlen in El. lia.
Qed.
(* ------------------------------------------------------------------ *)
(** ** Tokens                                                          *)
(* ------------------------------------------------------------------ *)

(** A token: what is between two semicolons. *)
Definition section (t : string) : Prop :=
  t <> EmptyString /\ free_of (fun c => Ascii.eqb c ";") t = true /\ c_string t /\
  strlen t < 1000 /\ zlen (pieces (unindented t)) <= 100.

Lemma token_of_end t : free_of (fun c => Ascii.eqb c ";") t = true -> token_of t = (t, None).
Proof.
  induction t as [|c t IH]; [done|]. simpl. intros [Hc%negb_true_iff H]%andb_true_iff.
  rewrite (IH H). by destruct c as [[][][][][][][][]].
Qed.
Lemma token_of_cut t r :
  free_of (fun c => Ascii.eqb c ";") t = true -> token_of (t +:+ String ";" r) = (t, Some r).
Proof.
  induction t as [|c t IH]; [done|]. simpl. intros [Hc%negb_true_iff H]%andb_true_iff.
  rewrite (IH H). by destruct c as [[][][][][][][][]].
Qed.
Lemma skip_delimiters_none t r : section t -> skip_delimiters (t +:+ r) = (t +:+ r).
Proof.
  intros (Hne & Hf & _). destruct t as [|c t]; [done|]. simpl in Hf.
  apply andb_true_iff in Hf as [Hc%negb_true_iff _]. by destruct c as [[][][][][][][][]].
Qed.
Lemma strtok_from_token s :
  skip_delimiters s = s -> s <> EmptyString -> strtok_from s = let '(t, r) := token_of s in (Some t, r).
Proof. intros E Hne. unfold strtok_from. rewrite E. by destruct s. Qed.
Lemma strtok_from_cut t r : section t -> strtok_from (t +:+ String ";" r) = (Some t, Some r).
Proof.
  intros Ht. pose proof Ht as (Hne & Hf & _). rewrite strtok_from_token; [|by apply skip_delimiters_none|by destruct t].
  by rewrite token_of_cut.
Qed.
Lemma strtok_from_end t : section t -> strtok_from t = (Some t, None).
Proof.
  intros Ht. pose proof Ht as (Hne & Hf & _). rewrite strtok_from_token; [by rewrite token_of_end| |done].
  rewrite <- (app_nil_s t) at 1. rewrite skip_delimiters_none by done. apply app_nil_s.
Qed.

(** The state with another place for strtok to go on. *)
Definition at_rest (r : option string) (k : kern (shell B)) : kern (shell B) :=
  mkKern (memory k) (heap k) (pcbs k) (pages k) (QUEUE k) (LRU_CACHE k) (ALL_PCB k) (PID_counter k) (files k) (fresh k)
    (mkShell (fsys (outer k)) (file_infos (outer k)) (info_head (outer k)) (new_name_count (outer k)) r).

Lemma strtok_Ok s t r k :
  strtok_from s = (t, r) -> strtok (Some s) k = Ok t (at_rest r k) [].
Proof. intros E. unfold strtok, bind, get. simpl. by rewrite E. Qed.
Lemma strtok_null k t r :
  match strtok_rest (outer k) with Some s => strtok_from s | None => (None, None) end = (t, r) ->
  strtok None k = Ok t (at_rest r k) [].
Proof. intros E. unfold strtok, bind, get. simpl. by rewrite E. Qed.
Lemma at_rest_id k : at_rest (strtok_rest (outer k)) k = k.
Proof. by destruct k as [????????? ? []]. Qed.

(* ------------------------------------------------------------------ *)
(** ** Code that has nothing to do with strtok                         *)
(* ------------------------------------------------------------------ *)

Definition outcome_at {A} (r : option string) (x : outcome (kern (shell B)) A) : outcome (kern (shell B)) A :=
  match x with
  | Ok a k tr => Ok a (at_rest r k) tr
  | Exit c k tr => Exit c (at_rest r k) tr
  | Stuck => Stuck
  | NoFuel => NoFuel
  end.
(** It does the same wherever strtok is, and leaves it there. *)
Definition blind {A} (m : M (kern (shell B)) A) : Prop := forall r k, m (at_rest r k) = outcome_at r (m k).

Lemma blind_bind {A C} (m : M (kern (shell B)) A) (f : A -> M (kern (shell B)) C) :
  blind m -> (forall a, blind (f a)) -> blind (bind m f).
Proof.
  intros Hm Hf r k. unfold bind. rewrite Hm. destruct (m k) as [a k' tr| | |]; simpl; [|done..].
  rewrite Hf. by destruct (f a k').
Qed.
Lemma blind_ret {A} (a : A) : blind (ret a). Proof. done. Qed.
Lemma blind_undef {A} : blind (undef (A := A)). Proof. done. Qed.
Lemma blind_print msg : blind (print msg). Proof. done. Qed.
Lemma blind_need {A} (o : option A) : blind (need o). Proof. by destruct o. Qed.
Lemma blind_when b m : blind m -> blind (when b m). Proof. by destruct b. Qed.
Lemma blind_ext {A} (m m' : M (kern (shell B)) A) : (forall k, m k = m' k) -> blind m' -> blind m.
Proof. intros E H r k. by rewrite !E. Qed.
(** Code that reads other parts of the state. *)
Lemma blind_get {A} (f : kern (shell B) -> M (kern (shell B)) A) :
  (forall r k, f (at_rest r k) = f k) -> (forall k, blind (f k)) -> blind (bind get f).
Proof. intros H Hf r k. unfold bind, get. cbn. rewrite H, Hf. by destruct (f k k). Qed.
Lemma blind_on_memory {A} (m : M slots A) : blind (on_memory m).
Proof. intros r k. unfold on_memory, zoom. cbn. by destruct (m (memory k)). Qed.
Lemma blind_on_util {A} (m : M (@FsUtil2.util B (gmap string string)) A) : blind (on_util m).
Proof. intros r k. unfold on_util, zoom. cbn. by destruct (m _). Qed.
Lemma blind_on_files {A} (m : M (FsState.fs B) A) : blind (on_files m).
Proof. apply blind_on_util. Qed.
Lemma blind_run_system system c : blind (run_system system c).
Proof. intros r k. unfold run_system, bind, get. cbn. by destruct (system c (files k)). Qed.
Lemma blind_for_ret {X R} n i (body : Z -> X -> M (kern (shell B)) (X + R)) x :
  (forall j y, blind (body j y)) -> blind (for_ret n i body x).
Proof.
  intros Hb. revert i x. induction n as [|n IH]; intros i x; [done|]. cbn [for_ret].
  apply blind_bind; [done|]. intros [y|z]; [apply IH|done].
Qed.

Lemma bind_ret_r {A} (m : M (kern (shell B)) A) k : bind m ret k = m k.
Proof. unfold bind. destruct (m k); [|done..]. simpl. by rewrite app_nil_r. Qed.
(** The same outcome, but for the place of strtok. *)
Definition alike {A} (x y : outcome (kern (shell B)) A) : Prop := outcome_at None x = outcome_at None y.

Lemma alike_bind {A C} (m : M (kern (shell B)) A) (f g : A -> M (kern (shell B)) C) r k :
  blind m -> (forall a k', alike (f a (at_rest r k')) (g a k')) -> alike (bind m f (at_rest r k)) (bind m g k).
Proof.
  intros Hm H. unfold alike, bind. rewrite Hm. destruct (m k) as [a k' tr|c k' tr| |]; simpl; [|done..].
  specialize (H a k'). unfold alike in H. destruct (f a (at_rest r k')), (g a k'); simpl in *; congruence.
Qed.

Section line.
Variables fs vs : Z.
Variable system : string -> gmap string string -> Z * gmap string string.
Variable getcwd : gmap string string -> string.
Variable host_read : gmap string string -> string -> option (list Z).
Variable host_write : string -> list Z -> gmap string string -> option (gmap string string).
Variable junk : list Z.
Variable lines : nat.
Variable parse : string -> M (kern (shell B)) Z.
Variable cwd : string.
Abbreviation interpreter' := (interpreter fs vs system getcwd host_read host_write junk lines parse cwd).
Abbreviation token_step' := (token_step fs vs system getcwd host_read host_write junk lines parse cwd).
Abbreviation parse_line' := (parse_line fs vs system getcwd host_read host_write junk lines parse cwd).

(** One turn of the loop: the words of the token are interpreted, then
    strtok is asked for the next token. *)
Lemma token_turn t e f k :
  section t ->
  while_ (S f) token_step' (Some t, e) k =
  (let! r := interpreter' (pieces (unindented t)) in
   let! tokens := strtok None in
   if r =? -1 then ret r else while_ f token_step' (tokens, r)) k.
Proof.
  intros (Hne & Hf & Hc & Hlen & Hn). cbn [while_]. unfold token_step at 1. rewrite bind_assoc.
  rewrite (bind_Ok_nil _ _ _ t k).
  2:{ unfold into, MAX_USER_INPUT. by rewrite (proj2 (Z.ltb_lt _ _)) by done. }
  cbv beta. rewrite bind_assoc, (bind_Ok_nil _ _ _ _ _ (token_words_Ok t k Hc Hlen Hn)). cbv beta. rewrite bind_assoc.
  apply bind_cong; [done|]. intros r k'. rewrite bind_assoc. apply bind_cong; [done|]. intros tokens k2.
  rewrite bind_ret. by destruct (r =? -1).
Qed.
Lemma parse_line_cut t r f k :
  section t ->
  parse_line' (S f) (t +:+ String ";" r) k =
  (let! e := interpreter' (pieces (unindented t)) in
   let! tokens := strtok None in
   if e =? -1 then ret e else while_ f token_step' (tokens, e)) (at_rest (Some r) k).
Proof.
  intros Ht. unfold parse_line. rewrite (bind_Ok_nil _ _ _ _ _ (strtok_Ok _ _ _ k (strtok_from_cut t r Ht))).
  by apply token_turn.
Qed.

Lemma bind_inv {S A C} (m : M S A) (f : A -> M S C) s b s2 tr :
  bind m f s = Ok b s2 tr -> exists a s1 tr1 tr2, m s = Ok a s1 tr1 /\ f a s1 = Ok b s2 tr2.
Proof.
  unfold bind. destruct (m s) as [a s1 tr1| | |]; [|done..]. destruct (f a s1) as [b' s' tr2| | |] eqn:E; [|done..].
  intros [= <- <- <-]. by exists a, s1, tr1, tr2.
Qed.

(** When strtok gives no token it will give none any more. *)
Lemma strtok_None s k t k' tr :
  strtok s k = Ok t k' tr -> t = None -> strtok_rest (outer k') = None.
Proof.
  unfold strtok, bind, get. simpl. set (u := match s with Some _ => _ | None => _ end).
  assert (forall v r, match u with Some s => strtok_from s | None => (None, None) end = (None, r) -> r = v -> v = None) as H.
  { intros v r E <-. destruct u as [w|]; [|by injection E]. unfold strtok_from in E.
    destruct (skip_delimiters w); [by injection E|]. destruct (token_of _); by injection E. }
  destruct (match u with Some s => strtok_from s | None => (None, None) end) as [t' r] eqn:E.
  unfold set_strtok, set_outer, ret, bind, get, modify. simpl. intros [= <- <- _] ->. simpl. by eapply H.
Qed.

Lemma token_loop f : forall tokens e k e' k' tr,
  (tokens = None -> strtok_rest (outer k) = None) ->
  while_ f token_step' (tokens, e) k = Ok e' k' tr -> e' <> -1 -> strtok_rest (outer k') = None.
Proof.
  induction f as [|f IH]; intros tokens e k e' k' tr Hk; [done|]. cbn [while_].
  intros (x & k1 & tr1 & tr2 & E & E2)%bind_inv He. destruct tokens as [t|]; simpl in E.
  - apply bind_inv in E as (token & k2 & ? & ? & _ & E). apply bind_inv in E as (words & k3 & ? & ? & _ & E).
    apply bind_inv in E as (r & k4 & ? & ? & _ & E). apply bind_inv in E as (t2 & k5 & ? & ? & Et & E).
    destruct (Z.eqb_spec r (-1)) as [->|Hr]; injection E as <- <- _.
    + by injection E2 as <- _ _.
    + eapply (IH t2 r k5); [|done|done]. intros ->. by eapply strtok_None.
  - injection E as <- <- _. injection E2 as <- <- _. by apply Hk.
Qed.
(* ------------------------------------------------------------------ *)
(** ** Lines of commands                                               *)
(* ------------------------------------------------------------------ *)

(** The commands that parse no lines of their own. *)
Definition ordinary (ws : list string) : Prop :=
  forall w, zget (map (cut is_crlf) ws) 0 = Some w -> w <> "run" /\ w <> "exec".

Ltac blind_step :=
  lazymatch goal with
  | |- blind (let '(_, _) := ?x in _) => destruct x
  | |- blind (bind get _) => apply blind_get; [done|intros ?]
  | |- blind (bind _ _) => apply blind_bind; [|intros ?]
  | |- blind (ret _) => apply blind_ret
  | |- blind undef => apply blind_undef
  | |- blind (print _) => apply blind_print
  | |- blind (puts _) => apply blind_print
  | |- blind (need _) => apply blind_need
  | |- blind (arg _ _) => apply blind_need
  | |- blind (into _ _) => apply blind_need
  | |- blind (atoi _) => apply blind_need
  | |- blind (when _ _) => apply blind_when
  | |- blind (on_memory _) => apply blind_on_memory
  | |- blind (on_files _) => apply blind_on_files
  | |- blind (on_util _) => apply blind_on_util
  | |- blind (run_system _ _) => apply blind_run_system
  | |- blind (for_ret _ _ _ _) => apply blind_for_ret; intros ? ?
  | |- blind (if ?b then _ else _) => destruct b
  | |- blind (match ?x with _ => _ end) => destruct x
  end.
Ltac blind := repeat first [blind_step | progress (unfold handle_error, with_words, help, quit, set_, print_, echo, set_value_of,
  write_command, read_command, on_error, disk_command; cbv zeta)].

Lemma blind_file_command a0 ws : blind (file_command getcwd host_read host_write junk a0 ws).
Proof. unfold file_command. cbv zeta. blind. Qed.
Lemma blind_interpreter ws : ordinary ws -> blind (interpreter' ws).
Proof.
  intros Ho. unfold interpreter. cbv zeta. destruct (zlen ws <? 1); [blind|]. unfold arg at 1. unfold ordinary in Ho.
  destruct (zget (map (cut is_crlf) ws) 0) as [a0|]; [|done]. destruct (Ho a0 eq_refl) as [Hrun Hexec]. cbn [need].
  eapply blind_ext; [intros k; by rewrite bind_ret|]. cbv beta.
  assert (streq a0 "run" = false) as -> by by apply bool_decide_eq_false_2.
  assert (streq a0 "exec" = false) as -> by by apply bool_decide_eq_false_2.
  blind. apply blind_file_command.
Qed.

(** Sections joined by semicolons. *)
Fixpoint line_of (ts : list string) : string :=
  match ts with
  | [] => EmptyString
  | [t] => t
  | t :: ts => t +:+ String ";" (line_of ts)
  end.

(** The commands one after the other, where -1 ends the line. *)
Fixpoint run_sections (ts : list string) : M (kern (shell B)) Z :=
  match ts with
  | [] => ret 0
  | [t] => interpreter' (pieces (unindented t))
  | t :: ts =>
      let! e := interpreter' (pieces (unindented t)) in
      if e =? -1 then ret e else run_sections ts
  end.

Definition rest_of (ts : list string) : option string := match ts with [] => None | _ => Some (line_of ts) end.
Lemma strtok_line t ts : section t -> strtok_from (line_of (t :: ts)) = (Some t, rest_of ts).
Proof. intros Ht. destruct ts; [by apply strtok_from_end|by apply strtok_from_cut]. Qed.

Lemma sections_loop ts : forall t f e k,
  Forall section (t :: ts) -> Forall (fun t => ordinary (pieces (unindented t))) (t :: ts) -> (length ts + 1 < f)%nat ->
  alike (while_ f token_step' (Some t, e) (at_rest (rest_of ts) k)) (run_sections (t :: ts) k).
Proof.
  induction ts as [|t2 ts IH]; intros t f e k [Ht Hts]%Forall_cons [Ho Hos]%Forall_cons Hf;
    destruct f as [|f]; [lia| |lia|]; rewrite token_turn by done.
  - cbn [run_sections]. rewrite <- (bind_ret_r (interpreter' _) k). apply alike_bind; [by apply blind_interpreter|].
    intros r k'. rewrite (bind_Ok_nil _ _ _ _ _ (strtok_null (at_rest (rest_of []) k') None None eq_refl)).
    destruct (r =? -1); [done|]. destruct f as [|f]; [simpl in Hf; lia|done].
  - change (run_sections (t :: t2 :: ts)) with
      (let! e := interpreter' (pieces (unindented t)) in if e =? -1 then ret e else run_sections (t2 :: ts)).
    apply alike_bind; [by apply blind_interpreter|]. intros r k'.
    assert (strtok None (at_rest (rest_of (t2 :: ts)) k') = Ok (Some t2) (at_rest (rest_of ts) k') []) as Hs.
    { apply Forall_cons in Hts as [Ht2 _]. exact (strtok_null (at_rest (rest_of (t2 :: ts)) k') _ _ (strtok_line t2 ts Ht2)). }
    rewrite (bind_Ok_nil _ _ _ _ _ Hs). destruct (r =? -1); [done|]. apply IH; [done|done|simpl in Hf; lia].
Qed.
Lemma sections_count ts : Forall section ts -> (length ts <= String.length (line_of ts) + 1)%nat.
Proof.
  induction 1 as [|t ts (Hne & _) _ IH]; [simpl; lia|]. destruct ts as [|t2 ts]; [simpl; lia|].
  change (line_of (t :: t2 :: ts)) with (t +:+ String ";" (line_of (t2 :: ts))).
  assert (strlen (t +:+ String ";" (line_of (t2 :: ts))) = strlen t + 1 + strlen (line_of (t2 :: ts))) as E
    by (rewrite strlen_app; unfold strlen; simpl; lia).
  assert (0 < strlen t) by (destruct t; [done|unfold strlen; simpl; lia]).
  unfold strlen in *. simpl length in *. lia.
Qed.
Lemma parse_line_sections ts f k :
  ts <> [] -> Forall section ts -> Forall (fun t => ordinary (pieces (unindented t))) ts -> (length ts < f)%nat ->
  alike (parse_line' f (line_of ts) k) (run_sections ts k).
Proof.
  intros Hne Hs Ho Hf. destruct ts as [|t ts]; [done|]. unfold parse_line. pose proof Hs as [Ht _]%Forall_cons.
  rewrite (bind_Ok_nil _ _ _ _ _ (strtok_Ok _ _ _ k (strtok_line t ts Ht))).
  apply sections_loop; [done|done|simpl in Hf; lia].
Qed.

(* ------------------------------------------------------------------ *)
(** ** Commands                                                        *)
(* ------------------------------------------------------------------ *)

(** A word of letters and digits. *)
Definition alnum_word (w : string) : Prop := isAlphaNumStr w = true.

Lemma free_of_impl f g w : (forall c, g c = true -> f c = true) -> free_of f w = true -> free_of g w = true.
Proof.
  intros H. induction w as [|c w IH]; [done|]. simpl. intros [Hc%negb_true_iff Hw]%andb_true_iff.
  rewrite (IH Hw), andb_true_r. apply negb_true_iff, not_true_iff_false. intros Hg. rewrite (H c Hg) in Hc. done.
Qed.
Lemma alnum_free g w :
  (forall c, g c = true -> isalnum c = false) -> alnum_word w -> w <> EmptyString /\ free_of g w = true.
Proof.
  intros H Hw. destruct w as [|c w]; [done|]. split; [done|]. eapply free_of_impl; [|exact Hw].
  intros d Hd. cbv beta. by rewrite H.
Qed.
Lemma alnum_no_crlf w : alnum_word w -> cut is_crlf w = w.
Proof. intros Hw. apply cut_id, (alnum_free is_crlf); [|done]. by intros [[][][][][][][][]]. Qed.
Lemma alnum_cut_lf w : alnum_word w -> cut is_crlf (w +:+ nl) = w.
Proof.
  intros Hw. assert (free_of is_crlf w = true) as Hf by (apply alnum_free; [|done]; by intros [[][][][][][][][]]).
  clear Hw. induction w as [|c w IH]; [done|]. simpl in *. apply andb_true_iff in Hf as [->%negb_true_iff Hf].
  by rewrite IH.
Qed.

Lemma a3_on_memory_Ok {A} (m : M slots A) k (Q : A -> slots -> Prop) :
  wp m Q (memory k) ->
  exists a t, on_memory m k
    = Ok a (mkKern t (heap k) (pcbs k) (pages k) (QUEUE k) (LRU_CACHE k) (ALL_PCB k) (PID_counter k) (files k)
              (fresh k) (outer k)) [] /\ Q a t.
Proof.
  intros (a & t & E & HQ)%wp_Ok. exists a, t. split; [|done]. unfold on_memory, zoom. by rewrite E.
Qed.

Lemma a3_interpreter_set ws x v k :
  map (cut is_crlf) ws = ["set"; x; v] ->
  A3Memory.sized fs vs (memory k) -> alnum_word x -> alnum_word v -> strlen x < 400 -> strlen v < 400 ->
  exists k', interpreter' ws k = Ok 0 k' [] /\ outer k' = outer k /\
    A3Memory.sized fs vs (memory k') /\ A3Memory.vars fs (memory k') = vset (A3Memory.vars fs (memory k)) x v.
Proof.
  intros Hw Hm Hx Hv Hx2 Hv2. dispatch Hw. rewrite bind_ret, Hx. cbn [negb]. cbv iota.
  assert (set_value_of ["set"; x; v] k = Ok (inl v) k []) as Hs.
  { unfold set_value_of, arg. change (zlen ["set"; x; v]) with 3. change (Z.to_nat (3 - 2)) with 1%nat.
    cbn [for_ret]. change (zget ["set"; x; v] 2) with (Some v). cbn [need]. rewrite bind_assoc, bind_ret, Hv.
    cbn [negb]. cbv iota. unfold into. change ("" +:+ v) with v. rewrite (proj2 (Z.ltb_lt (strlen v) 505)) by lia.
    done. }
  rewrite (bind_Ok_nil _ _ _ _ _ Hs). unfold set_, into. pose proof (strlen_nonneg x).
  do 3 (match goal with |- context [strlen ?e <? 1000] =>
    rewrite (proj2 (Z.ltb_lt (strlen e) 1000))
      by (rewrite ?strlen_app; change (strlen "=") with 1; lia) end; cbn [need]; rewrite bind_ret).
  assert (wp (A3Memory.mem_set_value fs vs x v) (fun _ m => A3Memory.sized fs vs m /\
    A3Memory.vars fs m = vset (A3Memory.vars fs (memory k)) x v) (memory k)) as Hset
    by by apply A3Memory.a3_mem_set_value_wp.
  apply a3_on_memory_Ok in Hset as ([] & m & E & H1 & H2). rewrite (bind_Ok_nil _ _ _ _ _ E).
  eexists. by split_and!.
Qed.

Lemma a3_interpreter_print ws x k :
  map (cut is_crlf) ws = ["print"; x] -> A3Memory.sized fs vs (memory k) ->
  interpreter' ws k
  = Ok 0 k [Print (default "Variable does not exist" (vget (A3Memory.vars fs (memory k)) x) +:+ nl)].
Proof.
  intros Hw Hm. dispatch Hw. rewrite bind_ret. unfold print_.
  match goal with |- context [Print (?v +:+ nl)] =>
    assert (wp (A3Memory.mem_get_value fs vs x "p") (fun r m => r = v /\ m = memory k) (memory k)) as Hg
  end.
  { apply A3Memory.a3_mem_get_value_wp; [done|]. by destruct (vget _ x). }
  apply a3_on_memory_Ok in Hg as (r & m & E & -> & ->). rewrite (bind_Ok_nil _ _ _ _ _ E). by destruct k.
Qed.
End line.
Lemma alnum_piece w : alnum_word w -> w <> EmptyString /\ free_of (fun c => Ascii.eqb c " ") w = true.
Proof. apply alnum_free. by intros [[][][][][][][][]]. Qed.
(** Texts made of letters, digits and literals have no character of another
    kind. *)
Ltac text_free :=
  unfold c_string; rewrite ?free_of_app; repeat (apply andb_true_intro; split);
  first [by vm_compute | apply alnum_free; [by intros [[][][][][][][][]]|done]].

(** The words of "w1 w2 ... wn". *)
Lemma pieces_words ws w :
  Forall (fun w => w <> EmptyString /\ free_of (fun c => Ascii.eqb c " ") w = true) (ws ++ [w]) ->
  pieces (unwords (ws ++ [w])) = (ws ++ [w])%list.
Proof.
  assert (forall v r, free_of (fun c => Ascii.eqb c " ") v = true -> pieces (v +:+ String " " r) = v :: pieces r) as Hcut.
  { intros v r. induction v as [|c v IH]; [done|]. simpl. intros [Hc%negb_true_iff Hv]%andb_true_iff.
    by rewrite Hc, (IH Hv). }
  assert (forall v, v <> EmptyString -> free_of (fun c => Ascii.eqb c " ") v = true -> pieces v = [v]) as Hone.
  { intros v Hne. induction v as [|c v IH]; [done|]. simpl. intros [Hc%negb_true_iff Hv]%andb_true_iff.
    rewrite Hc. destruct v as [|d v]; [done|]. by rewrite IH. }
  induction ws as [|v ws IH]; intros H.
  - apply Forall_singleton in H as [Hne Hf]. by apply Hone.
  - apply Forall_cons in H as [[Hne Hf] H].
    assert (unwords ((v :: ws) ++ [w]) = (v +:+ String " " (unwords (ws ++ [w])))) as -> by by destruct ws.
    rewrite (Hcut v _ Hf). simpl. by rewrite IH.
Qed.

Section theorems.
Variables fs vs : Z.
Variable system : string -> gmap string string -> Z * gmap string string.
Variable getcwd : gmap string string -> string.
Variable host_read : gmap string string -> string -> option (list Z).
Variable host_write : string -> list Z -> gmap string string -> option (gmap string string).
Variable junk : list Z.
Variable lines : nat.
Variable cwd : string.
Abbreviation parseInput' := (parseInput fs vs system getcwd host_read host_write junk lines cwd).
Abbreviation interpreter' := (interpreter fs vs system getcwd host_read host_write junk lines).
Abbreviation parse_line' := (parse_line fs vs system getcwd host_read host_write junk lines).
Abbreviation run_sections' := (run_sections fs vs system getcwd host_read host_write junk lines).

(** C16: the words of a token, as the loops of parseInput find them, are its
    pieces between single spaces after the leading ones: two spaces in a
    row give an empty word, and a space at the end none. The token has
    fewer than 1000 characters, and at most 100 words. *)
Theorem a3_token_words token k :
  c_string token -> strlen token < 1000 -> zlen (pieces (unindented token)) <= 100 ->
  token_words token k = Ok (pieces (unindented token)) k [].
Proof. apply token_words_Ok. Qed.

(** ParseInput uses strtok up: when it returns, other than with the -1
    of quit, the next strtok(NULL) gives no token, for whoever calls it. *)
Theorem a3_line_uses_up_strtok parse turns ui k e k' tr :
  parse_line' parse cwd turns ui k = Ok e k' tr -> e <> -1 -> strtok_rest (outer k') = None.
Proof.
  unfold parse_line. intros (tokens & k1 & ? & ? & E & H)%bind_inv He. eapply token_loop; [|done|done].
  intros ->. by eapply strtok_None.
Qed.

(** C17: parseInput executes a line "t1;t2;...;tn" as the commands t1, ...,
    tn one after the other, each with the words that are the pieces of its
    own section of the line, and stops at the first that returns -1; its
    result is that of the last one executed. It does exactly what they do,
    in every state, whether they return, end the shell or are undefined,
    but for where strtok is left; and when it returns anything but -1,
    strtok is used up. The commands are any but run and exec, which parse
    lines of their own and lose the rest of this one; each section is
    nonempty, of less than 1000 characters and at most 100 words, and
    there is one semicolon between two. *)
Theorem a3_command_sequence f ts k :
  ts <> [] -> Forall section ts -> Forall (fun t => ordinary (pieces (unindented t))) ts ->
  alike (parseInput' (S f) (line_of ts) k) (run_sections' (parseInput' f) cwd ts k) /\
  forall e k' tr, parseInput' (S f) (line_of ts) k = Ok e k' tr -> e <> -1 -> strtok_rest (outer k') = None.
Proof.
  intros Hne Hs Ho. cbn [parseInput]. split.
  - apply parse_line_sections; [done..|]. pose proof (sections_count ts Hs). lia.
  - intros e k' tr. apply a3_line_uses_up_strtok.
Qed.

(** So a command that runs a script loses the rest of its line: when
    the first command of "t;rest" leaves strtok used up, parseInput returns
    its result and the rest is never executed. *)
Theorem a3_rest_of_line_lost parse turns t rest k e k' tr :
  section t ->
  interpreter' parse cwd (pieces (unindented t)) (at_rest (Some rest) k) = Ok e k' tr ->
  strtok_rest (outer k') = None ->
  parse_line' parse cwd (S (S turns)) (t +:+ String ";" rest) k = Ok e k' tr.
Proof.
  intros Ht Hi Hr. rewrite parse_line_cut by done. unfold bind at 1. rewrite Hi.
  assert (strtok None k' = Ok None k' []) as Hs.
  { erewrite strtok_null by (by rewrite Hr).
    assert (at_rest None k' = k') as -> by (rewrite <- Hr; apply at_rest_id). done. }
  rewrite (bind_Ok_nil _ _ _ _ _ Hs). destruct (e =? -1); simpl; by rewrite app_nil_r.
Qed.

(** C15: "set x v; print x" on one line prints v, for words of letters and
    digits, each of fewer than 400 characters, whenever the variable store
    has a slot for x. *)
Theorem a3_set_then_print f x v k :
  A3Memory.sized fs vs (memory k) -> has_room (A3Memory.vars fs (memory k)) x ->
  alnum_word x -> alnum_word v -> strlen x < 400 -> strlen v < 400 ->
  exists k', parseInput' (S f) (unwords ["set"; x; v] +:+ String ";" (" " +:+ (unwords ["print"; x +:+ nl]))) k
      = Ok 0 k' [Print (v +:+ nl)] /\
    A3Memory.sized fs vs (memory k') /\
    A3Memory.vars fs (memory k') = vset (A3Memory.vars fs (memory k)) x v.
Proof.
  intros Hm Hr Hx Hv Hx2 Hv2. cbn [parseInput].
  set (t1 := unwords ["set"; x; v]). set (t2 := (" " +:+ unwords ["print"; x +:+ nl])).
  assert (section t1 /\ pieces (unindented t1) = ["set"; x; v]) as [Ht1 Hp1].
  { assert (pieces (unindented t1) = ["set"; x; v]) as Hp.
    { apply (pieces_words ["set"; x] v). repeat apply Forall_cons_2; [by split|by apply alnum_piece..|apply Forall_nil_2]. }
    split; [|done]. assert (t1 = "set " +:+ (x +:+ (" " +:+ v))) as -> by done.
    split; [done|split; [text_free|split; [text_free|rewrite Hp; split; [|simpl; lia]]]].
    rewrite !strlen_app. unfold strlen in *. simpl. lia. }
  assert (section t2 /\ pieces (unindented t2) = ["print"; x +:+ nl]) as [Ht2 Hp2].
  { assert (pieces (unindented t2) = ["print"; x +:+ nl]) as Hp.
    { apply (pieces_words ["print"] (x +:+ nl)). repeat apply Forall_cons_2; [by split| |apply Forall_nil_2].
      split; [by destruct x|]. text_free. }
    split; [|done]. assert (t2 = " print " +:+ (x +:+ nl)) as -> by done.
    split; [done|split; [text_free|split; [text_free|rewrite Hp; split; [|simpl; lia]]]].
    rewrite !strlen_app. unfold strlen in *. simpl. lia. }
  assert (exists n, (lines + String.length (t1 +:+ String ";" t2))%nat = S n) as [n ->].
  { eexists. change (t1 +:+ String ";" t2) with (String "s" ("et " +:+ (x +:+ (" " +:+ v)) +:+ String ";" t2)).
    cbn [String.length]. by rewrite Nat.add_succ_r. }
  rewrite parse_line_cut by done. rewrite Hp1.
  destruct (a3_interpreter_set fs vs system getcwd host_read host_write junk lines (parseInput' f) cwd
    ["set"; x; v] x v (at_rest (Some t2) k)) as (k1 & E1 & Eo & Hm1 & Hv1); [|done..|].
  { simpl. by rewrite !alnum_no_crlf. }
  rewrite (bind_Ok_nil _ _ _ _ _ E1).
  assert (strtok None k1 = Ok (Some t2) (at_rest None k1) []) as Hs.
  { apply strtok_null. rewrite Eo. by apply strtok_from_end. }
  rewrite (bind_Ok_nil _ _ _ _ _ Hs). change (0 =? -1) with false. cbv iota. rewrite token_turn, Hp2 by done.
  rewrite (bind_Ok _ _ _ _ _ _ (a3_interpreter_print fs vs system getcwd host_read host_write junk lines (parseInput' f) cwd
    ["print"; x +:+ nl] x (at_rest None k1) ltac:(simpl; by rewrite alnum_cut_lf) Hm1)).
  assert (strtok None (at_rest None k1) = Ok None (at_rest None k1) []) as Hs2
    by exact (strtok_null (at_rest None k1) None None eq_refl).
  rewrite (bind_Ok_nil _ _ _ _ _ Hs2). simpl. rewrite Hv1, vget_vset by done.
  eexists. split_and!; [done|done|done].
Qed.
Lemma strlen_iter_a n s : strlen (Nat.iter n (fun s => snoc s "a") s) = strlen s + Z.of_nat n.
Proof.
  induction n as [|n IH]; [simpl; lia|].
  change (strlen (snoc (Nat.iter n (fun s => snoc s "a") s) "a") = strlen s + Z.of_nat (S n)).
  rewrite strlen_snoc, IH. lia.
Qed.

(** Every script that is run makes the name of the next copy longer:
    once new_name_count has reached 78 less twice the length of the name,
    run writes past the end of its array of 100 characters for the cp
    command. *)
Theorem a3_run_overflows parse name k :
  cut is_crlf name = name -> 78 <= 2 * strlen name + new_name_count (outer k) -> 0 <= new_name_count (outer k) ->
  interpreter' parse cwd ["run"; name] k = Stuck.
Proof.
  intros Hn Hlen Hc. assert (map (cut is_crlf) ["run"; name] = ["run"; name]) as Hw by (simpl; by rewrite Hn).
  dispatch Hw. rewrite bind_ret. apply bind_Stuck. unfold copy_script, into.
  destruct (strlen name <? 100) eqn:E1; [|done]. cbn [need]. rewrite bind_ret.
  destruct (strlen ("cp ./" +:+ name +:+ " ") <? 100) eqn:E2; [|done]. cbn [need]. rewrite bind_ret.
  unfold bind at 1, get at 1. cbn [prefix]. set (old := Nat.iter _ _ _).
  destruct (strlen old <? 100) eqn:E3; [|done]. cbn [need]. rewrite bind_ret.
  destruct (strlen ("./backing_store/" +:+ old) <? 100) eqn:E4; [|done]. cbn [need]. rewrite bind_ret.
  rewrite (proj2 (Z.ltb_ge _ 100)); [done|].
  rewrite !strlen_app. unfold old. rewrite strlen_iter_a. change (strlen "cp ./") with 5.
  change (strlen " ") with 1. change (strlen "./backing_store/") with 16. lia.
Qed.
End theorems.
End parser.

(* ------------------------------------------------------------------ *)
(** ** Witnesses                                                       *)
(* ------------------------------------------------------------------ *)

(** A shell after its start, with a script of two lines that the host has
    copied; no file system. *)
Definition no_disk : FsState.fs cache :=
  FsState.mkFs cache (mkCache [] 0 (Block.mkBlock "hda" 0 0 0 [])) (Bitmap.mkBitmap 0 []) None [] ∅ ∅ ∅ None [] 1.
Definition quiet (s : string) (h : gmap string string) : Z * gmap string string := (0, h).
Definition before_setup (count : Z) : kern (shell cache) :=
  mkKern (replicate 22 ("none", "none")) (LinkedList.mkHeap ∅ ∅ 1) ∅ ∅ 1 1 1 1
    {["./backing_store/aa" := "echo hi" +:+ nl +:+ "set x 4; print x"]} 100 (mkShell no_disk ∅ None count None).
Definition booted : kern (shell cache) :=
  match kernel_setup (before_setup 1) with Ok _ k _ => k | _ => before_setup 1 end.
Abbreviation on_demo f :=
  (f 18 4 quiet (fun _ => "/home") (fun _ _ => None) (fun _ _ _ => None) [] 100%nat).

Lemma a3_token_words_witness :
  token_words " echo  a b " booted = Ok ["echo"; ""; "a"; "b"] booted [].
Proof. by apply (a3_token_words " echo  a b " booted). Defined.

Lemma a3_line_uses_up_strtok_witness :
  exists k' tr, on_demo parse_line (on_demo parseInput "/home" 1%nat) "/home" 3%nat "echo a; echo b" booted = Ok 0 k' tr /\
    strtok_rest (outer k') = None.
Proof.
  do 2 eexists. split; [by vm_compute|].
  eapply (a3_line_uses_up_strtok 18 4 quiet (fun _ => "/home") (fun _ _ => None) (fun _ _ _ => None) [] 100 "/home"
    (on_demo parseInput "/home" 1%nat) 3 "echo a; echo b" booted 0); [by vm_compute|done].
Defined.

Lemma a3_command_sequence_witness :
  alike (on_demo parseInput "/home" 2%nat "set x 5;echo a; print x" booted)
    (on_demo run_sections (on_demo parseInput "/home" 1%nat) "/home" ["set x 5"; "echo a"; " print x"] booted) /\
  exists k', on_demo run_sections (on_demo parseInput "/home" 1%nat) "/home" ["set x 5"; "echo a"; " print x"] booted
    = Ok 0 k' [Print ("a" +:+ nl); Print ("5" +:+ nl)].
Proof.
  split; [|eexists; by vm_compute].
  apply (a3_command_sequence 18 4 quiet (fun _ => "/home") (fun _ _ => None) (fun _ _ _ => None) [] 100 "/home"
    1 ["set x 5"; "echo a"; " print x"] booted); [done|..].
  - repeat apply Forall_cons_2; [..|apply Forall_nil_2]; by repeat split; vm_compute.
  - repeat apply Forall_cons_2; [..|apply Forall_nil_2]; vm_compute; intros w [= <-]; by split.
Defined.

(** The script runs, the echo after it does not. *)
Lemma a3_rest_of_line_lost_witness :
  exists k', on_demo parse_line (on_demo parseInput "/home" 1%nat) "/home" 3%nat
      ("run a" +:+ String ";" (" echo lost" +:+ nl)) booted
    = Ok 0 k' [Print ("hi" +:+ nl); Print ("4" +:+ nl)].
Proof.
  eexists. eapply (a3_rest_of_line_lost 18 4 quiet (fun _ => "/home") (fun _ _ => None) (fun _ _ _ => None) [] 100 "/home"
    (on_demo parseInput "/home" 1%nat) 1 "run a" (" echo lost" +:+ nl) booted); [|by vm_compute|by vm_compute].
  by repeat split; vm_compute.
Defined.

Lemma a3_set_then_print_witness :
  exists k', on_demo parseInput "/home" 2%nat (unwords ["set"; "x"; "5"] +:+ String ";" (" " +:+ unwords ["print"; "x" +:+ nl])) booted
      = Ok 0 k' [Print ("5" +:+ nl)] /\
    A3Memory.sized 18 4 (memory k') /\
    A3Memory.vars 18 (memory k') = [("x", "5"); ("none", "none"); ("none", "none"); ("none", "none")].
Proof.
  apply (a3_set_then_print 18 4 quiet (fun _ => "/home") (fun _ _ => None) (fun _ _ _ => None) [] 100 "/home"
    1 "x" "5" booted); [by split; vm_compute| |done..]. right. by eexists.
Defined.

Lemma a3_run_overflows_witness :
  on_demo interpreter (on_demo parseInput "/home" 1%nat) "/home" ["run"; "prog"] (before_setup 70) = Stuck.
Proof.
  by apply (a3_run_overflows 18 4 quiet (fun _ => "/home") (fun _ _ => None) (fun _ _ _ => None) [] 100 "/home"
    (on_demo parseInput "/home" 1%nat) "prog" (before_setup 70)).
Defined.
End A3ShellProps.
